(** * Capture-file session logic of file.c: a shallow embedding

    The development follows file.c function by function.  Machine integers
    are integers of [Z] with their wrap-around written out, the frame
    store is a list whose slots are counted from 1, pointers to frames are
    the numbers of the slots they point to, and the collaborators that file.c
    only calls (record provider, dissector, filter compiler, presentation
    layer, file system) are explicit inputs of the functions that use
    them. *)

From Stdlib Require Import ZArith Lia Bool.
From stdpp Require Import base option list gmap strings.

Open Scope Z_scope.

(* ===================================================================== *)
(** * Machine integers *)
(* ===================================================================== *)

Definition G_MAXUINT32 : Z := 4294967295.

(** Arithmetic on a [guint32] is arithmetic modulo 2^32. *)
Definition wrap32 (x : Z) : Z := x mod 4294967296.

(** Arithmetic on an unsigned integer of [bits] bits. *)
Definition wrap_bits (bits x : Z) : Z := x mod 2 ^ bits.

(* ===================================================================== *)
(** * Data model *)
(* ===================================================================== *)

Inductive file_state :=
  FILE_CLOSED | FILE_READ_IN_PROGRESS | FILE_READ_ABORTED | FILE_READ_DONE.

Inductive rescan_type := RESCAN_NONE | RESCAN_SCAN | RESCAN_REDISSECT.

Inductive match_result := MR_NOTMATCHED | MR_MATCHED | MR_ERROR.

Inductive search_direction := SD_FORWARD | SD_BACKWARD.

Inductive cf_status_t := CF_OK | CF_ERROR.

Inductive cf_read_status_t := CF_READ_OK | CF_READ_ERROR | CF_READ_ABORTED.

Inductive cf_write_status_t := CF_WRITE_OK | CF_WRITE_ERROR | CF_WRITE_ABORTED.

Inductive psp_return_t := PSP_FINISHED | PSP_STOPPED | PSP_FAILED.

Inductive range_process_e :=
  range_process_this | range_process_next | range_processing_finished.

Definition rescan_type_eqb (a b : rescan_type) : bool :=
  match a, b with
  | RESCAN_NONE, RESCAN_NONE => true
  | RESCAN_SCAN, RESCAN_SCAN => true
  | RESCAN_REDISSECT, RESCAN_REDISSECT => true
  | _, _ => false
  end.

Definition file_state_eqb (a b : file_state) : bool :=
  match a, b with
  | FILE_CLOSED, FILE_CLOSED => true
  | FILE_READ_IN_PROGRESS, FILE_READ_IN_PROGRESS => true
  | FILE_READ_ABORTED, FILE_READ_ABORTED => true
  | FILE_READ_DONE, FILE_READ_DONE => true
  | _, _ => false
  end.

(** A metadata block of a record: the comments it carries. *)
Definition wtap_block_t := list string.

(** One record as the record provider hands it over. *)
Record wtap_rec := {
  rec_is_packet : bool;          (* rec_type == REC_TYPE_PACKET *)
  pkt_encap : Z;
  rec_caplen : Z;
  rec_len : Z;
  rec_block : option wtap_block_t;
  rec_data : list Z              (* the payload bytes, each in 0..255 *)
}.

(** Per-frame metadata ([frame_data]); the fields kept are those that
    file.c itself reads.  The flag [dependent_of_displayed] is left out
    with the two places that write it: [rescan_packets] clears it and
    [find_and_mark_frame_depended_upon], which is not part of file.c, sets
    it for the frames a displayed frame depends on; file.c never reads
    it. *)
Record frame_data := {
  num : Z;
  file_off : Z;
  cap_len : Z;
  pkt_len : Z;
  passed_dfilter : bool;
  ref_time : bool;
  marked : bool;
  visited : bool;
  has_modified_block : bool
}.

(** A compiled filter is the predicate it evaluates on a dissected record;
    the dissection of a record is determined by the frame and the record. *)
Definition dfilter_t := frame_data -> wtap_rec -> bool.

Definition dfilter_apply_edt (dfcode : dfilter_t) (fdata : frame_data)
    (rec : wtap_rec) : bool := dfcode fdata rec.

(** The capture-file session ([capture_file]).  A pointer to a frame of the
    store ([current_frame], [prev_dis], [prev_cap]) is the number of the
    slot of the store it points to, counted from 1; [None] is the null
    pointer. *)
Record capture_file := {
  state : file_state;
  filename : option string;
  is_tempfile : bool;
  unsaved_changes : bool;
  cd_t : Z;
  compression_type : Z;
  count : Z;
  packet_comment_count : Z;
  displayed_count : Z;
  f_datalen : Z;
  linktypes : list Z;
  frames : list frame_data;
  frames_modified_blocks : list (Z * wtap_block_t);
  prev_dis : option Z;
  prev_cap : option Z;
  first_displayed : Z;
  last_displayed : Z;
  current_frame : option Z;
  rfcode : option dfilter_t;
  dfilter : option string;
  read_lock : bool;
  stop_flag : bool;
  redissecting : bool;
  redissection_queued : rescan_type;
  case_type : bool;
  search_pos : Z;
  search_len : Z
}.

(** The record provider handle ([wtap]): the records the sequential side
    still has to deliver with their offsets, the error the sequential read
    ends with (0 at a clean end of file), the reported file size (negative
    when the query fails), the compression type and the random-access
    side. *)
Record wtap := {
  wth_records : list (wtap_rec * Z);
  wth_err : Z;
  wth_file_size : Z;
  wth_compression : Z;
  wth_seek_read : Z -> option wtap_rec
}.

(** ** Field updates *)

Definition set_state (v : file_state) (cf : capture_file) : capture_file :=
  {| state := v; filename := filename cf; is_tempfile := is_tempfile cf;
     unsaved_changes := unsaved_changes cf; cd_t := cd_t cf;
     compression_type := compression_type cf; count := count cf;
     packet_comment_count := packet_comment_count cf;
     displayed_count := displayed_count cf; f_datalen := f_datalen cf;
     linktypes := linktypes cf; frames := frames cf;
     frames_modified_blocks := frames_modified_blocks cf;
     prev_dis := prev_dis cf; prev_cap := prev_cap cf;
     first_displayed := first_displayed cf; last_displayed := last_displayed cf;
     current_frame := current_frame cf; rfcode := rfcode cf; dfilter := dfilter cf;
     read_lock := read_lock cf; stop_flag := stop_flag cf;
     redissecting := redissecting cf;
     redissection_queued := redissection_queued cf; case_type := case_type cf;
     search_pos := search_pos cf; search_len := search_len cf |}.

Definition set_filename (v : option string) (cf : capture_file) : capture_file :=
  {| state := state cf; filename := v; is_tempfile := is_tempfile cf;
     unsaved_changes := unsaved_changes cf; cd_t := cd_t cf;
     compression_type := compression_type cf; count := count cf;
     packet_comment_count := packet_comment_count cf;
     displayed_count := displayed_count cf; f_datalen := f_datalen cf;
     linktypes := linktypes cf; frames := frames cf;
     frames_modified_blocks := frames_modified_blocks cf;
     prev_dis := prev_dis cf; prev_cap := prev_cap cf;
     first_displayed := first_displayed cf; last_displayed := last_displayed cf;
     current_frame := current_frame cf; rfcode := rfcode cf; dfilter := dfilter cf;
     read_lock := read_lock cf; stop_flag := stop_flag cf;
     redissecting := redissecting cf;
     redissection_queued := redissection_queued cf; case_type := case_type cf;
     search_pos := search_pos cf; search_len := search_len cf |}.

Definition set_is_tempfile (v : bool) (cf : capture_file) : capture_file :=
  {| state := state cf; filename := filename cf; is_tempfile := v;
     unsaved_changes := unsaved_changes cf; cd_t := cd_t cf;
     compression_type := compression_type cf; count := count cf;
     packet_comment_count := packet_comment_count cf;
     displayed_count := displayed_count cf; f_datalen := f_datalen cf;
     linktypes := linktypes cf; frames := frames cf;
     frames_modified_blocks := frames_modified_blocks cf;
     prev_dis := prev_dis cf; prev_cap := prev_cap cf;
     first_displayed := first_displayed cf; last_displayed := last_displayed cf;
     current_frame := current_frame cf; rfcode := rfcode cf; dfilter := dfilter cf;
     read_lock := read_lock cf; stop_flag := stop_flag cf;
     redissecting := redissecting cf;
     redissection_queued := redissection_queued cf; case_type := case_type cf;
     search_pos := search_pos cf; search_len := search_len cf |}.

Definition set_unsaved_changes (v : bool) (cf : capture_file) : capture_file :=
  {| state := state cf; filename := filename cf; is_tempfile := is_tempfile cf;
     unsaved_changes := v; cd_t := cd_t cf;
     compression_type := compression_type cf; count := count cf;
     packet_comment_count := packet_comment_count cf;
     displayed_count := displayed_count cf; f_datalen := f_datalen cf;
     linktypes := linktypes cf; frames := frames cf;
     frames_modified_blocks := frames_modified_blocks cf;
     prev_dis := prev_dis cf; prev_cap := prev_cap cf;
     first_displayed := first_displayed cf; last_displayed := last_displayed cf;
     current_frame := current_frame cf; rfcode := rfcode cf; dfilter := dfilter cf;
     read_lock := read_lock cf; stop_flag := stop_flag cf;
     redissecting := redissecting cf;
     redissection_queued := redissection_queued cf; case_type := case_type cf;
     search_pos := search_pos cf; search_len := search_len cf |}.

Definition set_compression_type (v : Z) (cf : capture_file) : capture_file :=
  {| state := state cf; filename := filename cf; is_tempfile := is_tempfile cf;
     unsaved_changes := unsaved_changes cf; cd_t := cd_t cf;
     compression_type := v; count := count cf;
     packet_comment_count := packet_comment_count cf;
     displayed_count := displayed_count cf; f_datalen := f_datalen cf;
     linktypes := linktypes cf; frames := frames cf;
     frames_modified_blocks := frames_modified_blocks cf;
     prev_dis := prev_dis cf; prev_cap := prev_cap cf;
     first_displayed := first_displayed cf; last_displayed := last_displayed cf;
     current_frame := current_frame cf; rfcode := rfcode cf; dfilter := dfilter cf;
     read_lock := read_lock cf; stop_flag := stop_flag cf;
     redissecting := redissecting cf;
     redissection_queued := redissection_queued cf; case_type := case_type cf;
     search_pos := search_pos cf; search_len := search_len cf |}.

Definition set_count (v : Z) (cf : capture_file) : capture_file :=
  {| state := state cf; filename := filename cf; is_tempfile := is_tempfile cf;
     unsaved_changes := unsaved_changes cf; cd_t := cd_t cf;
     compression_type := compression_type cf; count := v;
     packet_comment_count := packet_comment_count cf;
     displayed_count := displayed_count cf; f_datalen := f_datalen cf;
     linktypes := linktypes cf; frames := frames cf;
     frames_modified_blocks := frames_modified_blocks cf;
     prev_dis := prev_dis cf; prev_cap := prev_cap cf;
     first_displayed := first_displayed cf; last_displayed := last_displayed cf;
     current_frame := current_frame cf; rfcode := rfcode cf; dfilter := dfilter cf;
     read_lock := read_lock cf; stop_flag := stop_flag cf;
     redissecting := redissecting cf;
     redissection_queued := redissection_queued cf; case_type := case_type cf;
     search_pos := search_pos cf; search_len := search_len cf |}.

Definition set_packet_comment_count (v : Z) (cf : capture_file) : capture_file :=
  {| state := state cf; filename := filename cf; is_tempfile := is_tempfile cf;
     unsaved_changes := unsaved_changes cf; cd_t := cd_t cf;
     compression_type := compression_type cf; count := count cf;
     packet_comment_count := v;
     displayed_count := displayed_count cf; f_datalen := f_datalen cf;
     linktypes := linktypes cf; frames := frames cf;
     frames_modified_blocks := frames_modified_blocks cf;
     prev_dis := prev_dis cf; prev_cap := prev_cap cf;
     first_displayed := first_displayed cf; last_displayed := last_displayed cf;
     current_frame := current_frame cf; rfcode := rfcode cf; dfilter := dfilter cf;
     read_lock := read_lock cf; stop_flag := stop_flag cf;
     redissecting := redissecting cf;
     redissection_queued := redissection_queued cf; case_type := case_type cf;
     search_pos := search_pos cf; search_len := search_len cf |}.

Definition set_displayed_count (v : Z) (cf : capture_file) : capture_file :=
  {| state := state cf; filename := filename cf; is_tempfile := is_tempfile cf;
     unsaved_changes := unsaved_changes cf; cd_t := cd_t cf;
     compression_type := compression_type cf; count := count cf;
     packet_comment_count := packet_comment_count cf;
     displayed_count := v; f_datalen := f_datalen cf;
     linktypes := linktypes cf; frames := frames cf;
     frames_modified_blocks := frames_modified_blocks cf;
     prev_dis := prev_dis cf; prev_cap := prev_cap cf;
     first_displayed := first_displayed cf; last_displayed := last_displayed cf;
     current_frame := current_frame cf; rfcode := rfcode cf; dfilter := dfilter cf;
     read_lock := read_lock cf; stop_flag := stop_flag cf;
     redissecting := redissecting cf;
     redissection_queued := redissection_queued cf; case_type := case_type cf;
     search_pos := search_pos cf; search_len := search_len cf |}.

Definition set_f_datalen (v : Z) (cf : capture_file) : capture_file :=
  {| state := state cf; filename := filename cf; is_tempfile := is_tempfile cf;
     unsaved_changes := unsaved_changes cf; cd_t := cd_t cf;
     compression_type := compression_type cf; count := count cf;
     packet_comment_count := packet_comment_count cf;
     displayed_count := displayed_count cf; f_datalen := v;
     linktypes := linktypes cf; frames := frames cf;
     frames_modified_blocks := frames_modified_blocks cf;
     prev_dis := prev_dis cf; prev_cap := prev_cap cf;
     first_displayed := first_displayed cf; last_displayed := last_displayed cf;
     current_frame := current_frame cf; rfcode := rfcode cf; dfilter := dfilter cf;
     read_lock := read_lock cf; stop_flag := stop_flag cf;
     redissecting := redissecting cf;
     redissection_queued := redissection_queued cf; case_type := case_type cf;
     search_pos := search_pos cf; search_len := search_len cf |}.

Definition set_linktypes (v : list Z) (cf : capture_file) : capture_file :=
  {| state := state cf; filename := filename cf; is_tempfile := is_tempfile cf;
     unsaved_changes := unsaved_changes cf; cd_t := cd_t cf;
     compression_type := compression_type cf; count := count cf;
     packet_comment_count := packet_comment_count cf;
     displayed_count := displayed_count cf; f_datalen := f_datalen cf;
     linktypes := v; frames := frames cf;
     frames_modified_blocks := frames_modified_blocks cf;
     prev_dis := prev_dis cf; prev_cap := prev_cap cf;
     first_displayed := first_displayed cf; last_displayed := last_displayed cf;
     current_frame := current_frame cf; rfcode := rfcode cf; dfilter := dfilter cf;
     read_lock := read_lock cf; stop_flag := stop_flag cf;
     redissecting := redissecting cf;
     redissection_queued := redissection_queued cf; case_type := case_type cf;
     search_pos := search_pos cf; search_len := search_len cf |}.

Definition set_frames (v : list frame_data) (cf : capture_file) : capture_file :=
  {| state := state cf; filename := filename cf; is_tempfile := is_tempfile cf;
     unsaved_changes := unsaved_changes cf; cd_t := cd_t cf;
     compression_type := compression_type cf; count := count cf;
     packet_comment_count := packet_comment_count cf;
     displayed_count := displayed_count cf; f_datalen := f_datalen cf;
     linktypes := linktypes cf; frames := v;
     frames_modified_blocks := frames_modified_blocks cf;
     prev_dis := prev_dis cf; prev_cap := prev_cap cf;
     first_displayed := first_displayed cf; last_displayed := last_displayed cf;
     current_frame := current_frame cf; rfcode := rfcode cf; dfilter := dfilter cf;
     read_lock := read_lock cf; stop_flag := stop_flag cf;
     redissecting := redissecting cf;
     redissection_queued := redissection_queued cf; case_type := case_type cf;
     search_pos := search_pos cf; search_len := search_len cf |}.

Definition set_frames_modified_blocks (v : list (Z * wtap_block_t))
    (cf : capture_file) : capture_file :=
  {| state := state cf; filename := filename cf; is_tempfile := is_tempfile cf;
     unsaved_changes := unsaved_changes cf; cd_t := cd_t cf;
     compression_type := compression_type cf; count := count cf;
     packet_comment_count := packet_comment_count cf;
     displayed_count := displayed_count cf; f_datalen := f_datalen cf;
     linktypes := linktypes cf; frames := frames cf;
     frames_modified_blocks := v;
     prev_dis := prev_dis cf; prev_cap := prev_cap cf;
     first_displayed := first_displayed cf; last_displayed := last_displayed cf;
     current_frame := current_frame cf; rfcode := rfcode cf; dfilter := dfilter cf;
     read_lock := read_lock cf; stop_flag := stop_flag cf;
     redissecting := redissecting cf;
     redissection_queued := redissection_queued cf; case_type := case_type cf;
     search_pos := search_pos cf; search_len := search_len cf |}.

Definition set_prev_dis (v : option Z) (cf : capture_file) : capture_file :=
  {| state := state cf; filename := filename cf; is_tempfile := is_tempfile cf;
     unsaved_changes := unsaved_changes cf; cd_t := cd_t cf;
     compression_type := compression_type cf; count := count cf;
     packet_comment_count := packet_comment_count cf;
     displayed_count := displayed_count cf; f_datalen := f_datalen cf;
     linktypes := linktypes cf; frames := frames cf;
     frames_modified_blocks := frames_modified_blocks cf;
     prev_dis := v; prev_cap := prev_cap cf;
     first_displayed := first_displayed cf; last_displayed := last_displayed cf;
     current_frame := current_frame cf; rfcode := rfcode cf; dfilter := dfilter cf;
     read_lock := read_lock cf; stop_flag := stop_flag cf;
     redissecting := redissecting cf;
     redissection_queued := redissection_queued cf; case_type := case_type cf;
     search_pos := search_pos cf; search_len := search_len cf |}.

Definition set_prev_cap (v : option Z) (cf : capture_file) : capture_file :=
  {| state := state cf; filename := filename cf; is_tempfile := is_tempfile cf;
     unsaved_changes := unsaved_changes cf; cd_t := cd_t cf;
     compression_type := compression_type cf; count := count cf;
     packet_comment_count := packet_comment_count cf;
     displayed_count := displayed_count cf; f_datalen := f_datalen cf;
     linktypes := linktypes cf; frames := frames cf;
     frames_modified_blocks := frames_modified_blocks cf;
     prev_dis := prev_dis cf; prev_cap := v;
     first_displayed := first_displayed cf; last_displayed := last_displayed cf;
     current_frame := current_frame cf; rfcode := rfcode cf; dfilter := dfilter cf;
     read_lock := read_lock cf; stop_flag := stop_flag cf;
     redissecting := redissecting cf;
     redissection_queued := redissection_queued cf; case_type := case_type cf;
     search_pos := search_pos cf; search_len := search_len cf |}.

Definition set_first_displayed (v : Z) (cf : capture_file) : capture_file :=
  {| state := state cf; filename := filename cf; is_tempfile := is_tempfile cf;
     unsaved_changes := unsaved_changes cf; cd_t := cd_t cf;
     compression_type := compression_type cf; count := count cf;
     packet_comment_count := packet_comment_count cf;
     displayed_count := displayed_count cf; f_datalen := f_datalen cf;
     linktypes := linktypes cf; frames := frames cf;
     frames_modified_blocks := frames_modified_blocks cf;
     prev_dis := prev_dis cf; prev_cap := prev_cap cf;
     first_displayed := v; last_displayed := last_displayed cf;
     current_frame := current_frame cf; rfcode := rfcode cf; dfilter := dfilter cf;
     read_lock := read_lock cf; stop_flag := stop_flag cf;
     redissecting := redissecting cf;
     redissection_queued := redissection_queued cf; case_type := case_type cf;
     search_pos := search_pos cf; search_len := search_len cf |}.

Definition set_last_displayed (v : Z) (cf : capture_file) : capture_file :=
  {| state := state cf; filename := filename cf; is_tempfile := is_tempfile cf;
     unsaved_changes := unsaved_changes cf; cd_t := cd_t cf;
     compression_type := compression_type cf; count := count cf;
     packet_comment_count := packet_comment_count cf;
     displayed_count := displayed_count cf; f_datalen := f_datalen cf;
     linktypes := linktypes cf; frames := frames cf;
     frames_modified_blocks := frames_modified_blocks cf;
     prev_dis := prev_dis cf; prev_cap := prev_cap cf;
     first_displayed := first_displayed cf; last_displayed := v;
     current_frame := current_frame cf; rfcode := rfcode cf; dfilter := dfilter cf;
     read_lock := read_lock cf; stop_flag := stop_flag cf;
     redissecting := redissecting cf;
     redissection_queued := redissection_queued cf; case_type := case_type cf;
     search_pos := search_pos cf; search_len := search_len cf |}.

Definition set_current_frame (v : option Z) (cf : capture_file) : capture_file :=
  {| state := state cf; filename := filename cf; is_tempfile := is_tempfile cf;
     unsaved_changes := unsaved_changes cf; cd_t := cd_t cf;
     compression_type := compression_type cf; count := count cf;
     packet_comment_count := packet_comment_count cf;
     displayed_count := displayed_count cf; f_datalen := f_datalen cf;
     linktypes := linktypes cf; frames := frames cf;
     frames_modified_blocks := frames_modified_blocks cf;
     prev_dis := prev_dis cf; prev_cap := prev_cap cf;
     first_displayed := first_displayed cf; last_displayed := last_displayed cf;
     current_frame := v; rfcode := rfcode cf; dfilter := dfilter cf;
     read_lock := read_lock cf; stop_flag := stop_flag cf;
     redissecting := redissecting cf;
     redissection_queued := redissection_queued cf; case_type := case_type cf;
     search_pos := search_pos cf; search_len := search_len cf |}.

Definition set_rfcode (v : option dfilter_t) (cf : capture_file) : capture_file :=
  {| state := state cf; filename := filename cf; is_tempfile := is_tempfile cf;
     unsaved_changes := unsaved_changes cf; cd_t := cd_t cf;
     compression_type := compression_type cf; count := count cf;
     packet_comment_count := packet_comment_count cf;
     displayed_count := displayed_count cf; f_datalen := f_datalen cf;
     linktypes := linktypes cf; frames := frames cf;
     frames_modified_blocks := frames_modified_blocks cf;
     prev_dis := prev_dis cf; prev_cap := prev_cap cf;
     first_displayed := first_displayed cf; last_displayed := last_displayed cf;
     current_frame := current_frame cf; rfcode := v; dfilter := dfilter cf;
     read_lock := read_lock cf; stop_flag := stop_flag cf;
     redissecting := redissecting cf;
     redissection_queued := redissection_queued cf; case_type := case_type cf;
     search_pos := search_pos cf; search_len := search_len cf |}.

Definition set_dfilter (v : option string) (cf : capture_file) : capture_file :=
  {| state := state cf; filename := filename cf; is_tempfile := is_tempfile cf;
     unsaved_changes := unsaved_changes cf; cd_t := cd_t cf;
     compression_type := compression_type cf; count := count cf;
     packet_comment_count := packet_comment_count cf;
     displayed_count := displayed_count cf; f_datalen := f_datalen cf;
     linktypes := linktypes cf; frames := frames cf;
     frames_modified_blocks := frames_modified_blocks cf;
     prev_dis := prev_dis cf; prev_cap := prev_cap cf;
     first_displayed := first_displayed cf; last_displayed := last_displayed cf;
     current_frame := current_frame cf; rfcode := rfcode cf; dfilter := v;
     read_lock := read_lock cf; stop_flag := stop_flag cf;
     redissecting := redissecting cf;
     redissection_queued := redissection_queued cf; case_type := case_type cf;
     search_pos := search_pos cf; search_len := search_len cf |}.

Definition set_read_lock (v : bool) (cf : capture_file) : capture_file :=
  {| state := state cf; filename := filename cf; is_tempfile := is_tempfile cf;
     unsaved_changes := unsaved_changes cf; cd_t := cd_t cf;
     compression_type := compression_type cf; count := count cf;
     packet_comment_count := packet_comment_count cf;
     displayed_count := displayed_count cf; f_datalen := f_datalen cf;
     linktypes := linktypes cf; frames := frames cf;
     frames_modified_blocks := frames_modified_blocks cf;
     prev_dis := prev_dis cf; prev_cap := prev_cap cf;
     first_displayed := first_displayed cf; last_displayed := last_displayed cf;
     current_frame := current_frame cf; rfcode := rfcode cf; dfilter := dfilter cf;
     read_lock := v; stop_flag := stop_flag cf;
     redissecting := redissecting cf;
     redissection_queued := redissection_queued cf; case_type := case_type cf;
     search_pos := search_pos cf; search_len := search_len cf |}.

Definition set_stop_flag (v : bool) (cf : capture_file) : capture_file :=
  {| state := state cf; filename := filename cf; is_tempfile := is_tempfile cf;
     unsaved_changes := unsaved_changes cf; cd_t := cd_t cf;
     compression_type := compression_type cf; count := count cf;
     packet_comment_count := packet_comment_count cf;
     displayed_count := displayed_count cf; f_datalen := f_datalen cf;
     linktypes := linktypes cf; frames := frames cf;
     frames_modified_blocks := frames_modified_blocks cf;
     prev_dis := prev_dis cf; prev_cap := prev_cap cf;
     first_displayed := first_displayed cf; last_displayed := last_displayed cf;
     current_frame := current_frame cf; rfcode := rfcode cf; dfilter := dfilter cf;
     read_lock := read_lock cf; stop_flag := v;
     redissecting := redissecting cf;
     redissection_queued := redissection_queued cf; case_type := case_type cf;
     search_pos := search_pos cf; search_len := search_len cf |}.

Definition set_redissecting (v : bool) (cf : capture_file) : capture_file :=
  {| state := state cf; filename := filename cf; is_tempfile := is_tempfile cf;
     unsaved_changes := unsaved_changes cf; cd_t := cd_t cf;
     compression_type := compression_type cf; count := count cf;
     packet_comment_count := packet_comment_count cf;
     displayed_count := displayed_count cf; f_datalen := f_datalen cf;
     linktypes := linktypes cf; frames := frames cf;
     frames_modified_blocks := frames_modified_blocks cf;
     prev_dis := prev_dis cf; prev_cap := prev_cap cf;
     first_displayed := first_displayed cf; last_displayed := last_displayed cf;
     current_frame := current_frame cf; rfcode := rfcode cf; dfilter := dfilter cf;
     read_lock := read_lock cf; stop_flag := stop_flag cf;
     redissecting := v;
     redissection_queued := redissection_queued cf; case_type := case_type cf;
     search_pos := search_pos cf; search_len := search_len cf |}.

Definition set_redissection_queued (v : rescan_type) (cf : capture_file)
    : capture_file :=
  {| state := state cf; filename := filename cf; is_tempfile := is_tempfile cf;
     unsaved_changes := unsaved_changes cf; cd_t := cd_t cf;
     compression_type := compression_type cf; count := count cf;
     packet_comment_count := packet_comment_count cf;
     displayed_count := displayed_count cf; f_datalen := f_datalen cf;
     linktypes := linktypes cf; frames := frames cf;
     frames_modified_blocks := frames_modified_blocks cf;
     prev_dis := prev_dis cf; prev_cap := prev_cap cf;
     first_displayed := first_displayed cf; last_displayed := last_displayed cf;
     current_frame := current_frame cf; rfcode := rfcode cf; dfilter := dfilter cf;
     read_lock := read_lock cf; stop_flag := stop_flag cf;
     redissecting := redissecting cf;
     redissection_queued := v; case_type := case_type cf;
     search_pos := search_pos cf; search_len := search_len cf |}.

Definition set_search (pos len : Z) (cf : capture_file) : capture_file :=
  {| state := state cf; filename := filename cf; is_tempfile := is_tempfile cf;
     unsaved_changes := unsaved_changes cf; cd_t := cd_t cf;
     compression_type := compression_type cf; count := count cf;
     packet_comment_count := packet_comment_count cf;
     displayed_count := displayed_count cf; f_datalen := f_datalen cf;
     linktypes := linktypes cf; frames := frames cf;
     frames_modified_blocks := frames_modified_blocks cf;
     prev_dis := prev_dis cf; prev_cap := prev_cap cf;
     first_displayed := first_displayed cf; last_displayed := last_displayed cf;
     current_frame := current_frame cf; rfcode := rfcode cf; dfilter := dfilter cf;
     read_lock := read_lock cf; stop_flag := stop_flag cf;
     redissecting := redissecting cf;
     redissection_queued := redissection_queued cf; case_type := case_type cf;
     search_pos := pos; search_len := len |}.

(** Updates of single frame flags. *)

Definition set_passed_dfilter (v : bool) (fd : frame_data) : frame_data :=
  {| num := num fd; file_off := file_off fd; cap_len := cap_len fd;
     pkt_len := pkt_len fd; passed_dfilter := v;
     ref_time := ref_time fd; marked := marked fd; visited := visited fd;
     has_modified_block := has_modified_block fd |}.

Definition set_visited (v : bool) (fd : frame_data) : frame_data :=
  {| num := num fd; file_off := file_off fd; cap_len := cap_len fd;
     pkt_len := pkt_len fd; passed_dfilter := passed_dfilter fd;
     ref_time := ref_time fd; marked := marked fd; visited := v;
     has_modified_block := has_modified_block fd |}.

Definition set_has_modified_block (v : bool) (fd : frame_data) : frame_data :=
  {| num := num fd; file_off := file_off fd; cap_len := cap_len fd;
     pkt_len := pkt_len fd; passed_dfilter := passed_dfilter fd;
     ref_time := ref_time fd; marked := marked fd; visited := visited fd;
     has_modified_block := v |}.

(* ===================================================================== *)
(** * Collaborators that are not part of file.c *)
(* ===================================================================== *)

(** Modelled from the spec: [frame_data_sequence_find] of the frame store
    (epan/frame_data_sequence.c is not among the sources).  The store is
    an "ordered map from frame number to Frame" with
    [find(number) -> Frame|NotFound]; frame numbers start at 1, so no frame
    has number 0. *)
Definition frame_data_sequence_find (fds : list frame_data) (n : Z)
    : option frame_data :=
  if n <=? 0 then None else fds !! Z.to_nat (n - 1).

(** Modelled from the spec: [frame_data_sequence_add], the store's
    [append(meta)]: the store is append-only. *)
Definition frame_data_sequence_add (fds : list frame_data) (fd : frame_data)
    : list frame_data := fds ++ [fd].

(** A write through a pointer to slot [n] of the store. *)
Definition frame_store_set (fds : list frame_data) (n : Z) (fd : frame_data)
    : list frame_data := <[Z.to_nat (n - 1) := fd]> fds.

(** Modelled from the spec: [frame_data_init] (epan/frame_data.c is not
    among the sources).  A Frame is created once, from the record, with its
    sequence number, storage offset, captured and original length, and
    with every flag cleared. *)
Definition frame_data_init (n : Z) (rec : wtap_rec) (offset : Z) : frame_data :=
  {| num := n; file_off := offset; cap_len := rec_caplen rec;
     pkt_len := rec_len rec; passed_dfilter := false;
     ref_time := false; marked := false;
     visited := false; has_modified_block := false |}.

(** Modelled from the spec: [frame_data_reset], the per-frame part of
    [resetAll()]: it "clears visited/derived fields", keeps identity and
    offsets. *)
Definition frame_data_reset (fd : frame_data) : frame_data :=
  set_visited false fd.

(** Modelled from the spec: [epan_dissect_run] and
    [epan_dissect_run_with_taps] (epan is not among the sources), as far
    as they change the frame they are handed: a frame is [visited] when it
    "has been dissected at least once since last full reset". *)
Definition epan_dissect_run (fd : frame_data) : frame_data :=
  set_visited true fd.

(** Modelled from the spec: GLib's [g_ascii_toupper] (not among the
    sources): case-insensitive mode "folds ASCII case before comparison
    only (no locale/Unicode folding)". *)
Definition g_ascii_toupper (c : Z) : Z :=
  if (97 <=? c) && (c <=? 122) then c - 32 else c.

(** [wtap_seek_read] by stored offset, as [cf_read_record] calls it; the
    alert box it raises on failure is not kept. *)
Definition cf_read_record (wth : wtap) (fdata : frame_data) : option wtap_rec :=
  wth_seek_read wth (file_off fdata).

(* ===================================================================== *)
(** * Search engine: byte matchers *)
(* ===================================================================== *)

(** "Counted byte string": the bytes; [data_len] is their number. *)
Definition cbs_t := list Z.

(** [p[i]] on a byte buffer. *)
Definition byte_at (p : list Z) (i : Z) : Z := nth (Z.to_nat i) p 0.

(** One turn of the scan loop either leaves it with a match whose last byte
    is at [i], or goes on with new values of [i] and [c_match]. *)
Inductive scan_step :=
| ScanMatched (i : Z)
| ScanNext (i c_match : Z).

(** Body of the [while (i < buf_len)] loop of [match_narrow], including the
    [i += 1] that ends it.  [i] is a [guint32]; [c_match] is a [size_t]
    that the code casts to [guint32] before subtracting. *)
Definition narrow_step (case_type : bool) (pd ascii_text : list Z)
    (textlen i c_match : Z) : scan_step :=
  let c_char := byte_at pd i in
  let c_char := if case_type then g_ascii_toupper c_char else c_char in
  if c_char =? byte_at ascii_text c_match then
    let c_match := c_match + 1 in
    if c_match =? textlen then ScanMatched i
    else ScanNext (wrap32 (i + 1)) c_match
  else
    let i := wrap32 (i - wrap32 c_match) in
    ScanNext (wrap32 (i + 1)) 0.

(** The loop itself; [None] when the fuel does not suffice, [Some None] when
    the loop ends without a match, [Some (Some i)] on a match ending at
    [i]. *)
Fixpoint narrow_loop (fuel : nat) (case_type : bool) (pd ascii_text : list Z)
    (textlen buf_len i c_match : Z) : option (option Z) :=
  match fuel with
  | O => None
  | S fuel =>
      if i <? buf_len then
        match narrow_step case_type pd ascii_text textlen i c_match with
        | ScanMatched i => Some (Some i)
        | ScanNext i c_match =>
            narrow_loop fuel case_type pd ascii_text textlen buf_len i c_match
        end
      else Some None
  end.

(** Fuel that covers every run of a scan loop: each start position is
    tried once and costs at most [textlen] turns. *)
Definition scan_fuel (buf_len textlen : Z) : nat :=
  Z.to_nat ((buf_len + 1) * (textlen + 1)).

Definition match_narrow (wth : wtap) (cf : capture_file) (fdata : frame_data)
    (info : cbs_t) : option (match_result * capture_file) :=
  let ascii_text := info in
  let textlen := Z.of_nat (length info) in
  match cf_read_record wth fdata with
  | None => Some (MR_ERROR, cf)
  | Some rec =>
      let buf_len := cap_len fdata in
      let pd := rec_data rec in
      match narrow_loop (scan_fuel buf_len textlen) (case_type cf) pd
              ascii_text textlen buf_len 0 0 with
      | None => None
      | Some None => Some (MR_NOTMATCHED, cf)
      | Some (Some i) => Some (MR_MATCHED, set_search i (wrap32 textlen) cf)
      end
  end.

(** Body of the loop of [match_binary]: as in [match_narrow], without any
    case folding. *)
Definition binary_step (pd binary_data : list Z) (datalen i c_match : Z)
    : scan_step :=
  if byte_at pd i =? byte_at binary_data c_match then
    let c_match := c_match + 1 in
    if c_match =? datalen then ScanMatched i
    else ScanNext (wrap32 (i + 1)) c_match
  else
    let i := wrap32 (i - wrap32 c_match) in
    ScanNext (wrap32 (i + 1)) 0.

Fixpoint binary_loop (fuel : nat) (pd binary_data : list Z)
    (datalen buf_len i c_match : Z) : option (option Z) :=
  match fuel with
  | O => None
  | S fuel =>
      if i <? buf_len then
        match binary_step pd binary_data datalen i c_match with
        | ScanMatched i => Some (Some i)
        | ScanNext i c_match =>
            binary_loop fuel pd binary_data datalen buf_len i c_match
        end
      else Some None
  end.

Definition match_binary (wth : wtap) (cf : capture_file) (fdata : frame_data)
    (info : cbs_t) : option (match_result * capture_file) :=
  let binary_data := info in
  let datalen := Z.of_nat (length info) in
  match cf_read_record wth fdata with
  | None => Some (MR_ERROR, cf)
  | Some rec =>
      let buf_len := cap_len fdata in
      let pd := rec_data rec in
      match binary_loop (scan_fuel buf_len datalen) pd binary_data datalen
              buf_len 0 0 with
      | None => None
      | Some None => Some (MR_NOTMATCHED, cf)
      | Some (Some i) => Some (MR_MATCHED, set_search i (wrap32 datalen) cf)
      end
  end.

(** The matchers that need no payload. *)
Definition ws_match_function :=
  capture_file -> frame_data -> match_result * capture_file.

Definition match_marked : ws_match_function :=
  fun cf fdata => (if marked fdata then MR_MATCHED else MR_NOTMATCHED, cf).

Definition match_time_reference : ws_match_function :=
  fun cf fdata => (if ref_time fdata then MR_MATCHED else MR_NOTMATCHED, cf).

(* ===================================================================== *)
(** * Search engine: find_packet *)
(* ===================================================================== *)

(** A pointer to a frame of the store is the number of the slot it points
    to: the pointer that [frame_data_sequence_find] returns for [n] is
    [n], and the null pointer when there is no such frame. *)
Definition frame_ptr (fds : list frame_data) (n : Z) : option Z :=
  match frame_data_sequence_find fds n with
  | Some _ => Some n
  | None => None
  end.

(** The [for (;;)] loop of [find_packet].  [cancel k] tells whether the
    progress dialog has set [cf->stop_flag] when turn [k] tests it;
    [gui_find_wrap] is the preference of that name.  The result is
    [new_fd], the session and the frames the criterion was evaluated on,
    in order; [None] when the fuel does not suffice. *)
Fixpoint find_packet_loop (fuel : nat) (gui_find_wrap : bool)
    (cancel : nat -> bool) (match_function : ws_match_function)
    (dir : search_direction) (start_fd : option Z) (prev_framenum : Z)
    (framenum : Z) (turn : nat) (cf : capture_file) (evaluated : list Z)
    : option (option Z * capture_file * list Z) :=
  match fuel with
  | O => None
  | S fuel =>
      if cancel turn then Some (start_fd, set_stop_flag true cf, evaluated)
      else
        let framenum :=
          match dir with
          | SD_BACKWARD =>
              if framenum <=? 1 then
                if gui_find_wrap then count cf else prev_framenum
              else wrap32 (framenum - 1)
          | SD_FORWARD =>
              if framenum =? count cf then
                if gui_find_wrap then 1 else prev_framenum
              else wrap32 (framenum + 1)
          end in
        let fdata := frame_ptr (frames cf) framenum in
        let back_at_start (cf : capture_file) (evaluated : list Z) :=
          if decide (fdata = start_fd) then Some (None, cf, evaluated)
          else find_packet_loop fuel gui_find_wrap cancel match_function dir
                 start_fd prev_framenum framenum (S turn) cf evaluated in
        match frame_data_sequence_find (frames cf) framenum with
        | Some fd =>
            if passed_dfilter fd then
              let '(result, cf) := match_function cf fd in
              let evaluated := evaluated ++ [framenum] in
              match result with
              | MR_ERROR => Some (start_fd, cf, evaluated)
              | MR_MATCHED => Some (fdata, cf, evaluated)
              | MR_NOTMATCHED => back_at_start cf evaluated
              end
            else back_at_start cf evaluated
        | None => back_at_start cf evaluated
        end
  end.

(** [find_packet]: [found_row n] is the answer of
    [packet_list_select_row_from_data] for the frame in slot [n]. *)
Definition find_packet (fuel : nat) (gui_find_wrap : bool)
    (cancel : nat -> bool) (found_row : Z -> bool)
    (match_function : ws_match_function) (dir : search_direction)
    (cf : capture_file) : option (bool * capture_file * list Z) :=
  let start_fd := current_frame cf in
  let prev_framenum :=
    match start_fd with
    | Some p =>
        match frame_data_sequence_find (frames cf) p with
        | Some fd => num fd
        | None => 0
        end
    | None => 0
    end in
  let cf := set_stop_flag false cf in
  match find_packet_loop fuel gui_find_wrap cancel match_function dir
          start_fd prev_framenum prev_framenum 0 cf [] with
  | None => None
  | Some (new_fd, cf, evaluated) =>
      match new_fd with
      | Some n =>
          let found := found_row n in
          Some (found, set_search 0 0 cf, evaluated)
      | None => Some (false, cf, evaluated)
      end
  end.

(* ===================================================================== *)
(** * The session and its surroundings *)
(* ===================================================================== *)

(** What the presentation layer may do while it holds control: the long
    loops hand control over when they create or update the progress
    dialog, and the user may then press the stop button, leave the
    program, change the display filter or change a preference that needs
    the packets redissected. *)
Inductive ui_event :=
| UiStop                                        (* cf->stop_flag = TRUE *)
| UiQuit                                        (* cf->state = FILE_READ_ABORTED *)
| UiFilter (dftext : option string) (force : bool)   (* cf_filter_packets *)
| UiRedissect.                                  (* cf_redissect_packets *)

(** What the session tells its surroundings, in order.  [RescanStarted]
    carries the [redissect] argument of the [rescan_packets] call that
    raised it. *)
Inductive ui_call :=
| FileClosing
| FileClosed
| ReadStarted (reloading : bool)
| ReadFinished (reloading : bool)
| RescanStarted (redissect : bool)
| RescanFinished
| SelectFirstRow
| SelectRow (p : Z)
| SaveStarted
| SaveFinished
| SaveStopped
| SaveFailed
| FastSaveFinished
| WtapDump (framenum : Z)
| AlertInvalidFilter
| AlertReadFailure
| AlertReadCancelled
| AlertTooManyRecords (max_records : Z)
| AlertRenameFailure
| AlertDumpOpenFailure
| AlertWriteFailure (framenum : Z)
| AlertCloseFailure
| AlertOpenFailure.

(** The contents of a capture file on disk: its records. *)
Definition file_contents := list wtap_rec.

(** The session together with what surrounds it: the events the
    presentation layer will deliver, one list per time it gets control;
    the calls made so far; and the file system. *)
Record world := {
  w_cf : capture_file;
  w_ui : list (list ui_event);
  w_log : list ui_call;
  w_fs : gmap string file_contents
}.

Definition with_cf (cf : capture_file) (w : world) : world :=
  {| w_cf := cf; w_ui := w_ui w; w_log := w_log w; w_fs := w_fs w |}.

Definition with_ui (ui : list (list ui_event)) (w : world) : world :=
  {| w_cf := w_cf w; w_ui := ui; w_log := w_log w; w_fs := w_fs w |}.

Definition with_fs (fs : gmap string file_contents) (w : world) : world :=
  {| w_cf := w_cf w; w_ui := w_ui w; w_log := w_log w; w_fs := fs |}.

Definition tell (c : ui_call) (w : world) : world :=
  {| w_cf := w_cf w; w_ui := w_ui w; w_log := w_log w ++ [c]; w_fs := w_fs w |}.

Definition on_cf (f : capture_file -> capture_file) (w : world) : world :=
  with_cf (f (w_cf w)) w.

(** ** Modelled file-system primitives *)

(** Modelled from the spec: [ws_unlink], [file_exists] and [ws_rename] (wsutil
    is not among the sources).  A rename that succeeds puts the source
    under the destination name "atomically"; one that fails changes
    nothing.  [ok] is whether the operating system lets it succeed. *)
Definition ws_unlink (path : string) (fs : gmap string file_contents)
    : gmap string file_contents := delete path fs.

Definition file_exists (path : string) (fs : gmap string file_contents) : bool :=
  bool_decide (is_Some (fs !! path)).

Definition ws_rename (ok : bool) (src dst : string)
    (fs : gmap string file_contents) : option (gmap string file_contents) :=
  if ok then
    match fs !! src with
    | Some c => Some (<[dst := c]> (delete src fs))
    | None => None
    end
  else None.

(* ===================================================================== *)
(** * Ingestion *)
(* ===================================================================== *)

Definition cf_add_encapsulation_type (encap : Z) (cf : capture_file)
    : capture_file :=
  if bool_decide (encap ∈ linktypes cf) then cf
  else set_linktypes (linktypes cf ++ [encap]) cf.

(** [cf_unselect_packet]. *)
Definition cf_unselect_packet (cf : capture_file) : capture_file :=
  set_current_frame None cf.

(** [cf_close]: reset everything to a pristine state.  [None] when one
    of its two [ws_assert] fails and ends the program: the session is in
    the middle of reading a file, or the lock is held. *)
Definition cf_close (w : world) : option world :=
  let w := on_cf (set_stop_flag false) w in
  if file_state_eqb (state (w_cf w)) FILE_CLOSED then Some w
  else if file_state_eqb (state (w_cf w)) FILE_READ_IN_PROGRESS
          || read_lock (w_cf w)
  then None
  else
    let w := tell FileClosing w in
    let w :=
      match filename (w_cf w) with
      | Some f =>
          let w := if is_tempfile (w_cf w)
                   then with_fs (ws_unlink f (w_fs w)) w else w in
          on_cf (set_filename None) w
      | None => w
      end in
    let w := on_cf (set_unsaved_changes false) w in
    let w := on_cf (set_rfcode None) w in
    let w := on_cf (set_frames []) w in
    let w := on_cf (set_frames_modified_blocks []) w in
    let w := on_cf cf_unselect_packet w in
    let w := on_cf (set_first_displayed 0) w in
    let w := on_cf (set_last_displayed 0) w in
    let w := on_cf (set_count 0) w in
    let w := on_cf (set_current_frame None) w in
    let w := on_cf (set_linktypes []) w in
    let w := on_cf (set_f_datalen 0) w in
    let w := on_cf (set_state FILE_CLOSED) w in
    Some (tell FileClosed w).

(** [add_packet_to_packet_list]; [fdata] points into the store.  The
    elapsed-time and byte accounting of [frame_data_set_before_dissect] and
    [frame_data_set_after_dissect] and the marking of the frames a displayed
    frame depends on ([find_and_mark_frame_depended_upon]) are left out:
    they touch none of the fields kept here.  The filter is applied to
    the dissection once it has run. *)
Definition add_packet_to_packet_list (fdata : Z) (dfcode : option dfilter_t)
    (rec : wtap_rec) (add_to_packet_list : bool) (cf : capture_file)
    : capture_file :=
  match frame_data_sequence_find (frames cf) fdata with
  | None => cf
  | Some fd =>
      let cf := set_prev_cap (Some fdata) cf in
      let fd := epan_dissect_run fd in
      let fd :=
        match dfcode with
        | Some code => set_passed_dfilter (dfilter_apply_edt code fd rec) fd
        | None => set_passed_dfilter true fd
        end in
      let cf := set_frames (frame_store_set (frames cf) fdata fd) cf in
      let cf :=
        if passed_dfilter fd || ref_time fd
        then set_displayed_count (wrap32 (displayed_count cf + 1)) cf
        else cf in
      if passed_dfilter fd || ref_time fd then
        let cf := set_prev_dis (Some fdata) cf in
        let cf :=
          if first_displayed cf =? 0 then set_first_displayed (num fd) cf
          else cf in
        set_last_displayed (num fd) cf
      else cf
  end.

(** [read_record]: returns whether the record was added to the store.
    With a read filter the frame is dissected before it is stored, and
    the store gets it as the dissection has left it. *)
Definition read_record (rec : wtap_rec) (offset : Z)
    (dfcode : option dfilter_t) (cf : capture_file) : bool * capture_file :=
  let cf :=
    if rec_is_packet rec then cf_add_encapsulation_type (pkt_encap rec) cf
    else cf in
  let fdlocal := frame_data_init (wrap32 (count cf + 1)) rec offset in
  let fdlocal :=
    match rfcode cf with
    | Some _ => epan_dissect_run fdlocal
    | None => fdlocal
    end in
  let passed :=
    match rfcode cf with
    | Some code => dfilter_apply_edt code fdlocal rec
    | None => true
    end in
  if passed then
    let fdata := Z.of_nat (length (frames cf)) + 1 in
    let cf := set_frames (frame_data_sequence_add (frames cf) fdlocal) cf in
    let cf := set_count (wrap32 (count cf + 1)) cf in
    let cf :=
      match rec_block rec with
      | Some block =>
          set_packet_comment_count
            (wrap32 (packet_comment_count cf + Z.of_nat (length block))) cf
      | None => cf
      end in
    let cf := set_f_datalen (offset + cap_len fdlocal) cf in
    let cf :=
      if negb (redissecting cf)
         && rescan_type_eqb (redissection_queued cf) RESCAN_NONE
      then add_packet_to_packet_list fdata dfcode rec true cf
      else cf in
    (true, cf)
  else (false, cf).

Section Session.

(** The filter compiler: [None] when the text is not a valid filter,
    [Some None] when it is an empty filter, [Some (Some code)] otherwise. *)
Context (dfilter_compile : string -> option (option dfilter_t)).

(** What every scan does first: compile the current display filter, which
    "will not fail since cf->dfilter is only set in cf_filter IFF the filter
    was valid". *)
Definition compile_dfilter (cf : capture_file) : option dfilter_t :=
  match dfilter cf with
  | None => None
  | Some text =>
      match dfilter_compile text with
      | Some (Some code) => Some code
      | _ => None
      end
  end.

Section Requests.

(** [rescan_packets], for the request handlers that run it at once. *)
Context (rescan : bool -> world -> option world).

(** [cf_filter_packets]. *)
Definition cf_filter_packets (dftext : option string) (force : bool)
    (w : world) : option (cf_status_t * world) :=
  let filter_new := default EmptyString dftext in
  let filter_old := default EmptyString (dfilter (w_cf w)) in
  if negb force && String.eqb filter_new filter_old then Some (CF_OK, w)
  else
    let compiled :=
      match dftext with
      | None => Some None
      | Some text =>
          match dfilter_compile text with
          | None => None
          | Some None => Some None
          | Some (Some _) => Some (Some text)
          end
      end in
    match compiled with
    | None => Some (CF_ERROR, tell AlertInvalidFilter w)
    | Some dftext =>
        let w := on_cf (set_dfilter dftext) w in
        if rescan_type_eqb (redissection_queued (w_cf w)) RESCAN_NONE then
          if read_lock (w_cf w) then
            Some (CF_OK, on_cf (set_redissection_queued RESCAN_SCAN) w)
          else if negb (file_state_eqb (state (w_cf w)) FILE_CLOSED) then
            match rescan false w with
            | Some w => Some (CF_OK, w)
            | None => None
            end
          else Some (CF_OK, w)
        else Some (CF_OK, w)
    end.

(** [cf_redissect_packets]. *)
Definition cf_redissect_packets (w : world) : option world :=
  let w :=
    if read_lock (w_cf w)
       || rescan_type_eqb (redissection_queued (w_cf w)) RESCAN_SCAN
    then on_cf (set_redissection_queued RESCAN_REDISSECT) w
    else w in
  if negb (rescan_type_eqb (redissection_queued (w_cf w)) RESCAN_NONE)
  then Some w
  else if negb (file_state_eqb (state (w_cf w)) FILE_CLOSED)
  then rescan true w
  else Some w.

Definition handle_event (ev : ui_event) (w : world) : option world :=
  match ev with
  | UiStop => Some (on_cf (set_stop_flag true) w)
  | UiQuit => Some (on_cf (set_state FILE_READ_ABORTED) w)
  | UiFilter dftext force => snd <$> cf_filter_packets dftext force w
  | UiRedissect => cf_redissect_packets w
  end.

Fixpoint handle_events (evs : list ui_event) (w : world) : option world :=
  match evs with
  | [] => Some w
  | ev :: evs =>
      match handle_event ev w with
      | Some w => handle_events evs w
      | None => None
      end
  end.

(** The presentation layer gets control once. *)
Definition pump (w : world) : option world :=
  match w_ui w with
  | [] => Some w
  | evs :: ui => handle_events evs (with_ui ui w)
  end.

End Requests.

(* ===================================================================== *)
(** * Rescan and redissect *)
(* ===================================================================== *)

(** The selection bookkeeping of [rescan_packets]: each frame pointer with
    the [int] that holds its number, -1 standing for "none". *)
Record rescan_vars := {
  selected_frame_num : Z;
  preceding_frame : option Z;
  preceding_frame_num : Z;
  following_frame : option Z;
  following_frame_num : Z;
  prev_frame : option Z;
  prev_frame_num : Z;
  selected_frame_seen : bool
}.

Definition rescan_vars_init : rescan_vars :=
  {| selected_frame_num := -1;
     preceding_frame := None; preceding_frame_num := -1;
     following_frame := None; following_frame_num := -1;
     prev_frame := None; prev_frame_num := -1;
     selected_frame_seen := false |}.

(** [p->passed_dfilter] and [p->num] for a pointer into the store. *)
Definition ptr_passed_dfilter (fds : list frame_data) (p : option Z) : bool :=
  match p with
  | Some n =>
      match frame_data_sequence_find fds n with
      | Some fd => passed_dfilter fd
      | None => false
      end
  | None => false
  end.

Definition ptr_num (fds : list frame_data) (p : Z) : Z :=
  match frame_data_sequence_find fds p with
  | Some fd => num fd
  | None => 0
  end.

(** The three updates of the bookkeeping in one turn of the loop. *)
Definition note_preceding (fds : list frame_data) (v : rescan_vars) : rescan_vars :=
  if negb (prev_frame_num v =? -1) && negb (selected_frame_seen v)
     && ptr_passed_dfilter fds (prev_frame v)
  then
    {| selected_frame_num := selected_frame_num v;
       preceding_frame := prev_frame v;
       preceding_frame_num := prev_frame_num v;
       following_frame := following_frame v;
       following_frame_num := following_frame_num v;
       prev_frame := prev_frame v; prev_frame_num := prev_frame_num v;
       selected_frame_seen := selected_frame_seen v |}
  else v.

Definition note_following (fds : list frame_data) (fdata : Z) (v : rescan_vars)
    : rescan_vars :=
  if ptr_passed_dfilter fds (Some fdata) && selected_frame_seen v
     && (following_frame_num v =? -1)
  then
    {| selected_frame_num := selected_frame_num v;
       preceding_frame := preceding_frame v;
       preceding_frame_num := preceding_frame_num v;
       following_frame := Some fdata;
       following_frame_num := ptr_num fds fdata;
       prev_frame := prev_frame v; prev_frame_num := prev_frame_num v;
       selected_frame_seen := selected_frame_seen v |}
  else v.

Definition note_selected_and_prev (fds : list frame_data) (fdata : Z)
    (selected_frame : option Z) (v : rescan_vars) : rescan_vars :=
  let is_selected := bool_decide (Some fdata = selected_frame) in
  {| selected_frame_num :=
       if is_selected && ptr_passed_dfilter fds (Some fdata)
       then ptr_num fds fdata else selected_frame_num v;
     preceding_frame := preceding_frame v;
     preceding_frame_num := preceding_frame_num v;
     following_frame := following_frame v;
     following_frame_num := following_frame_num v;
     prev_frame := Some fdata; prev_frame_num := ptr_num fds fdata;
     selected_frame_seen := is_selected || selected_frame_seen v |}.

(** The main loop of [rescan_packets], [framenum] running up to
    [frames_count]; [todo] is the number of turns left.  The result is
    [queued_rescan_type], the [framenum] the loop stopped at, the
    bookkeeping and the world.  A slot that the store does not have,
    where the code would follow a null pointer, ends the loop.  The
    clearing of [dependent_of_displayed] at each turn is left out with the
    flag. *)
Fixpoint rescan_loop (todo : nat) (rescan : bool -> world -> option world)
    (wth : wtap) (redissect : bool) (dfcode : option dfilter_t)
    (add_to_packet_list : bool) (selected_frame : option Z)
    (framenum : Z) (v : rescan_vars) (w : world)
    : option (rescan_type * Z * rescan_vars * world) :=
  match todo with
  | O => Some (RESCAN_NONE, framenum, v, w)
  | S todo =>
      match pump rescan w with
      | None => None
      | Some w =>
          let queued_rescan_type := redissection_queued (w_cf w) in
          if negb (rescan_type_eqb queued_rescan_type RESCAN_NONE)
          then Some (queued_rescan_type, framenum, v, w)
          else if stop_flag (w_cf w)
          then Some (RESCAN_NONE, framenum, v, w)
          else
            match frame_data_sequence_find (frames (w_cf w)) framenum with
            | None => Some (RESCAN_NONE, framenum, v, w)
            | Some fd =>
                let fd := if redissect then frame_data_reset fd else fd in
                let w :=
                  on_cf (fun cf =>
                    set_frames (frame_store_set (frames cf) framenum fd) cf) w in
                match cf_read_record wth fd with
                | None =>
                    Some (RESCAN_NONE, framenum, v, tell AlertReadFailure w)
                | Some rec =>
                    let v := note_preceding (frames (w_cf w)) v in
                    let w :=
                      on_cf (add_packet_to_packet_list framenum dfcode rec
                               add_to_packet_list) w in
                    let v := note_following (frames (w_cf w)) framenum v in
                    let v := note_selected_and_prev (frames (w_cf w)) framenum
                               selected_frame v in
                    rescan_loop todo rescan wth redissect dfcode
                      add_to_packet_list selected_frame
                      (wrap32 (framenum + 1)) v w
                end
            end
      end
  end.

(** The loop that clears what remains of the visited flags after a
    redissection that stopped early. *)
Fixpoint reset_remaining (todo : nat) (framenum : Z) (fds : list frame_data)
    : list frame_data :=
  match todo with
  | O => fds
  | S todo =>
      match frame_data_sequence_find fds framenum with
      | Some fd =>
          reset_remaining todo (wrap32 (framenum + 1))
            (frame_store_set fds framenum (frame_data_reset fd))
      | None => fds
      end
  end.

(** The end of [rescan_packets] that repairs the selection. *)
Definition rescan_select (selected_frame : option Z) (v : rescan_vars)
    (w : world) : world :=
  let '(selected_frame_num, selected_frame) :=
    if selected_frame_num v =? -1 then
      match selected_frame with
      | None => (0, selected_frame)
      | Some _ =>
          match following_frame v with
          | None => (preceding_frame_num v, preceding_frame v)
          | Some _ =>
              match preceding_frame v with
              | None => (following_frame_num v, following_frame v)
              | Some _ => (preceding_frame_num v, preceding_frame v)
              end
          end
      end
    else (selected_frame_num v, selected_frame) in
  if selected_frame_num =? -1 then on_cf cf_unselect_packet w
  else if selected_frame_num =? 0 then tell SelectFirstRow w
  else
    match selected_frame with
    | Some p => tell (SelectRow p) w
    | None => w
    end.

(** [rescan_packets].  [fuel] bounds the number of scans that requests
    arriving during a scan can chain; [None] when it does not suffice.
    The function is only ever entered with the lock free (its
    [ws_assert (!cf->read_lock)]). *)
Fixpoint rescan_packets (fuel : nat) (wth : wtap) (redissect : bool)
    (w : world) : option world :=
  match fuel with
  | O => None
  | S fuel =>
      let w := on_cf (set_redissection_queued RESCAN_NONE) w in
      let w := on_cf (set_read_lock true) w in
      let dfcode := compile_dfilter (w_cf w) in
      let selected_frame := current_frame (w_cf w) in
      let w := if redissect then on_cf (set_redissecting true) w else w in
      let add_to_packet_list := redissect in
      let w := on_cf (set_first_displayed 0) w in
      let w := on_cf (set_last_displayed 0) w in
      let w := on_cf (set_displayed_count 0) w in
      let w := on_cf (set_prev_dis None) w in
      let w := on_cf (set_prev_cap None) w in
      let w := tell (RescanStarted redissect) w in
      let w := on_cf (set_stop_flag false) w in
      let frames_count := count (w_cf w) in
      match rescan_loop (Z.to_nat frames_count) (rescan_packets fuel wth) wth
              redissect dfcode add_to_packet_list selected_frame 1
              rescan_vars_init w with
      | None => None
      | Some (queued_rescan_type, framenum, v, w) =>
          let w := on_cf (set_redissecting false) w in
          let w :=
            if redissect then
              on_cf (fun cf =>
                set_frames
                  (reset_remaining (Z.to_nat (count cf - framenum + 1))
                     framenum (frames cf)) cf) w
            else w in
          let w := tell RescanFinished w in
          let w := rescan_select selected_frame v w in
          let w := on_cf (set_read_lock false) w in
          if negb (rescan_type_eqb queued_rescan_type RESCAN_NONE) then
            let redissect :=
              redissect || rescan_type_eqb queued_rescan_type RESCAN_REDISSECT in
            rescan_packets fuel wth redissect w
          else Some w
      end
  end.

(* ===================================================================== *)
(** * cf_read *)
(* ===================================================================== *)

(** How the read loop of [cf_read] ends. *)
Inductive read_exit :=
| ReadEnd           (* wtap_read returned FALSE *)
| ReadTooMany       (* too_many_records = TRUE; break *)
| ReadAborted       (* is_read_aborted = TRUE; break *)
| ReadStopped.      (* cf->stop_flag; break *)

(** The [while (wtap_read (...))] loop of [cf_read] over the records the
    provider still has. *)
Fixpoint cf_read_loop (rescan : bool -> world -> option world)
    (max_records size : Z) (dfcode : option dfilter_t)
    (records : list (wtap_rec * Z)) (w : world) : option (read_exit * world) :=
  match records with
  | [] => Some (ReadEnd, w)
  | (rec, data_offset) :: records =>
      let after_progress (w : world) :=
        if file_state_eqb (state (w_cf w)) FILE_READ_ABORTED
        then Some (ReadAborted, w)
        else if stop_flag (w_cf w) then Some (ReadStopped, w)
        else
          let w := on_cf (fun cf => snd (read_record rec data_offset dfcode cf)) w in
          cf_read_loop rescan max_records size dfcode records w in
      if size >=? 0 then
        if count (w_cf w) =? max_records then Some (ReadTooMany, w)
        else
          match pump rescan w with
          | None => None
          | Some w => after_progress w
          end
      else after_progress w
  end.

(** [cf_read]; [max_records] is the value of the global of that name.
    [None] when the fuel does not suffice, or when [cf_close] ends the
    program. *)
Definition cf_read (fuel : nat) (max_records : Z) (wth : wtap)
    (reloading : bool) (w : world) : option (cf_read_status_t * world) :=
  if read_lock (w_cf w) then Some (CF_READ_ERROR, w)
  else
    let w := on_cf (set_read_lock true) w in
    let dfcode := compile_dfilter (w_cf w) in
    let w := tell (ReadStarted reloading) w in
    let w := on_cf (set_compression_type (wth_compression wth)) w in
    let w := on_cf (set_stop_flag false) w in
    let size := wth_file_size wth in
    match cf_read_loop (rescan_packets fuel wth) max_records size dfcode
            (wth_records wth) w with
    | None => None
    | Some (how, w) =>
        let err := match how with ReadEnd => wth_err wth | _ => 0 end in
        let w := on_cf (set_state FILE_READ_DONE) w in
        let w :=
          on_cf (fun cf =>
            set_current_frame (frame_ptr (frames cf) (first_displayed cf)) cf) w in
        let w := tell (ReadFinished reloading) w in
        let w :=
          if negb (first_displayed (w_cf w) =? 0) then tell SelectFirstRow w
          else w in
        let w := on_cf (set_read_lock false) w in
        match how with
        | ReadAborted =>
            match cf_close w with
            | None => None
            | Some w =>
                Some (CF_READ_ABORTED,
                      on_cf (set_redissection_queued RESCAN_NONE) w)
            end
        | _ =>
            let after_rescan (w : world) :=
              if stop_flag (w_cf w)
              then Some (CF_READ_ERROR, tell AlertReadCancelled w)
              else if negb (err =? 0)
              then Some (CF_READ_ERROR, tell AlertReadFailure w)
              else
                match how with
                | ReadTooMany =>
                    Some (CF_READ_ERROR, tell (AlertTooManyRecords max_records) w)
                | _ => Some (CF_READ_OK, w)
                end in
            if negb (rescan_type_eqb (redissection_queued (w_cf w)) RESCAN_NONE)
            then
              let redissect :=
                rescan_type_eqb (redissection_queued (w_cf w)) RESCAN_REDISSECT in
              match rescan_packets fuel wth redissect w with
              | None => None
              | Some w => after_rescan w
              end
            else after_rescan w
        end
    end.

(* ===================================================================== *)
(** * Record iterator *)
(* ===================================================================== *)

Section Iterator.

Context {A : Type}.
Context (rescan : bool -> world -> option world).
Context (wth : wtap).
(** The range to process, [None] for the null pointer (all frames), and the
    callback with its arguments of type [A]. *)
Context (range : option (frame_data -> range_process_e)).
Context (callback : frame_data -> wtap_rec -> A -> world -> bool * A * world).
Context (show_progress_bar : bool).

(** The [for] loop of [process_specified_records], [framenum] running up
    to [cf->count]; [todo] is the number of turns left.  A slot that the
    store does not have, where the code would follow a null pointer, ends
    the pass with [PSP_FAILED]. *)
Fixpoint psr_loop (todo : nat) (framenum : Z) (a : A) (w : world)
    : option (psp_return_t * A * world) :=
  match todo with
  | O => Some (PSP_FINISHED, a, w)
  | S todo =>
      match (if show_progress_bar then pump rescan w else Some w) with
      | None => None
      | Some w =>
          if stop_flag (w_cf w) then Some (PSP_STOPPED, a, w)
          else
            match frame_data_sequence_find (frames (w_cf w)) framenum with
            | None => Some (PSP_FAILED, a, w)
            | Some fdata =>
                let process_this :=
                  match range with
                  | Some r => r fdata
                  | None => range_process_this
                  end in
                match process_this with
                | range_process_next =>
                    psr_loop todo (wrap32 (framenum + 1)) a w
                | range_processing_finished => Some (PSP_FINISHED, a, w)
                | range_process_this =>
                    match cf_read_record wth fdata with
                    | None => Some (PSP_FAILED, a, tell AlertReadFailure w)
                    | Some rec =>
                        let '(ok, a, w) := callback fdata rec a w in
                        if ok then psr_loop todo (wrap32 (framenum + 1)) a w
                        else Some (PSP_FAILED, a, w)
                    end
                end
            end
      end
  end.

(** [process_specified_records]. *)
Definition process_specified_records (a : A) (w : world)
    : option (psp_return_t * A * world) :=
  if read_lock (w_cf w) then Some (PSP_FAILED, a, w)
  else
    let w := on_cf (set_read_lock true) w in
    let w := on_cf (set_stop_flag false) w in
    match psr_loop (Z.to_nat (count (w_cf w))) 1 a w with
    | None => None
    | Some (ret, a, w) => Some (ret, a, on_cf (set_read_lock false) w)
    end.

End Iterator.

(* ===================================================================== *)
(** * Save and export *)
(* ===================================================================== *)

Inductive rename_outcome := RenameOk | RenameEXDEV | RenameFailed.

Inductive how_to_save_t := SAVE_WITH_MOVE | SAVE_WITH_COPY | SAVE_WITH_WTAP.

(** What the operating system and the record provider answer during one
    save: the name-resolution state that steers the choice of path, which
    of the steps succeed, what a failing step leaves behind, and the
    re-reading of the file once it is written (lines 4710-4757 of file.c),
    which runs only after the save has succeeded. *)
Record save_env := {
  addrinfo_list_empty : bool;
  name_resolution_not_supported : Z -> bool;
  move_rename : rename_outcome;
  copy_ok : bool;
  copy_leaves : option nat;
  dump_open_ok : bool;
  dump_open_leaves_file : bool;
  dump_ok : Z -> bool;
  dump_close_ok : bool;
  dump_needs_reload : bool;
  final_rename_ok : bool;
  reopen_ok : bool;
  reread_saved : string -> bool -> world -> world
}.

(** Modelled from the spec: [copy_file_binary_mode] (wsutil is not among the
    sources), the "full byte copy" of the identity path.  A copy that fails
    may leave nothing or a truncated file under the target name. *)
Definition copy_file_binary_mode (env : save_env) (src : option string)
    (dst : string) (fs : gmap string file_contents)
    : bool * gmap string file_contents :=
  match src ≫= (fun s => fs !! s) with
  | None => (false, fs)
  | Some c =>
      if copy_ok env then (true, <[dst := c]> fs)
      else
        match copy_leaves env with
        | Some n => (false, <[dst := take n c]> fs)
        | None => (false, fs)
        end
  end.

(** Modelled from the spec: the format writer of the record provider
    ([wtap_dump_open], [wtap_dump], [wtap_dump_close]; wiretap is not among
    the sources).  The writer is known by the path it was opened on; a
    record it writes reaches the file only while that name still exists. *)
Definition wtap_dumper := string.

Definition wtap_dump_open (env : save_env) (path : string)
    (fs : gmap string file_contents)
    : option wtap_dumper * gmap string file_contents :=
  if dump_open_ok env then (Some path, <[path := []]> fs)
  else (None, if dump_open_leaves_file env then <[path := []]> fs else fs).

Definition wtap_dump (env : save_env) (pdh : wtap_dumper) (framenum : Z)
    (rec : wtap_rec) (fs : gmap string file_contents)
    : bool * gmap string file_contents :=
  if dump_ok env framenum then (true, alter (fun c => c ++ [rec]) pdh fs)
  else (false, fs).

Definition wtap_dump_close (env : save_env) (pdh : wtap_dumper) : bool :=
  dump_close_ok env.

(** [cap_file_provider_get_modified_block]: the edited block kept for the
    frame. *)
Fixpoint assoc_block (n : Z) (l : list (Z * wtap_block_t)) : option wtap_block_t :=
  match l with
  | [] => None
  | (k, b) :: l => if k =? n then Some b else assoc_block n l
  end.

Definition cap_file_provider_get_modified_block (cf : capture_file)
    (fd : frame_data) : option wtap_block_t :=
  assoc_block (num fd) (frames_modified_blocks cf).

Definition set_rec_block (b : option wtap_block_t) (rec : wtap_rec) : wtap_rec :=
  {| rec_is_packet := rec_is_packet rec; pkt_encap := pkt_encap rec;
     rec_caplen := rec_caplen rec; rec_len := rec_len rec;
     rec_block := b; rec_data := rec_data rec |}.

(** [save_record], the callback of the two writers; its arguments are the
    writer handle. *)
Definition save_record (env : save_env) (fdata : frame_data) (rec : wtap_rec)
    (pdh : wtap_dumper) (w : world) : bool * wtap_dumper * world :=
  let pkt_block :=
    if has_modified_block fdata
    then cap_file_provider_get_modified_block (w_cf w) fdata
    else rec_block rec in
  let new_rec := set_rec_block pkt_block rec in
  let '(ok, fs) := wtap_dump env pdh (num fdata) new_rec (w_fs w) in
  if ok then (true, pdh, tell (WtapDump (num fdata)) (with_fs fs w))
  else (false, pdh, tell (AlertWriteFailure (num fdata)) (with_fs fs w)).

(** The [fail:] label of [cf_save_records]. *)
Definition save_fail (fname_new : option string) (w : world)
    : cf_write_status_t * world :=
  let w :=
    match fname_new with
    | Some p => with_fs (ws_unlink p (w_fs w)) w
    | None => w
    end in
  (CF_WRITE_ERROR, tell SaveFailed w).

(** The test of [cf_save_records] that picks the identity path. *)
Definition save_by_copy_or_move (env : save_env) (cf : capture_file)
    (save_format compression : Z) (discard_comments : bool) : bool :=
  (save_format =? cd_t cf) && (compression =? compression_type cf)
  && negb discard_comments && negb (unsaved_changes cf)
  && (addrinfo_list_empty env || name_resolution_not_supported env save_format).

(** What [cf_save_records] does once the data is written, from the rename
    of the temporary file on.  [None] when [cf_close] ends the program. *)
Definition save_finish (env : save_env) (fname : string)
    (fname_new : option string) (how_to_save : how_to_save_t)
    (discard_comments dont_reopen : bool) (w : world)
    : option (cf_write_status_t * world) :=
  let renamed :=
    match fname_new with
    | Some p =>
        match ws_rename (final_rename_ok env) p fname (w_fs w) with
        | Some fs => Some (with_fs fs w)
        | None => None
        end
    | None => Some w
    end in
  match renamed with
  | None => Some (save_fail fname_new (tell AlertRenameFailure w))
  | Some w =>
      let w :=
        match how_to_save, is_tempfile (w_cf w), filename (w_cf w) with
        | SAVE_WITH_MOVE, _, _ => w
        | _, true, Some f => with_fs (ws_unlink f (w_fs w)) w
        | _, _, _ => w
        end in
      let w := tell SaveFinished w in
      let w := on_cf (set_unsaved_changes false) w in
      let reopened :=
        if dont_reopen then Some w
        else
          let reopened :=
            match how_to_save with
            | SAVE_WITH_MOVE =>
                let w := on_cf (set_filename (Some fname)) w in
                let w := on_cf (set_is_tempfile false) w in
                Some (tell FastSaveFinished w)
            | SAVE_WITH_COPY =>
                let reopened :=
                  if reopen_ok env then
                    let w := on_cf (set_filename (Some fname)) w in
                    Some (on_cf (set_is_tempfile false) w)
                  else cf_close (tell AlertOpenFailure w) in
                tell FastSaveFinished <$> reopened
            | SAVE_WITH_WTAP =>
                Some (reread_saved env fname (dump_needs_reload env) w)
            end in
          (fun w =>
             if discard_comments then
               let w :=
                 on_cf (fun cf =>
                   set_frames (map (set_has_modified_block false) (frames cf)) cf)
                   w in
               let w := on_cf (set_frames_modified_blocks []) w in
               on_cf (set_packet_comment_count 0) w
             else w) <$> reopened in
      (fun w => (CF_WRITE_OK, w)) <$> reopened
  end.

(** [cf_save_records].  The test of the lock at its start only logs a
    warning.  [None] when the fuel does not suffice, or when [cf_close]
    ends the program. *)
Definition cf_save_records (fuel : nat) (env : save_env) (wth : wtap)
    (fname : string) (save_format compression : Z)
    (discard_comments dont_reopen : bool) (w : world)
    : option (cf_write_status_t * world) :=
  let w := tell SaveStarted w in
  if save_by_copy_or_move env (w_cf w) save_format compression discard_comments
  then
    let moved :=
      if is_tempfile (w_cf w) then
        match move_rename env with
        | RenameOk =>
            match filename (w_cf w)
                    ≫= (fun src => ws_rename true src fname (w_fs w)) with
            | Some fs => inl (SAVE_WITH_MOVE, with_fs fs w)
            | None => inr (tell AlertRenameFailure w)
            end
        | RenameEXDEV => inl (SAVE_WITH_COPY, w)
        | RenameFailed => inr (tell AlertRenameFailure w)
        end
      else inl (SAVE_WITH_COPY, w) in
    match moved with
    | inr w => Some (save_fail None w)
    | inl (SAVE_WITH_COPY, w) =>
        let fname_new :=
          if file_exists fname (w_fs w) then Some (fname +:+ "~") else None in
        let '(ok, fs) :=
          copy_file_binary_mode env (filename (w_cf w))
            (default fname fname_new) (w_fs w) in
        let w := with_fs fs w in
        if ok then
          save_finish env fname fname_new SAVE_WITH_COPY
            discard_comments dont_reopen w
        else Some (save_fail fname_new w)
    | inl (how_to_save, w) =>
        save_finish env fname None how_to_save discard_comments dont_reopen w
    end
  else
    let fname_new :=
      if file_exists fname (w_fs w) then Some (fname +:+ "~") else None in
    match wtap_dump_open env (default fname fname_new) (w_fs w) with
    | (None, fs) =>
        Some (save_fail fname_new (tell AlertDumpOpenFailure (with_fs fs w)))
    | (Some pdh, fs) =>
        let w := with_fs fs w in
        match process_specified_records (rescan_packets fuel wth) wth None
                (save_record env) true pdh w with
        | None => None
        | Some (PSP_FINISHED, pdh, w) =>
            if wtap_dump_close env pdh then
              save_finish env fname fname_new SAVE_WITH_WTAP
                discard_comments dont_reopen w
            else Some (save_fail fname_new (tell AlertCloseFailure w))
        | Some (PSP_STOPPED, pdh, w) =>
            let _ := wtap_dump_close env pdh in
            let w :=
              match fname_new with
              | Some p => with_fs (ws_unlink p (w_fs w)) w
              | None => w
              end in
            Some (CF_WRITE_ABORTED, tell SaveStopped w)
        | Some (PSP_FAILED, pdh, w) =>
            let w :=
              match fname_new with
              | Some p => with_fs (ws_unlink p (w_fs w)) w
              | None => w
              end in
            let _ := wtap_dump_close env pdh in
            Some (save_fail fname_new w)
        end
    end.

(** The [fail:] label of [cf_export_specified_packets]. *)
Definition export_fail (fname_new : option string) (w : world)
    : cf_write_status_t * world :=
  let w :=
    match fname_new with
    | Some p => with_fs (ws_unlink p (w_fs w)) w
    | None => w
    end in
  (CF_WRITE_ERROR, w).

(** [cf_export_specified_packets]. *)
Definition cf_export_specified_packets (fuel : nat) (env : save_env)
    (wth : wtap) (fname : string) (range : frame_data -> range_process_e)
    (save_format compression : Z) (w : world)
    : option (cf_write_status_t * world) :=
  let fname_new :=
    if file_exists fname (w_fs w) then Some (fname +:+ "~") else None in
  match wtap_dump_open env (default fname fname_new) (w_fs w) with
  | (None, fs) =>
      Some (export_fail fname_new (tell AlertDumpOpenFailure (with_fs fs w)))
  | (Some pdh, fs) =>
      let w := with_fs fs w in
      match process_specified_records (rescan_packets fuel wth) wth
              (Some range) (save_record env) true pdh w with
      | None => None
      | Some (PSP_FINISHED, pdh, w) =>
          if wtap_dump_close env pdh then
            match fname_new with
            | Some p =>
                match ws_rename (final_rename_ok env) p fname (w_fs w) with
                | Some fs => Some (CF_WRITE_OK, with_fs fs w)
                | None => Some (export_fail fname_new (tell AlertRenameFailure w))
                end
            | None => Some (CF_WRITE_OK, w)
            end
          else Some (export_fail fname_new (tell AlertCloseFailure w))
      | Some (PSP_STOPPED, pdh, w) =>
          let _ := wtap_dump_close env pdh in
          let w :=
            match fname_new with
            | Some p => with_fs (ws_unlink p (w_fs w)) w
            | None => w
            end in
          Some (CF_WRITE_ABORTED, w)
      | Some (PSP_FAILED, pdh, w) =>
          let _ := wtap_dump_close env pdh in
          Some (export_fail fname_new w)
      end
  end.

End Session.

(* ===================================================================== *)
(** * More of file.c: the registry of callbacks *)
(* ===================================================================== *)

(** An entry of [cf_callbacks]: the function [cb_fct] and its [user_data],
    two pointers, which the code only ever compares. *)
Definition cf_callback_data_t : Type := Z * Z.

(** [cf_callback_add]: the new entry goes to the front
    ([g_list_prepend]). *)
Definition cf_callback_add (func user_data : Z)
    (cf_callbacks : list cf_callback_data_t) : list cf_callback_data_t :=
  (func, user_data) :: cf_callbacks.

(** [cf_callback_remove]: the first entry with this function and this
    [user_data] is taken out; [None] is the [ws_assert_not_reached] that
    ends the search when there is none. *)
Fixpoint cf_callback_remove (func user_data : Z)
    (cf_callbacks : list cf_callback_data_t)
    : option (list cf_callback_data_t) :=
  match cf_callbacks with
  | [] => None
  | cb :: cb_item =>
      if (fst cb =? func) && (snd cb =? user_data) then Some cb_item
      else
        match cf_callback_remove func user_data cb_item with
        | Some l => Some (cb :: l)
        | None => None
        end
  end.

(** [cf_callback_invoke]: the calls [cb_fct (event, data, user_data)] it
    makes, in order, each written (function, event, data, user_data).
    Its [ws_assert] that somebody is registered is left out, as the other
    assertions of that kind are. *)
Definition cf_callback_invoke (event data : Z)
    (cf_callbacks : list cf_callback_data_t) : list (Z * Z * Z * Z) :=
  map (fun cb => (fst cb, event, data, snd cb)) cf_callbacks.

(* ===================================================================== *)
(** * More of file.c: opening a file *)
(* ===================================================================== *)



(* ===================================================================== *)
(** * More of file.c: reading a live capture *)
(* ===================================================================== *)

Section LiveCapture.

Context (dfilter_compile : string -> option (option dfilter_t)).

(** The [while (to_read != 0)] loop of [cf_continue_tail] over the records
    the provider has at this time.  The result tells whether the loop
    ended because [wtap_read] had nothing more, and gives
    [newly_displayed_packets], the records the provider still has and
    the session.  The two [int] counters are integers here: they would
    need 2^31 records to wrap. *)
Fixpoint cf_continue_tail_loop (dfcode : option dfilter_t)
    (records : list (wtap_rec * Z)) (to_read newly_displayed_packets : Z)
    (cf : capture_file) : bool * Z * list (wtap_rec * Z) * capture_file :=
  if to_read =? 0 then (false, newly_displayed_packets, records, cf)
  else
    match records with
    | [] => (true, newly_displayed_packets, [], cf)
    | (rec, data_offset) :: records =>
        if file_state_eqb (state cf) FILE_READ_ABORTED
        then (false, newly_displayed_packets, records, cf)
        else
          let '(added, cf) := read_record rec data_offset dfcode cf in
          cf_continue_tail_loop dfcode records (to_read - 1)
            (if added then newly_displayed_packets + 1
             else newly_displayed_packets) cf
    end.

(** [cf_continue_tail].  [multi_select_active] is the answer of
    [packet_list_multi_select_active]; the second component of the result
    tells whether [packet_list_moveto_end] is called, the third is what
    the provider still has to deliver. *)
Definition cf_continue_tail (to_read : Z) (multi_select_active : bool)
    (wth : wtap) (w : world)
    : cf_read_status_t * bool * list (wtap_rec * Z) * world :=
  let dfcode := compile_dfilter dfilter_compile (w_cf w) in
  let '(eof, newly_displayed_packets, rest, cf) :=
    cf_continue_tail_loop dfcode (wth_records wth) to_read 0 (w_cf w) in
  let err := if eof then wth_err wth else 0 in
  let w := with_cf cf w in
  let w :=
    match current_frame (w_cf w) with
    | None => if multi_select_active then w else tell SelectFirstRow w
    | Some _ => w
    end in
  let moveto_end :=
    negb (newly_displayed_packets =? 0) && negb (count (w_cf w) =? 0) in
  if file_state_eqb (state (w_cf w)) FILE_READ_ABORTED
  then (CF_READ_ABORTED, moveto_end, rest, w)
  else if negb (err =? 0) then (CF_READ_ERROR, moveto_end, rest, w)
  else (CF_READ_OK, moveto_end, rest, w).

(** [cf_fake_continue_tail]. *)
Definition cf_fake_continue_tail (cf : capture_file) : capture_file :=
  set_state FILE_READ_DONE cf.

(** The [while (wtap_read (...))] loop of [cf_finish_tail]. *)
Fixpoint cf_finish_tail_loop (dfcode : option dfilter_t)
    (records : list (wtap_rec * Z)) (cf : capture_file) : capture_file :=
  match records with
  | [] => cf
  | (rec, data_offset) :: records =>
      if file_state_eqb (state cf) FILE_READ_ABORTED then cf
      else
        cf_finish_tail_loop dfcode records
          (snd (read_record rec data_offset dfcode cf))
  end.

(** [cf_finish_tail]; [wth] is [cf->provider.wth], [None] for the null
    pointer.  The result is [None] when [cf_close] ends the program. *)
Definition cf_finish_tail (wth : option wtap) (w : world)
    : option (cf_read_status_t * world) :=
  let dfcode := compile_dfilter dfilter_compile (w_cf w) in
  match wth with
  | None => (fun w => (CF_READ_ERROR, w)) <$> cf_close w
  | Some wth =>
      let w := on_cf (cf_finish_tail_loop dfcode (wth_records wth)) w in
      if file_state_eqb (state (w_cf w)) FILE_READ_ABORTED
      then (fun w => (CF_READ_ABORTED, w)) <$> cf_close w
      else
        let w := on_cf (set_state FILE_READ_DONE) w in
        if negb (wth_err wth =? 0) then Some (CF_READ_ERROR, w)
        else Some (CF_READ_OK, w)
  end.

End LiveCapture.

(* ===================================================================== *)
(** * More of file.c: the other matchers and the searches *)
(* ===================================================================== *)

(** A [while (i < buf_len)] loop of a byte matcher with body [step]:
    [None] when the fuel does not suffice, [Some None] when the loop ends
    without a match, [Some (Some i)] on a match ending at [i]. *)
Fixpoint scan_loop (step : Z -> Z -> scan_step) (fuel : nat)
    (buf_len i c_match : Z) : option (option Z) :=
  match fuel with
  | O => None
  | S fuel =>
      if i <? buf_len then
        match step i c_match with
        | ScanMatched i => Some (Some i)
        | ScanNext i c_match => scan_loop step fuel buf_len i c_match
        end
      else Some None
  end.

(** Body of the loop of [match_wide], including the [i += 1] that ends
    it: a byte that agrees moves [i] on by two. *)
Definition wide_step (case_type : bool) (pd ascii_text : list Z)
    (textlen i c_match : Z) : scan_step :=
  let c_char := byte_at pd i in
  let c_char := if case_type then g_ascii_toupper c_char else c_char in
  if c_char =? byte_at ascii_text c_match then
    let c_match := c_match + 1 in
    if c_match =? textlen then ScanMatched i
    else
      let i := wrap32 (i + 1) in
      ScanNext (wrap32 (i + 1)) c_match
  else
    let i := wrap32 (i - wrap32 (wrap32 c_match * 2)) in
    ScanNext (wrap32 (i + 1)) 0.

Definition match_wide (wth : wtap) (cf : capture_file) (fdata : frame_data)
    (info : cbs_t) : option (match_result * capture_file) :=
  let ascii_text := info in
  let textlen := Z.of_nat (length info) in
  match cf_read_record wth fdata with
  | None => Some (MR_ERROR, cf)
  | Some rec =>
      let buf_len := cap_len fdata in
      let pd := rec_data rec in
      match scan_loop (wide_step (case_type cf) pd ascii_text textlen)
              (scan_fuel buf_len textlen) buf_len 0 0 with
      | None => None
      | Some None => Some (MR_NOTMATCHED, cf)
      | Some (Some i) => Some (MR_MATCHED, set_search i (wrap32 textlen) cf)
      end
  end.

(** Body of the loop of [match_narrow_and_wide]: a zero byte is passed
    over. *)
Definition narrow_and_wide_step (case_type : bool) (pd ascii_text : list Z)
    (textlen i c_match : Z) : scan_step :=
  let c_char := byte_at pd i in
  let c_char := if case_type then g_ascii_toupper c_char else c_char in
  if negb (c_char =? 0) then
    if c_char =? byte_at ascii_text c_match then
      let c_match := c_match + 1 in
      if c_match =? textlen then ScanMatched i
      else ScanNext (wrap32 (i + 1)) c_match
    else
      let i := wrap32 (i - wrap32 c_match) in
      ScanNext (wrap32 (i + 1)) 0
  else ScanNext (wrap32 (i + 1)) c_match.

Definition match_narrow_and_wide (wth : wtap) (cf : capture_file)
    (fdata : frame_data) (info : cbs_t)
    : option (match_result * capture_file) :=
  let ascii_text := info in
  let textlen := Z.of_nat (length info) in
  match cf_read_record wth fdata with
  | None => Some (MR_ERROR, cf)
  | Some rec =>
      let buf_len := cap_len fdata in
      let pd := rec_data rec in
      match scan_loop (narrow_and_wide_step (case_type cf) pd ascii_text textlen)
              (scan_fuel buf_len textlen) buf_len 0 0 with
      | None => None
      | Some None => Some (MR_NOTMATCHED, cf)
      | Some (Some i) => Some (MR_MATCHED, set_search i (wrap32 textlen) cf)
      end
  end.

(** [match_dfilter]: the frame is read again and dissected, and the
    search filter is evaluated on the dissection.  [fdata] points to the
    frame that the store lists under its number, and the dissection
    leaves its mark there. *)
Definition match_dfilter (wth : wtap) (sfcode : dfilter_t) : ws_match_function :=
  fun cf fdata =>
    match cf_read_record wth fdata with
    | None => (MR_ERROR, cf)
    | Some rec =>
        let fd := epan_dissect_run fdata in
        let cf := set_frames (frame_store_set (frames cf) (num fdata) fd) cf in
        (if dfilter_apply_edt sfcode fd rec then MR_MATCHED
         else MR_NOTMATCHED, cf)
    end.

(** [cf_find_packet_marked], [cf_find_packet_time_reference] and
    [cf_find_packet_dfilter]. *)
Definition cf_find_packet_marked (fuel : nat) (gui_find_wrap : bool)
    (cancel : nat -> bool) (found_row : Z -> bool) (dir : search_direction)
    (cf : capture_file) : option (bool * capture_file * list Z) :=
  find_packet fuel gui_find_wrap cancel found_row match_marked dir cf.

Definition cf_find_packet_time_reference (fuel : nat) (gui_find_wrap : bool)
    (cancel : nat -> bool) (found_row : Z -> bool) (dir : search_direction)
    (cf : capture_file) : option (bool * capture_file * list Z) :=
  find_packet fuel gui_find_wrap cancel found_row match_time_reference dir cf.

Definition cf_find_packet_dfilter (fuel : nat) (gui_find_wrap : bool)
    (cancel : nat -> bool) (found_row : Z -> bool) (wth : wtap)
    (sfcode : dfilter_t) (dir : search_direction) (cf : capture_file)
    : option (bool * capture_file * list Z) :=
  find_packet fuel gui_find_wrap cancel found_row (match_dfilter wth sfcode)
    dir cf.

(* ===================================================================== *)
(** * More of file.c: marks and edited blocks *)
(* ===================================================================== *)

Definition set_marked (v : bool) (fd : frame_data) : frame_data :=
  {| num := num fd; file_off := file_off fd; cap_len := cap_len fd;
     pkt_len := pkt_len fd; passed_dfilter := passed_dfilter fd;
     ref_time := ref_time fd; marked := v; visited := visited fd;
     has_modified_block := has_modified_block fd |}.

(** [cf_mark_frame] and [cf_unmark_frame].  [frame] points into the
    store; the counter [cf->marked_count], a [guint32] that the session
    record does not carry, is passed and returned beside the session. *)
Definition cf_mark_frame (frame : Z) (marked_count : Z) (cf : capture_file)
    : Z * capture_file :=
  match frame_data_sequence_find (frames cf) frame with
  | None => (marked_count, cf)
  | Some fd =>
      if negb (marked fd) then
        let cf :=
          set_frames (frame_store_set (frames cf) frame (set_marked true fd)) cf in
        (if count cf >? marked_count then wrap32 (marked_count + 1)
         else marked_count, cf)
      else (marked_count, cf)
  end.

Definition cf_unmark_frame (frame : Z) (marked_count : Z) (cf : capture_file)
    : Z * capture_file :=
  match frame_data_sequence_find (frames cf) frame with
  | None => (marked_count, cf)
  | Some fd =>
      if marked fd then
        let cf :=
          set_frames (frame_store_set (frames cf) frame (set_marked false fd)) cf in
        (if marked_count >? 0 then wrap32 (marked_count - 1)
         else marked_count, cf)
      else (marked_count, cf)
  end.

(** [cf_get_packet_block]: the edited block of the frame if it has one,
    else the block of the record as the file has it (none when the record
    cannot be read). *)
Definition cf_get_packet_block (wth : wtap) (cf : capture_file)
    (fd : frame_data) : option wtap_block_t :=
  if has_modified_block fd then cap_file_provider_get_modified_block cf fd
  else
    match cf_read_record wth fd with
    | Some rec => rec_block rec
    | None => None
    end.

(** The edited blocks, kept by frame number: putting one in the place of
    an earlier one, and forgetting one. *)
Fixpoint assoc_replace (n : Z) (b : wtap_block_t) (l : list (Z * wtap_block_t))
    : list (Z * wtap_block_t) :=
  match l with
  | [] => [(n, b)]
  | (k, b') :: l =>
      if k =? n then (n, b) :: l else (k, b') :: assoc_replace n b l
  end.

Fixpoint assoc_remove (n : Z) (l : list (Z * wtap_block_t))
    : list (Z * wtap_block_t) :=
  match l with
  | [] => []
  | (k, b') :: l =>
      if k =? n then assoc_remove n l else (k, b') :: assoc_remove n l
  end.

(** Modelled from the spec: [cap_file_provider_set_modified_block]
    (cfile.c is not among the sources) keeps the edited per-record
    metadata block for the frame, in the place of an earlier one, and
    flags the frame as having an edited block.  A null block is kept as
    no block. *)
Definition cap_file_provider_set_modified_block (fd : Z)
    (new_block : option wtap_block_t) (cf : capture_file) : capture_file :=
  match frame_data_sequence_find (frames cf) fd with
  | None => cf
  | Some fdata =>
      let cf :=
        set_frames_modified_blocks
          (match new_block with
           | Some b => assoc_replace (num fdata) b (frames_modified_blocks cf)
           | None => assoc_remove (num fdata) (frames_modified_blocks cf)
           end) cf in
      set_frames
        (frame_store_set (frames cf) fd (set_has_modified_block true fdata)) cf
  end.

(** The number of comments of a block ([wtap_block_count_option] for
    [OPT_COMMENT]), as [read_record] counts them. *)
Definition block_comments (b : option wtap_block_t) : Z :=
  match b with
  | Some block => Z.of_nat (length block)
  | None => 0
  end.

(** [cf_set_modified_block].  [fd] points into the store.  The test
    [pkt_block == new_block] compares two pointers: two null pointers
    are equal, a null pointer and a block are not, and for two blocks
    [in_place] tells whether [new_block] is the very block that
    [cf_get_packet_block] returned, which the caller has then changed
    already.  The counter [cf->packet_comment_count] is unsigned; its
    type is declared in cfile.h, which is not among the sources, and
    [comment_count_bits] is the number of its bits. *)
Definition cf_set_modified_block (comment_count_bits : Z) (wth : wtap) (fd : Z)
    (new_block : option wtap_block_t) (in_place : bool) (cf : capture_file)
    : bool * capture_file :=
  match frame_data_sequence_find (frames cf) fd with
  | None => (true, set_unsaved_changes true cf)
  | Some fdata =>
      let pkt_block := cf_get_packet_block wth cf fdata in
      let same_block :=
        match pkt_block, new_block with
        | None, None => true
        | Some _, Some _ => in_place
        | _, _ => false
        end in
      let cf :=
        if same_block then cf
        else
          let cf :=
            set_packet_comment_count
              (wrap_bits comment_count_bits
                 (packet_comment_count cf - block_comments pkt_block)) cf in
          let cf :=
            set_packet_comment_count
              (wrap_bits comment_count_bits
                 (packet_comment_count cf + block_comments new_block)) cf in
          cap_file_provider_set_modified_block fd new_block cf in
      (true, set_unsaved_changes true cf)
  end.

(* ===================================================================== *)
(** * More of file.c: what can be saved *)
(* ===================================================================== *)

(** [cf_can_write_with_wiretap], [cf_can_save], [cf_can_save_as] and
    [cf_has_unsaved_data]; [wtap_dump_can_write] is the answer of the
    record provider for the link types of the file. *)
Definition cf_can_write_with_wiretap (wtap_dump_can_write : list Z -> bool)
    (cf : capture_file) : bool :=
  wtap_dump_can_write (linktypes cf).

Definition cf_can_save (wtap_dump_can_write : list Z -> bool)
    (cf : capture_file) : bool :=
  if unsaved_changes cf && wtap_dump_can_write (linktypes cf) then true
  else if is_tempfile cf && negb (unsaved_changes cf) then true
  else false.

Definition cf_can_save_as (wtap_dump_can_write : list Z -> bool)
    (cf : capture_file) : bool :=
  if wtap_dump_can_write (linktypes cf) then true
  else if is_tempfile cf && negb (unsaved_changes cf) then true
  else false.

Definition cf_has_unsaved_data (cf : capture_file) : bool :=
  (is_tempfile cf && (count cf >? 0)) || unsaved_changes cf.

(* ===================================================================== *)
(** * Vocabulary of the statements *)
(* ===================================================================== *)

(** What dissecting a frame against the display filter leaves in it. *)
Definition dissected (dfcode : option dfilter_t) (rec : wtap_rec)
    (fd : frame_data) : frame_data :=
  let fd := epan_dissect_run fd in
  match dfcode with
  | Some code => set_passed_dfilter (dfilter_apply_edt code fd rec) fd
  | None => set_passed_dfilter true fd
  end.

(** The store lists frame [n] in slot [n], and the random-access read of
    every frame succeeds. *)
Definition store_ok (wth : wtap) (fds : list frame_data) : Prop :=
  forall n fd, frame_data_sequence_find fds n = Some fd ->
    num fd = n /\ is_Some (wth_seek_read wth (file_off fd)).

(** What one turn of a rescan leaves in the frame it visits. *)
Definition rescanned (redissect : bool) (dfcode : option dfilter_t)
    (rec : wtap_rec) (fd : frame_data) : frame_data :=
  dissected dfcode rec (if redissect then frame_data_reset fd else fd).

Definition passes (fds : list frame_data) (q : Z) : bool :=
  ptr_passed_dfilter fds (Some q).

(** The bookkeeping of the selection after the frames up to [k] have been
    visited, [s] being the selected frame. *)
Record sel_inv (s k : Z) (v : rescan_vars) (fds : list frame_data) : Prop := {
  si_seen : selected_frame_seen v = bool_decide (s <= k);
  si_prev : if decide (k = 0)
            then prev_frame v = None /\ prev_frame_num v = -1
            else prev_frame v = Some k /\ prev_frame_num v = k;
  si_sel : selected_frame_num v
           = if bool_decide (s <= k) && passes fds s then s else -1;
  si_prec : match preceding_frame v with
            | Some p => preceding_frame_num v = p /\ 1 <= p < s /\ p < k
                /\ passes fds p = true
                /\ (forall q, p < q -> q < s -> q < k -> passes fds q = false)
            | None => preceding_frame_num v = -1
                /\ (forall q, 1 <= q -> q < s -> q < k -> passes fds q = false)
            end;
  si_foll : match following_frame v with
            | Some q => following_frame_num v = q /\ s < q <= k
                /\ passes fds q = true
                /\ (forall r, s < r -> r < q -> passes fds r = false)
            | None => following_frame_num v = -1
                /\ (forall r, s < r -> r <= k -> passes fds r = false)
            end
}.

(** The parts of the world that a scan carries along unchanged. *)
Definition same_control (w w' : world) : Prop :=
  w_ui w' = w_ui w /\ w_fs w' = w_fs w
  /\ count (w_cf w') = count (w_cf w)
  /\ current_frame (w_cf w') = current_frame (w_cf w)
  /\ read_lock (w_cf w') = read_lock (w_cf w)
  /\ redissection_queued (w_cf w') = redissection_queued (w_cf w)
  /\ stop_flag (w_cf w') = stop_flag (w_cf w)
  /\ redissecting (w_cf w') = redissecting (w_cf w)
  /\ state (w_cf w') = state (w_cf w)
  /\ dfilter (w_cf w') = dfilter (w_cf w)
  /\ length (frames (w_cf w')) = length (frames (w_cf w)).

(** The frame that [read_record] makes of a record: with a read filter
    it has been dissected. *)
Definition new_frame (cf : capture_file) (rec : wtap_rec) (offset : Z)
    : frame_data :=
  let fdlocal := frame_data_init (wrap32 (count cf + 1)) rec offset in
  match rfcode cf with
  | Some _ => epan_dissect_run fdlocal
  | None => fdlocal
  end.

(** Whether [read_record] keeps a record. *)
Definition read_filter_passes (cf : capture_file) (rec : wtap_rec) (offset : Z)
    : bool :=
  match rfcode cf with
  | Some code =>
      dfilter_apply_edt code
        (epan_dissect_run (frame_data_init (wrap32 (count cf + 1)) rec offset)) rec
  | None => true
  end.

(** The session fields that ingesting a record never touches. *)
Definition same_mode (cf cf' : capture_file) : Prop :=
  rfcode cf' = rfcode cf /\ redissecting cf' = redissecting cf
  /\ redissection_queued cf' = redissection_queued cf
  /\ state cf' = state cf /\ stop_flag cf' = stop_flag cf
  /\ read_lock cf' = read_lock cf /\ dfilter cf' = dfilter cf
  /\ current_frame cf' = current_frame cf.

(** The frames of the store are numbered 1, 2, ..., [count]. *)
Definition dense (cf : capture_file) : Prop :=
  0 <= count cf /\ map num (frames cf) = seqZ 1 (count cf).

(** Every frame of the store is displayed: it passed the filter and the
    display counters say so. *)
Definition all_displayed (cf : capture_file) : Prop :=
  Forall (fun fd => passed_dfilter fd = true) (frames cf)
  /\ displayed_count cf = count cf
  /\ first_displayed cf = (if count cf =? 0 then 0 else 1)
  /\ last_displayed cf = count cf.

(** The pending-rescan slot is ordered: nothing, a rescan, a redissection. *)
Definition rescan_rank (q : rescan_type) : nat :=
  match q with
  | RESCAN_NONE => 0
  | RESCAN_SCAN => 1
  | RESCAN_REDISSECT => 2
  end.

(** The scans that were started, in order, each with its [redissect]
    argument. *)
Definition scans_of (log : list ui_call) : list bool :=
  omap (fun c => match c with RescanStarted r => Some r | _ => None end) log.

Definition is_request (ev : ui_event) : bool :=
  match ev with
  | UiFilter _ _ | UiRedissect => true
  | UiStop | UiQuit => false
  end.

(** What a request leaves alone when it finds the lock held. *)
Definition only_queued (w w' : world) : Prop :=
  read_lock (w_cf w') = true
  /\ (rescan_rank (redissection_queued (w_cf w))
      <= rescan_rank (redissection_queued (w_cf w')))%nat
  /\ state (w_cf w') = state (w_cf w)
  /\ stop_flag (w_cf w') = stop_flag (w_cf w)
  /\ count (w_cf w') = count (w_cf w)
  /\ frames (w_cf w') = frames (w_cf w)
  /\ rfcode (w_cf w') = rfcode (w_cf w)
  /\ redissecting (w_cf w') = redissecting (w_cf w)
  /\ current_frame (w_cf w') = current_frame (w_cf w)
  /\ w_ui w' = w_ui w /\ w_fs w' = w_fs w
  /\ scans_of (w_log w') = scans_of (w_log w).

(** The pattern occurs in the text as a contiguous run of bytes. *)
Definition substring_of (pat txt : list Z) : Prop :=
  exists pre post, txt = pre ++ pat ++ post.

(** It does so starting at position [s]. *)
Definition occurs_at (pat txt : list Z) (s : nat) : Prop :=
  forall j, (j < length pat)%nat -> txt !! (s + j)%nat = pat !! j.

Definition fold_case (case_type : bool) (c : Z) : Z :=
  if case_type then g_ascii_toupper c else c.

(** What the matchers compare the pattern with: the first [buf_len] bytes
    of the buffer, folded in case-insensitive mode. *)
Definition scanned_text (case_type : bool) (pd : list Z) (buf_len : Z) : list Z :=
  map (fold_case case_type) (take (Z.to_nat buf_len) pd).

(** The state of a scan: no occurrence starts before [i - c_match], and
    the [c_match] bytes before [i] agree with the start of the pattern. *)
Record scan_inv (pat txt : list Z) (buf_len i c : Z) : Prop := {
  inv_c : 0 <= c <= i;
  inv_i : i <= buf_len;
  inv_len : c < Z.of_nat (length pat);
  inv_before : forall s, Z.of_nat s < i - c -> ~ occurs_at pat txt s;
  inv_partial : forall j, (Z.of_nat j < c) ->
      txt !! (Z.to_nat (i - c) + j)%nat = pat !! j
}.

(** The outcome of a matcher, given the text it compares the pattern with. *)
Definition scan_outcome (pat txt : list Z) (cf : capture_file)
    (res : option (match_result * capture_file)) : Prop :=
  exists r cf', res = Some (r, cf')
    /\ (r = MR_MATCHED <-> substring_of pat txt)
    /\ (r <> MR_MATCHED -> r = MR_NOTMATCHED /\ cf' = cf)
    /\ (r = MR_MATCHED ->
        exists s, occurs_at pat txt s
          /\ (forall s', (s' < s)%nat -> ~ occurs_at pat txt s')
          /\ search_pos cf' = Z.of_nat s + Z.of_nat (length pat) - 1
          /\ search_len cf' = Z.of_nat (length pat)
          /\ cf' = set_search (search_pos cf') (search_len cf') cf).

(** The number of turns that a search which finds nothing takes from
    [framenum = k] until it is back at its start, the selected frame [s]
    of a store of [n] frames. *)
Definition turns_left (dir : search_direction) (wrap : bool) (n s k : Z) : Z :=
  match dir with
  | SD_FORWARD =>
      if k <? s then s - k else if wrap then n - k + s else n - k + 1
  | SD_BACKWARD =>
      if s <? k then k - s else if wrap then k + n - s else k
  end.

(** The number of turns that are left once frame [e] has been visited. *)
Definition turns_after (dir : search_direction) (wrap : bool) (n s e : Z) : Z :=
  if decide (e = s) then 0 else turns_left dir wrap n s e.

(** The frames the format writer was handed, in order. *)
Definition dumps_of (log : list ui_call) : list Z :=
  omap (fun c => match c with WtapDump n => Some n | _ => None end) log.

(** What the events that arrive while a scan holds the lock leave alone. *)
Definition held (w w' : world) : Prop :=
  read_lock (w_cf w') = true
  /\ count (w_cf w') = count (w_cf w)
  /\ frames (w_cf w') = frames (w_cf w)
  /\ rfcode (w_cf w') = rfcode (w_cf w)
  /\ redissecting (w_cf w') = redissecting (w_cf w)
  /\ w_ui w' = w_ui w
  /\ w_fs w' = w_fs w
  /\ filename (w_cf w') = filename (w_cf w)
  /\ is_tempfile (w_cf w') = is_tempfile (w_cf w)
  /\ frames_modified_blocks (w_cf w') = frames_modified_blocks (w_cf w)
  /\ dumps_of (w_log w') = dumps_of (w_log w).

(** What a pass of the iterator that writes to [pdh] leaves alone. *)
Definition saving (pdh : string) (w w' : world) : Prop :=
  read_lock (w_cf w') = read_lock (w_cf w)
  /\ count (w_cf w') = count (w_cf w)
  /\ frames (w_cf w') = frames (w_cf w)
  /\ filename (w_cf w') = filename (w_cf w)
  /\ is_tempfile (w_cf w') = is_tempfile (w_cf w)
  /\ (forall p, p <> pdh -> w_fs w' !! p = w_fs w !! p).

(** What the file under the writer and the log of its calls hold once
    [todo] frames from slot [k] on have been written. *)
Definition written (pdh : string) (todo : nat) (k : Z) (w w' : world) : Prop :=
  forall c, w_fs w !! pdh = Some c ->
    exists c', w_fs w' !! pdh = Some (c ++ c') /\ length c' = todo
      /\ dumps_of (w_log w') = dumps_of (w_log w)
           ++ map num (take todo (drop (Z.to_nat (k - 1)) (frames (w_cf w)))).




(** Every event of the oracle is a change of filter or a redissection
    request. *)
Definition requests_only (ui : list (list ui_event)) : Prop :=
  Forall (Forall (fun ev => is_request ev = true)) ui.

(** The record that the writer hands over for a frame: the record as the
    file has it, carrying the edited block of the frame if it has one. *)
Definition record_to_save (cf : capture_file) (wth : wtap) (fd : frame_data)
    : option wtap_rec :=
  match cf_read_record wth fd with
  | Some rec =>
      Some (set_rec_block
              (if has_modified_block fd
               then cap_file_provider_get_modified_block cf fd
               else rec_block rec) rec)
  | None => None
  end.

(** The frames that a range picks from the frames in their order, up to
    where it says that it is finished; no range picks them all. *)
Fixpoint picked_by (range : option (frame_data -> range_process_e))
    (fds : list frame_data) : list frame_data :=
  match fds with
  | [] => []
  | fd :: fds =>
      match (match range with Some r => r fd | None => range_process_this end) with
      | range_process_this => fd :: picked_by range fds
      | range_process_next => picked_by range fds
      | range_processing_finished => []
      end
  end.

(** [recs] are the records to save of the frames [fds], in order. *)
Definition records_of (cf : capture_file) (wth : wtap)
    (fds : list frame_data) (recs : list wtap_rec) : Prop :=
  Forall2 (fun fd rec => record_to_save cf wth fd = Some rec) fds recs.

(** The frames that a search goes through after the frame [p] it starts
    from, in the order of their turns: the frames behind [p] in the
    direction of the search up to the end of the file and then, with
    wrap-around, the frames from the other end up to [p].  A search with
    nothing selected starts from [p = 0]. *)
Definition search_body (dir : search_direction) (wrap : bool) (n p : Z)
    : list Z :=
  match dir with
  | SD_FORWARD => seqZ (p + 1) (n - p) ++ (if wrap then seqZ 1 (p - 1) else [])
  | SD_BACKWARD =>
      reverse (seqZ 1 (p - 1))
      ++ (if wrap then reverse (seqZ (p + 1) (n - p)) else [])
  end.

(** The turns of one round of a search: the frame it starts from comes
    last. *)
Definition search_order (dir : search_direction) (wrap : bool) (n : Z)
    (start : option Z) : list Z :=
  search_body dir wrap n (default 0 start)
  ++ match start with Some s => [s] | None => [] end.

(** What the turn on slot [e] finds, [verdict] being the answer of the
    criterion for a frame: a frame that is not displayed is passed over. *)
Definition verdict_at (verdict : frame_data -> match_result)
    (fds : list frame_data) (e : Z) : match_result :=
  match frame_data_sequence_find fds e with
  | Some fd => if passed_dfilter fd then verdict fd else MR_NOTMATCHED
  | None => MR_NOTMATCHED
  end.

(** The frame number of the turn after [k]. *)
Definition next_frame (dir : search_direction) (wrap : bool) (n p k : Z) : Z :=
  match dir with
  | SD_BACKWARD => if k <=? 1 then if wrap then n else p else wrap32 (k - 1)
  | SD_FORWARD => if k =? n then if wrap then 1 else p else wrap32 (k + 1)
  end.

(** [l] are the frame numbers of the turns after [k]. *)
Fixpoint turns_from (dir : search_direction) (wrap : bool) (n p k : Z)
    (l : list Z) : Prop :=
  match l with
  | [] => True
  | x :: l => x = next_frame dir wrap n p k /\ turns_from dir wrap n p x l
  end.

(** The displayed ones among the frames [l]. *)
Definition displayed_among (fds : list frame_data) (l : list Z) : list Z :=
  filter (fun e => passes fds e = true) l.

(** The answer of [match_dfilter] for a frame. *)
Definition dfilter_verdict (wth : wtap) (sfcode : dfilter_t) (fd : frame_data)
    : match_result :=
  match cf_read_record wth fd with
  | None => MR_ERROR
  | Some rec =>
      if dfilter_apply_edt sfcode (epan_dissect_run fd) rec then MR_MATCHED
      else MR_NOTMATCHED
  end.

(** The store once the frames whose numbers are in [l] have been
    dissected. *)
Definition dissected_at (l : list Z) (fds : list frame_data) : list frame_data :=
  map (fun fd => if bool_decide (num fd ∈ l) then epan_dissect_run fd else fd) fds.

(** The number of frames that are marked. *)
Definition marked_frames (fds : list frame_data) : Z :=
  Z.of_nat (length (filter (fun fd => marked fd = true) fds)).

(** A frame is on display: it passed the display filter or it is a time
    reference. *)
Definition shown (fd : frame_data) : bool := passed_dfilter fd || ref_time fd.

Definition shown_frames (fds : list frame_data) : list frame_data :=
  filter (fun fd => shown fd = true) fds.

(** The display counters of the session are those of the frames [fds]:
    how many of them are on display, and the numbers of the first and of
    the last of these, 0 when there is none. *)
Definition counters_of (fds : list frame_data) (cf : capture_file) : Prop :=
  displayed_count cf = Z.of_nat (length (shown_frames fds))
  /\ first_displayed cf = default 0 (num <$> head (shown_frames fds))
  /\ last_displayed cf = default 0 (num <$> last (shown_frames fds)).

(** [fd'] is what a scan leaves of the frame [fd]: the record of the frame
    is read again and the frame is dissected against the filter. *)
Definition rescan_of (wth : wtap) (redissect : bool)
    (dfcode : option dfilter_t) (fd fd' : frame_data) : Prop :=
  exists rec,
    cf_read_record wth fd = Some rec
    /\ fd' = rescanned redissect dfcode rec fd.

(** The number of records that [cf_continue_tail] takes from the
    [available] ones when it is asked for [to_read]: a negative number
    asks for all there is. *)
Definition taken (to_read : Z) (available : nat) : nat :=
  if to_read <? 0 then available else Nat.min (Z.to_nat to_read) available.

(** The record provider once its first [n] records have been handed
    over. *)
Definition wtap_after (n : nat) (wth : wtap) : wtap :=
  {| wth_records := drop n (wth_records wth); wth_err := wth_err wth;
     wth_file_size := wth_file_size wth;
     wth_compression := wth_compression wth;
     wth_seek_read := wth_seek_read wth |}.

(** The pattern occurs in the text from position [s] on at every other
    byte, as the low bytes of two-byte characters do. *)
Definition occurs_wide_at (pat txt : list Z) (s : nat) : Prop :=
  forall j, (j < length pat)%nat -> txt !! (s + 2 * j)%nat = pat !! j.

(** The state of the scan of [match_wide]: no wide occurrence starts
    before [i - 2 * c], and the [c] bytes at every other position from
    there on agree with the start of the pattern. *)
Record wide_inv (pat txt : list Z) (buf_len i c : Z) : Prop := {
  winv_c : 0 <= c;
  winv_s : 0 <= i - 2 * c <= buf_len;
  winv_len : c < Z.of_nat (length pat);
  winv_before : forall s, Z.of_nat s < i - 2 * c -> ~ occurs_wide_at pat txt s;
  winv_partial : forall j, (Z.of_nat j < c) ->
      txt !! (Z.to_nat (i - 2 * c) + 2 * j)%nat = pat !! j
}.

(** The bytes of the text that are not zero. *)
Definition without_zeros (txt : list Z) : list Z :=
  filter (fun b => b <> 0) txt.

(** The state of the scan of [match_narrow_and_wide]: no contiguous
    occurrence starts before [i - c], and the bytes before [i] that are
    not zero end with the first [c] bytes of the pattern. *)
Record mixed_inv (pat txt : list Z) (buf_len i c : Z) : Prop := {
  minv_c : 0 <= c <= i;
  minv_s : i - c <= buf_len;
  minv_len : c < Z.of_nat (length pat);
  minv_before : forall s, Z.of_nat s < i - c -> ~ occurs_at pat txt s;
  minv_partial : exists pre,
      without_zeros (take (Z.to_nat i) txt) = pre ++ take (Z.to_nat c) pat
}.

(* ===================================================================== *)
(** * Sample sessions *)
(* ===================================================================== *)

(** A filter compiler for which every text is the empty filter. *)
Definition no_filter : string -> option (option dfilter_t) :=
  fun _ => Some None.

(** A filter compiler whose filters let every frame but frame 2 pass. *)
Definition not_frame_2 : string -> option (option dfilter_t) :=
  fun _ => Some (Some (fun fd _ => negb (num fd =? 2))).

(** A packet of three bytes, the first of them [b]. *)
Definition sample_rec (b : Z) : wtap_rec :=
  {| rec_is_packet := true; pkt_encap := 1; rec_caplen := 3; rec_len := 3;
     rec_block := None; rec_data := [b; 98; 99] |}.

(** A capture file of three such packets, whose size the provider reports
    as [size]. *)
Definition sample_wth (size : Z) : wtap :=
  {| wth_records := [(sample_rec 97, 0); (sample_rec 100, 3); (sample_rec 103, 6)];
     wth_err := 0; wth_file_size := size; wth_compression := 0;
     wth_seek_read := fun off => Some (sample_rec (97 + off)) |}.

(** A session just opened on a file, nothing read yet. *)
Definition opened_session : capture_file :=
  {| state := FILE_READ_IN_PROGRESS; filename := Some "capture.pcap";
     is_tempfile := false; unsaved_changes := false; cd_t := 1;
     compression_type := 0; count := 0; packet_comment_count := 0;
     displayed_count := 0; f_datalen := 0; linktypes := []; frames := [];
     frames_modified_blocks := []; prev_dis := None; prev_cap := None;
     first_displayed := 0; last_displayed := 0; current_frame := None;
     rfcode := None; dfilter := None; read_lock := false; stop_flag := false;
     redissecting := false; redissection_queued := RESCAN_NONE;
     case_type := false; search_pos := 0; search_len := 0 |}.

Definition sample_frame (n : Z) : frame_data :=
  {| num := n; file_off := 3 * (n - 1); cap_len := 3; pkt_len := 3;
     passed_dfilter := true;
     ref_time := false; marked := false; visited := true;
     has_modified_block := false |}.

(** The session once the three packets are read, frame [sel] selected;
    [tmp] tells whether the file is the temporary file of a live capture,
    [lock] whether a read or scan is pending, [edited] whether there
    are changes that are not saved. *)
Definition loaded_session (sel : option Z) (tmp lock edited : bool)
    : capture_file :=
  {| state := FILE_READ_DONE; filename := Some "capture.pcap";
     is_tempfile := tmp; unsaved_changes := edited; cd_t := 1;
     compression_type := 0; count := 3; packet_comment_count := 0;
     displayed_count := 3; f_datalen := 9; linktypes := [1];
     frames := [sample_frame 1; sample_frame 2; sample_frame 3];
     frames_modified_blocks := []; prev_dis := Some 3; prev_cap := Some 3;
     first_displayed := 1; last_displayed := 3; current_frame := sel;
     rfcode := None; dfilter := None; read_lock := lock; stop_flag := false;
     redissecting := false; redissection_queued := RESCAN_NONE;
     case_type := true; search_pos := 0; search_len := 0 |}.

(** The same session when no frame has been dissected since the last
    reset. *)
Definition unvisited_session (sel : option Z) : capture_file :=
  set_frames
    (map (set_visited false) (frames (loaded_session sel false false false)))
    (loaded_session sel false false false).

(** The capture file on disk, and a file that a save would overwrite. *)
Definition sample_fs : gmap string file_contents :=
  <["out.pcap" := [sample_rec 0]]>
    (<["capture.pcap" := [sample_rec 97; sample_rec 100; sample_rec 103]]> ∅).

Definition sample_world (cf : capture_file) (ui : list (list ui_event))
    : world :=
  {| w_cf := cf; w_ui := ui; w_log := []; w_fs := sample_fs |}.

(** A filter change followed by a request to redissect. *)
Definition filter_then_redissect : list ui_event :=
  [UiFilter (Some "tcp") false; UiRedissect].

(** An environment in which every step of a save succeeds, except that
    the writer fails on the frames [fails] picks. *)
Definition sample_env (fails : Z -> bool) : save_env :=
  {| addrinfo_list_empty := true;
     name_resolution_not_supported := fun _ => false;
     move_rename := RenameOk; copy_ok := true; copy_leaves := None;
     dump_open_ok := true; dump_open_leaves_file := false;
     dump_ok := fun n => negb (fails n); dump_close_ok := true;
     dump_needs_reload := false; final_rename_ok := true; reopen_ok := true;
     reread_saved := fun _ _ w => w |}.



(* ===================================================================== *)
(** * Properties *)
(* ===================================================================== *)

Lemma wrap32_small x : 0 <= x <= G_MAXUINT32 -> wrap32 x = x.
Proof. unfold wrap32, G_MAXUINT32. intros. apply Z.mod_small. lia. Qed.

(** ** The frame store *)

Lemma find_lookup fds n :
  1 <= n -> frame_data_sequence_find fds n = fds !! Z.to_nat (n - 1).
Proof. intros. unfold frame_data_sequence_find. destruct (Z.leb_spec n 0); [lia|done]. Qed.

Lemma find_Some_range fds n fd :
  frame_data_sequence_find fds n = Some fd -> 1 <= n <= Z.of_nat (length fds).
Proof.
  unfold frame_data_sequence_find. destruct (Z.leb_spec n 0) as [Hle|Hgt]; [done|].
  intros H. apply lookup_lt_Some in H. lia.
Qed.

Lemma find_is_Some fds n :
  1 <= n <= Z.of_nat (length fds) -> is_Some (frame_data_sequence_find fds n).
Proof. intros. rewrite find_lookup by lia. apply lookup_lt_is_Some. lia. Qed.

Lemma find_elem_of fds n fd :
  frame_data_sequence_find fds n = Some fd -> fd ∈ fds.
Proof.
  unfold frame_data_sequence_find. destruct (n <=? 0); [done|].
  intros H. eapply list_elem_of_lookup_2, H.
Qed.

Lemma store_set_length fds n fd :
  length (frame_store_set fds n fd) = length fds.
Proof. apply length_insert. Qed.

Lemma store_set_find_same fds n fd fd' :
  frame_data_sequence_find fds n = Some fd ->
  frame_data_sequence_find (frame_store_set fds n fd') n = Some fd'.
Proof.
  intros H. pose proof (find_Some_range _ _ _ H).
  rewrite find_lookup by lia. unfold frame_store_set.
  apply list_lookup_insert_eq. lia.
Qed.

Lemma store_set_find_other fds n m fd' :
  1 <= n -> 1 <= m -> n <> m ->
  frame_data_sequence_find (frame_store_set fds n fd') m
  = frame_data_sequence_find fds m.
Proof.
  intros. rewrite !find_lookup by lia. unfold frame_store_set.
  apply list_lookup_insert_ne. lia.
Qed.

Lemma store_set_map_num fds n fd fd' :
  frame_data_sequence_find fds n = Some fd -> num fd' = num fd ->
  map num (frame_store_set fds n fd') = map num fds.
Proof.
  intros H Hn. pose proof (find_Some_range _ _ _ H).
  rewrite find_lookup in H by lia. unfold frame_store_set.
  rewrite list_fmap_insert, Hn. apply list_insert_id.
  by rewrite list_lookup_fmap, H.
Qed.

Lemma dissected_num dfcode rec fd : num (dissected dfcode rec fd) = num fd.
Proof. unfold dissected. by destruct dfcode. Qed.

Lemma dissected_ref_time dfcode rec fd :
  ref_time (dissected dfcode rec fd) = ref_time fd.
Proof. unfold dissected. by destruct dfcode. Qed.

Lemma dissected_no_filter rec fd : passed_dfilter (dissected None rec fd) = true.
Proof. done. Qed.

Lemma add_packet_frames p dfcode rec add cf fd :
  frame_data_sequence_find (frames cf) p = Some fd ->
  frames (add_packet_to_packet_list p dfcode rec add cf)
  = frame_store_set (frames cf) p (dissected dfcode rec fd).
Proof.
  intros H. unfold add_packet_to_packet_list. rewrite H.
  fold (dissected dfcode rec fd).
  destruct (passed_dfilter (dissected dfcode rec fd) || ref_time (dissected dfcode rec fd)); [|done].
  cbn. by destruct (first_displayed cf =? 0).
Qed.

Lemma add_packet_count p dfcode rec add cf :
  count (add_packet_to_packet_list p dfcode rec add cf) = count cf.
Proof.
  unfold add_packet_to_packet_list.
  destruct (frame_data_sequence_find (frames cf) p) as [fd|]; [|done].
  fold (dissected dfcode rec fd).
  destruct (passed_dfilter (dissected dfcode rec fd) || ref_time (dissected dfcode rec fd)); [|done].
  cbn. by destruct (first_displayed cf =? 0).
Qed.

(** ** Projections of an updated world *)

Lemma on_cf_cf f w : w_cf (on_cf f w) = f (w_cf w). Proof. done. Qed.
Lemma on_cf_ui f w : w_ui (on_cf f w) = w_ui w. Proof. done. Qed.
Lemma on_cf_log f w : w_log (on_cf f w) = w_log w. Proof. done. Qed.
Lemma on_cf_fs f w : w_fs (on_cf f w) = w_fs w. Proof. done. Qed.
Lemma tell_cf c w : w_cf (tell c w) = w_cf w. Proof. done. Qed.
Lemma tell_ui c w : w_ui (tell c w) = w_ui w. Proof. done. Qed.
Lemma tell_log c w : w_log (tell c w) = w_log w ++ [c]. Proof. done. Qed.
Lemma with_fs_ui fs w : w_ui (with_fs fs w) = w_ui w. Proof. done. Qed.
Lemma with_fs_log fs w : w_log (with_fs fs w) = w_log w. Proof. done. Qed.
Lemma with_fs_fs fs w : w_fs (with_fs fs w) = fs. Proof. done. Qed.
Lemma with_ui_cf ui w : w_cf (with_ui ui w) = w_cf w. Proof. done. Qed.
Lemma with_ui_ui ui w : w_ui (with_ui ui w) = ui. Proof. done. Qed.
Lemma with_ui_log ui w : w_log (with_ui ui w) = w_log w. Proof. done. Qed.
Lemma with_ui_fs ui w : w_fs (with_ui ui w) = w_fs w. Proof. done. Qed.

(** ** Scans that nobody interrupts *)

Section Quiet.

Context (dfilter_compile : string -> option (option dfilter_t)).
Context (rescan : bool -> world -> option world).

Lemma pump_quiet w : w_ui w = [] -> pump dfilter_compile rescan w = Some w.
Proof. intros H. unfold pump. by rewrite H. Qed.

End Quiet.

(** Fields that [add_packet_to_packet_list] leaves alone. *)
Lemma add_packet_keeps p dfcode rec add cf :
  let cf' := add_packet_to_packet_list p dfcode rec add cf in
  count cf' = count cf /\ stop_flag cf' = stop_flag cf
  /\ redissection_queued cf' = redissection_queued cf
  /\ read_lock cf' = read_lock cf /\ current_frame cf' = current_frame cf
  /\ redissecting cf' = redissecting cf /\ state cf' = state cf
  /\ rfcode cf' = rfcode cf /\ dfilter cf' = dfilter cf
  /\ length (frames cf') = length (frames cf).
Proof.
  unfold add_packet_to_packet_list.
  destruct (frame_data_sequence_find (frames cf) p) as [fd|]; [|done].
  fold (dissected dfcode rec fd).
  destruct (passed_dfilter (dissected dfcode rec fd) || ref_time (dissected dfcode rec fd)).
  - destruct (first_displayed cf =? 0) eqn:E; cbn; rewrite ?E; cbn;
      rewrite store_set_length; done.
  - cbn. rewrite store_set_length. done.
Qed.

Lemma store_ok_set wth fds n fd fd' :
  store_ok wth fds -> frame_data_sequence_find fds n = Some fd ->
  num fd' = num fd -> file_off fd' = file_off fd ->
  store_ok wth (frame_store_set fds n fd').
Proof.
  intros Hok Hfd Hnum Hoff m fdm Hm.
  pose proof (find_Some_range _ _ _ Hfd).
  pose proof (find_Some_range _ _ _ Hm) as Hr. rewrite store_set_length in Hr.
  destruct (decide (n = m)) as [->|Hne].
  - rewrite (store_set_find_same _ _ _ _ Hfd) in Hm. injection Hm as <-.
    rewrite Hnum, Hoff. by apply Hok.
  - rewrite store_set_find_other in Hm by lia. by apply Hok.
Qed.

Lemma rescanned_num redissect dfcode rec fd :
  num (rescanned redissect dfcode rec fd) = num fd.
Proof. unfold rescanned. rewrite dissected_num. by destruct redissect. Qed.

Lemma rescanned_file_off redissect dfcode rec fd :
  file_off (rescanned redissect dfcode rec fd) = file_off fd.
Proof. unfold rescanned, dissected. by destruct dfcode, redissect. Qed.

Lemma passes_set_other fds n fd' q :
  1 <= n -> n <> q -> passes (frame_store_set fds n fd') q = passes fds q.
Proof.
  intros Hn Hne. unfold passes, ptr_passed_dfilter.
  destruct (Z.leb_spec q 0) as [Hq|Hq].
  - unfold frame_data_sequence_find. destruct (Z.leb_spec q 0); [done|lia].
  - by rewrite store_set_find_other by lia.
Qed.

Lemma sel_inv_init s fds : 1 <= s -> sel_inv s 0 rescan_vars_init fds.
Proof.
  intros Hs. constructor; cbn.
  - by rewrite bool_decide_eq_false_2 by lia.
  - done.
  - by rewrite bool_decide_eq_false_2 by lia.
  - split; [done|]. intros; lia.
  - split; [done|]. intros; lia.
Qed.

Lemma sel_inv_step s k v fds fds0 fds' :
  0 <= k -> 1 <= s ->
  sel_inv s k v fds ->
  (forall q, q <> k + 1 -> passes fds0 q = passes fds q) ->
  (forall q, q <> k + 1 -> passes fds' q = passes fds q) ->
  ptr_num fds' (k + 1) = k + 1 ->
  sel_inv s (k + 1)
    (note_selected_and_prev fds' (k + 1) (Some s)
       (note_following fds' (k + 1) (note_preceding fds0 v))) fds'.
Proof.
  intros Hk Hs [Hseen Hprev Hsel Hprec Hfoll] H0 H' Hnum.
  (* the preceding frame *)
  set (v1 := note_preceding fds0 v).
  assert (Hseen1 : selected_frame_seen v1 = bool_decide (s <= k)).
  { unfold v1, note_preceding. by destruct (_ && _ && _). }
  assert (Hfoll1 : following_frame v1 = following_frame v
                   /\ following_frame_num v1 = following_frame_num v).
  { unfold v1, note_preceding. by destruct (_ && _ && _). }
  assert (Hsel1 : selected_frame_num v1 = selected_frame_num v).
  { unfold v1, note_preceding. by destruct (_ && _ && _). }
  assert (Hprec1 : match preceding_frame v1 with
            | Some p => preceding_frame_num v1 = p /\ 1 <= p < s /\ p < k + 1
                /\ passes fds' p = true
                /\ (forall q, p < q -> q < s -> q < k + 1 -> passes fds' q = false)
            | None => preceding_frame_num v1 = -1
                /\ (forall q, 1 <= q -> q < s -> q < k + 1 -> passes fds' q = false)
            end).
  { unfold v1, note_preceding. rewrite Hseen.
    destruct (decide (k = 0)) as [Hk0|Hk0].
    - destruct Hprev as [Hp Hpn]. rewrite Hpn, Hp. cbn.
      destruct (preceding_frame v) as [p|].
      + destruct Hprec as (? & ? & ? & ? & ?). lia.
      + destruct Hprec as [? Hq]. split; [done|]. intros; lia.
    - destruct Hprev as [Hp Hpn]. rewrite Hpn, Hp.
      destruct (Z.eqb_spec k (-1)) as [|_]; [lia|]. cbn [negb andb].
      fold (passes fds0 k). rewrite H0 by lia.
      destruct (bool_decide_reflect (s <= k)) as [Hsk|Hsk]; cbn [negb andb].
      + destruct (preceding_frame v) as [p|].
        * destruct Hprec as (? & ? & ? & ? & Hq). repeat split; try lia.
          -- rewrite H'; [done|lia].
          -- intros q ? ? ?. rewrite H' by lia. apply Hq; lia.
        * destruct Hprec as [? Hq]. split; [done|].
          intros q ? ? ?. rewrite H' by lia. apply Hq; lia.
      + destruct (passes fds k) eqn:Hpk.
        * cbn -[passes]. repeat split; try lia.
          rewrite H'; [done|lia].
        * destruct (preceding_frame v) as [p|].
          -- destruct Hprec as (? & ? & ? & ? & Hq). repeat split; try lia.
             ++ rewrite H'; [done|lia].
             ++ intros q ? ? ?. rewrite H' by lia.
                destruct (decide (q = k)) as [->|]; [done|]. apply Hq; lia.
          -- destruct Hprec as [? Hq]. split; [done|].
             intros q ? ? ?. rewrite H' by lia.
             destruct (decide (q = k)) as [->|]; [done|]. apply Hq; lia. }
  clearbody v1. clear Hprec Hprev Hseen.
  destruct Hfoll1 as [Hf1 Hfn1]. rewrite <- Hf1, <- Hfn1 in Hfoll.
  rewrite <- Hsel1 in Hsel. clear Hf1 Hfn1 Hsel1 v.
  (* the following frame *)
  set (v2 := note_following fds' (k + 1) v1).
  assert (Hseen2 : selected_frame_seen v2 = bool_decide (s <= k)).
  { unfold v2, note_following. by destruct (_ && _ && _). }
  assert (Hprec2 : preceding_frame v2 = preceding_frame v1
                   /\ preceding_frame_num v2 = preceding_frame_num v1).
  { unfold v2, note_following. by destruct (_ && _ && _). }
  assert (Hsel2 : selected_frame_num v2 = selected_frame_num v1).
  { unfold v2, note_following. by destruct (_ && _ && _). }
  assert (Hfoll2 : match following_frame v2 with
            | Some q => following_frame_num v2 = q /\ s < q <= k + 1
                /\ passes fds' q = true
                /\ (forall r, s < r -> r < q -> passes fds' r = false)
            | None => following_frame_num v2 = -1
                /\ (forall r, s < r -> r <= k + 1 -> passes fds' r = false)
            end).
  { unfold v2, note_following. fold (passes fds' (k + 1)). rewrite Hseen1.
    destruct (following_frame v1) as [q|] eqn:Hfq.
    - destruct Hfoll as (Hqn & ? & ? & Hr).
      rewrite Hqn. destruct (Z.eqb_spec q (-1)) as [|_]; [lia|].
      rewrite !andb_false_r. rewrite Hfq. repeat split; try lia.
      + rewrite H'; [done|lia].
      + intros r ? ?. rewrite H' by lia. apply Hr; lia.
    - destruct Hfoll as [Hqn Hr]. rewrite Hqn. cbn [Z.eqb andb]. rewrite andb_true_r.
      destruct (bool_decide_reflect (s <= k)) as [Hsk|Hsk].
      + destruct (passes fds' (k + 1)) eqn:Hpk; cbn [andb].
        * rewrite Hnum. repeat split; try lia; [done|].
          intros r ? ?. rewrite H' by lia. apply Hr; lia.
        * rewrite Hfq. split; [done|]. intros r ? ?.
          destruct (decide (r = k + 1)) as [->|]; [done|].
          rewrite H' by lia. apply Hr; lia.
      + rewrite andb_false_r. rewrite Hfq. split; [done|]. intros; lia. }
  clearbody v2. destruct Hprec2 as [Hp2 Hpn2]. rewrite <- Hp2, <- Hpn2 in Hprec1.
  rewrite <- Hsel2 in Hsel. clear Hp2 Hpn2 Hsel2 Hfoll Hseen1 v1.
  (* the selected frame and the previous frame *)
  constructor; cbn -[passes ptr_passed_dfilter ptr_num].
  - rewrite Hseen2.
    destruct (bool_decide_reflect (Some (k + 1) = Some s)) as [Heq|Hne];
      destruct (bool_decide_reflect (s <= k));
      destruct (bool_decide_reflect (s <= k + 1)); try done; try lia.
    + injection Heq. lia.
    + exfalso. apply Hne. f_equal. lia.
  - destruct (decide (k + 1 = 0)); [lia|]. by rewrite Hnum.
  - rewrite Hsel. fold (passes fds' (k + 1)). rewrite Hnum.
    destruct (bool_decide_reflect (Some (k + 1) = Some s)) as [Heq|Hne].
    + injection Heq as <-.
      rewrite (bool_decide_eq_false_2 (k + 1 <= k)) by lia.
      rewrite (bool_decide_eq_true_2 (k + 1 <= k + 1)) by lia.
      cbn. by destruct (passes fds' (k + 1)).
    + cbn [andb].
      destruct (bool_decide_reflect (s <= k)) as [Hsk|Hsk].
      * rewrite (bool_decide_eq_true_2 (s <= k + 1)) by lia.
        rewrite H'; [done|lia].
      * rewrite (bool_decide_eq_false_2 (s <= k + 1)); [done|].
        intros ?. apply Hne. f_equal. lia.
  - done.
  - done.
Qed.

Lemma same_control_refl w : same_control w w.
Proof. by repeat split. Qed.

Lemma same_control_trans w1 w2 w3 :
  same_control w1 w2 -> same_control w2 w3 -> same_control w1 w3.
Proof.
  unfold same_control. intros (?&?&?&?&?&?&?&?&?&?&?) (?&?&?&?&?&?&?&?&?&?&?).
  repeat split; congruence.
Qed.

Section QuietRescan.

Context (dfilter_compile : string -> option (option dfilter_t)).
Context (rescan : bool -> world -> option world).
Context (wth : wtap) (redissect : bool) (dfcode : option dfilter_t)
        (add_to_packet_list : bool).

Lemma rescan_loop_quiet_full (s N : Z) : forall todo k v w,
  w_ui w = [] -> stop_flag (w_cf w) = false ->
  redissection_queued (w_cf w) = RESCAN_NONE ->
  store_ok wth (frames (w_cf w)) ->
  Z.of_nat (length (frames (w_cf w))) = N ->
  0 <= k -> Z.of_nat todo = N - k -> N < G_MAXUINT32 -> 1 <= s ->
  sel_inv s k v (frames (w_cf w)) ->
  exists v' w',
    rescan_loop dfilter_compile todo rescan wth redissect dfcode
      add_to_packet_list (Some s) (k + 1) v w
    = Some (RESCAN_NONE, N + 1, v', w')
    /\ sel_inv s N v' (frames (w_cf w'))
    /\ store_ok wth (frames (w_cf w'))
    /\ same_control w w' /\ w_log w' = w_log w.
Proof.
  induction todo as [|todo IH]; intros k v w Hui Hstop Hq Hok Hlen Hk Htodo HN Hs Hinv.
  - assert (k = N) as -> by lia. exists v, w. cbn.
    split; [done|]. split; [done|]. split; [done|].
    split; [apply same_control_refl|done].
  - cbn [rescan_loop]. rewrite pump_quiet by done. rewrite Hq, Hstop. cbn [negb rescan_type_eqb].
    destruct (find_is_Some (frames (w_cf w)) (k + 1) ltac:(lia)) as [fd Hfd].
    rewrite Hfd.
    set (fd0 := if redissect then frame_data_reset fd else fd).
    destruct (Hok _ _ Hfd) as [Hnum [rec Hrec]].
    assert (Hfd0 : num fd0 = num fd /\ file_off fd0 = file_off fd).
    { unfold fd0. by destruct redissect. }
    unfold cf_read_record. destruct Hfd0 as [Hn0 Ho0]. rewrite Ho0, Hrec.
    set (w1 := on_cf _ w).
    assert (Hf1 : frames (w_cf w1) = frame_store_set (frames (w_cf w)) (k + 1) fd0) by done.
    assert (Hfind1 : frame_data_sequence_find (frames (w_cf w1)) (k + 1) = Some fd0).
    { rewrite Hf1. by eapply store_set_find_same. }
    set (w2 := on_cf (add_packet_to_packet_list (k + 1) dfcode rec add_to_packet_list) w1).
    assert (Hf2 : frames (w_cf w2)
                  = frame_store_set (frames (w_cf w1)) (k + 1) (dissected dfcode rec fd0)).
    { unfold w2. cbn. by apply add_packet_frames. }
    pose proof (add_packet_keeps (k + 1) dfcode rec add_to_packet_list (w_cf w1))
      as (Hc & Hst & Hrq & Hrl & Hcur & Hrd & Hsta & Hrf & Hdf & Hl2).
    assert (Hok1 : store_ok wth (frames (w_cf w1))).
    { rewrite Hf1. eapply store_ok_set; eauto. }
    assert (Hok2 : store_ok wth (frames (w_cf w2))).
    { rewrite Hf2. eapply store_ok_set; eauto.
      - apply dissected_num.
      - unfold dissected. by destruct dfcode. }
    assert (Hsame2 : same_control w w2).
    { unfold same_control.
      change (w_cf w2)
        with (add_packet_to_packet_list (k + 1) dfcode rec add_to_packet_list (w_cf w1)).
      rewrite Hc, Hcur, Hrl, Hrq, Hst, Hrd, Hsta, Hdf, Hl2, Hf1, store_set_length.
      done. }
    destruct Hsame2 as (Hui2 & Hfs2 & Hc2 & Hcur2 & Hrl2 & Hrq2 & Hst2 & Hrd2 & Hsta2 & Hdf2 & Hlen2).
    rewrite wrap32_small by (unfold G_MAXUINT32 in *; lia).
    destruct (IH (k + 1)
                (note_selected_and_prev (frames (w_cf w2)) (k + 1) (Some s)
                   (note_following (frames (w_cf w2)) (k + 1)
                      (note_preceding (frames (w_cf w1)) v))) w2)
      as (v' & w' & Hloop & Hinv' & Hok' & Hsame & Hlog); try done; try lia; try congruence.
    + apply sel_inv_step with (fds := frames (w_cf w)); try done.
      * intros q Hq'. rewrite Hf1. apply passes_set_other; lia.
      * intros q Hq'. rewrite Hf2, Hf1. rewrite !passes_set_other by lia. done.
      * unfold ptr_num. rewrite Hf2.
        rewrite (store_set_find_same _ _ _ _ Hfind1). rewrite dissected_num. lia.
    + exists v', w'. split; [exact Hloop|]. split; [done|]. split; [done|]. split.
      * eapply same_control_trans; [|exact Hsame].
        unfold same_control. by repeat split.
      * rewrite Hlog. done.
Qed.

End QuietRescan.

Lemma passes_range fds q : passes fds q = true -> 1 <= q <= Z.of_nat (length fds).
Proof.
  unfold passes, ptr_passed_dfilter.
  destruct (frame_data_sequence_find fds q) as [fd|] eqn:H; [|done].
  intros _. by eapply find_Some_range.
Qed.

Section RescanSelection.

Context (dfilter_compile : string -> option (option dfilter_t)).

(** C3.  A rescan that runs to its end repairs the selection as follows
    when the frame that was selected no longer passes the filter: the
    nearest passing frame before it is selected whenever there is one
    (whether or not a passing frame follows); otherwise the nearest
    passing frame after it; and when no other frame passes, the selection
    is cleared. *)
Theorem rescan_repairs_selection (fuel : nat) (wth : wtap) (redissect : bool)
    (w : world) (s : Z) :
  w_ui w = [] ->
  store_ok wth (frames (w_cf w)) ->
  count (w_cf w) = Z.of_nat (length (frames (w_cf w))) ->
  count (w_cf w) < G_MAXUINT32 ->
  current_frame (w_cf w) = Some s ->
  1 <= s <= count (w_cf w) ->
  exists w',
    rescan_packets dfilter_compile (S fuel) wth redissect w = Some w'
    /\ (passes (frames (w_cf w')) s = false ->
        (forall p, 1 <= p < s -> passes (frames (w_cf w')) p = true ->
           (forall q, p < q -> q < s -> passes (frames (w_cf w')) q = false) ->
           w_log w' = w_log w
                      ++ [RescanStarted redissect; RescanFinished; SelectRow p])
        /\ ((forall p, 1 <= p -> p < s -> passes (frames (w_cf w')) p = false) ->
            forall q, s < q -> passes (frames (w_cf w')) q = true ->
            (forall r, s < r -> r < q -> passes (frames (w_cf w')) r = false) ->
            w_log w' = w_log w
                       ++ [RescanStarted redissect; RescanFinished; SelectRow q])
        /\ ((forall p, p <> s -> passes (frames (w_cf w')) p = false) ->
            w_log w' = w_log w ++ [RescanStarted redissect; RescanFinished]
            /\ current_frame (w_cf w') = None)).
Proof.
  intros Hui Hok Hcount HN Hcur Hs.
  set (N := count (w_cf w)) in *.
  cbn [rescan_packets].
  match goal with
  | |- context [rescan_loop _ _ ?r _ _ ?d _ ?sel 1 _ ?w0] =>
      set (w0' := w0); set (dfcode := d); set (rs := r);
      assert (Hsel : sel = Some s) by exact Hcur
  end.
  rewrite Hsel.
  assert (Hw0 : w_ui w0' = [] /\ stop_flag (w_cf w0') = false
                /\ redissection_queued (w_cf w0') = RESCAN_NONE
                /\ frames (w_cf w0') = frames (w_cf w)
                /\ count (w_cf w0') = N
                /\ w_log w0' = w_log w ++ [RescanStarted redissect]).
  { unfold w0'. destruct redissect; cbn; by rewrite Hui. }
  destruct Hw0 as (Hui0 & Hst0 & Hq0 & Hfr0 & Hc0 & Hlog0).
  rewrite Hc0.
  destruct (rescan_loop_quiet_full dfilter_compile rs wth redissect dfcode redissect
              s N (Z.to_nat N) 0 rescan_vars_init w0')
    as (v' & w1 & Hloop & Hinv & Hok1 & Hsame & Hlog1); try done; try lia.
  { by rewrite Hfr0. }
  { rewrite Hfr0. lia. }
  { apply sel_inv_init. lia. }
  change (0 + 1) with 1 in Hloop. rewrite Hloop.
  cbn [negb rescan_type_eqb].
  destruct Hsame as (Hui1 & Hfs1 & Hc1 & Hcur1 & Hrl1 & Hrq1 & Hst1 & Hrd1 & Hsta1 & Hdf1 & Hlen1).
  (* the store is not touched after the loop *)
  set (w2 := if redissect then _ else _).
  assert (Hw2 : frames (w_cf w2) = frames (w_cf w1) /\ w_log w2 = w_log w1).
  { unfold w2. destruct redissect; [|done]. cbn.
    rewrite Hc1, Hc0. replace (Z.to_nat (N - (N + 1) + 1)) with 0%nat by lia. done. }
  destruct Hw2 as [Hfr2 Hlog2].
  destruct Hinv as [Hseen Hprev Hselnum Hprec Hfoll].
  eexists. split; [reflexivity|].
  intros Hnot.
  assert (Hfinal : forall x, frames (w_cf (on_cf (set_read_lock false)
                     (rescan_select (Some s) v' (tell RescanFinished w2)))) = x
                   -> x = frames (w_cf w1)).
  { intros x <-. unfold rescan_select.
    destruct (selected_frame_num v' =? -1);
      [destruct (following_frame v'); [destruct (preceding_frame v')|]|];
      cbn -[Z.eqb]; repeat (match goal with |- context [if ?b then _ else _] => destruct b end);
      cbn; try done;
      repeat (match goal with |- context [match ?b with _ => _ end] => destruct b end); done. }
  rewrite (Hfinal _ eq_refl) in Hnot |- *.
  rewrite Hnot, andb_false_r in Hselnum.
  unfold rescan_select. rewrite Hselnum. cbn [Z.eqb].
  assert (HlenN : Z.of_nat (length (frames (w_cf w1))) = N).
  { rewrite Hlen1, Hfr0. lia. }
  split; [|split].
  - intros p Hp Hpass Hmax.
    destruct (preceding_frame v') as [p0|].
    + destruct Hprec as (Hpn & Hp0 & Hp0N & Hpass0 & Hmax0).
      assert (p0 = p) as ->.
      { destruct (Z.lt_trichotomy p0 p) as [Hlt|[->|Hgt]]; [|done|].
        - rewrite Hmax0 in Hpass by lia. done.
        - rewrite Hmax in Hpass0 by lia. done. }
      rewrite Hpn.
      assert (Hp1 : (p =? -1) = false) by lia.
      assert (Hp2 : (p =? 0) = false) by lia.
      destruct (following_frame v'); cbn; rewrite Hp1, Hp2; cbn;
        by rewrite Hlog2, Hlog1, Hlog0, <- !app_assoc.
    + destruct Hprec as [_ Hnone]. rewrite Hnone in Hpass by lia. done.
  - intros Hnop q Hq Hpass Hmin.
    pose proof (passes_range _ _ Hpass) as Hqr.
    destruct (preceding_frame v') as [p0|].
    { destruct Hprec as (_ & Hp0 & _ & Hpass0 & _). rewrite Hnop in Hpass0 by lia. done. }
    destruct (following_frame v') as [q0|].
    + destruct Hfoll as (Hqn & Hq0r & Hpass0 & Hmin0).
      assert (q0 = q) as ->.
      { destruct (Z.lt_trichotomy q0 q) as [Hlt|[->|Hgt]]; [|done|].
        - rewrite Hmin in Hpass0 by lia. done.
        - rewrite Hmin0 in Hpass by lia. done. }
      rewrite Hqn.
      assert (Hq1 : (q =? -1) = false) by lia.
      assert (Hq2 : (q =? 0) = false) by lia.
      cbn. rewrite Hq1, Hq2. cbn.
      by rewrite Hlog2, Hlog1, Hlog0, <- !app_assoc.
    + destruct Hfoll as [_ Hnone]. rewrite Hnone in Hpass by lia. done.
  - intros Hnone.
    destruct (preceding_frame v') as [p0|].
    { destruct Hprec as (_ & Hp0 & _ & Hpass0 & _). rewrite Hnone in Hpass0 by lia. done. }
    destruct (following_frame v') as [q0|].
    { destruct Hfoll as (_ & Hq0r & Hpass0 & _). rewrite Hnone in Hpass0 by lia. done. }
    destruct Hprec as [-> _]. cbn.
    by rewrite Hlog2, Hlog1, Hlog0, <- !app_assoc.
Qed.

End RescanSelection.

(** ** read_record *)

Lemma store_set_snoc fds x y :
  frame_store_set (fds ++ [x]) (Z.of_nat (length fds) + 1) y = fds ++ [y].
Proof.
  unfold frame_store_set.
  replace (Z.to_nat (Z.of_nat (length fds) + 1 - 1)) with (length fds + 0)%nat by lia.
  by rewrite insert_app_r.
Qed.

Lemma find_snoc fds x :
  frame_data_sequence_find (fds ++ [x]) (Z.of_nat (length fds) + 1) = Some x.
Proof.
  rewrite find_lookup by lia.
  replace (Z.to_nat (Z.of_nat (length fds) + 1 - 1)) with (length fds) by lia.
  by rewrite lookup_app_r, Nat.sub_diag by lia.
Qed.

Lemma add_encap_keeps encap cf :
  let cf' := cf_add_encapsulation_type encap cf in
  frames cf' = frames cf /\ count cf' = count cf /\ rfcode cf' = rfcode cf
  /\ redissecting cf' = redissecting cf
  /\ redissection_queued cf' = redissection_queued cf
  /\ state cf' = state cf /\ stop_flag cf' = stop_flag cf
  /\ read_lock cf' = read_lock cf /\ dfilter cf' = dfilter cf
  /\ current_frame cf' = current_frame cf
  /\ displayed_count cf' = displayed_count cf
  /\ first_displayed cf' = first_displayed cf
  /\ last_displayed cf' = last_displayed cf.
Proof. unfold cf_add_encapsulation_type. by destruct (bool_decide _). Qed.

Lemma new_frame_num cf rec offset :
  num (new_frame cf rec offset) = wrap32 (count cf + 1).
Proof. unfold new_frame. by destruct (rfcode cf). Qed.

Lemma new_frame_no_filter cf rec offset :
  rfcode cf = None ->
  new_frame cf rec offset = frame_data_init (wrap32 (count cf + 1)) rec offset.
Proof. unfold new_frame. by intros ->. Qed.

Lemma read_record_dropped rec offset dfcode cf :
  read_filter_passes cf rec offset = false ->
  let r := read_record rec offset dfcode cf in
  fst r = false /\ frames (snd r) = frames cf /\ count (snd r) = count cf
  /\ same_mode cf (snd r).
Proof.
  unfold read_filter_passes, read_record. intros H.
  set (cf1 := if rec_is_packet rec then _ else cf).
  assert (H1 : frames cf1 = frames cf /\ count cf1 = count cf /\ rfcode cf1 = rfcode cf
               /\ same_mode cf cf1).
  { unfold cf1. destruct (rec_is_packet rec); [|by repeat split].
    pose proof (add_encap_keeps (pkt_encap rec) cf) as (?&?&?&?&?&?&?&?&?&?&?&?&?).
    by repeat split. }
  destruct H1 as (Hf & Hc & Hr & Hm). rewrite Hr, Hc.
  destruct (rfcode cf) as [code|]; [|done]. rewrite H. cbn. done.
Qed.

Lemma read_record_kept rec offset dfcode cf :
  read_filter_passes cf rec offset = true ->
  let r := read_record rec offset dfcode cf in
  let fdlocal := new_frame cf rec offset in
  let shown := negb (redissecting cf)
               && rescan_type_eqb (redissection_queued cf) RESCAN_NONE in
  let fd := if shown then dissected dfcode rec fdlocal else fdlocal in
  fst r = true
  /\ frames (snd r) = frames cf ++ [fd]
  /\ count (snd r) = wrap32 (count cf + 1)
  /\ same_mode cf (snd r)
  /\ displayed_count (snd r)
     = (if shown && (passed_dfilter fd || ref_time fd)
        then wrap32 (displayed_count cf + 1) else displayed_count cf)
  /\ first_displayed (snd r)
     = (if shown && (passed_dfilter fd || ref_time fd) && (first_displayed cf =? 0)
        then num fd else first_displayed cf)
  /\ last_displayed (snd r)
     = (if shown && (passed_dfilter fd || ref_time fd)
        then num fd else last_displayed cf).
Proof.
  unfold read_filter_passes, read_record. intros H.
  set (cf1 := if rec_is_packet rec then _ else cf).
  assert (H1 : frames cf1 = frames cf /\ count cf1 = count cf /\ rfcode cf1 = rfcode cf
               /\ redissecting cf1 = redissecting cf
               /\ redissection_queued cf1 = redissection_queued cf
               /\ displayed_count cf1 = displayed_count cf
               /\ first_displayed cf1 = first_displayed cf
               /\ last_displayed cf1 = last_displayed cf
               /\ same_mode cf cf1).
  { unfold cf1. destruct (rec_is_packet rec); [|by repeat split].
    pose proof (add_encap_keeps (pkt_encap rec) cf) as (?&?&?&?&?&?&?&?&?&?&?&?&?).
    by repeat split. }
  destruct H1 as (Hf & Hc & Hr & Hrd & Hrq & Hdc & Hfd & Hld & Hm).
  rewrite Hr, Hc. unfold new_frame.
  set (fdlocal := match rfcode cf with
                  | Some _ => epan_dissect_run _
                  | None => frame_data_init _ _ _
                  end).
  assert (Hp : match rfcode cf with
               | Some code => dfilter_apply_edt code fdlocal rec
               | None => true
               end = true).
  { unfold fdlocal. by destruct (rfcode cf). }
  rewrite Hp. cbn [fst snd].
  set (cf2 := set_f_datalen _ _).
  assert (H2 : frames cf2 = frames cf ++ [fdlocal]
               /\ count cf2 = wrap32 (count cf + 1)
               /\ redissecting cf2 = redissecting cf
               /\ redissection_queued cf2 = redissection_queued cf
               /\ displayed_count cf2 = displayed_count cf
               /\ first_displayed cf2 = first_displayed cf
               /\ last_displayed cf2 = last_displayed cf
               /\ same_mode cf cf2).
  { unfold cf2. destruct Hm as (?&?&?&?&?&?&?&?).
    destruct (rec_block rec); cbn; rewrite Hf, Hc; unfold frame_data_sequence_add;
      repeat split; done. }
  destruct H2 as (Hf2 & Hc2 & Hrd2 & Hrq2 & Hdc2 & Hfd2 & Hld2 & Hm2).
  clearbody cf2. rewrite Hrd2, Hrq2.
  destruct (negb (redissecting cf) && rescan_type_eqb (redissection_queued cf) RESCAN_NONE).
  - cbn [andb].
    assert (Hfind : frame_data_sequence_find (frames cf2) (Z.of_nat (length (frames cf1)) + 1)
                    = Some fdlocal).
    { rewrite Hf2, Hf. apply find_snoc. }
    pose proof (add_packet_keeps (Z.of_nat (length (frames cf1)) + 1) dfcode rec true cf2)
      as (Hc3 & Hst3 & Hrq3 & Hrl3 & Hcur3 & Hrd3 & Hsta3 & Hrf3 & Hdf3 & Hl3).
    split; [done|]. split.
    { rewrite (add_packet_frames _ _ _ _ _ _ Hfind), Hf2, Hf. apply store_set_snoc. }
    split; [by rewrite Hc3|]. split.
    { destruct Hm2 as (?&?&?&?&?&?&?&?). unfold same_mode.
      rewrite Hst3, Hrq3, Hrl3, Hcur3, Hrd3, Hsta3, Hrf3, Hdf3. by repeat split. }
    unfold add_packet_to_packet_list. rewrite Hfind.
    fold (dissected dfcode rec fdlocal).
    destruct (passed_dfilter (dissected dfcode rec fdlocal)
              || ref_time (dissected dfcode rec fdlocal)).
    + cbn. rewrite Hdc2, Hfd2.
      destruct (first_displayed cf =? 0) eqn:E; cbn; rewrite ?E; done.
    + cbn. by rewrite Hdc2, Hfd2, Hld2.
  - cbn [andb]. repeat (split; [done|]). done.
Qed.

(** ** Dense numbering *)

Lemma dense_length cf : dense cf -> Z.of_nat (length (frames cf)) = count cf.
Proof.
  intros [H0 H]. apply (f_equal length) in H.
  rewrite length_map, length_seqZ in H. lia.
Qed.

Lemma dense_find cf n fd :
  dense cf -> frame_data_sequence_find (frames cf) n = Some fd -> num fd = n.
Proof.
  intros [H0 H] Hfd. pose proof (find_Some_range _ _ _ Hfd) as Hr.
  rewrite find_lookup in Hfd by lia.
  assert (Hn : map num (frames cf) !! Z.to_nat (n - 1) = Some (num fd)).
  { by rewrite list_lookup_fmap, Hfd. }
  rewrite H in Hn. apply lookup_seqZ in Hn. lia.
Qed.

Lemma file_state_eqb_eq a b : file_state_eqb a b = true <-> a = b.
Proof. destruct a, b; cbn; split; congruence. Qed.

Lemma rescan_type_eqb_eq a b : rescan_type_eqb a b = true <-> a = b.
Proof. destruct a, b; cbn; split; congruence. Qed.

Lemma read_record_dense rec offset dfcode cf :
  dense cf -> count cf < G_MAXUINT32 ->
  read_filter_passes cf rec offset = true ->
  dense (snd (read_record rec offset dfcode cf))
  /\ count (snd (read_record rec offset dfcode cf)) = count cf + 1.
Proof.
  intros [H0 Hd] Hlt Hp.
  destruct (read_record_kept rec offset dfcode cf Hp) as (_ & Hf & Hc & _).
  unfold dense. rewrite Hc, wrap32_small by lia. split; [|done]. split; [lia|].
  rewrite Hf, map_app, Hd. rewrite (seqZ_app 1 (count cf) 1) by lia.
  f_equal. cbn [map].
  match goal with
  | |- [num ?x] = _ => assert (Hnum : num x = count cf + 1)
  end.
  { destruct (_ && _); [rewrite dissected_num|];
      rewrite new_frame_num, wrap32_small by lia; done. }
  rewrite Hnum, seqZ_cons, seqZ_nil by lia. f_equal. lia.
Qed.

Lemma read_record_all_displayed rec offset cf :
  dense cf -> count cf < G_MAXUINT32 -> rfcode cf = None ->
  redissecting cf = false -> redissection_queued cf = RESCAN_NONE ->
  all_displayed cf ->
  all_displayed (snd (read_record rec offset None cf)).
Proof.
  intros [H0 Hd] Hlt Hrf Hrd Hrq (Hall & Hdc & Hfd & Hld).
  assert (Hp : read_filter_passes cf rec offset = true).
  { unfold read_filter_passes. by rewrite Hrf. }
  destruct (read_record_kept rec offset None cf Hp)
    as (_ & Hf & Hc & _ & Hdc' & Hfd' & Hld').
  rewrite Hrd, Hrq in Hf, Hdc', Hfd', Hld'. cbn [negb rescan_type_eqb andb] in *.
  rewrite new_frame_no_filter in Hf, Hdc', Hfd', Hld' by done.
  rewrite dissected_no_filter in Hdc', Hfd', Hld'. cbn [orb andb] in *.
  rewrite dissected_num in Hfd', Hld'. cbn [num frame_data_init] in *.
  unfold all_displayed. rewrite Hf, Hc, Hdc', Hfd', Hld', Hdc, Hfd.
  rewrite !wrap32_small by lia.
  split; [|split; [done|split; [|done]]].
  - apply Forall_app. split; [done|]. by constructor.
  - destruct (Z.eqb_spec (count cf) 0) as [->|]; cbn.
    + done.
    + destruct (Z.eqb_spec (count cf + 1) 0); [lia|].
      destruct (Z.eqb_spec 1 0); done.
Qed.

Section ReadLoop.

Context (dfilter_compile : string -> option (option dfilter_t)).
Context (rescan : bool -> world -> option world).
Context (max_records size : Z) (dfcode : option dfilter_t).

(** A read that nothing stops takes in every record. *)
Lemma cf_read_loop_full : forall records w,
  (size < 0 \/ w_ui w = []) ->
  (size < 0 \/ count (w_cf w) + Z.of_nat (length records) <= max_records) ->
  state (w_cf w) <> FILE_READ_ABORTED ->
  stop_flag (w_cf w) = false ->
  rfcode (w_cf w) = None ->
  count (w_cf w) + Z.of_nat (length records) <= G_MAXUINT32 ->
  dense (w_cf w) ->
  exists w',
    cf_read_loop dfilter_compile rescan max_records size dfcode records w
    = Some (ReadEnd, w')
    /\ dense (w_cf w')
    /\ count (w_cf w') = count (w_cf w) + Z.of_nat (length records)
    /\ same_mode (w_cf w) (w_cf w')
    /\ w_ui w' = w_ui w /\ w_log w' = w_log w /\ w_fs w' = w_fs w
    /\ (dfcode = None -> redissecting (w_cf w) = false ->
        redissection_queued (w_cf w) = RESCAN_NONE ->
        all_displayed (w_cf w) -> all_displayed (w_cf w')).
Proof.
  induction records as [|[rec off] records IH];
    intros w Hquiet Hcap Hstate Hstop Hrf Hmax Hdense.
  - exists w. cbn. split; [done|]. split; [done|]. split; [lia|].
    split; [by repeat split|]. repeat (split; [done|]). done.
  - cbn [cf_read_loop]. cbv beta zeta. cbn [length] in *.
    assert (Hp : read_filter_passes (w_cf w) rec off = true).
    { unfold read_filter_passes. by rewrite Hrf. }
    destruct (read_record_dense rec off dfcode (w_cf w) Hdense ltac:(lia) Hp) as [Hd1 Hc1].
    destruct (read_record_kept rec off dfcode (w_cf w) Hp) as (_ & _ & _ & Hm1 & _).
    set (w1 := on_cf (fun cf => snd (read_record rec off dfcode cf)) w).
    assert (Hw1 : w_cf w1 = snd (read_record rec off dfcode (w_cf w))) by done.
    assert (Hstep : exists w',
      cf_read_loop dfilter_compile rescan max_records size dfcode records w1
      = Some (ReadEnd, w')
      /\ dense (w_cf w')
      /\ count (w_cf w') = count (w_cf w) + Z.of_nat (S (length records))
      /\ same_mode (w_cf w) (w_cf w')
      /\ w_ui w' = w_ui w /\ w_log w' = w_log w /\ w_fs w' = w_fs w
      /\ (dfcode = None -> redissecting (w_cf w) = false ->
          redissection_queued (w_cf w) = RESCAN_NONE ->
          all_displayed (w_cf w) -> all_displayed (w_cf w'))).
    { destruct Hm1 as (Hrf1 & Hrd1 & Hrq1 & Hsta1 & Hst1 & Hrl1 & Hdf1 & Hcur1).
      destruct (IH w1) as (w' & Hloop & Hd' & Hc' & Hm' & Hui' & Hlog' & Hfs' & Hall');
        rewrite ?Hw1; try congruence; try lia.
      { destruct Hquiet; [by left|by right]. }
      exists w'. rewrite Hw1 in *. split; [done|]. split; [done|].
      split; [lia|]. split.
      { destruct Hm' as (?&?&?&?&?&?&?&?). unfold same_mode.
        repeat split; congruence. }
      split; [done|]. split; [done|]. split; [done|].
      intros -> Hrd Hrq Hall. apply Hall'; try congruence.
      destruct Hdense. apply read_record_all_displayed; try done. lia. }
    assert (Hafter :
      (if file_state_eqb (state (w_cf w)) FILE_READ_ABORTED
       then Some (ReadAborted, w)
       else if stop_flag (w_cf w) then Some (ReadStopped, w)
       else cf_read_loop dfilter_compile rescan max_records size dfcode records w1)
      = cf_read_loop dfilter_compile rescan max_records size dfcode records w1).
    { destruct (file_state_eqb (state (w_cf w)) FILE_READ_ABORTED) eqn:E.
      - apply file_state_eqb_eq in E. done.
      - by rewrite Hstop. }
    destruct Hstep as (w' & Hloop & Hrest). exists w'. split; [|exact Hrest].
    fold w1. destruct (Z.geb_spec size 0) as [Hsz|Hsz].
    + destruct Hquiet as [?|Hui]; [lia|]. destruct Hcap as [?|Hcap]; [lia|].
      destruct (Z.eqb_spec (count (w_cf w)) max_records); [lia|].
      rewrite pump_quiet by done. cbv beta iota. fold w1. rewrite Hafter. exact Hloop.
    + fold w1. rewrite Hafter. exact Hloop.
Qed.

End ReadLoop.

Section ReadFull.

Context (dfilter_compile : string -> option (option dfilter_t)).

(** A read that nothing stops: what [cf_read] returns and leaves. *)
Lemma cf_read_full (fuel : nat) (max_records : Z) (wth : wtap)
    (reloading : bool) (w : world) :
  read_lock (w_cf w) = false ->
  redissection_queued (w_cf w) = RESCAN_NONE ->
  state (w_cf w) <> FILE_READ_ABORTED ->
  rfcode (w_cf w) = None ->
  (wth_file_size wth < 0 \/ w_ui w = []) ->
  (wth_file_size wth < 0
   \/ count (w_cf w) + Z.of_nat (length (wth_records wth)) <= max_records) ->
  count (w_cf w) + Z.of_nat (length (wth_records wth)) <= G_MAXUINT32 ->
  dense (w_cf w) ->
  exists w',
    cf_read dfilter_compile fuel max_records wth reloading w
    = Some (if wth_err wth =? 0 then CF_READ_OK else CF_READ_ERROR, w')
    /\ dense (w_cf w')
    /\ count (w_cf w') = count (w_cf w) + Z.of_nat (length (wth_records wth))
    /\ w_log w' = w_log w ++ [ReadStarted reloading; ReadFinished reloading]
                  ++ (if first_displayed (w_cf w') =? 0 then [] else [SelectFirstRow])
                  ++ (if wth_err wth =? 0 then [] else [AlertReadFailure])
    /\ read_lock (w_cf w') = false
    /\ (dfilter (w_cf w) = None -> redissecting (w_cf w) = false ->
        all_displayed (w_cf w) -> all_displayed (w_cf w')).
Proof.
  intros Hlock Hrq Hstate Hrf Hquiet Hcap Hmax Hdense.
  unfold cf_read. rewrite Hlock.
  match goal with
  | |- context [cf_read_loop _ ?r _ _ ?d _ ?w0] =>
      set (w0' := w0); set (dfcode := d); set (rs := r)
  end.
  destruct (cf_read_loop_full dfilter_compile rs max_records (wth_file_size wth)
              dfcode (wth_records wth) w0')
    as (w1 & Hloop & Hd1 & Hc1 & Hm1 & Hui1 & Hlog1 & Hfs1 & Hall1); try done.
  rewrite Hloop.
  destruct Hm1 as (Hrf1 & Hrd1 & Hrq1 & Hsta1 & Hst1 & Hrl1 & Hdf1 & Hcur1).
  cbv beta iota zeta.
  match goal with
  | |- context [on_cf (set_read_lock false) ?x] => set (w2 := on_cf (set_read_lock false) x)
  end.
  assert (Hw2 : frames (w_cf w2) = frames (w_cf w1) /\ count (w_cf w2) = count (w_cf w1)
                /\ displayed_count (w_cf w2) = displayed_count (w_cf w1)
                /\ first_displayed (w_cf w2) = first_displayed (w_cf w1)
                /\ last_displayed (w_cf w2) = last_displayed (w_cf w1)
                /\ redissection_queued (w_cf w2) = RESCAN_NONE
                /\ stop_flag (w_cf w2) = false
                /\ read_lock (w_cf w2) = false
                /\ w_log w2 = w_log w ++ [ReadStarted reloading; ReadFinished reloading]
                     ++ (if first_displayed (w_cf w1) =? 0 then [] else [SelectFirstRow])).
  { unfold w2.
    destruct (first_displayed (w_cf w1) =? 0) eqn:E; cbn; rewrite ?E; cbn;
      rewrite Hrq1, Hst1, Hlog1; cbn; rewrite ?Hrq, <- ?app_assoc; by repeat split. }
  destruct Hw2 as (Hf2 & Hc2 & Hdc2 & Hfd2 & Hld2 & Hrq2 & Hst2 & Hrl2 & Hlog2).
  clearbody w2. change (count (w_cf w0')) with (count (w_cf w)) in Hc1.
  rewrite Hrq2, Hst2. cbn [negb rescan_type_eqb].
  assert (Hd2 : dense (w_cf w2)) by (unfold dense; rewrite Hf2, Hc2; exact Hd1).
  assert (Hall2 : dfilter (w_cf w) = None -> redissecting (w_cf w) = false ->
                  all_displayed (w_cf w) -> all_displayed (w_cf w2)).
  { intros Hdf Hrd Hall. unfold all_displayed. rewrite Hf2, Hc2, Hdc2, Hfd2, Hld2.
    apply Hall1; try done. unfold dfcode, compile_dfilter. cbn. by rewrite Hdf. }
  destruct (Z.eqb_spec (wth_err wth) 0) as [Herr|Herr]; cbn [negb].
  - exists w2. split; [done|]. split; [done|]. split; [by rewrite Hc2|].
    split; [by rewrite Hlog2, Hfd2, app_nil_r|]. by split.
  - eexists. split; [reflexivity|]. cbn.
    split; [done|]. split; [by rewrite Hc2|].
    split; [by rewrite Hlog2, Hfd2, <- !app_assoc|]. by split.
Qed.

End ReadFull.

(** ** Requests that arrive while a scan holds the lock *)

Lemma scans_of_app l1 l2 : scans_of (l1 ++ l2) = scans_of l1 ++ scans_of l2.
Proof. unfold scans_of. apply omap_app. Qed.

Lemma only_queued_refl w : read_lock (w_cf w) = true -> only_queued w w.
Proof. intros. by repeat split. Qed.

Lemma only_queued_trans w1 w2 w3 :
  only_queued w1 w2 -> only_queued w2 w3 -> only_queued w1 w3.
Proof.
  unfold only_queued.
  intros (?&?&?&?&?&?&?&?&?&?&?&?) (?&?&?&?&?&?&?&?&?&?&?&?).
  repeat split; try congruence. lia.
Qed.

Section Locked.

Context (dfilter_compile : string -> option (option dfilter_t)).
Context (rescan : bool -> world -> option world).

Lemma cf_filter_packets_locked dftext force w :
  read_lock (w_cf w) = true ->
  exists st w', cf_filter_packets dfilter_compile rescan dftext force w = Some (st, w')
    /\ only_queued w w'
    /\ (redissection_queued (w_cf w) = RESCAN_REDISSECT ->
        redissection_queued (w_cf w') = RESCAN_REDISSECT).
Proof.
  intros Hlock. unfold cf_filter_packets.
  destruct (negb force && _).
  { exists CF_OK, w. split; [done|]. split; [by apply only_queued_refl|done]. }
  set (compiled := match dftext with Some _ => _ | None => _ end).
  destruct compiled as [dftext'|].
  - cbn. rewrite Hlock.
    destruct (redissection_queued (w_cf w)) eqn:Hq; cbn.
    + eexists _, _. split; [reflexivity|]. split; [|done].
      unfold only_queued. cbn. rewrite Hq. repeat split; try done. cbn. lia.
    + eexists _, _. split; [reflexivity|]. split; [|done].
      unfold only_queued. cbn. rewrite Hq. by repeat split.
    + eexists _, _. split; [reflexivity|]. split; [|done].
      unfold only_queued. cbn. rewrite Hq. by repeat split.
  - eexists _, _. split; [reflexivity|]. split; [|done].
    unfold only_queued. cbn. rewrite scans_of_app, app_nil_r. by repeat split.
Qed.

Lemma cf_redissect_packets_locked w :
  read_lock (w_cf w) = true ->
  exists w', cf_redissect_packets rescan w = Some w'
    /\ only_queued w w'
    /\ redissection_queued (w_cf w') = RESCAN_REDISSECT.
Proof.
  intros Hlock. unfold cf_redissect_packets. rewrite Hlock. cbn.
  eexists. split; [reflexivity|]. split; [|done].
  unfold only_queued. cbn. repeat split; try done.
  destruct (redissection_queued (w_cf w)); cbn; lia.
Qed.

Lemma handle_request_locked ev w :
  read_lock (w_cf w) = true -> is_request ev = true ->
  exists w', handle_event dfilter_compile rescan ev w = Some w'
    /\ only_queued w w'
    /\ (redissection_queued (w_cf w) = RESCAN_REDISSECT \/ ev = UiRedissect ->
        redissection_queued (w_cf w') = RESCAN_REDISSECT).
Proof.
  intros Hlock Hreq. destruct ev as [| |dftext force|]; try done.
  - destruct (cf_filter_packets_locked dftext force w Hlock) as (st & w' & H & Hk & Hq).
    exists w'. cbn. rewrite H. split; [done|]. split; [done|].
    intros [?|?]; [auto|done].
  - destruct (cf_redissect_packets_locked w Hlock) as (w' & H & Hk & Hq).
    exists w'. split; [done|]. split; [done|]. done.
Qed.

Lemma handle_requests_locked : forall evs w,
  read_lock (w_cf w) = true -> Forall (fun ev => is_request ev = true) evs ->
  exists w', handle_events dfilter_compile rescan evs w = Some w'
    /\ only_queued w w'
    /\ (redissection_queued (w_cf w) = RESCAN_REDISSECT \/ UiRedissect ∈ evs ->
        redissection_queued (w_cf w') = RESCAN_REDISSECT).
Proof.
  induction evs as [|ev evs IH]; intros w Hlock Hreq.
  - exists w. split; [done|]. split; [by apply only_queued_refl|].
    intros [?|Hin]; [done|]. by apply elem_of_nil in Hin.
  - apply Forall_cons in Hreq as [Hev Hreq]. cbn.
    destruct (handle_request_locked ev w Hlock Hev) as (w1 & H1 & Hk1 & Hq1).
    rewrite H1.
    destruct (IH w1) as (w' & H' & Hk' & Hq'); [apply Hk1|done|].
    exists w'. split; [done|]. split; [by eapply only_queued_trans|].
    intros [Hq|Hin].
    + apply Hq'. left. apply Hq1. by left.
    + apply elem_of_cons in Hin as [<-|Hin].
      * apply Hq'. left. apply Hq1. by right.
      * apply Hq'. by right.
Qed.

Lemma pump_requests_locked w :
  read_lock (w_cf w) = true ->
  Forall (Forall (fun ev => is_request ev = true)) (w_ui w) ->
  exists w', pump dfilter_compile rescan w = Some w'
    /\ only_queued (with_ui (tail (w_ui w)) w) w'
    /\ (redissection_queued (w_cf w) = RESCAN_REDISSECT
        \/ UiRedissect ∈ default [] (head (w_ui w)) ->
        redissection_queued (w_cf w') = RESCAN_REDISSECT).
Proof.
  intros Hlock Hreq. unfold pump. destruct (w_ui w) as [|evs ui] eqn:Hui.
  - exists w. split; [done|]. split.
    + destruct w. cbn in *. subst. by apply only_queued_refl.
    + intros [?|Hin]; [done|]. by apply elem_of_nil in Hin.
  - apply Forall_cons in Hreq as [Hevs Hreq]. cbn.
    destruct (handle_requests_locked evs (with_ui ui w) Hlock Hevs) as (w' & H & Hk & Hq).
    exists w'. split; [done|]. split; [done|]. exact Hq.
Qed.

End Locked.

(** ** A scan during which the presentation layer stays silent *)

Section QuietScan.

Context (dfilter_compile : string -> option (option dfilter_t)).
Context (rescan : bool -> world -> option world).
Context (wth : wtap).

Lemma rescan_loop_quiet redissect dfcode add selected : forall todo k v w,
  w_ui w = [] -> stop_flag (w_cf w) = false ->
  redissection_queued (w_cf w) = RESCAN_NONE ->
  exists k' v' w',
    rescan_loop dfilter_compile todo rescan wth redissect dfcode add selected k v w
    = Some (RESCAN_NONE, k', v', w')
    /\ w_ui w' = [] /\ scans_of (w_log w') = scans_of (w_log w)
    /\ redissection_queued (w_cf w') = RESCAN_NONE
    /\ count (w_cf w') = count (w_cf w)
    /\ w_fs w' = w_fs w.
Proof.
  induction todo as [|todo IH]; intros k v w Hui Hstop Hq.
  - exists k, v, w. by repeat split.
  - cbn [rescan_loop]. rewrite pump_quiet by done. rewrite Hq, Hstop.
    cbn [negb rescan_type_eqb].
    destruct (frame_data_sequence_find (frames (w_cf w)) k) as [fd|].
    2:{ exists k, v, w. by repeat split. }
    destruct (cf_read_record wth _) as [rec|].
    2:{ eexists k, v, _. split; [reflexivity|]. cbn.
        rewrite scans_of_app, app_nil_r. by repeat split. }
    match goal with
    | |- context [rescan_loop _ _ _ _ _ _ _ _ ?k1 ?v1 ?w1] =>
        destruct (IH k1 v1 w1) as (k' & v' & w' & Hloop & Hui' & Hsc' & Hq' & Hc' & Hfs')
    end.
    + done.
    + cbn. pose proof (add_packet_keeps k dfcode rec add
                         (set_frames (frame_store_set (frames (w_cf w)) k
                            (if redissect then frame_data_reset fd else fd)) (w_cf w)))
        as (_ & Hst & _). rewrite Hst. done.
    + cbn. pose proof (add_packet_keeps k dfcode rec add
                         (set_frames (frame_store_set (frames (w_cf w)) k
                            (if redissect then frame_data_reset fd else fd)) (w_cf w)))
        as (_ & _ & Hrq & _). rewrite Hrq. done.
    + exists k', v', w'. split; [exact Hloop|]. split; [done|].
      split; [by rewrite Hsc'|]. split; [done|]. split; [|by rewrite Hfs'].
      rewrite Hc'. cbn. by rewrite add_packet_count.
Qed.

Lemma rescan_select_log selected v w :
  scans_of (w_log (rescan_select selected v w)) = scans_of (w_log w)
  /\ w_ui (rescan_select selected v w) = w_ui w
  /\ redissection_queued (w_cf (rescan_select selected v w))
     = redissection_queued (w_cf w)
  /\ count (w_cf (rescan_select selected v w)) = count (w_cf w)
  /\ read_lock (w_cf (rescan_select selected v w)) = read_lock (w_cf w)
  /\ frames (w_cf (rescan_select selected v w)) = frames (w_cf w)
  /\ w_fs (rescan_select selected v w) = w_fs w.
Proof.
  unfold rescan_select.
  destruct (if selected_frame_num v =? -1 then _ else _) as [n p].
  destruct (n =? -1); [done|]. destruct (n =? 0).
  - cbn. by rewrite scans_of_app, app_nil_r.
  - destruct p; [|done]. cbn. by rewrite scans_of_app, app_nil_r.
Qed.

End QuietScan.

Section QuietRescanPackets.

Context (dfilter_compile : string -> option (option dfilter_t)).

(** A rescan that no request interrupts is one scan. *)
Lemma rescan_packets_quiet (fuel : nat) (wth : wtap) (redissect : bool) (w : world) :
  w_ui w = [] ->
  exists w',
    rescan_packets dfilter_compile (S fuel) wth redissect w = Some w'
    /\ scans_of (w_log w') = scans_of (w_log w) ++ [redissect]
    /\ w_ui w' = []
    /\ redissection_queued (w_cf w') = RESCAN_NONE
    /\ read_lock (w_cf w') = false
    /\ count (w_cf w') = count (w_cf w)
    /\ w_fs w' = w_fs w.
Proof.
  intros Hui. cbn [rescan_packets].
  match goal with
  | |- context [rescan_loop _ ?t ?r _ _ ?d ?a ?sel 1 _ ?w0] =>
      destruct (rescan_loop_quiet dfilter_compile r wth redissect d a sel t 1
                  rescan_vars_init w0)
        as (k' & v' & w1 & Hloop & Hui1 & Hsc1 & Hq1 & Hc1 & Hfs1)
  end.
  { destruct redissect; cbn; done. }
  { by destruct redissect. }
  { by destruct redissect. }
  rewrite Hloop. cbn [negb rescan_type_eqb].
  eexists. split; [reflexivity|].
  match goal with
  | |- context [rescan_select ?sel ?v ?x] =>
      pose proof (rescan_select_log sel v x) as (Hs1 & Hs2 & Hs3 & Hs4 & Hs5 & Hs6 & Hs7);
      set (Y := rescan_select sel v x) in *
  end.
  assert (Hlog : scans_of (w_log w1) = scans_of (w_log w) ++ [redissect]).
  { rewrite Hsc1. destruct redissect; cbn; by rewrite scans_of_app. }
  assert (Hcnt : count (w_cf w1) = count (w_cf w)).
  { rewrite Hc1. by destruct redissect. }
  assert (Hfs : w_fs w1 = w_fs w).
  { rewrite Hfs1. by destruct redissect. }
  split_and!.
  - change (scans_of (w_log Y) = scans_of (w_log w) ++ [redissect]).
    rewrite Hs1, tell_log, scans_of_app, app_nil_r. by destruct redissect.
  - change (w_ui Y = []). rewrite Hs2. by destruct redissect.
  - change (redissection_queued (w_cf Y) = RESCAN_NONE). rewrite Hs3.
    by destruct redissect.
  - done.
  - change (count (w_cf Y) = count (w_cf w)). rewrite Hs4. by destruct redissect.
  - change (w_fs Y = w_fs w). rewrite Hs7. by destruct redissect.
Qed.

End QuietRescanPackets.

(** ** A read during which requests arrive *)

Lemma read_record_any rec offset dfcode cf :
  0 <= count cf < G_MAXUINT32 ->
  let cf' := snd (read_record rec offset dfcode cf) in
  count cf <= count cf' <= count cf + 1 /\ same_mode cf cf'.
Proof.
  intros Hc. destruct (read_filter_passes cf rec offset) eqn:Hp.
  - destruct (read_record_kept rec offset dfcode cf Hp) as (_ & _ & Hc' & Hm & _).
    cbn. rewrite Hc', wrap32_small by lia. split; [lia|done].
  - destruct (read_record_dropped rec offset dfcode cf Hp) as (_ & _ & Hc' & Hm).
    cbn. rewrite Hc'. split; [lia|done].
Qed.

Section ReadRequests.

Context (dfilter_compile : string -> option (option dfilter_t)).
Context (rescan : bool -> world -> option world).
Context (max_records size : Z) (dfcode : option dfilter_t).

Lemma cf_read_loop_requests : forall records w,
  read_lock (w_cf w) = true -> 0 <= size ->
  Forall (Forall (fun ev => is_request ev = true)) (w_ui w) ->
  state (w_cf w) <> FILE_READ_ABORTED -> stop_flag (w_cf w) = false ->
  0 <= count (w_cf w) ->
  count (w_cf w) + Z.of_nat (length records) <= max_records ->
  count (w_cf w) + Z.of_nat (length records) <= G_MAXUINT32 ->
  exists w',
    cf_read_loop dfilter_compile rescan max_records size dfcode records w
    = Some (ReadEnd, w')
    /\ read_lock (w_cf w') = true
    /\ w_ui w' = drop (length records) (w_ui w)
    /\ (rescan_rank (redissection_queued (w_cf w))
        <= rescan_rank (redissection_queued (w_cf w')))%nat
    /\ (redissection_queued (w_cf w) = RESCAN_REDISSECT
        \/ UiRedissect ∈ concat (take (length records) (w_ui w)) ->
        redissection_queued (w_cf w') = RESCAN_REDISSECT)
    /\ scans_of (w_log w') = scans_of (w_log w)
    /\ stop_flag (w_cf w') = false
    /\ state (w_cf w') = state (w_cf w)
    /\ w_fs w' = w_fs w.
Proof.
  induction records as [|[rec off] records IH];
    intros w Hlock Hsize Hreq Hstate Hstop Hc0 Hcap Hmax.
  - exists w. cbn. rewrite drop_0. split_and!; try done.
    intros [?|Hin]; [done|]. by apply elem_of_nil in Hin.
  - cbn [cf_read_loop length] in *. cbv beta zeta.
    destruct (Z.geb_spec size 0) as [_|?]; [|lia].
    destruct (Z.eqb_spec (count (w_cf w)) max_records); [lia|].
    destruct (pump_requests_locked dfilter_compile rescan w Hlock Hreq)
      as (w1 & Hpump & Hk & Hq1).
    rewrite Hpump.
    destruct Hk as (Hl1 & Hrank1 & Hsta1 & Hst1 & Hcnt1 & Hfr1 & Hrf1 & Hrd1 & Hcur1
                    & Hui1 & Hfs1 & Hsc1).
    rewrite ?with_ui_cf, ?with_ui_ui, ?with_ui_log, ?with_ui_fs in *.
    cbv beta iota.
    rewrite Hsta1, Hst1.
    destruct (file_state_eqb (state (w_cf w)) FILE_READ_ABORTED) eqn:E.
    { apply file_state_eqb_eq in E. done. }
    rewrite Hstop.
    set (w2 := on_cf (fun cf => snd (read_record rec off dfcode cf)) w1).
    destruct (read_record_any rec off dfcode (w_cf w1) ltac:(lia))
      as [Hc2 (Hrf2 & Hrd2 & Hrq2 & Hsta2 & Hst2 & Hrl2 & Hdf2 & Hcur2)].
    destruct (IH w2) as (w' & Hloop & Hl' & Hui' & Hrank' & Hq' & Hsc' & Hst' & Hsta' & Hfs').
    + unfold w2. rewrite on_cf_cf. congruence.
    + done.
    + unfold w2. rewrite on_cf_ui, Hui1. cbn.
      destruct (w_ui w); [done|]. by apply Forall_cons in Hreq as [_ ?].
    + unfold w2. rewrite on_cf_cf. congruence.
    + unfold w2. rewrite on_cf_cf. congruence.
    + unfold w2. rewrite on_cf_cf. cbn in Hc2. lia.
    + unfold w2. rewrite on_cf_cf. cbn in Hc2. lia.
    + unfold w2. rewrite on_cf_cf. cbn in Hc2. lia.
    + exists w'. split; [exact Hloop|].
      unfold w2 in *. rewrite ?on_cf_cf, ?on_cf_ui, ?on_cf_log, ?on_cf_fs in *.
      rewrite Hrq2 in Hrank', Hq'.
      split_and!; try done.
      * rewrite Hui', Hui1. destruct (w_ui w); cbn [tail]; [by rewrite !drop_nil|done].
      * cbn in Hrank1. lia.
      * intros Hor. apply Hq'. rewrite Hui1. cbn.
        destruct (w_ui w) as [|evs ui]; cbn in *.
        -- left. apply Hq1. destruct Hor as [?|Hin]; [by left|].
           by apply elem_of_nil in Hin.
        -- destruct Hor as [?|Hin].
           ++ left. apply Hq1. by left.
           ++ apply elem_of_app in Hin as [Hin|Hin].
              ** left. apply Hq1. by right.
              ** by right.
      * by rewrite Hsc', Hsc1.
      * congruence.
      * by rewrite Hfs', Hfs1.
Qed.

End ReadRequests.

(** ** The pending-rescan slot *)

Lemma occurs_at_substring pat txt s :
  occurs_at pat txt s -> substring_of pat txt.
Proof.
  intros H. exists (take s txt), (drop (length pat) (drop s txt)).
  rewrite <- (take_drop s txt) at 1. f_equal.
  rewrite <- (take_drop (length pat) (drop s txt)) at 1. f_equal.
  apply list_eq. intros j.
  destruct (decide (j < length pat)%nat) as [Hj|Hj].
  - rewrite lookup_take_lt by lia. rewrite lookup_drop. auto.
  - rewrite lookup_take_ge by lia. symmetry. apply lookup_ge_None. lia.
Qed.

Lemma substring_occurs_at pat txt :
  substring_of pat txt -> exists s, occurs_at pat txt s.
Proof.
  intros (pre & post & ->). exists (length pre). intros j Hj.
  rewrite lookup_app_r by lia.
  replace (length pre + j - length pre)%nat with j by lia.
  by rewrite lookup_app_l.
Qed.

Lemma occurs_at_bound pat txt s :
  pat <> [] -> occurs_at pat txt s -> (s + length pat <= length txt)%nat.
Proof.
  intros Hne H. destruct pat as [|a pat]; [done|].
  specialize (H (length pat)). simpl in H.
  assert (is_Some (txt !! (s + length pat)%nat)) as Hs.
  { rewrite H by lia. apply lookup_lt_is_Some. simpl. lia. }
  apply lookup_lt_is_Some in Hs. simpl. lia.
Qed.

Lemma byte_at_lookup (p : list Z) (i : Z) :
  0 <= i < Z.of_nat (length p) -> p !! Z.to_nat i = Some (byte_at p i).
Proof.
  intros H. unfold byte_at. rewrite nth_lookup.
  destruct (lookup_lt_is_Some_2 p (Z.to_nat i)) as [x Hx]; [lia|].
  by rewrite Hx.
Qed.

Lemma scanned_text_lookup case_type pd buf_len i :
  0 <= i < buf_len -> (Z.to_nat buf_len <= length pd)%nat ->
  scanned_text case_type pd buf_len !! Z.to_nat i
  = Some (fold_case case_type (byte_at pd i)).
Proof.
  intros Hi Hlen. unfold scanned_text.
  rewrite list_lookup_fmap, lookup_take_lt by lia.
  rewrite byte_at_lookup by lia. done.
Qed.

Lemma scanned_text_length case_type pd buf_len :
  (Z.to_nat buf_len <= length pd)%nat ->
  length (scanned_text case_type pd buf_len) = Z.to_nat buf_len.
Proof.
  intros. unfold scanned_text. rewrite length_map, length_take. lia.
Qed.

Lemma narrow_loop_spec fuel case_type pd pat buf_len : forall i c,
  buf_len <= G_MAXUINT32 -> (Z.to_nat buf_len <= length pd)%nat ->
  scan_inv pat (scanned_text case_type pd buf_len) buf_len i c ->
  (buf_len - (i - c)) * Z.of_nat (length pat) + (Z.of_nat (length pat) - c)
    < Z.of_nat fuel ->
  match narrow_loop fuel case_type pd pat (Z.of_nat (length pat)) buf_len i c with
  | None => False
  | Some None => forall s, ~ occurs_at pat (scanned_text case_type pd buf_len) s
  | Some (Some e) =>
      exists s, occurs_at pat (scanned_text case_type pd buf_len) s
        /\ (forall s', (s' < s)%nat -> ~ occurs_at pat (scanned_text case_type pd buf_len) s')
        /\ e = Z.of_nat s + Z.of_nat (length pat) - 1
  end.
Proof.
  set (T := scanned_text case_type pd buf_len).
  set (m := Z.of_nat (length pat)).
  induction fuel as [|fuel IH]; intros i c Hmax Hlen [Hc Hi Hm Hbefore Hpart] Hfuel.
  - exfalso. nia.
  - simpl. destruct (Z.ltb_spec i buf_len) as [Hlt|Hge].
    + assert (HT : T !! Z.to_nat i = Some (fold_case case_type (byte_at pd i))).
      { apply scanned_text_lookup; lia. }
      assert (HP : pat !! Z.to_nat c = Some (byte_at pat c)).
      { apply byte_at_lookup. lia. }
      unfold narrow_step. fold (fold_case case_type (byte_at pd i)).
      destruct (Z.eqb_spec (fold_case case_type (byte_at pd i)) (byte_at pat c)) as [Heq|Hne].
      * assert (Hocc : forall j, Z.of_nat j < c + 1 ->
                  T !! (Z.to_nat (i - c) + j)%nat = pat !! j).
        { intros j Hj. destruct (decide (Z.of_nat j < c)) as [Hjc|Hjc]; [auto|].
          assert (j = Z.to_nat c) as -> by lia.
          replace (Z.to_nat (i - c) + Z.to_nat c)%nat with (Z.to_nat i) by lia.
          rewrite HT, HP. by f_equal. }
        destruct (Z.eqb_spec (c + 1) m) as [Hfull|Hnot].
        -- exists (Z.to_nat (i - c)). split; [|split].
           ++ intros j Hj. apply Hocc. lia.
           ++ intros s' Hs'. apply Hbefore. lia.
           ++ lia.
        -- rewrite wrap32_small by lia.
           apply IH; [done|done| |nia].
           constructor; [lia|lia|lia| |].
           ++ intros s Hs. apply Hbefore. lia.
           ++ intros j Hj. replace (i + 1 - (c + 1)) with (i - c) by lia. auto.
      * rewrite (wrap32_small c) by lia.
        rewrite (wrap32_small (i - c)) by lia.
        rewrite wrap32_small by lia.
        apply IH; [done|done| |nia].
        constructor; [lia|lia|lia| |].
        -- intros s Hs Hocc.
           destruct (decide (Z.of_nat s < i - c)) as [Hsc|Hsc]; [by eapply Hbefore|].
           assert (s = Z.to_nat (i - c)) as -> by lia.
           specialize (Hocc (Z.to_nat c)).
           replace (Z.to_nat (i - c) + Z.to_nat c)%nat with (Z.to_nat i) in Hocc by lia.
           rewrite HT, HP in Hocc. apply Hne. injection Hocc; [auto|lia].
        -- intros j Hj. lia.
    + intros s Hocc.
      destruct (decide (Z.of_nat s < i - c)) as [Hsc|Hsc]; [by eapply Hbefore|].
      assert (pat <> []) as Hne by (intros ->; simpl in *; lia).
      pose proof (occurs_at_bound _ _ _ Hne Hocc) as Hb.
      unfold T in Hb. rewrite scanned_text_length in Hb by done. lia.
Qed.

Lemma binary_loop_narrow fuel pd pat m buf_len : forall i c,
  binary_loop fuel pd pat m buf_len i c
  = narrow_loop fuel false pd pat m buf_len i c.
Proof.
  induction fuel as [|fuel IH]; intros i c; [done|].
  simpl. destruct (i <? buf_len); [|done].
  change (binary_step pd pat m i c) with (narrow_step false pd pat m i c).
  destruct (narrow_step false pd pat m i c); [done|apply IH].
Qed.

Lemma scan_inv_start pat txt buf_len :
  pat <> [] -> 0 <= buf_len -> scan_inv pat txt buf_len 0 0.
Proof.
  intros Hne Hb. constructor; try lia.
  destruct pat; [done|simpl; lia].
Qed.

Lemma scanned_text_raw pd buf_len :
  scanned_text false pd buf_len = take (Z.to_nat buf_len) pd.
Proof. unfold scanned_text. apply map_id. Qed.

Lemma scan_outcome_of_loop case_type pd pat buf_len cf :
  pat <> [] -> 0 <= buf_len <= G_MAXUINT32 ->
  (Z.to_nat buf_len <= length pd)%nat ->
  scan_outcome pat (scanned_text case_type pd buf_len) cf
    match narrow_loop (scan_fuel buf_len (Z.of_nat (length pat))) case_type pd
            pat (Z.of_nat (length pat)) buf_len 0 0 with
    | None => None
    | Some None => Some (MR_NOTMATCHED, cf)
    | Some (Some i) =>
        Some (MR_MATCHED, set_search i (wrap32 (Z.of_nat (length pat))) cf)
    end.
Proof.
  intros Hne Hb Hlen.
  set (m := Z.of_nat (length pat)).
  set (txt := scanned_text case_type pd buf_len).
  pose proof (narrow_loop_spec (scan_fuel buf_len m) case_type pd pat buf_len 0 0
                (proj2 Hb) Hlen (scan_inv_start _ _ _ Hne (proj1 Hb))) as H.
  fold m txt in H.
  assert (Hfuel : (buf_len - (0 - 0)) * m + (m - 0) < Z.of_nat (scan_fuel buf_len m)).
  { unfold scan_fuel. nia. }
  specialize (H Hfuel).
  destruct (narrow_loop _ _ _ _ _ _ _ _) as [[e|]|]; [| |done].
  - destruct H as (s & Hocc & Hfirst & ->).
    pose proof (occurs_at_bound _ _ _ Hne Hocc) as Hbound.
    unfold txt in Hbound. rewrite scanned_text_length in Hbound by done.
    exists MR_MATCHED, (set_search (Z.of_nat s + m - 1) (wrap32 m) cf).
    rewrite (wrap32_small m) by (unfold m; lia).
    split; [done|]. split; [|split; [done|]].
    + split; [intros _; by eapply occurs_at_substring|done].
    + intros _. exists s. by repeat split.
  - exists MR_NOTMATCHED, cf. split; [done|]. split; [|split; [done|done]].
    split; [done|]. intros Hsub.
    destruct (substring_occurs_at _ _ Hsub) as [s Hs]. exfalso. by eapply H.
Qed.

Lemma narrow_step_mismatch case_type pd pat textlen i c :
  0 <= c <= i -> i < G_MAXUINT32 ->
  fold_case case_type (byte_at pd i) <> byte_at pat c ->
  narrow_step case_type pd pat textlen i c = ScanNext (i - c + 1) 0.
Proof.
  intros Hc Hi Hne. unfold narrow_step. fold (fold_case case_type (byte_at pd i)).
  destruct (Z.eqb_spec (fold_case case_type (byte_at pd i)) (byte_at pat c)); [done|].
  rewrite (wrap32_small c), (wrap32_small (i - c)), wrap32_small; [done|lia..].
Qed.

Lemma narrow_step_match case_type pd pat textlen i c :
  0 <= i < G_MAXUINT32 ->
  fold_case case_type (byte_at pd i) = byte_at pat c ->
  narrow_step case_type pd pat textlen i c
  = if c + 1 =? textlen then ScanMatched i else ScanNext (i + 1) (c + 1).
Proof.
  intros Hi Heq. unfold narrow_step. fold (fold_case case_type (byte_at pd i)).
  rewrite Heq, Z.eqb_refl, wrap32_small; [done|lia].
Qed.

(** C7 (amended).  On the first [cap_len] bytes of a frame's payload and a
    non-empty pattern, [match_narrow] reports a match exactly when the
    pattern, as it was passed, is a contiguous substring of those bytes
    after the payload bytes alone are upper-cased in case-insensitive mode
    (hence exactly when the folded pattern occurs in the folded payload as
    soon as the pattern is already upper case), and [match_binary] exactly
    when it is a substring of the raw bytes; both leave [search_pos] at the
    last byte of the first occurrence and [search_len] at the pattern
    length; and on a mismatched byte the scan index steps back by [c_match]
    (and moves on by one) while [c_match] returns to 0. *)
Theorem byte_matchers_find_the_pattern (wth : wtap) (cf : capture_file)
    (fdata : frame_data) (rec : wtap_rec) (pat : cbs_t) :
  cf_read_record wth fdata = Some rec ->
  pat <> [] ->
  0 <= cap_len fdata <= G_MAXUINT32 ->
  (Z.to_nat (cap_len fdata) <= length (rec_data rec))%nat ->
  let folded := scanned_text (case_type cf) (rec_data rec) (cap_len fdata) in
  let raw := take (Z.to_nat (cap_len fdata)) (rec_data rec) in
  scan_outcome pat folded cf (match_narrow wth cf fdata pat)
  /\ (map (fold_case (case_type cf)) pat = pat ->
      scan_outcome (map (fold_case (case_type cf)) pat) folded cf
        (match_narrow wth cf fdata pat))
  /\ scan_outcome pat raw cf (match_binary wth cf fdata pat)
  /\ (forall i c, 0 <= c <= i -> i < cap_len fdata ->
      fold_case (case_type cf) (byte_at (rec_data rec) i) <> byte_at pat c ->
      narrow_step (case_type cf) (rec_data rec) pat (Z.of_nat (length pat)) i c
        = ScanNext (i - c + 1) 0
      /\ (byte_at (rec_data rec) i <> byte_at pat c ->
          binary_step (rec_data rec) pat (Z.of_nat (length pat)) i c
          = ScanNext (i - c + 1) 0)).
Proof.
  intros Hread Hne Hcap Hlen folded raw.
  assert (Hn : scan_outcome pat folded cf (match_narrow wth cf fdata pat)).
  { unfold match_narrow. rewrite Hread. by apply scan_outcome_of_loop. }
  split; [done|]. split; [by intros ->|]. split.
  - unfold match_binary. rewrite Hread, binary_loop_narrow.
    unfold raw. rewrite <- scanned_text_raw. by apply scan_outcome_of_loop.
  - intros i c Hc Hi Hmis. split.
    + apply narrow_step_mismatch; [done|lia|done].
    + intros Hb. change (binary_step (rec_data rec) pat (Z.of_nat (length pat)) i c)
        with (narrow_step false (rec_data rec) pat (Z.of_nat (length pat)) i c).
      apply narrow_step_mismatch; [done|lia|done].
Qed.

(** ** The search loop with nothing selected *)

Lemma find_packet_loop_diverges (match_function : ws_match_function)
    (dir : search_direction) (fds : list frame_data) (n : Z) fuel :
  1 <= n <= G_MAXUINT32 -> n = Z.of_nat (length fds) ->
  (forall cf fd, fd ∈ fds -> match_function cf fd = (MR_NOTMATCHED, cf)) ->
  forall framenum turn cf evaluated,
  frames cf = fds -> count cf = n -> 0 <= framenum <= n ->
  find_packet_loop fuel true (fun _ => false) match_function dir None 0
    framenum turn cf evaluated = None.
Proof.
  intros Hn Hlen Hmatch.
  induction fuel as [|fuel IH]; intros framenum turn cf evaluated Hfr Hcnt Hrange; [done|].
  cbn [find_packet_loop]. rewrite Hfr, Hcnt.
  set (next := match dir with
               | SD_FORWARD => if framenum =? n then 1 else wrap32 (framenum + 1)
               | SD_BACKWARD => if framenum <=? 1 then n else wrap32 (framenum - 1)
               end).
  assert (Hnext : 1 <= next <= n).
  { unfold next. destruct dir.
    - destruct (Z.eqb_spec framenum n); [lia|]. rewrite wrap32_small; lia.
    - destruct (Z.leb_spec framenum 1); [lia|]. rewrite wrap32_small; lia. }
  destruct (find_is_Some fds next ltac:(lia)) as [fd Hfd].
  unfold frame_ptr. rewrite Hfd.
  destruct (passed_dfilter fd).
  - rewrite (Hmatch _ _ (find_elem_of _ _ _ Hfd)).
    destruct (decide (Some next = None)); [done|].
    apply IH; [done|done|lia].
  - destruct (decide (Some next = None)); [done|].
    apply IH; [done|done|lia].
Qed.

(** ** The search loop from a selected frame *)

Section SearchEnds.

Context (match_function : ws_match_function) (dir : search_direction)
        (wrap : bool) (fds : list frame_data) (n s : Z).
Hypothesis Hs : 1 <= s <= n.
Hypothesis Hn : n <= G_MAXUINT32.
Hypothesis Hlen : n = Z.of_nat (length fds).
Hypothesis Hmatch :
  forall cf fd, fd ∈ fds -> match_function cf fd = (MR_NOTMATCHED, cf).

Lemma find_packet_loop_ends : forall m fuel k turn cf evaluated,
  frames cf = fds -> count cf = n -> 1 <= k <= n ->
  Z.of_nat m = turns_left dir wrap n s k -> (m <= fuel)%nat ->
  exists l,
    find_packet_loop fuel wrap (fun _ => false) match_function dir (Some s) s
      k turn cf evaluated = Some (None, cf, evaluated ++ l)
    /\ NoDup l
    /\ forall e, e ∈ l ->
         passes fds e = true /\ turns_after dir wrap n s e < Z.of_nat m.
Proof.
  induction m as [|m IH]; intros fuel k turn cf evaluated Hfr Hcnt Hk Hm Hfuel.
  { unfold turns_left in Hm.
    destruct dir, wrap;
      repeat match goal with
             | H : context [?a <? ?b] |- _ => destruct (Z.ltb_spec a b)
             end; lia. }
  destruct fuel as [|fuel]; [lia|].
  cbn [find_packet_loop]. rewrite Hfr, Hcnt.
  set (next := match dir with
               | SD_BACKWARD =>
                   if k <=? 1 then if wrap then n else s else wrap32 (k - 1)
               | SD_FORWARD =>
                   if k =? n then if wrap then 1 else s else wrap32 (k + 1)
               end).
  assert (Hnext : 1 <= next <= n
                  /\ (next = s -> m = 0%nat)
                  /\ (next <> s -> Z.of_nat m = turns_left dir wrap n s next)).
  { unfold next, turns_left in *. destruct dir.
    - destruct (Z.eqb_spec k n).
      + destruct wrap;
          repeat match goal with
                 | |- context [?a <? ?b] => destruct (Z.ltb_spec a b)
                 | H : context [?a <? ?b] |- _ => destruct (Z.ltb_spec a b)
                 end; lia.
      + rewrite wrap32_small by lia.
        destruct wrap;
          repeat match goal with
                 | |- context [?a <? ?b] => destruct (Z.ltb_spec a b)
                 | H : context [?a <? ?b] |- _ => destruct (Z.ltb_spec a b)
                 end; lia.
    - destruct (Z.leb_spec k 1).
      + destruct wrap;
          repeat match goal with
                 | |- context [?a <? ?b] => destruct (Z.ltb_spec a b)
                 | H : context [?a <? ?b] |- _ => destruct (Z.ltb_spec a b)
                 end; lia.
      + rewrite wrap32_small by lia.
        destruct wrap;
          repeat match goal with
                 | |- context [?a <? ?b] => destruct (Z.ltb_spec a b)
                 | H : context [?a <? ?b] |- _ => destruct (Z.ltb_spec a b)
                 end; lia. }
  destruct Hnext as (Hrange & Hstop & Hgo). clearbody next.
  destruct (find_is_Some fds next ltac:(lia)) as [fd Hfd].
  unfold frame_ptr. rewrite Hfd.
  assert (Hafter : forall ev,
    exists l',
      (if decide (Some next = Some s) then Some (None, cf, ev)
       else find_packet_loop fuel wrap (fun _ => false) match_function dir
              (Some s) s next (S turn) cf ev) = Some (None, cf, ev ++ l')
      /\ NoDup l'
      /\ forall e, e ∈ l' ->
           passes fds e = true /\ turns_after dir wrap n s e < Z.of_nat m).
  { intros ev. destruct (decide (Some next = Some s)) as [Heq|Hne].
    - exists []. rewrite app_nil_r. split; [done|]. split; [constructor|].
      intros e He. by apply elem_of_nil in He.
    - assert (next <> s) by congruence.
      destruct (IH fuel next (S turn) cf ev) as (l' & Hloop & Hnd & Hl');
        [done|done|done|by apply Hgo|lia|].
      by exists l'. }
  assert (Hrank : turns_after dir wrap n s next = Z.of_nat m).
  { unfold turns_after. destruct (decide (next = s)) as [Heq|Hne].
    - rewrite (Hstop Heq). done.
    - by rewrite Hgo. }
  destruct (passed_dfilter fd) eqn:Hpass.
  - rewrite (Hmatch _ _ (find_elem_of _ _ _ Hfd)).
    destruct (Hafter (evaluated ++ [next])) as (l' & Hloop & Hnd & Hl').
    exists (next :: l'). rewrite Hloop, <- app_assoc. split; [done|]. split.
    + constructor; [|done]. intros Hin. apply Hl' in Hin as [_ Hlt]. lia.
    + intros e He. apply elem_of_cons in He as [->|He].
      * split; [|lia]. unfold passes, ptr_passed_dfilter. by rewrite Hfd.
      * apply Hl' in He as [? ?]. split; [done|lia].
  - destruct (Hafter evaluated) as (l' & Hloop & Hnd & Hl').
    exists l'. split; [done|]. split; [done|].
    intros e He. apply Hl' in He as [? ?]. split; [done|lia].
Qed.

End SearchEnds.

(** ** The search loop with nothing selected and no wrap-around *)

Lemma find_packet_loop_clamped (match_function : ws_match_function)
    (fds : list frame_data) (n : Z) :
  n <= G_MAXUINT32 -> n = Z.of_nat (length fds) ->
  (forall cf fd, fd ∈ fds -> match_function cf fd = (MR_NOTMATCHED, cf)) ->
  forall m fuel k turn cf evaluated,
  frames cf = fds -> count cf = n -> 0 <= k <= n ->
  Z.of_nat m = n - k + 1 -> (m <= fuel)%nat ->
  exists l,
    find_packet_loop fuel false (fun _ => false) match_function SD_FORWARD None 0
      k turn cf evaluated = Some (None, cf, evaluated ++ l)
    /\ NoDup l
    /\ forall e, e ∈ l -> passes fds e = true /\ k < e.
Proof.
  intros Hn Hlen Hmatch.
  induction m as [|m IH]; intros fuel k turn cf evaluated Hfr Hcnt Hk Hm Hfuel;
    [lia|].
  destruct fuel as [|fuel]; [lia|].
  cbn [find_packet_loop]. rewrite Hfr, Hcnt.
  destruct (Z.eqb_spec k n) as [->|Hne].
  - unfold frame_ptr, frame_data_sequence_find. cbn.
    exists []. rewrite app_nil_r. split; [done|]. split; [constructor|].
    intros e He. by apply elem_of_nil in He.
  - rewrite wrap32_small by lia.
    destruct (find_is_Some fds (k + 1) ltac:(lia)) as [fd Hfd].
    unfold frame_ptr. rewrite Hfd.
    destruct (decide (Some (k + 1) = None)); [done|].
    destruct (passed_dfilter fd) eqn:Hpass.
    + rewrite (Hmatch _ _ (find_elem_of _ _ _ Hfd)).
      destruct (IH fuel (k + 1) (S turn) cf (evaluated ++ [k + 1]))
        as (l' & Hloop & Hnd & Hl'); [done|done|lia|lia|lia|].
      exists ((k + 1) :: l'). rewrite Hloop, <- app_assoc. split; [done|]. split.
      * constructor; [|done]. intros Hin. apply Hl' in Hin as [_ Hlt]. lia.
      * intros e He. apply elem_of_cons in He as [->|He].
        -- split; [|lia]. unfold passes, ptr_passed_dfilter. by rewrite Hfd.
        -- apply Hl' in He as [? ?]. split; [done|lia].
    + destruct (IH fuel (k + 1) (S turn) cf evaluated)
        as (l' & Hloop & Hnd & Hl'); [done|done|lia|lia|lia|].
      exists l'. split; [done|]. split; [done|].
      intros e He. apply Hl' in He as [? ?]. split; [done|lia].
Qed.

(** C6.  A search that matches no frame ends with "not found", having
    evaluated the criterion on displayed frames only and on none of them
    twice, when it starts from a selected frame (with or without
    wrap-around, in either direction) and when nothing is selected and
    wrap-around is off.  With nothing selected, wrap-around on and a
    store that is not empty it never leaves the loop of [find_packet]
    unless the user cancels it: whatever the fuel, the run is cut short
    by the fuel. *)
Theorem find_packet_ends_unless_nothing_selected :
  (forall fuel wrap found_row match_function dir cf s,
     current_frame cf = Some s ->
     1 <= s <= count cf -> count cf <= G_MAXUINT32 -> dense cf ->
     (forall cf' fd, fd ∈ frames cf ->
        match_function cf' fd = (MR_NOTMATCHED, cf')) ->
     (Z.to_nat (count cf) < fuel)%nat ->
     exists cf' evaluated,
       find_packet fuel wrap (fun _ => false) found_row match_function dir cf
       = Some (false, cf', evaluated)
       /\ NoDup evaluated
       /\ forall e, e ∈ evaluated -> passes (frames cf) e = true)
  /\ (forall fuel found_row match_function dir cf,
     current_frame cf = None ->
     0 <= count cf <= G_MAXUINT32 ->
     count cf = Z.of_nat (length (frames cf)) ->
     (forall cf' fd, fd ∈ frames cf ->
        match_function cf' fd = (MR_NOTMATCHED, cf')) ->
     (Z.to_nat (count cf) + 1 < fuel)%nat ->
     exists cf' evaluated,
       find_packet fuel false (fun _ => false) found_row match_function dir cf
       = Some (false, cf', evaluated)
       /\ NoDup evaluated
       /\ forall e, e ∈ evaluated -> passes (frames cf) e = true)
  /\ (forall fuel found_row match_function dir cf,
     current_frame cf = None ->
     1 <= count cf <= G_MAXUINT32 ->
     count cf = Z.of_nat (length (frames cf)) ->
     (forall cf' fd, fd ∈ frames cf ->
        match_function cf' fd = (MR_NOTMATCHED, cf')) ->
     find_packet fuel true (fun _ => false) found_row match_function dir cf
     = None).
Proof.
  split; [|split].
  - intros fuel wrap found_row match_function dir cf s Hsel Hs Hn Hd Hmatch Hfuel.
    pose proof (dense_length _ Hd) as Hlen.
    destruct (find_is_Some (frames cf) s ltac:(lia)) as [fd Hfd].
    unfold find_packet. rewrite Hsel, Hfd, (dense_find _ _ _ Hd Hfd).
    assert (Hturns : 1 <= turns_left dir wrap (count cf) s s <= count cf).
    { unfold turns_left. destruct dir, wrap; rewrite Z.ltb_irrefl; lia. }
    destruct (find_packet_loop_ends match_function dir wrap (frames cf) (count cf) s
                Hs Hn (eq_sym Hlen) Hmatch
                (Z.to_nat (turns_left dir wrap (count cf) s s)) fuel s 0%nat
                (set_stop_flag false cf) [])
      as (l & Hloop & Hnd & Hl); [done|done|done|lia|lia|].
    rewrite Hloop. exists (set_stop_flag false cf), l.
    split; [done|]. split; [done|]. intros e He. by apply Hl.
  - intros fuel found_row match_function dir cf Hsel Hn Hlen Hmatch Hfuel.
    unfold find_packet. rewrite Hsel. destruct dir.
    + destruct (find_packet_loop_clamped match_function (frames cf) (count cf)
                  (proj2 Hn) Hlen Hmatch (Z.to_nat (count cf + 1)) fuel 0 0%nat
                  (set_stop_flag false cf) [])
        as (l & Hloop & Hnd & Hl); [done|done|lia|lia|lia|].
      rewrite Hloop. exists (set_stop_flag false cf), l.
      split; [done|]. split; [done|]. intros e He. by apply Hl.
    + destruct fuel as [|fuel]; [lia|].
      exists (set_stop_flag false cf), []. cbn.
      split; [done|]. split; [constructor|].
      intros e He. by apply elem_of_nil in He.
  - intros fuel found_row match_function dir cf Hsel Hn Hlen Hmatch.
    unfold find_packet. rewrite Hsel.
    rewrite (find_packet_loop_diverges match_function dir (frames cf) (count cf));
      [done|done|done|done|done|done|lia].
Qed.

(** ** The store under the lock, whatever arrives *)

Lemma dumps_of_app l1 l2 : dumps_of (l1 ++ l2) = dumps_of l1 ++ dumps_of l2.
Proof. apply omap_app. Qed.

Lemma held_refl w : read_lock (w_cf w) = true -> held w w.
Proof. intros. by repeat split. Qed.

Lemma held_trans w1 w2 w3 : held w1 w2 -> held w2 w3 -> held w1 w3.
Proof.
  unfold held. intros (?&?&?&?&?&?&?&?&?&?&?) (?&?&?&?&?&?&?&?&?&?&?).
  repeat split; congruence.
Qed.

Section Held.

Context (dfilter_compile : string -> option (option dfilter_t)).
Context (rescan : bool -> world -> option world).

Lemma cf_filter_packets_held dftext force w :
  read_lock (w_cf w) = true ->
  exists st w', cf_filter_packets dfilter_compile rescan dftext force w = Some (st, w')
    /\ held w w'.
Proof.
  intros Hlock. unfold cf_filter_packets.
  destruct (negb force && _).
  { exists CF_OK, w. split; [done|]. by apply held_refl. }
  set (compiled := match dftext with Some _ => _ | None => _ end).
  destruct compiled as [dftext'|].
  - cbn. rewrite Hlock.
    destruct (redissection_queued (w_cf w)) eqn:Hq; cbn;
      (eexists _, _; split; [reflexivity|]; unfold held; cbn; by repeat split).
  - eexists _, _. split; [reflexivity|]. unfold held. cbn.
    rewrite dumps_of_app, app_nil_r. by repeat split.
Qed.

Lemma handle_event_held ev w :
  read_lock (w_cf w) = true ->
  exists w', handle_event dfilter_compile rescan ev w = Some w' /\ held w w'.
Proof.
  intros Hlock. destruct ev as [| |dftext force|].
  - eexists. split; [reflexivity|]. by repeat split.
  - eexists. split; [reflexivity|]. by repeat split.
  - destruct (cf_filter_packets_held dftext force w Hlock) as (st & w' & H & Hk).
    exists w'. cbn. rewrite H. done.
  - unfold handle_event, cf_redissect_packets. rewrite Hlock. cbn.
    eexists. split; [reflexivity|]. by repeat split.
Qed.

Lemma handle_events_held : forall evs w,
  read_lock (w_cf w) = true ->
  exists w', handle_events dfilter_compile rescan evs w = Some w' /\ held w w'.
Proof.
  induction evs as [|ev evs IH]; intros w Hlock.
  - exists w. split; [done|]. by apply held_refl.
  - destruct (handle_event_held ev w Hlock) as (w1 & H1 & Hk1).
    destruct (IH w1) as (w' & H' & Hk'); [apply Hk1|].
    exists w'. cbn. rewrite H1. split; [done|]. by eapply held_trans.
Qed.

(** A yield under the lock comes back, with the store as it was; it uses
    up one entry of the oracle if there is one, and changes nothing when
    there is none. *)
Lemma pump_held w :
  read_lock (w_cf w) = true ->
  exists w', pump dfilter_compile rescan w = Some w'
    /\ held (with_ui (tail (w_ui w)) w) w'
    /\ (w_ui w = [] -> w' = w).
Proof.
  intros Hlock. unfold pump. destruct (w_ui w) as [|evs ui] eqn:Hui.
  - exists w. split; [done|]. split; [|done].
    destruct w. cbn in *. subst. by apply held_refl.
  - destruct (handle_events_held evs (with_ui ui w) Hlock) as (w' & H & Hk).
    exists w'. split; [done|]. split; [done|]. done.
Qed.

End Held.

(** ** Frame numbers through a rescan *)

Lemma reset_remaining_num : forall todo k fds,
  map num (reset_remaining todo k fds) = map num fds.
Proof.
  induction todo as [|todo IH]; intros k fds; [done|].
  cbn [reset_remaining].
  destruct (frame_data_sequence_find fds k) as [fd|] eqn:Hfd; [|done].
  rewrite IH. by apply (store_set_map_num _ _ fd).
Qed.

Section RescanNumbers.

Context (dfilter_compile : string -> option (option dfilter_t)).
Context (rescan : bool -> world -> option world).
Context (wth : wtap).

(** The rescan loop always comes back; it leaves the numbers of the
    frames alone, and it comes back with a pending request only if a
    yield used up an entry of the oracle. *)
Lemma rescan_loop_numbers redissect dfcode add selected : forall todo k v w,
  read_lock (w_cf w) = true ->
  redissection_queued (w_cf w) = RESCAN_NONE ->
  exists q k' v' w',
    rescan_loop dfilter_compile todo rescan wth redissect dfcode add selected k v w
    = Some (q, k', v', w')
    /\ read_lock (w_cf w') = true
    /\ count (w_cf w') = count (w_cf w)
    /\ map num (frames (w_cf w')) = map num (frames (w_cf w))
    /\ rfcode (w_cf w') = rfcode (w_cf w)
    /\ (length (w_ui w') <= length (w_ui w))%nat
    /\ (q <> RESCAN_NONE -> (length (w_ui w') < length (w_ui w))%nat).
Proof.
  induction todo as [|todo IH]; intros k v w Hlock Hq.
  - exists RESCAN_NONE, k, v, w. by repeat split.
  - cbn [rescan_loop].
    destruct (pump_held dfilter_compile rescan w Hlock)
      as (w1 & Hpump & (Hl1 & Hc1 & Hf1 & Hrf1 & Hrd1 & Hui1 & _) & Hsame).
    rewrite Hpump. cbv beta iota zeta.
    rewrite with_ui_cf in Hc1, Hf1, Hrf1, Hrd1. rewrite with_ui_ui in Hui1.
    assert (Hlen : (length (w_ui w1) <= length (w_ui w))%nat).
    { rewrite Hui1. destruct (w_ui w); cbn; lia. }
    destruct (rescan_type_eqb (redissection_queued (w_cf w1)) RESCAN_NONE) eqn:Hq1;
      cbn [negb].
    2:{ eexists _, _, _, _. split; [reflexivity|].
        split; [done|]. split; [done|]. split; [by rewrite Hf1|].
        split; [done|]. split; [done|]. intros _.
        destruct (w_ui w) as [|evs ui] eqn:Hui.
        - rewrite (Hsame eq_refl), Hq in Hq1. done.
        - rewrite Hui1. cbn. lia. }
    apply rescan_type_eqb_eq in Hq1.
    destruct (stop_flag (w_cf w1)).
    { eexists _, _, _, _. split; [reflexivity|].
      split; [done|]. split; [done|]. split; [by rewrite Hf1|].
      split; [done|]. split; [done|]. done. }
    destruct (frame_data_sequence_find (frames (w_cf w1)) k) as [fd|] eqn:Hfd.
    2:{ eexists _, _, _, _. split; [reflexivity|].
        split; [done|]. split; [done|]. split; [by rewrite Hf1|].
        split; [done|]. split; [done|]. done. }
    set (fd1 := if redissect then frame_data_reset fd else fd).
    assert (Hnum1 : num fd1 = num fd) by (unfold fd1; by destruct redissect).
    destruct (cf_read_record wth fd1) as [rec|].
    2:{ eexists _, _, _, _. split; [reflexivity|]. cbn.
        split; [done|]. split; [done|].
        split; [by rewrite (store_set_map_num _ _ fd), Hf1|].
        split; [done|]. split; [done|]. done. }
    set (cf2 := set_frames (frame_store_set (frames (w_cf w1)) k fd1) (w_cf w1)).
    assert (Hfind2 : frame_data_sequence_find (frames cf2) k = Some fd1).
    { unfold cf2. cbn. by apply (store_set_find_same _ _ fd). }
    pose proof (add_packet_keeps k dfcode rec add cf2)
      as (Hc3 & Hst3 & Hrq3 & Hrl3 & Hcur3 & Hrd3 & Hsta3 & Hrf3 & Hdf3 & Hlen3).
    pose proof (add_packet_frames k dfcode rec add cf2 fd1 Hfind2) as Hfr3.
    match goal with
    | |- context [rescan_loop _ _ _ _ _ _ _ _ ?k1 ?v1 ?w2] =>
        destruct (IH k1 v1 w2)
          as (q & k' & v' & w' & Hloop & Hl' & Hc' & Hn' & Hrf' & Hlen' & Hlt')
    end.
    + cbn. fold fd1. fold cf2. by rewrite Hrl3.
    + cbn. fold fd1. fold cf2. by rewrite Hrq3.
    + exists q, k', v', w'. split; [exact Hloop|].
      cbn in Hc', Hn', Hrf', Hlen', Hlt'. fold fd1 in Hc', Hn', Hrf'.
      fold cf2 in Hc', Hn', Hrf'.
      split; [done|]. split; [by rewrite Hc', Hc3|]. split.
      { rewrite Hn', Hfr3, (store_set_map_num _ _ fd1 _ Hfind2 (dissected_num _ _ _)).
        unfold cf2. cbn. by rewrite (store_set_map_num _ _ fd), Hf1. }
      split; [by rewrite Hrf', Hrf3|]. split; [lia|].
      intros Hne. specialize (Hlt' Hne). lia.
Qed.

End RescanNumbers.

Lemma rescan_select_rfcode selected v w :
  rfcode (w_cf (rescan_select selected v w)) = rfcode (w_cf w).
Proof.
  unfold rescan_select.
  destruct (if selected_frame_num v =? -1 then _ else _) as [n p].
  destruct (n =? -1); [done|]. destruct (n =? 0); [done|]. by destruct p.
Qed.

Section RescanTotal.

Context (dfilter_compile : string -> option (option dfilter_t)).

Lemma rescan_packets_S fuel wth redissect w :
  rescan_packets dfilter_compile (S fuel) wth redissect w
  = ltac:(let t := eval cbn [rescan_packets] in
            (rescan_packets dfilter_compile (S fuel) wth redissect w) in
          exact t).
Proof. reflexivity. Qed.

(** With more fuel than the oracle has entries, [rescan_packets] comes
    back, whatever arrives; the frames keep their numbers. *)
Lemma rescan_packets_numbers (wth : wtap) : forall fuel redissect w,
  (length (w_ui w) < fuel)%nat ->
  exists w',
    rescan_packets dfilter_compile fuel wth redissect w = Some w'
    /\ read_lock (w_cf w') = false
    /\ count (w_cf w') = count (w_cf w)
    /\ map num (frames (w_cf w')) = map num (frames (w_cf w))
    /\ rfcode (w_cf w') = rfcode (w_cf w)
    /\ (length (w_ui w') <= length (w_ui w))%nat.
Proof.
  induction fuel as [|fuel IH]; intros redissect w Hfuel; [lia|].
  rewrite rescan_packets_S.
  match goal with
  | |- context [rescan_loop _ ?t ?r _ _ ?d ?a ?sel 1 _ ?w0] =>
      destruct (rescan_loop_numbers dfilter_compile r wth redissect d a sel t 1
                  rescan_vars_init w0)
        as (q & k' & v' & w1 & Hloop & Hl1 & Hc1 & Hn1 & Hrf1 & Hlen1 & Hlt1);
      [by destruct redissect|by destruct redissect|]
  end.
  rewrite Hloop.
  assert (Hw1 : count (w_cf w1) = count (w_cf w)
                /\ map num (frames (w_cf w1)) = map num (frames (w_cf w))
                /\ rfcode (w_cf w1) = rfcode (w_cf w)
                /\ (length (w_ui w1) <= length (w_ui w))%nat
                /\ (q <> RESCAN_NONE -> (length (w_ui w1) < length (w_ui w))%nat)).
  { rewrite Hc1, Hn1, Hrf1. destruct redissect; cbn in *; done. }
  clear Hc1 Hn1 Hrf1 Hlen1 Hlt1. destruct Hw1 as (Hc1 & Hn1 & Hrf1 & Hlen1 & Hlt1).
  match goal with
  | |- context [on_cf (set_read_lock false) ?x] =>
      set (w2 := on_cf (set_read_lock false) x)
  end.
  assert (Hw2 : read_lock (w_cf w2) = false
                /\ count (w_cf w2) = count (w_cf w1)
                /\ map num (frames (w_cf w2)) = map num (frames (w_cf w1))
                /\ rfcode (w_cf w2) = rfcode (w_cf w1)
                /\ w_ui w2 = w_ui w1).
  { unfold w2.
    match goal with
    | |- context [rescan_select ?sel ?v ?x] =>
        pose proof (rescan_select_log sel v x) as (_ & Hs2 & _ & Hs4 & _ & Hs6 & _);
        pose proof (rescan_select_rfcode sel v x) as Hs8;
        set (Y := rescan_select sel v x) in *
    end.
    split; [done|].
    change (count (w_cf Y) = count (w_cf w1)
            /\ map num (frames (w_cf Y)) = map num (frames (w_cf w1))
            /\ rfcode (w_cf Y) = rfcode (w_cf w1)
            /\ w_ui Y = w_ui w1).
    rewrite Hs4, Hs6, Hs2, Hs8.
    destruct redissect; cbn; rewrite ?reset_remaining_num; done. }
  destruct Hw2 as (Hl2 & Hc2 & Hn2 & Hrf2 & Hui2). clearbody w2.
  destruct (rescan_type_eqb q RESCAN_NONE) eqn:Hq; cbn [negb].
  - exists w2. split; [done|]. split; [done|]. split; [congruence|].
    split; [congruence|]. split; [congruence|]. rewrite Hui2. done.
  - assert (Hne : q <> RESCAN_NONE).
    { intros ->. done. }
    specialize (Hlt1 Hne).
    destruct (IH (redissect || rescan_type_eqb q RESCAN_REDISSECT) w2)
      as (w' & H' & Hl' & Hc' & Hn' & Hrf' & Hlen'); [rewrite Hui2; lia|].
    exists w'. split; [done|]. split; [done|]. split; [congruence|].
    split; [congruence|]. split; [congruence|]. rewrite Hui2 in Hlen'. lia.
Qed.

End RescanTotal.

(** ** Frame numbers through a read *)

Lemma read_record_numbers rec offset dfcode cf :
  dense cf -> count cf < G_MAXUINT32 ->
  let cf' := snd (read_record rec offset dfcode cf) in
  dense cf' /\ count cf <= count cf' <= count cf + 1
  /\ read_lock cf' = read_lock cf /\ rfcode cf' = rfcode cf.
Proof.
  intros Hd Hc. destruct (read_filter_passes cf rec offset) eqn:Hp.
  - destruct (read_record_dense rec offset dfcode cf Hd Hc Hp) as [Hd' Hc'].
    destruct (read_record_kept rec offset dfcode cf Hp)
      as (_ & _ & _ & (Hrf & _ & _ & _ & _ & Hrl & _) & _).
    cbn zeta. split; [done|]. split; [lia|]. done.
  - destruct (read_record_dropped rec offset dfcode cf Hp)
      as (_ & Hf & Hc' & (Hrf & _ & _ & _ & _ & Hrl & _)).
    cbn zeta. split.
    { destruct Hd as [H0 Hn]. split; [by rewrite Hc'|]. by rewrite Hf, Hc'. }
    split; [lia|]. done.
Qed.

Section ReadNumbers.

Context (dfilter_compile : string -> option (option dfilter_t)).
Context (rescan : bool -> world -> option world).
Context (max_records size : Z) (dfcode : option dfilter_t).

(** The read loop always comes back, whatever arrives, and the store is
    densely numbered when it does. *)
Lemma cf_read_loop_numbers : forall records w,
  read_lock (w_cf w) = true ->
  dense (w_cf w) ->
  count (w_cf w) + Z.of_nat (length records) <= G_MAXUINT32 ->
  exists how w',
    cf_read_loop dfilter_compile rescan max_records size dfcode records w
    = Some (how, w')
    /\ read_lock (w_cf w') = true
    /\ dense (w_cf w')
    /\ count (w_cf w) <= count (w_cf w') <= count (w_cf w) + Z.of_nat (length records)
    /\ (length (w_ui w') <= length (w_ui w))%nat.
Proof.
  induction records as [|[rec off] records IH]; intros w Hlock Hd Hmax.
  - exists ReadEnd, w. cbn. split; [done|]. split; [done|]. split; [done|].
    split; [lia|done].
  - cbn [cf_read_loop]. cbv beta zeta. cbn [length] in Hmax.
    assert (Hafter : forall w1,
      read_lock (w_cf w1) = true -> count (w_cf w1) = count (w_cf w) ->
      frames (w_cf w1) = frames (w_cf w) ->
      (length (w_ui w1) <= length (w_ui w))%nat ->
      exists how w',
        (if file_state_eqb (state (w_cf w1)) FILE_READ_ABORTED
         then Some (ReadAborted, w1)
         else if stop_flag (w_cf w1) then Some (ReadStopped, w1)
         else cf_read_loop dfilter_compile rescan max_records size dfcode records
                (on_cf (fun cf => snd (read_record rec off dfcode cf)) w1))
        = Some (how, w')
        /\ read_lock (w_cf w') = true
        /\ dense (w_cf w')
        /\ count (w_cf w) <= count (w_cf w')
           <= count (w_cf w) + Z.of_nat (S (length records))
        /\ (length (w_ui w') <= length (w_ui w))%nat).
    { intros w1 Hl1 Hc1 Hf1 Hlen1.
      assert (Hd1 : dense (w_cf w1)).
      { destruct Hd as [H0 Hn]. split; [by rewrite Hc1|]. by rewrite Hf1, Hc1. }
      destruct (file_state_eqb _ _).
      { eexists _, _. split; [reflexivity|]. split; [done|]. split; [done|].
        split; [lia|done]. }
      destruct (stop_flag _).
      { eexists _, _. split; [reflexivity|]. split; [done|]. split; [done|].
        split; [lia|done]. }
      destruct (read_record_numbers rec off dfcode (w_cf w1) Hd1 ltac:(lia))
        as (Hd2 & Hc2 & Hl2 & _).
      destruct (IH (on_cf (fun cf => snd (read_record rec off dfcode cf)) w1))
        as (how & w' & Hloop & Hl' & Hd' & Hc' & Hlen').
      - rewrite on_cf_cf. congruence.
      - by rewrite on_cf_cf.
      - rewrite on_cf_cf. lia.
      - exists how, w'. split; [done|]. split; [done|]. split; [done|].
        rewrite on_cf_cf in Hc'. rewrite on_cf_ui in Hlen'. split; lia. }
    destruct (size >=? 0).
    + destruct (count (w_cf w) =? max_records).
      { destruct Hd. eexists _, _. split; [reflexivity|]. split; [done|].
        split; [done|]. split; [lia|done]. }
      destruct (pump_held dfilter_compile rescan w Hlock)
        as (w1 & Hpump & (Hl1 & Hc1 & Hf1 & _ & _ & Hui1 & _) & _).
      rewrite Hpump. rewrite with_ui_cf in Hc1, Hf1. rewrite with_ui_ui in Hui1.
      apply Hafter; try done. rewrite Hui1. destruct (w_ui w); cbn; lia.
    + by apply Hafter.
Qed.

End ReadNumbers.

(** [cf_close] returns when the session is not being read and the lock
    is free. *)
Lemma cf_close_returns w :
  state (w_cf w) <> FILE_READ_IN_PROGRESS -> read_lock (w_cf w) = false ->
  is_Some (cf_close w).
Proof.
  intros Hstate Hlock. unfold cf_close. cbv zeta.
  rewrite !on_cf_cf. cbn [state read_lock set_stop_flag]. rewrite Hlock.
  destruct (state (w_cf w)); done.
Qed.

(** The session that [cf_close] leaves. *)
Lemma cf_close_fields w w' :
  cf_close w = Some w' ->
  state (w_cf w') = FILE_CLOSED /\ stop_flag (w_cf w') = false
  /\ dfilter (w_cf w') = dfilter (w_cf w)
  /\ displayed_count (w_cf w') = displayed_count (w_cf w)
  /\ read_lock (w_cf w') = read_lock (w_cf w)
  /\ redissection_queued (w_cf w') = redissection_queued (w_cf w)
  /\ redissecting (w_cf w') = redissecting (w_cf w)
  /\ w_ui w' = w_ui w
  /\ (state (w_cf w) <> FILE_CLOSED ->
      count (w_cf w') = 0 /\ frames (w_cf w') = []
      /\ frames_modified_blocks (w_cf w') = []
      /\ current_frame (w_cf w') = None /\ filename (w_cf w') = None
      /\ unsaved_changes (w_cf w') = false /\ rfcode (w_cf w') = None
      /\ first_displayed (w_cf w') = 0 /\ last_displayed (w_cf w') = 0
      /\ linktypes (w_cf w') = [] /\ f_datalen (w_cf w') = 0
      /\ w_log w' = w_log w ++ [FileClosing; FileClosed]).
Proof.
  unfold cf_close. cbv zeta. rewrite on_cf_cf.
  change (state (set_stop_flag false (w_cf w))) with (state (w_cf w)).
  destruct (file_state_eqb (state (w_cf w)) FILE_CLOSED) eqn:E.
  - intros [= <-]. apply file_state_eqb_eq in E.
    repeat match goal with |- _ /\ _ => split end; try done.
  - destruct (_ || _); [done|]. intros [= <-].
    match goal with
    | |- context [on_cf (set_unsaved_changes false) ?x] => set (w1 := x)
    end.
    assert (H1 : dfilter (w_cf w1) = dfilter (w_cf w)
                 /\ displayed_count (w_cf w1) = displayed_count (w_cf w)
                 /\ read_lock (w_cf w1) = read_lock (w_cf w)
                 /\ redissection_queued (w_cf w1) = redissection_queued (w_cf w)
                 /\ redissecting (w_cf w1) = redissecting (w_cf w)
                 /\ stop_flag (w_cf w1) = false
                 /\ filename (w_cf w1) = None
                 /\ w_ui w1 = w_ui w
                 /\ w_log w1 = w_log w ++ [FileClosing]).
    { unfold w1. rewrite ?tell_cf, ?on_cf_cf.
      change (filename (set_stop_flag false (w_cf w))) with (filename (w_cf w)).
      change (is_tempfile (set_stop_flag false (w_cf w))) with (is_tempfile (w_cf w)).
      destruct (filename (w_cf w)) eqn:Hf; [destruct (is_tempfile (w_cf w))|];
        by repeat split. }
    destruct H1 as (?&?&?&?&?&?&?&?&Hlog). clearbody w1. cbn.
    rewrite Hlog, <- app_assoc.
    repeat match goal with |- _ /\ _ => split end; done.
Qed.

Lemma cf_close_dense w w' :
  cf_close w = Some w' ->
  dense (w_cf w) ->
  dense (w_cf w') /\ count (w_cf w') <= count (w_cf w).
Proof.
  intros Hclose [H0 Hn]. unfold cf_close in Hclose. cbv zeta in Hclose.
  destruct (file_state_eqb _ _); [by injection Hclose as <-|].
  destruct (_ || _); [done|]. injection Hclose as <-.
  unfold dense. destruct (filename _); [destruct (is_tempfile _)|]; by cbn.
Qed.

Section ReadDense.

Context (dfilter_compile : string -> option (option dfilter_t)).

(** Whatever arrives during the read, [cf_read] comes back, given more
    fuel than the oracle has entries, and it leaves a densely numbered
    store. *)
Lemma cf_read_numbers (fuel : nat) (max_records : Z) (wth : wtap)
    (reloading : bool) (w : world) :
  (length (w_ui w) < fuel)%nat ->
  dense (w_cf w) ->
  count (w_cf w) + Z.of_nat (length (wth_records wth)) <= G_MAXUINT32 ->
  exists st w',
    cf_read dfilter_compile fuel max_records wth reloading w = Some (st, w')
    /\ dense (w_cf w')
    /\ count (w_cf w') <= count (w_cf w) + Z.of_nat (length (wth_records wth)).
Proof.
  intros Hfuel Hd Hmax. unfold cf_read.
  destruct (read_lock (w_cf w)) eqn:Hlock.
  { exists CF_READ_ERROR, w. split; [done|]. split; [done|]. lia. }
  match goal with
  | |- context [cf_read_loop _ ?r _ ?sz ?d _ ?w0] =>
      destruct (cf_read_loop_numbers dfilter_compile r max_records sz d
                  (wth_records wth) w0)
        as (how & w1 & Hloop & Hl1 & Hd1 & Hc1 & Hlen1); [done|done|done|]
  end.
  rewrite Hloop. cbv beta iota zeta.
  repeat (rewrite on_cf_cf in Hc1 || rewrite tell_cf in Hc1
          || rewrite on_cf_ui in Hlen1 || rewrite tell_ui in Hlen1).
  cbn [count set_read_lock set_compression_type set_stop_flag] in Hc1.
  match goal with
  | |- context [on_cf (set_read_lock false) ?x] =>
      set (w2 := on_cf (set_read_lock false) x)
  end.
  assert (Hw2 : dense (w_cf w2) /\ count (w_cf w2) = count (w_cf w1)
                /\ w_ui w2 = w_ui w1 /\ state (w_cf w2) = FILE_READ_DONE
                /\ read_lock (w_cf w2) = false).
  { unfold w2. destruct Hd1 as [H0 Hn].
    unfold dense. destruct (negb _); cbn; split_and!; done. }
  destruct Hw2 as (Hd2 & Hc2 & Hui2 & Hsta2 & Hrl2). clearbody w2.
  assert (Hafter : forall (f : world -> option (cf_read_status_t * world)),
    (forall w3, dense (w_cf w3) -> count (w_cf w3) = count (w_cf w2) ->
       exists st w', f w3 = Some (st, w') /\ dense (w_cf w')
                     /\ count (w_cf w') = count (w_cf w3)) ->
    exists st w',
      (if negb (rescan_type_eqb (redissection_queued (w_cf w2)) RESCAN_NONE)
       then match rescan_packets dfilter_compile fuel wth
                    (rescan_type_eqb (redissection_queued (w_cf w2)) RESCAN_REDISSECT)
                    w2 with
            | None => None
            | Some w => f w
            end
       else f w2) = Some (st, w')
      /\ dense (w_cf w')
      /\ count (w_cf w') <= count (w_cf w) + Z.of_nat (length (wth_records wth))).
  { intros f Hf. destruct (negb _).
    - destruct (rescan_packets_numbers dfilter_compile wth fuel
                  (rescan_type_eqb (redissection_queued (w_cf w2)) RESCAN_REDISSECT) w2)
        as (w3 & Hres & _ & Hc3 & Hn3 & _); [rewrite Hui2; lia|].
      rewrite Hres.
      destruct (Hf w3) as (st & w' & H' & Hd' & Hc'); [|done|].
      { destruct Hd2 as [H0 Hn]. split; [by rewrite Hc3|]. by rewrite Hn3, Hc3. }
      exists st, w'. split; [done|]. split; [done|]. lia.
    - destruct (Hf w2) as (st & w' & H' & Hd' & Hc'); [done|done|].
      exists st, w'. split; [done|]. split; [done|]. lia. }
  assert (Hrest : forall w3 : world,
    dense (w_cf w3) -> count (w_cf w3) = count (w_cf w2) ->
    exists st w',
      (if stop_flag (w_cf w3)
       then Some (CF_READ_ERROR, tell AlertReadCancelled w3)
       else if negb (match how with ReadEnd => wth_err wth | _ => 0 end =? 0)
       then Some (CF_READ_ERROR, tell AlertReadFailure w3)
       else match how with
            | ReadTooMany =>
                Some (CF_READ_ERROR, tell (AlertTooManyRecords max_records) w3)
            | _ => Some (CF_READ_OK, w3)
            end) = Some (st, w')
      /\ dense (w_cf w') /\ count (w_cf w') = count (w_cf w3)).
  { intros w3 Hd3 Hc3.
    destruct (stop_flag _); [by eexists _, _; split; [reflexivity|]|].
    destruct (negb (_ =? 0)); [by eexists _, _; split; [reflexivity|]|].
    destruct how; by eexists _, _; split; [reflexivity|]. }
  destruct how.
  - apply (Hafter _ Hrest).
  - apply (Hafter _ Hrest).
  - destruct (cf_close_returns w2) as [w3 Hclose]; [by rewrite Hsta2|done|].
    rewrite Hclose.
    destruct (cf_close_dense w2 w3 Hclose Hd2) as [[H0 Hn] Hle].
    eexists _, _. split; [reflexivity|]. rewrite on_cf_cf.
    split; [by split|]. cbn [count set_redissection_queued]. lia.
  - apply (Hafter _ Hrest).
Qed.

End ReadDense.

Section ReadCapped.

Context (dfilter_compile : string -> option (option dfilter_t)).
Context (rescan : bool -> world -> option world).
Context (max_records size : Z) (dfcode : option dfilter_t).

(** A read of a file whose size is known stops at [max_records]. *)
Lemma cf_read_loop_capped : forall records w,
  0 <= size -> w_ui w = [] ->
  state (w_cf w) <> FILE_READ_ABORTED ->
  stop_flag (w_cf w) = false ->
  rfcode (w_cf w) = None ->
  dense (w_cf w) ->
  count (w_cf w) <= max_records <= G_MAXUINT32 ->
  max_records < count (w_cf w) + Z.of_nat (length records) ->
  exists w',
    cf_read_loop dfilter_compile rescan max_records size dfcode records w
    = Some (ReadTooMany, w')
    /\ dense (w_cf w')
    /\ count (w_cf w') = max_records
    /\ same_mode (w_cf w) (w_cf w')
    /\ w_ui w' = w_ui w /\ w_log w' = w_log w.
Proof.
  induction records as [|[rec off] records IH];
    intros w Hsize Hui Hstate Hstop Hrf Hd Hle Hlt.
  - cbn in Hlt. lia.
  - cbn [cf_read_loop]. cbv beta zeta.
    destruct (Z.geb_spec size 0); [|lia].
    destruct (Z.eqb_spec (count (w_cf w)) max_records) as [Heq|Hne].
    { exists w. split; [done|]. split; [done|]. split; [done|].
      split; [by repeat split|done]. }
    rewrite pump_quiet by done. cbv beta iota.
    destruct (file_state_eqb (state (w_cf w)) FILE_READ_ABORTED) eqn:E.
    { apply file_state_eqb_eq in E. done. }
    rewrite Hstop.
    assert (Hp : read_filter_passes (w_cf w) rec off = true).
    { unfold read_filter_passes. by rewrite Hrf. }
    destruct (read_record_dense rec off dfcode (w_cf w) Hd ltac:(lia) Hp) as [Hd1 Hc1].
    destruct (read_record_kept rec off dfcode (w_cf w) Hp) as (_ & _ & _ & Hm1 & _).
    set (w1 := on_cf (fun cf => snd (read_record rec off dfcode cf)) w).
    assert (Hw1 : w_cf w1 = snd (read_record rec off dfcode (w_cf w))) by done.
    destruct Hm1 as (Hrf1 & Hrd1 & Hrq1 & Hsta1 & Hst1 & Hrl1 & Hdf1 & Hcur1).
    cbn [length] in Hlt.
    destruct (IH w1) as (w' & Hloop & Hd' & Hc' & Hm' & Hui' & Hlog');
      rewrite ?Hw1; try congruence; try lia; try done.
    exists w'. split; [done|]. split; [done|]. split; [done|]. split; [|done].
    rewrite Hw1 in Hm'. destruct Hm' as (?&?&?&?&?&?&?&?).
    unfold same_mode. repeat split; congruence.
Qed.

End ReadCapped.

Section ReadClaims.

Context (dfilter_compile : string -> option (option dfilter_t)).

Lemma cf_read_capped (fuel : nat) (max_records : Z) (wth : wtap)
    (reloading : bool) (w : world) :
  read_lock (w_cf w) = false ->
  redissection_queued (w_cf w) = RESCAN_NONE ->
  state (w_cf w) <> FILE_READ_ABORTED ->
  rfcode (w_cf w) = None ->
  0 <= wth_file_size wth -> w_ui w = [] ->
  dense (w_cf w) ->
  count (w_cf w) <= max_records <= G_MAXUINT32 ->
  max_records < count (w_cf w) + Z.of_nat (length (wth_records wth)) ->
  exists w',
    cf_read dfilter_compile fuel max_records wth reloading w
    = Some (CF_READ_ERROR, w')
    /\ count (w_cf w') = max_records
    /\ dense (w_cf w')
    /\ last (w_log w') = Some (AlertTooManyRecords max_records).
Proof.
  intros Hlock Hrq Hstate Hrf Hsize Hui Hd Hle Hlt.
  unfold cf_read. rewrite Hlock.
  match goal with
  | |- context [cf_read_loop _ ?r _ ?sz ?d _ ?w0] =>
      destruct (cf_read_loop_capped dfilter_compile r max_records sz d
                  (wth_records wth) w0)
        as (w1 & Hloop & Hd1 & Hc1 & Hm1 & Hui1 & Hlog1); try done
  end.
  rewrite Hloop. cbv beta iota zeta.
  destruct Hm1 as (Hrf1 & Hrd1 & Hrq1 & Hsta1 & Hst1 & Hrl1 & Hdf1 & Hcur1).
  cbn in Hrq1, Hst1.
  match goal with
  | |- context [on_cf (set_read_lock false) ?x] =>
      set (w2 := on_cf (set_read_lock false) x)
  end.
  assert (Hw2 : dense (w_cf w2) /\ count (w_cf w2) = count (w_cf w1)
                /\ redissection_queued (w_cf w2) = RESCAN_NONE
                /\ stop_flag (w_cf w2) = false).
  { unfold w2, dense. destruct Hd1. rewrite <- Hrq, <- Hrq1.
    destruct (negb _); cbn; split_and!; done. }
  destruct Hw2 as (Hd2 & Hc2 & Hq2 & Hst2). clearbody w2.
  rewrite Hq2, Hst2. cbn [negb rescan_type_eqb]. cbn.
  eexists. split; [reflexivity|]. cbn. split; [congruence|]. split; [done|].
  by rewrite last_snoc.
Qed.

End ReadClaims.

(** ** The iterator with the writer as its callback *)

Lemma saving_refl pdh w : saving pdh w w.
Proof. by repeat split. Qed.

Lemma saving_trans pdh w1 w2 w3 :
  saving pdh w1 w2 -> saving pdh w2 w3 -> saving pdh w1 w3.
Proof.
  intros (?&?&?&?&?&Hfs1) (?&?&?&?&?&Hfs2). repeat split; try congruence.
  intros p Hp. by rewrite Hfs2, Hfs1.
Qed.

Lemma held_saving pdh w w' :
  read_lock (w_cf w) = true -> held w w' -> saving pdh w w'.
Proof.
  intros Hl (?&?&?&?&?&?&Hfs&?&?&?&?). repeat split; try congruence.
  all: intros p _; by rewrite Hfs.
Qed.

Section SaveLoop.

Context (dfilter_compile : string -> option (option dfilter_t)).
Context (rescan : bool -> world -> option world).
Context (env : save_env) (wth : wtap).
Context (range : option (frame_data -> range_process_e)).

Lemma save_record_saving fdata rec pdh w :
  let r := save_record env fdata rec pdh w in
  snd (fst r) = pdh /\ w_cf (snd r) = w_cf w
  /\ (forall p, p <> pdh -> w_fs (snd r) !! p = w_fs w !! p)
  /\ (fst (fst r) = true ->
      w_fs (snd r) = alter (fun c => c ++ [set_rec_block
             (if has_modified_block fdata
              then cap_file_provider_get_modified_block (w_cf w) fdata
              else rec_block rec) rec]) pdh (w_fs w)
      /\ w_log (snd r) = w_log w ++ [WtapDump (num fdata)]).
Proof.
  unfold save_record, wtap_dump. destruct (dump_ok env (num fdata)); cbn.
  - split; [done|]. split; [done|]. split; [|done].
    intros p Hp. by rewrite lookup_alter_ne.
  - split; [done|]. split; [done|]. split; [done|]. done.
Qed.

(** Under the lock the loop of the iterator always comes back; it writes
    to the file of the writer only, and when it gets to the end of an
    unrestricted pass it has written one record for each of its turns. *)
Lemma psr_loop_save : forall todo k pdh w,
  read_lock (w_cf w) = true ->
  exists ret w',
    psr_loop dfilter_compile rescan wth range (save_record env) true todo k pdh w
    = Some (ret, pdh, w')
    /\ saving pdh w w'
    /\ (range = None -> ret = PSP_FINISHED -> 1 <= k ->
        k + Z.of_nat todo <= G_MAXUINT32 -> written pdh todo k w w').
Proof.
  induction todo as [|todo IH]; intros k pdh w Hlock.
  - exists PSP_FINISHED, w. split; [done|]. split; [apply saving_refl|].
    intros _ _ _ _ c Hc. exists []. rewrite !app_nil_r. done.
  - cbn [psr_loop].
    destruct (pump_held dfilter_compile rescan w Hlock) as (w1 & Hpump & Hheld & _).
    rewrite Hpump.
    assert (Hs1 : saving pdh w w1).
    { destruct Hheld as (?&?&?&?&?&?&Hfs&?&?&?&?).
      rewrite with_ui_cf in *. rewrite with_ui_fs in Hfs.
      repeat split; try congruence. all: intros p _; by rewrite Hfs. }
    destruct Hheld as (Hl1 & _ & Hf1 & _ & _ & _ & Hfs1 & _ & _ & _ & Hd1).
    rewrite with_ui_cf in Hf1. rewrite with_ui_fs in Hfs1. rewrite with_ui_log in Hd1.
    destruct (stop_flag (w_cf w1)).
    { exists PSP_STOPPED, w1. split; [done|]. split; [done|]. done. }
    destruct (frame_data_sequence_find (frames (w_cf w1)) k) as [fdata|] eqn:Hfd.
    2:{ exists PSP_FAILED, w1. split; [done|]. split; [done|]. done. }
    set (process_this := match range with Some r => r fdata | None => range_process_this end).
    assert (Hrange : range = None -> process_this = range_process_this).
    { intros ->. done. }
    destruct process_this eqn:Hpt.
    + destruct (cf_read_record wth fdata) as [rec|].
      2:{ eexists PSP_FAILED, _. split; [reflexivity|]. split; [|done].
          eapply saving_trans; [exact Hs1|]. by repeat split. }
      pose proof (save_record_saving fdata rec pdh w1) as (Hp2 & Hcf2 & Hfs2 & Hok2).
      destruct (save_record env fdata rec pdh w1) as [[ok pdh2] w2].
      cbn in Hp2, Hcf2, Hfs2, Hok2. subst pdh2.
      assert (Hs2 : saving pdh w w2).
      { eapply saving_trans; [exact Hs1|].
        unfold saving. rewrite Hcf2. by repeat split. }
      destruct ok.
      2:{ exists PSP_FAILED, w2. split; [done|]. split; [done|]. done. }
      destruct (IH (wrap32 (k + 1)) pdh w2) as (ret & w' & Hloop & Hs' & Hw');
        [by rewrite Hcf2|].
      exists ret, w'. split; [done|]. split; [by eapply saving_trans|].
      intros Hr Hret Hk Hmax c Hc.
      destruct (Hok2 eq_refl) as [Hfs2' Hlog2].
      rewrite wrap32_small in Hw' by (unfold G_MAXUINT32 in *; lia).
      destruct (Hw' Hr Hret ltac:(lia) ltac:(lia) (c ++ [set_rec_block
             (if has_modified_block fdata
              then cap_file_provider_get_modified_block (w_cf w1) fdata
              else rec_block rec) rec])) as (c' & Hc' & Hlen' & Hdump').
      { rewrite Hfs2', lookup_alter_eq, Hfs1. unfold file_contents in *.
        by rewrite Hc. }
      eexists (_ :: c'). split; [by rewrite Hc', <- app_assoc|].
      split; [cbn; lia|].
      rewrite Hdump', Hlog2, dumps_of_app, Hd1, Hcf2, <- app_assoc. f_equal. cbn.
      rewrite find_lookup in Hfd by lia. rewrite Hf1 in Hfd.
      rewrite (drop_S _ _ _ Hfd). cbn. f_equal. f_equal.
      replace (Z.to_nat (k + 1 - 1)) with (S (Z.to_nat (k - 1))) by lia.
      by rewrite Hf1.
    + destruct (IH (wrap32 (k + 1)) pdh w1 Hl1) as (ret & w' & Hloop & Hs' & Hw').
      exists ret, w'. split; [done|]. split; [by eapply saving_trans|].
      intros Hr. specialize (Hrange Hr). done.
    + exists PSP_FINISHED, w1. split; [done|]. split; [done|].
      intros Hr. specialize (Hrange Hr). done.
Qed.

(** [process_specified_records] with the writer as callback, the lock
    free. *)
Lemma process_specified_records_save pdh w :
  read_lock (w_cf w) = false ->
  exists ret w',
    process_specified_records dfilter_compile rescan wth range (save_record env)
      true pdh w = Some (ret, pdh, w')
    /\ saving pdh w w'
    /\ (range = None -> ret = PSP_FINISHED ->
        0 <= count (w_cf w) < G_MAXUINT32 ->
        written pdh (Z.to_nat (count (w_cf w))) 1 w w').
Proof.
  intros Hlock. unfold process_specified_records. rewrite Hlock.
  set (w0 := on_cf (set_stop_flag false) (on_cf (set_read_lock true) w)).
  destruct (psr_loop_save (Z.to_nat (count (w_cf w0))) 1 pdh w0 eq_refl)
    as (ret & w' & Hloop & Hs & Hw).
  rewrite Hloop. eexists ret, _. split; [reflexivity|].
  destruct Hs as (Hl & Hc & Hf & Hfn & Htmp & Hfs). split.
  { unfold saving. cbn. by repeat split. }
  intros Hr Hret Hcount c Hc0.
  destruct (Hw Hr Hret ltac:(lia) ltac:(cbn; lia) c Hc0) as (c' & Hc' & Hlen & Hdump).
  exists c'. split; [done|]. split; [done|]. done.
Qed.

End SaveLoop.

(** ** What the iterator with the writer writes *)

Lemma record_to_save_ext cf cf' wth fd :
  frames_modified_blocks cf' = frames_modified_blocks cf ->
  record_to_save cf' wth fd = record_to_save cf wth fd.
Proof.
  intros H. unfold record_to_save, cap_file_provider_get_modified_block.
  by rewrite H.
Qed.

Lemma records_of_ext cf cf' wth fds recs :
  frames_modified_blocks cf' = frames_modified_blocks cf ->
  records_of cf' wth fds recs -> records_of cf wth fds recs.
Proof.
  intros H Hr. unfold records_of in *. eapply Forall2_impl; [exact Hr|].
  intros fd rec Hx. cbn beta in *. by rewrite <- (record_to_save_ext cf cf').
Qed.

Lemma picked_by_all fds : picked_by None fds = fds.
Proof. induction fds as [|fd fds IH]; cbn; [done|]. by rewrite IH. Qed.

Section SaveContents.

Context (dfilter_compile : string -> option (option dfilter_t)).
Context (rescan : bool -> world -> option world).
Context (env : save_env) (wth : wtap).
Context (range : option (frame_data -> range_process_e)).

(** A pass of the iterator that gets to its end has appended to the file
    of the writer the records to save of the frames that the range picks
    among the frames of its turns, in their order. *)
Lemma psr_loop_contents : forall todo k pdh w w',
  read_lock (w_cf w) = true ->
  psr_loop dfilter_compile rescan wth range (save_record env) true todo k pdh w
    = Some (PSP_FINISHED, pdh, w') ->
  1 <= k -> k + Z.of_nat todo <= G_MAXUINT32 ->
  forall c, w_fs w !! pdh = Some c ->
  exists recs,
    w_fs w' !! pdh = Some (c ++ recs)
    /\ records_of (w_cf w) wth
         (picked_by range (take todo (drop (Z.to_nat (k - 1)) (frames (w_cf w)))))
         recs.
Proof.
  induction todo as [|todo IH]; intros k pdh w w' Hlock Hloop Hk Hmax c Hc.
  - cbn in Hloop. injection Hloop as <-. exists []. rewrite app_nil_r.
    split; [done|]. cbn. constructor.
  - cbn [psr_loop] in Hloop.
    destruct (pump_held dfilter_compile rescan w Hlock) as (w1 & Hpump & Hheld & _).
    rewrite Hpump in Hloop.
    destruct Hheld as (Hl1 & _ & Hf1 & _ & _ & _ & Hfs1 & _ & _ & Hb1 & _).
    rewrite with_ui_cf in Hf1, Hb1. rewrite with_ui_fs in Hfs1.
    destruct (stop_flag (w_cf w1)); [done|].
    destruct (frame_data_sequence_find (frames (w_cf w1)) k) as [fdata|] eqn:Hfd;
      [|done].
    rewrite find_lookup in Hfd by lia. rewrite Hf1 in Hfd.
    rewrite (drop_S _ _ _ Hfd). cbn [take picked_by].
    replace (S (Z.to_nat (k - 1))) with (Z.to_nat (k + 1 - 1)) by lia.
    destruct (match range with Some r => r fdata | None => range_process_this end)
      eqn:Hpt.
    + destruct (cf_read_record wth fdata) as [rec|] eqn:Hrec; [|done].
      pose proof (save_record_saving env fdata rec pdh w1) as (Hp2 & Hcf2 & Hfs2 & Hok2).
      destruct (save_record env fdata rec pdh w1) as [[ok pdh2] w2].
      cbn in Hp2, Hcf2, Hfs2, Hok2. subst pdh2.
      destruct ok; [|done].
      destruct (Hok2 eq_refl) as [Hfs2' _].
      rewrite wrap32_small in Hloop by (unfold G_MAXUINT32 in *; lia).
      destruct (IH (k + 1) pdh w2 w' ltac:(by rewrite Hcf2) Hloop ltac:(lia) ltac:(lia)
                  (c ++ [set_rec_block
                     (if has_modified_block fdata
                      then cap_file_provider_get_modified_block (w_cf w1) fdata
                      else rec_block rec) rec])) as (recs & Hc' & Hrecs).
      { rewrite Hfs2', lookup_alter_eq, Hfs1. unfold file_contents in *.
        by rewrite Hc. }
      eexists (_ :: recs). split; [by rewrite Hc', <- app_assoc|].
      constructor.
      * unfold record_to_save. rewrite Hrec.
        unfold cap_file_provider_get_modified_block. by rewrite Hb1.
      * rewrite Hcf2, Hf1 in Hrecs.
        apply (records_of_ext _ (w_cf w1)); [done|exact Hrecs].
    + rewrite wrap32_small in Hloop by (unfold G_MAXUINT32 in *; lia).
      destruct (IH (k + 1) pdh w1 w' Hl1 Hloop ltac:(lia) ltac:(lia) c)
        as (recs & Hc' & Hrecs).
      { unfold file_contents in *. by rewrite Hfs1. }
      exists recs. split; [done|]. rewrite Hf1 in Hrecs.
      apply (records_of_ext _ (w_cf w1)); [done|exact Hrecs].
    + injection Hloop as <-. exists []. rewrite app_nil_r.
      split; [unfold file_contents in *; by rewrite Hfs1|]. constructor.
Qed.

Lemma process_specified_records_contents pdh w w' c :
  dense (w_cf w) -> count (w_cf w) < G_MAXUINT32 ->
  process_specified_records dfilter_compile rescan wth range (save_record env)
    true pdh w = Some (PSP_FINISHED, pdh, w') ->
  w_fs w !! pdh = Some c ->
  exists recs,
    w_fs w' !! pdh = Some (c ++ recs)
    /\ records_of (w_cf w) wth (picked_by range (frames (w_cf w))) recs.
Proof.
  intros Hd Hmax Hpsr Hc. unfold process_specified_records in Hpsr.
  destruct (read_lock (w_cf w)) eqn:Hlock; [done|].
  set (w0 := on_cf (set_stop_flag false) (on_cf (set_read_lock true) w)) in *.
  destruct (psr_loop _ _ _ _ _ _ _ _ _ w0) as [[[ret pdh1] w1]|] eqn:Hloop; [|done].
  injection Hpsr as -> -> <-.
  pose proof (dense_length _ Hd) as Hlen. destruct Hd as [H0 _].
  destruct (psr_loop_contents _ _ _ w0 _ eq_refl Hloop ltac:(lia)
              ltac:(cbn; lia) c Hc) as (recs & Hc' & Hrecs).
  exists recs. split; [done|].
  change (frames (w_cf w0)) with (frames (w_cf w)) in Hrecs.
  change (count (w_cf w0)) with (count (w_cf w)) in Hrecs.
  change (Z.to_nat (1 - 1)) with 0%nat in Hrecs. rewrite drop_0 in Hrecs.
  rewrite take_ge in Hrecs by lia.
  apply (records_of_ext _ (w_cf w0)); [done|exact Hrecs].
Qed.






End SaveContents.

(** ** Safe save *)

Lemma tilde_fresh (fname : string) : fname +:+ "~" <> fname.
Proof.
  induction fname as [|a s IH]; cbn; [done|]. intros H. injection H as H. done.
Qed.














Section SafeSave.

Context (dfilter_compile : string -> option (option dfilter_t)).

(** The iterator with the writer as callback, whether the lock is free
    or not. *)
Lemma process_specified_records_writes fuel env wth range pdh w :
  exists ret w',
    process_specified_records dfilter_compile (rescan_packets dfilter_compile fuel wth)
      wth range (save_record env) true pdh w = Some (ret, pdh, w')
    /\ saving pdh w w'
    /\ (read_lock (w_cf w) = true -> ret = PSP_FAILED /\ w' = w)
    /\ (range = None -> ret = PSP_FINISHED ->
        0 <= count (w_cf w) < G_MAXUINT32 ->
        written pdh (Z.to_nat (count (w_cf w))) 1 w w').
Proof.
  destruct (read_lock (w_cf w)) eqn:Hlock.
  - exists PSP_FAILED, w. unfold process_specified_records. rewrite Hlock.
    split; [done|]. split; [apply saving_refl|done].
  - destruct (process_specified_records_save dfilter_compile
                (rescan_packets dfilter_compile fuel wth) env wth range pdh w Hlock)
      as (ret & w' & H & Hs & Hw).
    exists ret, w'. split; [done|]. split; [done|]. done.
Qed.




(** ** The choice between the two ways of saving *)

Lemma save_by_copy_or_move_true env cf save_format compression discard_comments :
  save_by_copy_or_move env cf save_format compression discard_comments = true <->
  save_format = cd_t cf /\ compression = compression_type cf
  /\ discard_comments = false /\ unsaved_changes cf = false
  /\ (addrinfo_list_empty env = true
      \/ name_resolution_not_supported env save_format = true).
Proof.
  unfold save_by_copy_or_move.
  rewrite !andb_true_iff, orb_true_iff, !negb_true_iff, !Z.eqb_eq. tauto.
Qed.


(** ** What a save or an export leaves behind *)

(** What an export that succeeds leaves behind. *)
Lemma cf_export_specified_packets_contents fuel env wth fname range
    save_format compression w w' :
  dense (w_cf w) -> count (w_cf w) < G_MAXUINT32 ->
  cf_export_specified_packets dfilter_compile fuel env wth fname range
    save_format compression w = Some (CF_WRITE_OK, w') ->
  (exists recs,
     w_fs w' !! fname = Some recs
     /\ records_of (w_cf w) wth (picked_by (Some range) (frames (w_cf w))) recs)
  /\ frames (w_cf w') = frames (w_cf w)
  /\ count (w_cf w') = count (w_cf w)
  /\ filename (w_cf w') = filename (w_cf w)
  /\ (forall p, p <> fname -> p <> fname +:+ "~" -> w_fs w' !! p = w_fs w !! p).
Proof.
  intros Hd Hmax Hexp. pose proof (tilde_fresh fname) as Hne.
  unfold cf_export_specified_packets in Hexp.
  destruct (file_exists fname (w_fs w)) eqn:Hex.
  - change (default fname (Some (fname +:+ "~"))) with (fname +:+ "~") in Hexp.
    unfold wtap_dump_open in Hexp.
    destruct (dump_open_ok env); [|done].
    set (w0 := with_fs (<[fname +:+ "~" := []]> (w_fs w)) w) in *.
    destruct (process_specified_records_writes fuel env wth
                (Some range) (fname +:+ "~") w0) as (ret & w1 & Hpsr & Hs & _ & _).
    rewrite Hpsr in Hexp.
    destruct ret; [|done|done].
    destruct (process_specified_records_contents _ _ _ _ _ _ w0 w1 [] Hd Hmax Hpsr)
      as (recs & Hc1 & Hrecs).
    { cbn. by rewrite lookup_insert_eq. }
    destruct (wtap_dump_close env _); [|done].
    unfold ws_rename in Hexp. destruct (final_rename_ok env); [|done].
    unfold file_contents, wtap_dumper in *. rewrite Hc1 in Hexp. injection Hexp as <-.
    destruct Hs as (_ & Hcnt & Hfr & Hfn & _ & Hfs).
    split.
    { exists recs. split; [cbn; by rewrite lookup_insert_eq|exact Hrecs]. }
    split; [done|]. split; [done|]. split; [done|].
    intros p Hp1 Hp2. cbn.
    rewrite lookup_insert_ne, lookup_delete_ne, Hfs by done.
    cbn. by rewrite lookup_insert_ne.
  - change (default fname None) with fname in Hexp.
    unfold wtap_dump_open in Hexp.
    destruct (dump_open_ok env); [|done].
    set (w0 := with_fs (<[fname := []]> (w_fs w)) w) in *.
    destruct (process_specified_records_writes fuel env wth
                (Some range) fname w0) as (ret & w1 & Hpsr & Hs & _ & _).
    rewrite Hpsr in Hexp.
    destruct ret; [|done|done].
    destruct (process_specified_records_contents _ _ _ _ _ _ w0 w1 [] Hd Hmax Hpsr)
      as (recs & Hc1 & Hrecs).
    { cbn. by rewrite lookup_insert_eq. }
    destruct (wtap_dump_close env _); [|done].
    injection Hexp as <-.
    destruct Hs as (_ & Hcnt & Hfr & Hfn & _ & Hfs).
    split; [by exists recs|].
    split; [done|]. split; [done|]. split; [done|].
    intros p Hp1 Hp2. rewrite Hfs by done. cbn. by rewrite lookup_insert_ne.
Qed.

(** What a save through the format writer that succeeds leaves behind. *)
Lemma cf_save_records_contents fuel env wth fname save_format compression
    discard_comments dont_reopen w w' :
  dense (w_cf w) -> count (w_cf w) < G_MAXUINT32 ->
  save_by_copy_or_move env (w_cf w) save_format compression discard_comments
    = false ->
  (is_tempfile (w_cf w) = true -> filename (w_cf w) <> Some fname) ->
  (forall b w1, w_fs (reread_saved env fname b w1) = w_fs w1) ->
  cf_save_records dfilter_compile fuel env wth fname save_format compression
    discard_comments dont_reopen w = Some (CF_WRITE_OK, w') ->
  exists recs,
    w_fs w' !! fname = Some recs
    /\ records_of (w_cf w) wth (frames (w_cf w)) recs.
Proof.
  intros Hd Hmax Hhow Htmp Hreread Hsave. pose proof (tilde_fresh fname) as Hne.
  unfold cf_save_records in Hsave.
  rewrite tell_cf, Hhow in Hsave.
  set (wS := tell SaveStarted w) in *.
  assert (Hfinish : forall fname_new w1 recs,
    filename (w_cf w1) = filename (w_cf w) ->
    is_tempfile (w_cf w1) = is_tempfile (w_cf w) ->
    w_fs w1 !! default fname fname_new = Some recs ->
    (fname_new = None \/ fname_new = Some (fname +:+ "~")) ->
    save_finish env fname fname_new SAVE_WITH_WTAP discard_comments dont_reopen w1
      = Some (CF_WRITE_OK, w') ->
    w_fs w' !! fname = Some recs).
  { intros fname_new w1 recs Hfile Htf Hc1 Hfn Hfin. unfold save_finish in Hfin.
    set (renamed := match fname_new with
                    | Some p => match ws_rename (final_rename_ok env) p fname (w_fs w1) with
                                | Some fs => Some (with_fs fs w1)
                                | None => None
                                end
                    | None => Some w1
                    end) in *.
    assert (Hren : forall w2, renamed = Some w2 ->
              w_fs w2 !! fname = Some recs /\ w_cf w2 = w_cf w1).
    { intros w2. unfold renamed. destruct Hfn as [->| ->].
      - intros [= <-]. done.
      - cbn in Hc1. unfold ws_rename. destruct (final_rename_ok env); [|done].
        unfold file_contents in *. rewrite Hc1. intros [= <-]. cbn.
        by rewrite lookup_insert_eq. }
    destruct renamed as [w2|]; [|done].
    destruct (Hren w2 eq_refl) as [Hc2 Hcf2]. clear Hren.
    apply fmap_Some in Hfin as (w5 & Hre & [= ->]).
    revert Hre.
    set (w3 := match is_tempfile (w_cf w2), filename (w_cf w2) with
               | true, Some f => with_fs (ws_unlink f (w_fs w2)) w2
               | _, _ => w2
               end).
    assert (Hc3 : w_fs w3 !! fname = Some recs).
    { unfold w3. rewrite Hcf2, Htf, Hfile.
      destruct (is_tempfile (w_cf w)) eqn:Ht; [|done].
      destruct (filename (w_cf w)) as [f|] eqn:Hf; [|done].
      cbn. unfold ws_unlink. rewrite lookup_delete_ne; [done|].
      intros ->. by apply Htmp. }
    clearbody w3.
    assert (Hc4 : forall w4, w_fs w4 = w_fs w3 ->
       w_fs (if discard_comments
             then on_cf (set_packet_comment_count 0)
                    (on_cf (set_frames_modified_blocks [])
                       (on_cf (fun cf => set_frames
                                 (map (set_has_modified_block false) (frames cf)) cf) w4))
             else w4) !! fname = Some recs).
    { intros w4 H4. destruct discard_comments; cbn; by rewrite H4. }
    destruct dont_reopen.
    - by intros [= <-].
    - cbn [fmap option_fmap option_map]. intros [= <-].
      apply Hc4. by rewrite Hreread. }
  destruct (file_exists fname (w_fs wS)) eqn:Hex.
  - change (default fname (Some (fname +:+ "~"))) with (fname +:+ "~") in Hsave.
    unfold wtap_dump_open in Hsave.
    destruct (dump_open_ok env); [|done].
    set (w0 := with_fs (<[fname +:+ "~" := []]> (w_fs wS)) wS) in *.
    destruct (process_specified_records_writes fuel env wth
                None (fname +:+ "~") w0) as (ret & w1 & Hpsr & Hs & _ & _).
    rewrite Hpsr in Hsave.
    destruct ret; [|done|done].
    destruct (process_specified_records_contents _ _ _ _ _ _ w0 w1 [] Hd Hmax Hpsr)
      as (recs & Hc1 & Hrecs).
    { cbn. by rewrite lookup_insert_eq. }
    destruct (wtap_dump_close env _); [|done].
    rename Hsave into Hsf.
    exists recs. split; [|by rewrite picked_by_all in Hrecs].
    destruct Hs as (_ & _ & _ & Hfile & Htf & _).
    apply (Hfinish (Some (fname +:+ "~")) w1 recs Hfile Htf Hc1); [by right|exact Hsf].
  - change (default fname None) with fname in Hsave.
    unfold wtap_dump_open in Hsave.
    destruct (dump_open_ok env); [|done].
    set (w0 := with_fs (<[fname := []]> (w_fs wS)) wS) in *.
    destruct (process_specified_records_writes fuel env wth
                None fname w0) as (ret & w1 & Hpsr & Hs & _ & _).
    rewrite Hpsr in Hsave.
    destruct ret; [|done|done].
    destruct (process_specified_records_contents _ _ _ _ _ _ w0 w1 [] Hd Hmax Hpsr)
      as (recs & Hc1 & Hrecs).
    { cbn. by rewrite lookup_insert_eq. }
    destruct (wtap_dump_close env _); [|done].
    rename Hsave into Hsf.
    exists recs. split; [|by rewrite picked_by_all in Hrecs].
    destruct Hs as (_ & _ & _ & Hfile & Htf & _).
    apply (Hfinish None w1 recs Hfile Htf Hc1); [by left|exact Hsf].
Qed.



(** ** Saving while the lock is held *)

Lemma cf_save_records_locked_rewrite fuel env wth fname save_format compression
    discard_comments dont_reopen w :
  read_lock (w_cf w) = true ->
  save_by_copy_or_move env (w_cf w) save_format compression discard_comments = false ->
  exists w',
    cf_save_records dfilter_compile fuel env wth fname save_format compression
      discard_comments dont_reopen w = Some (CF_WRITE_ERROR, w')
    /\ w_cf w' = w_cf w.
Proof.
  intros Hlock Hpath. unfold cf_save_records.
  set (w0 := tell SaveStarted w).
  change (w_cf w0) with (w_cf w). change (w_fs w0) with (w_fs w). rewrite Hpath.
  set (fname_new := if file_exists fname (w_fs w) then _ else _).
  destruct (wtap_dump_open env (default fname fname_new) (w_fs w)) as [[pdh|] fs].
  2:{ eexists. split; [reflexivity|]. unfold save_fail. by destruct fname_new. }
  destruct (process_specified_records_writes fuel env wth None pdh (with_fs fs w0))
    as (ret & w1 & Hpsr & _ & Hl & _).
  rewrite Hpsr. destruct (Hl Hlock) as [-> ->].
  eexists. split; [reflexivity|]. unfold save_fail. by destruct fname_new.
Qed.

Lemma cf_export_specified_packets_locked fuel env wth fname range save_format
    compression w :
  read_lock (w_cf w) = true ->
  exists w',
    cf_export_specified_packets dfilter_compile fuel env wth fname range
      save_format compression w = Some (CF_WRITE_ERROR, w')
    /\ w_cf w' = w_cf w.
Proof.
  intros Hlock. unfold cf_export_specified_packets.
  set (fname_new := if file_exists fname (w_fs w) then _ else _).
  destruct (wtap_dump_open env (default fname fname_new) (w_fs w)) as [[pdh|] fs].
  2:{ eexists. split; [reflexivity|]. unfold export_fail. by destruct fname_new. }
  destruct (process_specified_records_writes fuel env wth (Some range) pdh (with_fs fs w))
    as (ret & w1 & Hpsr & _ & Hl & _).
  rewrite Hpsr. destruct (Hl Hlock) as [-> ->].
  eexists. split; [reflexivity|]. unfold export_fail. by destruct fname_new.
Qed.

(** The identity path never looks at the lock: a temporary capture file
    is moved to its new name even while a read is pending. *)
Lemma cf_save_records_moves fuel env wth fname save_format compression
    discard_comments w src c :
  save_by_copy_or_move env (w_cf w) save_format compression discard_comments = true ->
  is_tempfile (w_cf w) = true ->
  move_rename env = RenameOk ->
  filename (w_cf w) = Some src ->
  w_fs w !! src = Some c ->
  exists w',
    cf_save_records dfilter_compile fuel env wth fname save_format compression
      discard_comments false w = Some (CF_WRITE_OK, w')
    /\ filename (w_cf w') = Some fname
    /\ is_tempfile (w_cf w') = false
    /\ read_lock (w_cf w') = read_lock (w_cf w)
    /\ w_fs w' !! fname = Some c.
Proof.
  intros Hpath Htmp Hmove Hname Hsrc. unfold cf_save_records.
  set (w0 := tell SaveStarted w).
  change (w_cf w0) with (w_cf w). change (w_fs w0) with (w_fs w).
  rewrite Hpath, Htmp, Hmove, Hname. cbn [mbind option_bind].
  unfold ws_rename. rewrite Hsrc. cbv beta iota zeta.
  apply save_by_copy_or_move_true in Hpath as (_ & _ & -> & _).
  eexists. split; [reflexivity|]. cbn. by rewrite lookup_insert_eq.
Qed.

End SafeSave.

Section Escalation.

Context (dfilter_compile : string -> option (option dfilter_t)).

Lemma handle_event_rank rescan ev w :
  read_lock (w_cf w) = true ->
  exists w', handle_event dfilter_compile rescan ev w = Some w'
    /\ read_lock (w_cf w') = true
    /\ (rescan_rank (redissection_queued (w_cf w))
        <= rescan_rank (redissection_queued (w_cf w')))%nat
    /\ scans_of (w_log w') = scans_of (w_log w).
Proof.
  intros Hlock. destruct ev as [| |dftext force|].
  - eexists. split; [reflexivity|]. by split_and!.
  - eexists. split; [reflexivity|]. by split_and!.
  - destruct (handle_request_locked dfilter_compile rescan (UiFilter dftext force) w Hlock eq_refl)
      as (w' & H & (?&?&?&?&?&?&?&?&?&?&?&?) & _).
    exists w'. by split_and!.
  - destruct (handle_request_locked dfilter_compile rescan UiRedissect w Hlock eq_refl)
      as (w' & H & (?&?&?&?&?&?&?&?&?&?&?&?) & _).
    exists w'. by split_and!.
Qed.

Lemma handle_events_rank rescan : forall evs w,
  read_lock (w_cf w) = true ->
  exists w', handle_events dfilter_compile rescan evs w = Some w'
    /\ read_lock (w_cf w') = true
    /\ (rescan_rank (redissection_queued (w_cf w))
        <= rescan_rank (redissection_queued (w_cf w')))%nat
    /\ scans_of (w_log w') = scans_of (w_log w).
Proof.
  induction evs as [|ev evs IH]; intros w Hlock.
  - exists w. by split_and!.
  - destruct (handle_event_rank rescan ev w Hlock) as (w1 & H1 & Hl1 & Hr1 & Hs1).
    destruct (IH w1 Hl1) as (w' & H' & Hl' & Hr' & Hs').
    exists w'. cbn. rewrite H1. split_and!; try done; [lia|congruence].
Qed.

Lemma requests_under_lock rescan (evs : list ui_event) (w : world) :
  read_lock (w_cf w) = true ->
  exists w', handle_events dfilter_compile rescan evs w = Some w'
    /\ (rescan_rank (redissection_queued (w_cf w))
        <= rescan_rank (redissection_queued (w_cf w')))%nat
    /\ scans_of (w_log w') = scans_of (w_log w)
    /\ (UiRedissect ∈ evs ->
        Forall (fun ev => is_request ev = true) evs ->
        redissection_queued (w_cf w') = RESCAN_REDISSECT).
Proof.
  revert rescan evs w.
  intros rescan evs w Hlock.
  destruct (handle_events_rank rescan evs w Hlock) as (w' & H & Hl & Hr & Hs).
  exists w'. split_and!; try done.
  intros Hin Hreq.
  destruct (handle_requests_locked dfilter_compile rescan evs w Hlock Hreq)
    as (w'' & H'' & _ & Hq).
  rewrite H in H''. injection H'' as <-. apply Hq. by right.
Qed.

Lemma cf_read_then_redissects (fuel : nat) (max_records : Z) (wth : wtap)
    (reloading : bool) (w : world) :
  read_lock (w_cf w) = false ->
  state (w_cf w) <> FILE_READ_ABORTED ->
  0 <= wth_file_size wth ->
  requests_only (w_ui w) ->
  (length (w_ui w) <= length (wth_records wth))%nat ->
  UiRedissect ∈ concat (w_ui w) ->
  0 <= count (w_cf w) ->
  count (w_cf w) + Z.of_nat (length (wth_records wth)) <= max_records ->
  count (w_cf w) + Z.of_nat (length (wth_records wth)) <= G_MAXUINT32 ->
  exists st w',
    cf_read dfilter_compile (S fuel) max_records wth reloading w = Some (st, w')
    /\ scans_of (w_log w') = scans_of (w_log w) ++ [true]
    /\ redissection_queued (w_cf w') = RESCAN_NONE.
Proof.
  revert fuel max_records wth reloading w.
  intros fuel max_records wth reloading w Hlock Hstate Hsize Hreq Hlen Hin Hc0 Hcap Hmax.
  unfold cf_read. rewrite Hlock.
  match goal with
  | |- context [cf_read_loop _ ?r _ _ ?d _ ?w0] =>
      destruct (cf_read_loop_requests dfilter_compile r max_records
                  (wth_file_size wth) d (wth_records wth) w0)
        as (w1 & Hloop & Hl1 & Hui1 & Hrank1 & Hq1 & Hs1 & Hst1 & Hsta1 & Hfs1);
        try done
  end.
  rewrite Hloop. cbv beta iota zeta.
  repeat (rewrite on_cf_ui in Hui1, Hq1 || rewrite tell_ui in Hui1, Hq1).
  rewrite drop_ge in Hui1 by done.
  rewrite take_ge in Hq1 by done.
  specialize (Hq1 (or_intror Hin)).
  match goal with
  | |- context [on_cf (set_read_lock false) ?x] =>
      set (w2 := on_cf (set_read_lock false) x)
  end.
  assert (Hw2 : redissection_queued (w_cf w2) = RESCAN_REDISSECT
                /\ w_ui w2 = []
                /\ scans_of (w_log w2) = scans_of (w_log w)).
  { assert (Hs0 : scans_of (w_log w1) = scans_of (w_log w)).
    { rewrite Hs1. cbn -[scans_of]. rewrite scans_of_app. cbn. by rewrite app_nil_r. }
    unfold w2. destruct (negb _); cbn -[scans_of];
      rewrite ?scans_of_app, Hs0; cbn; rewrite ?app_nil_r; done. }
  destruct Hw2 as (Hq2 & Hui2 & Hs2). clearbody w2.
  rewrite Hq2. cbn [negb rescan_type_eqb].
  destruct (rescan_packets_quiet dfilter_compile fuel wth true w2 Hui2)
    as (w3 & Hres & Hs3 & Hui3 & Hq3 & Hl3 & Hc3 & Hfs3).
  rewrite Hres. rewrite Hs2 in Hs3.
  destruct (stop_flag (w_cf w3)).
  { eexists _, _. split; [reflexivity|]. rewrite tell_log, scans_of_app, tell_cf.
    cbn. rewrite app_nil_r. done. }
  destruct (negb (wth_err wth =? 0)).
  { eexists _, _. split; [reflexivity|]. rewrite tell_log, scans_of_app, tell_cf.
    cbn. rewrite app_nil_r. done. }
  eexists _, _. split; [reflexivity|]. done.
Qed.

Lemma rescan_packets_interrupted (fuel : nat) (wth : wtap) (redissect : bool)
    (w : world) (evs : list ui_event) :
  1 <= count (w_cf w) ->
  w_ui w = [evs] ->
  Forall (fun ev => is_request ev = true) evs ->
  UiRedissect ∈ evs ->
  exists w',
    rescan_packets dfilter_compile (S (S fuel)) wth redissect w = Some w'
    /\ scans_of (w_log w') = scans_of (w_log w) ++ [redissect; true]
    /\ redissection_queued (w_cf w') = RESCAN_NONE.
Proof.
  revert fuel wth redissect w evs.
  intros fuel wth redissect w evs Hcount Hui Hreq Hin.
  rewrite rescan_packets_S.
  match goal with
  | |- context [rescan_loop _ _ _ _ _ _ _ _ 1 rescan_vars_init ?x] =>
      set (w0 := x)
  end.
  assert (Hw0 : read_lock (w_cf w0) = true /\ w_ui w0 = [evs]
                /\ count (w_cf w0) = count (w_cf w)
                /\ scans_of (w_log w0) = scans_of (w_log w) ++ [redissect]).
  { unfold w0. destruct redissect; cbn -[scans_of]; rewrite scans_of_app; done. }
  destruct Hw0 as (Hl0 & Hui0 & Hc0 & Hs0). clearbody w0.
  destruct (Z.to_nat (count (w_cf w0))) as [|todo] eqn:Htodo; [lia|].
  cbn [rescan_loop].
  destruct (pump_requests_locked dfilter_compile
              (rescan_packets dfilter_compile (S fuel) wth) w0)
    as (w1 & Hpump & Hk & Hq1); [done| |].
  { rewrite Hui0. by repeat constructor. }
  rewrite Hpump.
  assert (Hq : redissection_queued (w_cf w1) = RESCAN_REDISSECT).
  { apply Hq1. right. by rewrite Hui0. }
  rewrite Hq. cbn [negb rescan_type_eqb]. cbv beta iota zeta.
  cbn [negb rescan_type_eqb]. rewrite orb_true_r.
  destruct Hk as (Hl1 & Hrank1 & Hsta1 & Hst1 & Hcnt1 & Hfr1 & Hrf1 & Hrd1 & Hcur1
                  & Hui1 & Hfs1 & Hsc1).
  rewrite with_ui_ui, Hui0 in Hui1. cbn [tail] in Hui1.
  rewrite with_ui_log, Hs0 in Hsc1.
  match goal with
  | |- context [rescan_packets _ _ _ true ?x] => set (w2 := x)
  end.
  assert (Hw2 : w_ui w2 = []
                /\ scans_of (w_log w2) = scans_of (w_log w) ++ [redissect]).
  { unfold w2. rewrite on_cf_ui, on_cf_log.
    match goal with
    | |- context [rescan_select ?sel ?v ?x] =>
        pose proof (rescan_select_log sel v x) as (Hs2 & Hu2 & _)
    end.
    rewrite Hs2, Hu2, tell_ui, tell_log, scans_of_app.
    cbn [scans_of omap]. rewrite app_nil_r.
    destruct redissect; rewrite ?on_cf_ui, ?on_cf_log; done. }
  destruct Hw2 as (Hui2 & Hs2). clearbody w2.
  destruct (rescan_packets_quiet dfilter_compile fuel wth true w2 Hui2)
    as (w3 & Hres & Hs3 & Hui3 & Hq3 & Hl3 & Hc3 & Hfs3).
  exists w3. split; [exact Hres|]. split; [|done].
  rewrite Hs3, Hs2, <- app_assoc. done.
Qed.

End Escalation.

(* ===================================================================== *)
(** * The claims of the specification *)
(* ===================================================================== *)

Lemma sample_store_ok size :
  store_ok (sample_wth size) [sample_frame 1; sample_frame 2; sample_frame 3].
Proof.
  intros n fd H. pose proof (find_Some_range _ _ _ H) as Hr. cbn in Hr.
  rewrite find_lookup in H by lia.
  assert (n = 1 \/ n = 2 \/ n = 3) as [-> | [-> | ->]] by lia;
    cbn in H; injection H as <-; split; done.
Qed.

Lemma opened_session_dense : dense opened_session.
Proof. split; [done|reflexivity]. Qed.

Lemma loaded_session_dense sel tmp lock edited :
  dense (loaded_session sel tmp lock edited).
Proof. split; [done|reflexivity]. Qed.

Section Claims.

Context (dfilter_compile : string -> option (option dfilter_t)).

(** C1.  A record that [read_record] keeps is appended to the store with
    frame number [count + 1], and [count] goes up by one; a record that
    the read filter rejects leaves the store and [count] as they were;
    whatever arrives during a read, [cf_read] comes back, given more fuel
    than the oracle has entries, and the frames of the store are then
    numbered 1, 2, ..., [count]; and a read of N records into an empty
    session, without a read filter and without anything that stops it,
    succeeds and leaves exactly the frame numbers 1..N. *)
Theorem frame_numbers_are_dense :
  (forall rec offset dfcode cf,
     0 <= count cf < G_MAXUINT32 ->
     read_filter_passes cf rec offset = true ->
     let r := read_record rec offset dfcode cf in
     fst r = true /\ count (snd r) = count cf + 1
     /\ exists fd, frames (snd r) = frames cf ++ [fd] /\ num fd = count cf + 1)
  /\ (forall rec offset dfcode cf,
     read_filter_passes cf rec offset = false ->
     let r := read_record rec offset dfcode cf in
     fst r = false /\ count (snd r) = count cf /\ frames (snd r) = frames cf)
  /\ (forall fuel max_records wth reloading w,
     (length (w_ui w) < fuel)%nat ->
     dense (w_cf w) ->
     count (w_cf w) + Z.of_nat (length (wth_records wth)) <= G_MAXUINT32 ->
     exists st w',
       cf_read dfilter_compile fuel max_records wth reloading w = Some (st, w')
       /\ 0 <= count (w_cf w')
       /\ map num (frames (w_cf w')) = seqZ 1 (count (w_cf w')))
  /\ (forall fuel max_records wth reloading w,
     let N := Z.of_nat (length (wth_records wth)) in
     count (w_cf w) = 0 -> frames (w_cf w) = [] ->
     read_lock (w_cf w) = false ->
     redissection_queued (w_cf w) = RESCAN_NONE ->
     state (w_cf w) <> FILE_READ_ABORTED ->
     rfcode (w_cf w) = None ->
     (wth_file_size wth < 0 \/ w_ui w = []) ->
     (wth_file_size wth < 0 \/ N <= max_records) ->
     N <= G_MAXUINT32 ->
     wth_err wth = 0 ->
     exists w',
       cf_read dfilter_compile fuel max_records wth reloading w
       = Some (CF_READ_OK, w')
       /\ count (w_cf w') = N
       /\ map num (frames (w_cf w')) = seqZ 1 N).
Proof.
  split; [|split; [|split]].
  - intros rec offset dfcode cf Hc Hp r.
    destruct (read_record_kept rec offset dfcode cf Hp) as (Hk & Hf & Hc' & _).
    fold r in Hk, Hf, Hc'. rewrite wrap32_small in Hc' by lia.
    split; [done|]. split; [done|]. eexists. split; [exact Hf|].
    destruct (_ && _); [rewrite dissected_num|];
      by rewrite new_frame_num, wrap32_small by lia.
  - intros rec offset dfcode cf Hp r.
    destruct (read_record_dropped rec offset dfcode cf Hp) as (Hk & Hf & Hc' & _).
    done.
  - intros fuel max_records wth reloading w Hfuel Hd Hmax.
    destruct (cf_read_numbers dfilter_compile fuel max_records wth reloading w
                Hfuel Hd Hmax) as (st & w' & Hread & [H0 Hn] & _).
    by exists st, w'.
  - intros fuel max_records wth reloading w N Hc Hf Hlock Hrq Hstate Hrf Hquiet
      Hcap Hmax Herr.
    destruct (cf_read_full dfilter_compile fuel max_records wth reloading w)
      as (w' & Hread & [_ Hn] & Hc' & _); try done.
    + by rewrite Hc.
    + by rewrite Hc.
    + split; [by rewrite Hc|]. by rewrite Hf, Hc.
    + exists w'. rewrite Herr in Hread. rewrite Hc in Hc'.
      split; [done|]. split; [done|]. by rewrite Hn, Hc'.
Qed.

(** C9.  A read of N records into an empty session with no read filter
    and no display filter, that nothing stops, adds every record to the
    store with its [passed_dfilter] flag set, and leaves the displayed
    count at N, [first_displayed] at 1 (when there is a frame at all) and
    [last_displayed] at N. *)
Theorem batch_ingestion_displays_every_frame (fuel : nat) (max_records : Z)
    (wth : wtap) (reloading : bool) (w : world) :
  let N := Z.of_nat (length (wth_records wth)) in
  count (w_cf w) = 0 -> frames (w_cf w) = [] ->
  displayed_count (w_cf w) = 0 ->
  first_displayed (w_cf w) = 0 -> last_displayed (w_cf w) = 0 ->
  read_lock (w_cf w) = false ->
  redissection_queued (w_cf w) = RESCAN_NONE ->
  redissecting (w_cf w) = false ->
  state (w_cf w) <> FILE_READ_ABORTED ->
  rfcode (w_cf w) = None -> dfilter (w_cf w) = None ->
  (wth_file_size wth < 0 \/ w_ui w = []) ->
  (wth_file_size wth < 0 \/ N <= max_records) ->
  N <= G_MAXUINT32 ->
  exists w',
    cf_read dfilter_compile fuel max_records wth reloading w
    = Some (if wth_err wth =? 0 then CF_READ_OK else CF_READ_ERROR, w')
    /\ count (w_cf w') = N
    /\ Z.of_nat (length (frames (w_cf w'))) = N
    /\ Forall (fun fd => passed_dfilter fd = true) (frames (w_cf w'))
    /\ displayed_count (w_cf w') = N
    /\ (1 <= N -> first_displayed (w_cf w') = 1)
    /\ last_displayed (w_cf w') = N.
Proof.
  intros N Hc Hf Hdc Hfd Hld Hlock Hrq Hrd Hstate Hrf Hdf Hquiet Hcap Hmax.
  destruct (cf_read_full dfilter_compile fuel max_records wth reloading w)
    as (w' & Hread & Hd' & Hc' & _ & _ & Hall); try done.
  - by rewrite Hc.
  - by rewrite Hc.
  - split; [by rewrite Hc|]. by rewrite Hf, Hc.
  - destruct (Hall Hdf Hrd) as (Hp' & Hdc' & Hfd' & Hld').
    { split; [by rewrite Hf|]. by rewrite Hdc, Hfd, Hld, Hc. }
    rewrite Hc in Hc'. change (count (w_cf w') = N) in Hc'.
    exists w'. split; [done|]. split; [done|].
    split; [by rewrite (dense_length _ Hd')|]. split; [done|].
    split; [congruence|]. split; [|congruence].
    intros HN. rewrite Hfd', Hc'. by destruct (Z.eqb_spec N 0); [lia|].
Qed.

(** C10.  When the provider cannot tell the size of the file (it answers
    a negative number), [cf_read] never compares [count] with
    [max_records]: every record is taken in, however small [max_records]
    is and whatever arrives during the read, and no alert about too many
    records is raised.  When the size is known, a read that nothing else
    stops ends at [max_records] frames with that alert. *)
Theorem record_cap_needs_file_size :
  (forall fuel max_records wth reloading w,
     wth_file_size wth < 0 ->
     read_lock (w_cf w) = false ->
     redissection_queued (w_cf w) = RESCAN_NONE ->
     state (w_cf w) <> FILE_READ_ABORTED ->
     rfcode (w_cf w) = None ->
     dense (w_cf w) ->
     count (w_cf w) + Z.of_nat (length (wth_records wth)) <= G_MAXUINT32 ->
     exists w',
       cf_read dfilter_compile fuel max_records wth reloading w
       = Some (if wth_err wth =? 0 then CF_READ_OK else CF_READ_ERROR, w')
       /\ count (w_cf w') = count (w_cf w) + Z.of_nat (length (wth_records wth))
       /\ forall m, AlertTooManyRecords m ∈ w_log w' ->
                    AlertTooManyRecords m ∈ w_log w)
  /\ (forall fuel max_records wth reloading w,
     0 <= wth_file_size wth ->
     w_ui w = [] ->
     read_lock (w_cf w) = false ->
     redissection_queued (w_cf w) = RESCAN_NONE ->
     state (w_cf w) <> FILE_READ_ABORTED ->
     rfcode (w_cf w) = None ->
     dense (w_cf w) ->
     count (w_cf w) <= max_records <= G_MAXUINT32 ->
     max_records < count (w_cf w) + Z.of_nat (length (wth_records wth)) ->
     exists w',
       cf_read dfilter_compile fuel max_records wth reloading w
       = Some (CF_READ_ERROR, w')
       /\ count (w_cf w') = max_records
       /\ last (w_log w') = Some (AlertTooManyRecords max_records)).
Proof.
  split.
  - intros fuel max_records wth reloading w Hsize Hlock Hrq Hstate Hrf Hd Hmax.
    destruct (cf_read_full dfilter_compile fuel max_records wth reloading w)
      as (w' & Hread & _ & Hc' & Hlog & _); try done; [by left|by left|].
    exists w'. split; [done|]. split; [done|].
    intros m. rewrite Hlog, !elem_of_app.
    intros [?|[Hin|[Hin|Hin]]]; [done| | |].
    + apply elem_of_cons in Hin as [?|Hin]; [done|].
      apply elem_of_cons in Hin as [?|Hin]; [done|]. by apply elem_of_nil in Hin.
    + destruct (first_displayed _ =? 0); [by apply elem_of_nil in Hin|].
      apply elem_of_cons in Hin as [?|Hin]; [done|]. by apply elem_of_nil in Hin.
    + destruct (wth_err wth =? 0); [by apply elem_of_nil in Hin|].
      apply elem_of_cons in Hin as [?|Hin]; [done|]. by apply elem_of_nil in Hin.
  - intros fuel max_records wth reloading w Hsize Hui Hlock Hrq Hstate Hrf Hd
      Hle Hlt.
    destruct (cf_read_capped dfilter_compile fuel max_records wth reloading w)
      as (w' & Hread & Hc' & _ & Hlast); try done.
    by exists w'.
Qed.

(** C2.  While a scan holds the lock the pending slot only ever moves up
    (nothing, rescan, redissection), whatever arrives, and no scan is
    started; when a read during which requests arrived, a redissection
    among them, comes to its end, exactly one scan follows and it is a
    redissection; and when such requests reach a running rescan, the
    rescan stops and exactly one scan follows, a redissection. *)
Theorem queued_rescan_escalates :
  (forall rescan (evs : list ui_event) (w : world),
     read_lock (w_cf w) = true ->
     exists w', handle_events dfilter_compile rescan evs w = Some w'
       /\ (rescan_rank (redissection_queued (w_cf w))
           <= rescan_rank (redissection_queued (w_cf w')))%nat
       /\ scans_of (w_log w') = scans_of (w_log w)
       /\ (UiRedissect ∈ evs ->
           Forall (fun ev => is_request ev = true) evs ->
           redissection_queued (w_cf w') = RESCAN_REDISSECT))
  /\ (forall (fuel : nat) (max_records : Z) (wth : wtap) (reloading : bool)
        (w : world),
      read_lock (w_cf w) = false ->
      state (w_cf w) <> FILE_READ_ABORTED ->
      0 <= wth_file_size wth ->
      requests_only (w_ui w) ->
      (length (w_ui w) <= length (wth_records wth))%nat ->
      UiRedissect ∈ concat (w_ui w) ->
      0 <= count (w_cf w) ->
      count (w_cf w) + Z.of_nat (length (wth_records wth)) <= max_records ->
      count (w_cf w) + Z.of_nat (length (wth_records wth)) <= G_MAXUINT32 ->
      exists st w',
        cf_read dfilter_compile (S fuel) max_records wth reloading w = Some (st, w')
        /\ scans_of (w_log w') = scans_of (w_log w) ++ [true]
        /\ redissection_queued (w_cf w') = RESCAN_NONE)
  /\ (forall (fuel : nat) (wth : wtap) (redissect : bool) (w : world)
        (evs : list ui_event),
      1 <= count (w_cf w) ->
      w_ui w = [evs] ->
      Forall (fun ev => is_request ev = true) evs ->
      UiRedissect ∈ evs ->
      exists w',
        rescan_packets dfilter_compile (S (S fuel)) wth redissect w = Some w'
        /\ scans_of (w_log w') = scans_of (w_log w) ++ [redissect; true]
        /\ redissection_queued (w_cf w') = RESCAN_NONE).
Proof.
  split; [|split].
  - intros rescan evs w. apply requests_under_lock.
  - intros fuel max_records wth reloading w. apply cf_read_then_redissects.
  - intros fuel wth redissect w evs. apply rescan_packets_interrupted.
Qed.


(** C5 (amended).  With the lock held, [cf_read] and
    [process_specified_records] come back at once with their error value
    and leave everything as it was.  The two writers do not test the lock
    before they open their output: an export, and a save that has to
    rewrite the file, fail through the iterator, leaving the session as
    it was, though their output file has been created by then; a save
    that can move the temporary capture file to its new name goes
    through, and renames the session's file. *)
Theorem busy_guard_guards_reading_not_saving :
  (forall fuel max_records wth reloading w,
     read_lock (w_cf w) = true ->
     cf_read dfilter_compile fuel max_records wth reloading w
     = Some (CF_READ_ERROR, w))
  /\ (forall (A : Type) rescan wth range
        (callback : frame_data -> wtap_rec -> A -> world -> bool * A * world)
        show_progress_bar a w,
     read_lock (w_cf w) = true ->
     process_specified_records dfilter_compile rescan wth range callback
       show_progress_bar a w = Some (PSP_FAILED, a, w))
  /\ (forall fuel env wth fname range save_format compression w,
     read_lock (w_cf w) = true ->
     exists w',
       cf_export_specified_packets dfilter_compile fuel env wth fname range
         save_format compression w = Some (CF_WRITE_ERROR, w')
       /\ w_cf w' = w_cf w)
  /\ (forall fuel env wth fname save_format compression discard_comments
        dont_reopen w,
     read_lock (w_cf w) = true ->
     save_by_copy_or_move env (w_cf w) save_format compression discard_comments
     = false ->
     exists w',
       cf_save_records dfilter_compile fuel env wth fname save_format compression
         discard_comments dont_reopen w = Some (CF_WRITE_ERROR, w')
       /\ w_cf w' = w_cf w)
  /\ (forall fuel env wth fname save_format compression discard_comments w src c,
     read_lock (w_cf w) = true ->
     save_by_copy_or_move env (w_cf w) save_format compression discard_comments
     = true ->
     is_tempfile (w_cf w) = true ->
     move_rename env = RenameOk ->
     filename (w_cf w) = Some src ->
     w_fs w !! src = Some c ->
     exists w',
       cf_save_records dfilter_compile fuel env wth fname save_format compression
         discard_comments false w = Some (CF_WRITE_OK, w')
       /\ filename (w_cf w') = Some fname
       /\ is_tempfile (w_cf w') = false
       /\ read_lock (w_cf w') = true
       /\ w_fs w' !! fname = Some c).
Proof.
  split; [|split; [|split; [|split]]].
  - intros fuel max_records wth reloading w Hlock. unfold cf_read. by rewrite Hlock.
  - intros A rescan wth range callback show a w Hlock.
    unfold process_specified_records. by rewrite Hlock.
  - intros. by apply cf_export_specified_packets_locked.
  - intros. by apply cf_save_records_locked_rewrite.
  - intros fuel env wth fname save_format compression discard_comments w src c
      Hlock Hpath Htmp Hmove Hname Hsrc.
    destruct (cf_save_records_moves dfilter_compile fuel env wth fname save_format
                compression discard_comments w src c Hpath Htmp Hmove Hname Hsrc)
      as (w' & Hsave & Hfn & Htmp' & Hl' & Hfs').
    exists w'. rewrite Hl' in *. by repeat split.
Qed.


End Claims.


(** ** The claims on the sample sessions *)

(** Discharges the side conditions of a claim on a sample session. *)
Ltac sample_side :=
  first
    [ reflexivity | discriminate | apply opened_session_dense
    | apply sample_store_ok | by left | by right
    | vm_compute;
      first [reflexivity | discriminate | split; first [reflexivity | discriminate]]
    | cbn; lia ].

Lemma frame_numbers_are_dense_witness :
  (let r := read_record (sample_rec 97) 0 None opened_session in
   fst r = true /\ count (snd r) = count opened_session + 1
   /\ exists fd, frames (snd r) = frames opened_session ++ [fd]
                 /\ num fd = count opened_session + 1)
  /\ (let cf := set_rfcode (Some (fun _ _ => false)) opened_session in
      let r := read_record (sample_rec 97) 0 None cf in
      fst r = false /\ count (snd r) = count cf /\ frames (snd r) = frames cf)
  /\ (exists st w',
        cf_read no_filter 2 1 (sample_wth 9) false
          (sample_world opened_session [[UiStop]]) = Some (st, w')
        /\ 0 <= count (w_cf w')
        /\ map num (frames (w_cf w')) = seqZ 1 (count (w_cf w')))
  /\ (exists w',
        cf_read no_filter 0 10 (sample_wth 9) false
          (sample_world opened_session []) = Some (CF_READ_OK, w')
        /\ count (w_cf w') = 3
        /\ map num (frames (w_cf w')) = seqZ 1 3).
Proof.
  destruct (frame_numbers_are_dense no_filter) as (Hkept & Hdropped & Hany & Hall).
  split; [|split; [|split]].
  - apply (Hkept (sample_rec 97) 0 None opened_session);
      [vm_compute; split; [discriminate|reflexivity]|reflexivity].
  - apply (Hdropped (sample_rec 97) 0 None
             (set_rfcode (Some (fun _ _ => false)) opened_session)).
    reflexivity.
  - apply (Hany 2%nat 1 (sample_wth 9) false (sample_world opened_session [[UiStop]]));
      [cbn; lia|apply opened_session_dense|vm_compute; discriminate].
  - apply (Hall 0%nat 10 (sample_wth 9) false (sample_world opened_session []));
      sample_side.
Defined.

Lemma batch_ingestion_displays_every_frame_witness :
  exists w',
    cf_read no_filter 0 10 (sample_wth 9) false (sample_world opened_session [])
    = Some (CF_READ_OK, w')
    /\ count (w_cf w') = 3
    /\ Z.of_nat (length (frames (w_cf w'))) = 3
    /\ Forall (fun fd => passed_dfilter fd = true) (frames (w_cf w'))
    /\ displayed_count (w_cf w') = 3
    /\ (1 <= 3 -> first_displayed (w_cf w') = 1)
    /\ last_displayed (w_cf w') = 3.
Proof.
  apply (batch_ingestion_displays_every_frame no_filter 0 10 (sample_wth 9) false
           (sample_world opened_session []));
    sample_side.
Defined.

Lemma record_cap_needs_file_size_witness :
  (exists w',
     cf_read no_filter 0 1 (sample_wth (-1)) false (sample_world opened_session [])
     = Some (CF_READ_OK, w')
     /\ count (w_cf w') = 0 + 3
     /\ forall m, AlertTooManyRecords m ∈ w_log w' ->
                  AlertTooManyRecords m ∈ w_log (sample_world opened_session []))
  /\ (exists w',
     cf_read no_filter 0 2 (sample_wth 9) false (sample_world opened_session [])
     = Some (CF_READ_ERROR, w')
     /\ count (w_cf w') = 2
     /\ last (w_log w') = Some (AlertTooManyRecords 2)).
Proof.
  destruct (record_cap_needs_file_size no_filter) as (Hunknown & Hknown).
  split.
  - apply (Hunknown 0%nat 1 (sample_wth (-1)) false (sample_world opened_session []));
      sample_side.
  - apply (Hknown 0%nat 2 (sample_wth 9) false (sample_world opened_session []));
      sample_side.
Defined.

Lemma filter_then_redissect_requests :
  Forall (fun ev => is_request ev = true) filter_then_redissect
  /\ UiRedissect ∈ filter_then_redissect.
Proof.
  split; [by repeat constructor|].
  unfold filter_then_redissect. rewrite !elem_of_cons. auto.
Qed.

Lemma queued_rescan_escalates_witness :
  (let w := sample_world (loaded_session None false true false) [] in
   exists w',
     handle_events no_filter (fun _ _ => None) filter_then_redissect w = Some w'
     /\ (rescan_rank (redissection_queued (w_cf w))
         <= rescan_rank (redissection_queued (w_cf w')))%nat
     /\ scans_of (w_log w') = scans_of (w_log w)
     /\ (UiRedissect ∈ filter_then_redissect ->
         Forall (fun ev => is_request ev = true) filter_then_redissect ->
         redissection_queued (w_cf w') = RESCAN_REDISSECT))
  /\ (let w := sample_world opened_session [filter_then_redissect] in
      exists st w',
        cf_read no_filter 1 10 (sample_wth 9) false w = Some (st, w')
        /\ scans_of (w_log w') = scans_of (w_log w) ++ [true]
        /\ redissection_queued (w_cf w') = RESCAN_NONE)
  /\ (let w := sample_world (loaded_session None false false false)
                 [filter_then_redissect] in
      exists w',
        rescan_packets no_filter 2 (sample_wth 9) false w = Some w'
        /\ scans_of (w_log w') = scans_of (w_log w) ++ [false; true]
        /\ redissection_queued (w_cf w') = RESCAN_NONE).
Proof.
  destruct (queued_rescan_escalates no_filter) as (Hlocked & Hread & Hscan).
  destruct filter_then_redissect_requests as [Hreq Hin].
  split; [|split]; cbv zeta.
  - apply Hlocked. reflexivity.
  - apply Hread;
      first [ by repeat constructor | by (cbn; rewrite app_nil_r) | sample_side ].
  - apply (Hscan 0%nat (sample_wth 9) false _ filter_then_redissect);
      first [ exact Hreq | exact Hin | sample_side ].
Defined.

Lemma rescan_repairs_selection_witness :
  let w := sample_world
             (set_dfilter (Some "pick") (loaded_session (Some 2) false false false))
             [] in
  exists w',
    rescan_packets not_frame_2 1 (sample_wth 9) false w = Some w'
    /\ (passes (frames (w_cf w')) 2 = false ->
        (forall p, 1 <= p < 2 -> passes (frames (w_cf w')) p = true ->
           (forall q, p < q -> q < 2 -> passes (frames (w_cf w')) q = false) ->
           w_log w' = w_log w ++ [RescanStarted false; RescanFinished; SelectRow p])
        /\ ((forall p, 1 <= p -> p < 2 -> passes (frames (w_cf w')) p = false) ->
            forall q, 2 < q -> passes (frames (w_cf w')) q = true ->
              (forall r, 2 < r -> r < q -> passes (frames (w_cf w')) r = false) ->
              w_log w' = w_log w ++ [RescanStarted false; RescanFinished; SelectRow q])
        /\ ((forall p, p <> 2 -> passes (frames (w_cf w')) p = false) ->
            w_log w' = w_log w ++ [RescanStarted false; RescanFinished]
            /\ current_frame (w_cf w') = None)).
Proof.
  cbv zeta.
  apply (rescan_repairs_selection not_frame_2 0 (sample_wth 9) false
           (sample_world
              (set_dfilter (Some "pick") (loaded_session (Some 2) false false false))
              []) 2);
    sample_side.
Defined.



Lemma busy_guard_guards_reading_not_saving_witness :
  let locked := sample_world (loaded_session None false true true) [] in
  let live := sample_world (loaded_session None true true false) [] in
  let env := sample_env (fun _ => false) in
  cf_read no_filter 0 10 (sample_wth 9) false locked = Some (CF_READ_ERROR, locked)
  /\ process_specified_records no_filter (fun _ _ => None) (sample_wth 9) None
       (save_record env) true "out.pcap" locked
     = Some (PSP_FAILED, "out.pcap", locked)
  /\ (exists w',
        cf_export_specified_packets no_filter 0 env (sample_wth 9) "out.pcap"
          (fun _ => range_process_this) 1 0 locked = Some (CF_WRITE_ERROR, w')
        /\ w_cf w' = w_cf locked)
  /\ (exists w',
        cf_save_records no_filter 0 env (sample_wth 9) "out.pcap" 1 0 false false
          locked = Some (CF_WRITE_ERROR, w')
        /\ w_cf w' = w_cf locked)
  /\ (exists w',
        cf_save_records no_filter 0 env (sample_wth 9) "out.pcap" 1 0 false false
          live = Some (CF_WRITE_OK, w')
        /\ filename (w_cf w') = Some "out.pcap"
        /\ is_tempfile (w_cf w') = false
        /\ read_lock (w_cf w') = true
        /\ w_fs w' !! "out.pcap"
           = Some [sample_rec 97; sample_rec 100; sample_rec 103]).
Proof.
  destruct (busy_guard_guards_reading_not_saving no_filter)
    as (Hread & Hiter & Hexport & Hrewrite & Hmove).
  cbv zeta. split; [|split; [|split; [|split]]].
  - apply Hread. reflexivity.
  - apply Hiter. reflexivity.
  - apply Hexport. reflexivity.
  - apply Hrewrite; reflexivity.
  - apply (Hmove 0%nat (sample_env (fun _ => false)) (sample_wth 9) "out.pcap" 1 0
             false (sample_world (loaded_session None true true false) [])
             "capture.pcap"); sample_side.
Defined.

(** The reading of C5 that the code does not bear out: with the lock held,
    a save of a live capture to a new name comes back with success, and
    the session has changed. *)
Lemma save_under_lock_is_not_rejected :
  let w := sample_world (loaded_session None true true false) [] in
  let r := cf_save_records no_filter 0 (sample_env (fun _ => false))
             (sample_wth 9) "saved.pcap" 1 0 false false w in
  read_lock (w_cf w) = true
  /\ fst <$> r = Some CF_WRITE_OK
  /\ filename (w_cf w) = Some "capture.pcap"
  /\ (fun x => filename (w_cf (snd x))) <$> r = Some (Some "saved.pcap")
  /\ is_tempfile (w_cf w) = true
  /\ (fun x => is_tempfile (w_cf (snd x))) <$> r = Some false.
Proof. vm_compute. repeat split. Qed.

Lemma sample_frames_unmarked (cf : capture_file) (fd : frame_data) :
  fd ∈ [sample_frame 1; sample_frame 2; sample_frame 3] ->
  match_marked cf fd = (MR_NOTMATCHED, cf).
Proof.
  rewrite !elem_of_cons, elem_of_nil. by intros [->|[->|[->|[]]]].
Qed.

Lemma find_packet_ends_unless_nothing_selected_witness :
  (exists cf' evaluated,
     find_packet 4 true (fun _ => false) (fun _ => true) match_marked SD_BACKWARD
       (loaded_session (Some 2) false false false) = Some (false, cf', evaluated)
     /\ NoDup evaluated
     /\ forall e, e ∈ evaluated ->
          passes (frames (loaded_session (Some 2) false false false)) e = true)
  /\ (exists cf' evaluated,
     find_packet 5 false (fun _ => false) (fun _ => true) match_marked SD_FORWARD
       (loaded_session None false false false) = Some (false, cf', evaluated)
     /\ NoDup evaluated
     /\ forall e, e ∈ evaluated ->
          passes (frames (loaded_session None false false false)) e = true)
  /\ find_packet 1000 true (fun _ => false) (fun _ => true) match_marked SD_FORWARD
       (loaded_session None false false false) = None.
Proof.
  destruct find_packet_ends_unless_nothing_selected as (Hsel & Hclamp & Hwrap).
  split; [|split].
  - apply (Hsel 4%nat true (fun _ => true) match_marked SD_BACKWARD
             (loaded_session (Some 2) false false false) 2);
      first [ exact (sample_frames_unmarked)
            | apply loaded_session_dense | sample_side ].
  - apply Hclamp;
      first [ exact (sample_frames_unmarked) | sample_side ].
  - apply Hwrap;
      first [ exact (sample_frames_unmarked) | sample_side ].
Defined.

Lemma byte_matchers_find_the_pattern_witness :
  let cf := loaded_session None false false false in
  let wth := sample_wth 9 in
  let fdata := sample_frame 1 in
  let rec := sample_rec 97 in
  let pat := [66; 67] in
  let folded := scanned_text (case_type cf) (rec_data rec) (cap_len fdata) in
  let raw := take (Z.to_nat (cap_len fdata)) (rec_data rec) in
  scan_outcome pat folded cf (match_narrow wth cf fdata pat)
  /\ (map (fold_case (case_type cf)) pat = pat ->
      scan_outcome (map (fold_case (case_type cf)) pat) folded cf
        (match_narrow wth cf fdata pat))
  /\ scan_outcome pat raw cf (match_binary wth cf fdata pat)
  /\ (forall i c, 0 <= c <= i -> i < cap_len fdata ->
      fold_case (case_type cf) (byte_at (rec_data rec) i) <> byte_at pat c ->
      narrow_step (case_type cf) (rec_data rec) pat (Z.of_nat (length pat)) i c
        = ScanNext (i - c + 1) 0
      /\ (byte_at (rec_data rec) i <> byte_at pat c ->
          binary_step (rec_data rec) pat (Z.of_nat (length pat)) i c
          = ScanNext (i - c + 1) 0)).
Proof.
  cbv zeta.
  apply (byte_matchers_find_the_pattern (sample_wth 9)
           (loaded_session None false false false) (sample_frame 1)
           (sample_rec 97) [66; 67]); sample_side.
Defined.

(** The reading of C7 that the code does not bear out: in
    case-insensitive mode the pattern "bc" occurs in the payload "abc",
    folded or not, and the narrow matcher does not find it, because it
    folds the payload only. *)
Lemma narrow_matcher_leaves_pattern_unfolded :
  let cf := loaded_session None false false false in
  let payload := rec_data (sample_rec 97) in
  case_type cf = true
  /\ cf_read_record (sample_wth 9) (sample_frame 1) = Some (sample_rec 97)
  /\ substring_of [98; 99] payload
  /\ substring_of (map (fold_case true) [98; 99]) (scanned_text true payload 3)
  /\ match_narrow (sample_wth 9) cf (sample_frame 1) [98; 99]
     = Some (MR_NOTMATCHED, cf).
Proof.
  cbv zeta. split; [reflexivity|]. split; [reflexivity|]. split.
  { by exists [97], []. }
  split.
  { by exists [65], []. }
  vm_compute. reflexivity.
Qed.


(* ===================================================================== *)
(** * Further properties of the code *)
(* ===================================================================== *)

(** ** What a save or an export writes *)


Section WhatIsWritten.

Context (dfilter_compile : string -> option (option dfilter_t)).

(** X1.  An export that reports success has left under the target name
    exactly the records to save of the frames that the range picks, in
    the order of the frames, each with the edited block of its frame if
    it has one; the frames, the count and the file name of the session
    are as before, and so is every file other than the target and its
    sibling with the tilde. *)
Theorem export_writes_the_picked_frames fuel env wth fname range
    save_format compression w w' :
  dense (w_cf w) -> count (w_cf w) < G_MAXUINT32 ->
  cf_export_specified_packets dfilter_compile fuel env wth fname range
    save_format compression w = Some (CF_WRITE_OK, w') ->
  (exists recs,
     w_fs w' !! fname = Some recs
     /\ records_of (w_cf w) wth (picked_by (Some range) (frames (w_cf w))) recs)
  /\ frames (w_cf w') = frames (w_cf w)
  /\ count (w_cf w') = count (w_cf w)
  /\ filename (w_cf w') = filename (w_cf w)
  /\ (forall p, p <> fname -> p <> fname +:+ "~" -> w_fs w' !! p = w_fs w !! p).
Proof. apply cf_export_specified_packets_contents. Qed.

(** X2.  A save that goes through the format writer and reports success
    has left under the target name one record for every frame of the
    session, in order, each with the edited block of its frame if it has
    one.  The session may save over its own file; only the temporary file
    of a live capture must not be the target, for the code removes it
    after the save. *)
Theorem save_writes_every_frame fuel env wth fname save_format compression
    discard_comments dont_reopen w w' :
  dense (w_cf w) -> count (w_cf w) < G_MAXUINT32 ->
  save_by_copy_or_move env (w_cf w) save_format compression discard_comments
    = false ->
  (is_tempfile (w_cf w) = true -> filename (w_cf w) <> Some fname) ->
  (forall b w1, w_fs (reread_saved env fname b w1) = w_fs w1) ->
  cf_save_records dfilter_compile fuel env wth fname save_format compression
    discard_comments dont_reopen w = Some (CF_WRITE_OK, w') ->
  exists recs,
    w_fs w' !! fname = Some recs
    /\ records_of (w_cf w) wth (frames (w_cf w)) recs.
Proof. apply cf_save_records_contents. Qed.

End WhatIsWritten.

Lemma export_writes_the_picked_frames_witness :
  let w := sample_world (loaded_session None false false true) [] in
  let range := fun fd =>
    if num fd =? 2 then range_process_next else range_process_this in
  exists w',
    cf_export_specified_packets no_filter 0 (sample_env (fun _ => false))
      (sample_wth 9) "out.pcap" range 1 0 w = Some (CF_WRITE_OK, w')
    /\ w_fs w' !! "out.pcap" = Some [sample_rec 97; sample_rec 103]
    /\ (exists recs,
          w_fs w' !! "out.pcap" = Some recs
          /\ records_of (w_cf w) (sample_wth 9)
               (picked_by (Some range) (frames (w_cf w))) recs)
    /\ frames (w_cf w') = frames (w_cf w)
    /\ count (w_cf w') = count (w_cf w)
    /\ filename (w_cf w') = filename (w_cf w)
    /\ (forall p, p <> "out.pcap" -> p <> "out.pcap" +:+ "~" ->
          w_fs w' !! p = w_fs w !! p).
Proof.
  cbv zeta. eexists. split; [vm_compute; reflexivity|].
  split; [vm_compute; reflexivity|].
  apply (export_writes_the_picked_frames no_filter 0 (sample_env (fun _ => false))
           (sample_wth 9) "out.pcap"
           (fun fd => if num fd =? 2 then range_process_next else range_process_this)
           1 0 (sample_world (loaded_session None false false true) []));
    [apply loaded_session_dense|reflexivity|vm_compute; reflexivity].
Defined.

Lemma save_writes_every_frame_witness :
  let w := sample_world (loaded_session None false false true) [] in
  exists w',
    cf_save_records no_filter 0 (sample_env (fun _ => false)) (sample_wth 9)
      "capture.pcap" 1 0 false false w = Some (CF_WRITE_OK, w')
    /\ exists recs,
         w_fs w' !! "capture.pcap" = Some recs
         /\ records_of (w_cf w) (sample_wth 9) (frames (w_cf w)) recs.
Proof.
  cbv zeta. eexists. split; [vm_compute; reflexivity|].
  apply (save_writes_every_frame no_filter 0 (sample_env (fun _ => false))
           (sample_wth 9) "capture.pcap" 1 0 false false
           (sample_world (loaded_session None false false true) []));
    [apply loaded_session_dense|reflexivity|reflexivity|discriminate|reflexivity
    |vm_compute; reflexivity].
Defined.

(** ** Edited blocks *)

Lemma assoc_block_replace_eq n b l : assoc_block n (assoc_replace n b l) = Some b.
Proof.
  induction l as [|[k b'] l IH]; cbn.
  - by rewrite Z.eqb_refl.
  - destruct (k =? n) eqn:Hk; cbn; [by rewrite Z.eqb_refl|]. by rewrite Hk.
Qed.

Lemma assoc_block_replace_ne n m b l :
  m <> n -> assoc_block m (assoc_replace n b l) = assoc_block m l.
Proof.
  intros Hne. induction l as [|[k b'] l IH]; cbn.
  - destruct (Z.eqb_spec n m); [lia|done].
  - destruct (Z.eqb_spec k n) as [->|Hk]; cbn.
    + by destruct (Z.eqb_spec n m); [lia|].
    + by destruct (k =? m).
Qed.

Lemma assoc_block_remove_eq n l : assoc_block n (assoc_remove n l) = None.
Proof.
  induction l as [|[k b'] l IH]; cbn; [done|].
  destruct (k =? n) eqn:Hk; cbn; [done|]. by rewrite Hk.
Qed.

Lemma assoc_block_remove_ne n m l :
  m <> n -> assoc_block m (assoc_remove n l) = assoc_block m l.
Proof.
  intros Hne. induction l as [|[k b'] l IH]; cbn; [done|].
  destruct (Z.eqb_spec k n) as [->|Hk]; cbn.
  - by destruct (Z.eqb_spec n m); [lia|].
  - by destruct (k =? m).
Qed.

(** The edited block that is kept for frame number [m] once the block of
    the frame in slot [n] has been set. *)
Lemma set_modified_block_blocks cf n fd new_block m :
  frame_data_sequence_find (frames cf) n = Some fd ->
  assoc_block m (frames_modified_blocks
                   (cap_file_provider_set_modified_block n new_block cf))
  = if m =? num fd then new_block else assoc_block m (frames_modified_blocks cf).
Proof.
  intros Hfd. unfold cap_file_provider_set_modified_block. rewrite Hfd. cbn.
  destruct (Z.eqb_spec m (num fd)) as [->|Hne]; destruct new_block as [b|].
  - apply assoc_block_replace_eq.
  - apply assoc_block_remove_eq.
  - by apply assoc_block_replace_ne.
  - by apply assoc_block_remove_ne.
Qed.

Lemma set_modified_block_frames cf n fd new_block :
  frame_data_sequence_find (frames cf) n = Some fd ->
  frames (cap_file_provider_set_modified_block n new_block cf)
  = frame_store_set (frames cf) n (set_has_modified_block true fd).
Proof.
  intros Hfd. unfold cap_file_provider_set_modified_block. by rewrite Hfd.
Qed.

Lemma set_modified_block_dense cf n fd new_block :
  dense cf -> frame_data_sequence_find (frames cf) n = Some fd ->
  dense (cap_file_provider_set_modified_block n new_block cf).
Proof.
  intros [H0 Hd] Hfd. unfold dense.
  rewrite (set_modified_block_frames cf n fd) by done.
  rewrite (store_set_map_num _ _ fd) by done.
  unfold cap_file_provider_set_modified_block. rewrite Hfd. by cbn.
Qed.

(** What [cf_set_modified_block] leaves in the session when the block is
    not the one at hand. *)
Lemma cf_set_modified_block_spec bits wth cf n fd b :
  frame_data_sequence_find (frames cf) n = Some fd ->
  cf_set_modified_block bits wth n (Some b) false cf
  = (true,
     set_unsaved_changes true
       (cap_file_provider_set_modified_block n (Some b)
          (set_packet_comment_count
             (wrap_bits bits
                (wrap_bits bits
                   (packet_comment_count cf
                    - block_comments (cf_get_packet_block wth cf fd))
                 + block_comments (Some b))) cf))).
Proof.
  intros Hfd. unfold cf_set_modified_block. rewrite Hfd.
  by destruct (cf_get_packet_block wth cf fd).
Qed.

(** What setting the block of a frame does to the session. *)
Lemma cf_set_modified_block_read_back bits wth cf n fd b :
  dense cf ->
  frame_data_sequence_find (frames cf) n = Some fd ->
  let r := cf_set_modified_block bits wth n (Some b) false cf in
  fst r = true
  /\ unsaved_changes (snd r) = true
  /\ packet_comment_count (snd r)
     = wrap_bits bits
         (wrap_bits bits
            (packet_comment_count cf
             - block_comments (cf_get_packet_block wth cf fd))
          + block_comments (Some b))
  /\ dense (snd r)
  /\ (exists fd',
        frame_data_sequence_find (frames (snd r)) n = Some fd'
        /\ cf_get_packet_block wth (snd r) fd' = Some b)
  /\ (forall m fm, m <> n ->
        frame_data_sequence_find (frames cf) m = Some fm ->
        frame_data_sequence_find (frames (snd r)) m = Some fm
        /\ cf_get_packet_block wth (snd r) fm = cf_get_packet_block wth cf fm).
Proof.
  intros Hd Hfd. cbv zeta. rewrite (cf_set_modified_block_spec bits wth cf n fd) by done.
  cbn [fst snd].
  set (cf0 := set_packet_comment_count _ cf).
  assert (Hfd0 : frame_data_sequence_find (frames cf0) n = Some fd) by done.
  assert (Hd0 : dense cf0) by done.
  pose proof (dense_find _ _ _ Hd Hfd) as Hnum.
  split; [done|]. split; [done|]. split.
  { unfold cap_file_provider_set_modified_block. rewrite Hfd0. done. }
  split.
  { pose proof (set_modified_block_dense cf0 n fd (Some b) Hd0 Hfd0) as [? ?].
    by split. }
  split.
  - exists (set_has_modified_block true fd). split.
    + change (frames (set_unsaved_changes true ?c)) with (frames c).
      rewrite (set_modified_block_frames cf0 n fd) by done.
      by apply (store_set_find_same _ _ fd).
    + unfold cf_get_packet_block, cap_file_provider_get_modified_block. cbn.
      change (assoc_block (num fd)
                (frames_modified_blocks
                   (cap_file_provider_set_modified_block n (Some b) cf0)) = Some b).
      rewrite (set_modified_block_blocks cf0 n fd) by done.
      by rewrite Z.eqb_refl.
  - intros m fm Hm Hfm.
    pose proof (find_Some_range _ _ _ Hfm) as Hrm.
    pose proof (find_Some_range _ _ _ Hfd) as Hrn.
    pose proof (dense_find _ _ _ Hd Hfm) as Hnm.
    split.
    + change (frames (set_unsaved_changes true ?c)) with (frames c).
      rewrite (set_modified_block_frames cf0 n fd) by done.
      rewrite store_set_find_other by lia. exact Hfm.
    + unfold cf_get_packet_block, cap_file_provider_get_modified_block.
      destruct (has_modified_block fm); [|done].
      change (assoc_block (num fm)
                (frames_modified_blocks
                   (cap_file_provider_set_modified_block n (Some b) cf0))
              = assoc_block (num fm) (frames_modified_blocks cf)).
      rewrite (set_modified_block_blocks cf0 n fd) by done.
      destruct (Z.eqb_spec (num fm) (num fd)); [lia|done].
Qed.

Lemma block_comments_nonneg b : 0 <= block_comments b.
Proof. destruct b; cbn; lia. Qed.

Lemma wrap_bits_small bits x : 0 <= x < 2 ^ bits -> wrap_bits bits x = x.
Proof. intros H. unfold wrap_bits. by apply Z.mod_small. Qed.

(** X3.  Giving a frame a new block: the call reports success, the
    session has unsaved changes, reading the block of the frame back
    gives the new block, and every other frame has the block it had.
    The count of comments moves by the difference of the two blocks, as
    long as it stays within the range of the counter: the comments of
    the old block had been counted, and the new count fits the width of
    the counter, whatever that width is. *)
Theorem edited_block_is_read_back bits wth cf n fd b :
  dense cf ->
  frame_data_sequence_find (frames cf) n = Some fd ->
  block_comments (cf_get_packet_block wth cf fd) <= packet_comment_count cf ->
  packet_comment_count cf - block_comments (cf_get_packet_block wth cf fd)
    + block_comments (Some b) < 2 ^ bits ->
  let r := cf_set_modified_block bits wth n (Some b) false cf in
  fst r = true
  /\ unsaved_changes (snd r) = true
  /\ packet_comment_count (snd r)
     = packet_comment_count cf - block_comments (cf_get_packet_block wth cf fd)
       + block_comments (Some b)
  /\ dense (snd r)
  /\ (exists fd',
        frame_data_sequence_find (frames (snd r)) n = Some fd'
        /\ cf_get_packet_block wth (snd r) fd' = Some b)
  /\ (forall m fm, m <> n ->
        frame_data_sequence_find (frames cf) m = Some fm ->
        frame_data_sequence_find (frames (snd r)) m = Some fm
        /\ cf_get_packet_block wth (snd r) fm = cf_get_packet_block wth cf fm).
Proof.
  intros Hd Hfd Hold Hnew.
  destruct (cf_set_modified_block_read_back bits wth cf n fd b Hd Hfd)
    as (Hret & Hun & Hcnt & Hd' & Hget & Hother).
  cbv zeta. split; [done|]. split; [done|]. split; [|done].
  rewrite Hcnt.
  pose proof (block_comments_nonneg (Some b)).
  rewrite (wrap_bits_small bits (packet_comment_count cf - _)) by lia.
  apply wrap_bits_small. lia.
Qed.

Lemma edited_block_is_read_back_witness :
  let cf := loaded_session None false false false in
  let r := cf_set_modified_block 32 (sample_wth 9) 2 (Some ["seen"; "twice"])
             false cf in
  fst r = true
  /\ unsaved_changes (snd r) = true
  /\ packet_comment_count (snd r) = 2
  /\ dense (snd r)
  /\ (exists fd',
        frame_data_sequence_find (frames (snd r)) 2 = Some fd'
        /\ cf_get_packet_block (sample_wth 9) (snd r) fd' = Some ["seen"; "twice"])
  /\ (forall m fm, m <> 2 ->
        frame_data_sequence_find (frames cf) m = Some fm ->
        frame_data_sequence_find (frames (snd r)) m = Some fm
        /\ cf_get_packet_block (sample_wth 9) (snd r) fm
           = cf_get_packet_block (sample_wth 9) cf fm).
Proof.
  cbv zeta.
  apply (edited_block_is_read_back 32 (sample_wth 9)
           (loaded_session None false false false) 2 (sample_frame 2)
           ["seen"; "twice"]);
    [apply loaded_session_dense|reflexivity|vm_compute; discriminate|reflexivity].
Defined.

Section EditThenSave.

Context (dfilter_compile : string -> option (option dfilter_t)).

(** The record to save of a frame after the block of the frame in slot
    [n] has been set. *)
Lemma record_to_save_edited bits wth cf n fd b :
  dense cf -> frame_data_sequence_find (frames cf) n = Some fd ->
  let cf1 := snd (cf_set_modified_block bits wth n (Some b) false cf) in
  record_to_save cf1 wth (set_has_modified_block true fd)
  = set_rec_block (Some b) <$> cf_read_record wth fd.
Proof.
  intros Hd Hfd. cbv zeta.
  destruct (cf_set_modified_block_read_back bits wth cf n fd b Hd Hfd)
    as (_ & _ & _ & Hd1 & (fd' & Hfd' & Hget) & _).
  assert (fd' = set_has_modified_block true fd) as ->.
  { rewrite (cf_set_modified_block_spec bits wth cf n fd) in Hfd' by done.
    cbn [snd] in Hfd'.
    change (frames (set_unsaved_changes true ?c)) with (frames c) in Hfd'.
    rewrite (set_modified_block_frames _ n fd) in Hfd' by done.
    rewrite (store_set_find_same _ _ fd) in Hfd' by done. congruence. }
  unfold record_to_save. unfold cf_get_packet_block in Hget. cbn in Hget.
  change (cf_read_record wth (set_has_modified_block true fd))
    with (cf_read_record wth fd).
  destruct (cf_read_record wth fd) as [rec|]; [|done].
  cbn. by rewrite Hget.
Qed.

Lemma record_to_save_not_edited bits wth cf n fd b m fm :
  dense cf -> frame_data_sequence_find (frames cf) n = Some fd ->
  m <> n -> frame_data_sequence_find (frames cf) m = Some fm ->
  let cf1 := snd (cf_set_modified_block bits wth n (Some b) false cf) in
  record_to_save cf1 wth fm = record_to_save cf wth fm.
Proof.
  intros Hd Hfd Hm Hfm. cbv zeta.
  destruct (cf_set_modified_block_read_back bits wth cf n fd b Hd Hfd)
    as (_ & _ & _ & _ & _ & Hother).
  destruct (Hother m fm Hm Hfm) as [_ Hget].
  unfold record_to_save. unfold cf_get_packet_block in Hget.
  destruct (has_modified_block fm); [|done].
  by rewrite Hget.
Qed.

(** What a save leaves behind when it follows the setting of a block. *)
Lemma cf_save_records_edited fuel env wth fname save_format compression
    discard_comments dont_reopen bits n fd b w w' :
  dense (w_cf w) -> count (w_cf w) < G_MAXUINT32 ->
  frame_data_sequence_find (frames (w_cf w)) n = Some fd ->
  (is_tempfile (w_cf w) = true -> filename (w_cf w) <> Some fname) ->
  (forall r w1, w_fs (reread_saved env fname r w1) = w_fs w1) ->
  cf_save_records dfilter_compile fuel env wth fname save_format compression
    discard_comments dont_reopen
    (on_cf (fun cf => snd (cf_set_modified_block bits wth n (Some b) false cf)) w)
    = Some (CF_WRITE_OK, w') ->
  exists recs,
    w_fs w' !! fname = Some recs
    /\ length recs = length (frames (w_cf w))
    /\ (exists rec,
          cf_read_record wth fd = Some rec
          /\ recs !! Z.to_nat (n - 1) = Some (set_rec_block (Some b) rec))
    /\ (forall m fm, m <> n ->
          frame_data_sequence_find (frames (w_cf w)) m = Some fm ->
          recs !! Z.to_nat (m - 1) = record_to_save (w_cf w) wth fm).
Proof.
  intros Hd Hmax Hfd Htmp Hreread Hsave.
  set (cf1 := snd (cf_set_modified_block bits wth n (Some b) false (w_cf w))).
  destruct (cf_set_modified_block_read_back bits wth (w_cf w) n fd b Hd Hfd)
    as (_ & Hunsaved & _ & Hd1 & (fd' & Hfd' & _) & Hother).
  fold cf1 in Hunsaved, Hd1, Hfd', Hother.
  assert (Hsame : count cf1 = count (w_cf w) /\ filename cf1 = filename (w_cf w)
                  /\ is_tempfile cf1 = is_tempfile (w_cf w)).
  { unfold cf1. rewrite (cf_set_modified_block_spec bits wth (w_cf w) n fd) by done.
    cbn [snd]. unfold cap_file_provider_set_modified_block.
    change (frames (set_packet_comment_count ?v ?c)) with (frames c).
    rewrite Hfd. done. }
  destruct Hsame as (Hcnt & Hfn & Htf).
  assert (Hfr1 : frames cf1
                 = frame_store_set (frames (w_cf w)) n (set_has_modified_block true fd)).
  { unfold cf1. rewrite (cf_set_modified_block_spec bits wth (w_cf w) n fd) by done.
    cbn [snd]. change (frames (set_unsaved_changes true ?c)) with (frames c).
    by rewrite (set_modified_block_frames _ n fd). }
  destruct (cf_save_records_contents dfilter_compile fuel env wth fname save_format
              compression discard_comments dont_reopen
              (on_cf (fun cf => snd (cf_set_modified_block bits wth n (Some b) false cf)) w)
              w') as (recs & Hrecs & Hall).
  - exact Hd1.
  - rewrite on_cf_cf. fold cf1. lia.
  - rewrite on_cf_cf. fold cf1. unfold save_by_copy_or_move. rewrite Hunsaved.
    cbn. by rewrite andb_false_r.
  - rewrite on_cf_cf. fold cf1. rewrite Htf, Hfn. exact Htmp.
  - exact Hreread.
  - exact Hsave.
  - rewrite on_cf_cf in Hall. fold cf1 in Hall.
    pose proof (Forall2_length _ _ _ Hall) as Hlen.
    exists recs. split; [done|]. split.
    { rewrite <- Hlen, Hfr1. apply store_set_length. }
    pose proof (find_Some_range _ _ _ Hfd) as Hrn.
    split.
    + rewrite Hfr1 in Hall.
      assert (Hl : frame_store_set (frames (w_cf w)) n (set_has_modified_block true fd)
                   !! Z.to_nat (n - 1) = Some (set_has_modified_block true fd)).
      { rewrite <- find_lookup by lia. by apply (store_set_find_same _ _ fd). }
      destruct (Forall2_lookup_l _ _ _ _ _ Hall Hl) as (rec' & Hrec' & Hsaved).
      fold cf1 in Hsaved. unfold cf1 in Hsaved.
      rewrite (record_to_save_edited bits wth (w_cf w) n fd b Hd Hfd) in Hsaved.
      destruct (cf_read_record wth fd) as [rec|]; [|done].
      exists rec. split; [done|]. cbn in Hsaved. congruence.
    + intros m fm Hm Hfm.
      pose proof (find_Some_range _ _ _ Hfm) as Hrm.
      destruct (Hother m fm Hm Hfm) as [Hfm1 _].
      rewrite find_lookup in Hfm1 by lia.
      destruct (Forall2_lookup_l _ _ _ _ _ Hall Hfm1) as (rec' & Hrec' & Hsaved).
      unfold cf1 in Hsaved.
      rewrite (record_to_save_not_edited bits wth (w_cf w) n fd b m fm) in Hsaved by done.
      congruence.
Qed.

(** X4.  An edit reaches the file: when the block of a frame is set and
    the session is then saved with success, whatever the format and
    compression asked for, the file has one record for every frame, the
    record of the edited frame carries the new block, and the record of
    every other frame is the one that would have been saved without the
    edit. *)
Theorem edited_block_reaches_the_saved_file fuel env wth fname save_format
    compression discard_comments dont_reopen bits n fd b w w' :
  dense (w_cf w) -> count (w_cf w) < G_MAXUINT32 ->
  frame_data_sequence_find (frames (w_cf w)) n = Some fd ->
  (is_tempfile (w_cf w) = true -> filename (w_cf w) <> Some fname) ->
  (forall r w1, w_fs (reread_saved env fname r w1) = w_fs w1) ->
  cf_save_records dfilter_compile fuel env wth fname save_format compression
    discard_comments dont_reopen
    (on_cf (fun cf => snd (cf_set_modified_block bits wth n (Some b) false cf)) w)
    = Some (CF_WRITE_OK, w') ->
  exists recs,
    w_fs w' !! fname = Some recs
    /\ length recs = length (frames (w_cf w))
    /\ (exists rec,
          cf_read_record wth fd = Some rec
          /\ recs !! Z.to_nat (n - 1) = Some (set_rec_block (Some b) rec))
    /\ (forall m fm, m <> n ->
          frame_data_sequence_find (frames (w_cf w)) m = Some fm ->
          recs !! Z.to_nat (m - 1) = record_to_save (w_cf w) wth fm).
Proof. apply cf_save_records_edited. Qed.

End EditThenSave.

Lemma edited_block_reaches_the_saved_file_witness :
  let w := sample_world (loaded_session None false false false) [] in
  exists w',
    cf_save_records no_filter 0 (sample_env (fun _ => false)) (sample_wth 9)
      "capture.pcap" 1 0 false false
      (on_cf (fun cf =>
                snd (cf_set_modified_block 32 (sample_wth 9) 2 (Some ["seen"]) false cf)) w)
    = Some (CF_WRITE_OK, w')
    /\ exists recs,
         w_fs w' !! "capture.pcap" = Some recs
         /\ length recs = length (frames (w_cf w))
         /\ (exists rec,
               cf_read_record (sample_wth 9) (sample_frame 2) = Some rec
               /\ recs !! Z.to_nat (2 - 1) = Some (set_rec_block (Some ["seen"]) rec))
         /\ (forall m fm, m <> 2 ->
               frame_data_sequence_find (frames (w_cf w)) m = Some fm ->
               recs !! Z.to_nat (m - 1) = record_to_save (w_cf w) (sample_wth 9) fm).
Proof.
  cbv zeta. eexists. split; [vm_compute; reflexivity|].
  apply (edited_block_reaches_the_saved_file no_filter 0 (sample_env (fun _ => false))
           (sample_wth 9) "capture.pcap" 1 0 false false 32 2 (sample_frame 2)
           ["seen"]
           (sample_world (loaded_session None false false false) []));
    [apply loaded_session_dense|reflexivity|reflexivity|discriminate|reflexivity
    |vm_compute; reflexivity].
Defined.

(** ** The order of a search *)

Section SearchOrder.

Context (n : Z).
Hypothesis Hn : n <= G_MAXUINT32.

Lemma turns_up wrap p : forall (len : nat) k tl,
  0 <= k -> k + Z.of_nat len <= n ->
  turns_from SD_FORWARD wrap n p (k + Z.of_nat len) tl ->
  turns_from SD_FORWARD wrap n p k (seqZ (k + 1) (Z.of_nat len) ++ tl).
Proof.
  induction len as [|len IH]; intros k tl Hk Hlen Htl.
  - cbn. by rewrite Z.add_0_r in Htl.
  - rewrite seqZ_cons by lia. cbn [app turns_from]. split.
    + unfold next_frame. destruct (Z.eqb_spec k n); [lia|].
      rewrite wrap32_small; unfold G_MAXUINT32 in *; lia.
    + replace (Z.pred (Z.of_nat (S len))) with (Z.of_nat len) by lia.
      replace (Z.succ (k + 1)) with (k + 1 + 1) by lia.
      apply IH; [lia|lia|].
      by replace (k + 1 + Z.of_nat len) with (k + Z.of_nat (S len)) by lia.
Qed.

Lemma turns_down wrap p : forall (len : nat) k tl,
  1 <= k - Z.of_nat len -> k <= n ->
  turns_from SD_BACKWARD wrap n p (k - Z.of_nat len) tl ->
  turns_from SD_BACKWARD wrap n p k
    (reverse (seqZ (k - Z.of_nat len) (Z.of_nat len)) ++ tl).
Proof.
  induction len as [|len IH]; intros k tl Hk Hlen Htl.
  - cbn. by rewrite Z.sub_0_r in Htl.
  - rewrite seqZ_S, reverse_app. cbn [reverse app]. rewrite reverse_singleton.
    cbn [app turns_from].
    replace (k - Z.of_nat (S len) + Z.of_nat len) with (k - 1) by lia.
    split.
    + unfold next_frame. destruct (Z.leb_spec k 1); [lia|].
      rewrite wrap32_small; unfold G_MAXUINT32 in *; lia.
    + replace (k - Z.of_nat (S len)) with (k - 1 - Z.of_nat len) in * by lia.
      apply IH; [lia|lia|done].
Qed.

(** The turns of a round are those of [search_order]. *)
Lemma search_order_turns dir wrap start :
  match start with Some s => 1 <= s <= n | None => 0 <= n end ->
  turns_from dir wrap n (default 0 start) (default 0 start)
    (search_order dir wrap n start).
Proof.
  intros Hs. unfold search_order, search_body.
  set (p := default 0 start).
  set (tail := match start with Some s => [s] | None => [] end).
  assert (Hp : 0 <= p <= n) by (unfold p; destruct start; cbn; lia).
  assert (Htail : tail = if decide (p = 0) then [] else [p]).
  { unfold tail, p. destruct start as [s|]; cbn; [|done].
    destruct (decide (s = 0)); [lia|done]. }
  clearbody p tail. subst tail. clear Hs start.
  destruct dir.
  - rewrite <- app_assoc.
    replace (n - p) with (Z.of_nat (Z.to_nat (n - p))) by lia.
    apply turns_up; [lia|lia|].
    replace (p + Z.of_nat (Z.to_nat (n - p))) with n by lia.
    destruct (decide (p = 0)) as [->|Hp0].
    + rewrite app_nil_r. destruct wrap; [|done]. by rewrite seqZ_nil.
    + destruct wrap.
      * destruct (decide (p = 1)) as [->|Hp1].
        -- cbn. split; [|done]. unfold next_frame. by rewrite Z.eqb_refl.
        -- rewrite seqZ_cons by lia. cbn [app turns_from]. split.
           { unfold next_frame. by rewrite Z.eqb_refl. }
           replace (Z.succ 1) with (1 + 1) by lia.
           replace (Z.pred (p - 1)) with (Z.of_nat (Z.to_nat (p - 2))) by lia.
           apply turns_up; [lia|lia|].
           cbn. split; [|done]. unfold next_frame.
           destruct (Z.eqb_spec (1 + Z.of_nat (Z.to_nat (p - 2))) n); [lia|].
           rewrite wrap32_small; unfold G_MAXUINT32 in *; lia.
      * cbn. split; [|done]. unfold next_frame. by rewrite Z.eqb_refl.
  - rewrite <- app_assoc.
    destruct (decide (p = 0)) as [->|Hp0].
    + rewrite seqZ_nil by lia. rewrite app_nil_r. cbn [reverse app].
      destruct wrap; [|done].
      destruct (decide (n = 0)) as [->|Hn0]; [done|].
      replace (n - 0) with (Z.of_nat (S (Z.to_nat (n - 1)))) by lia.
      rewrite seqZ_S, reverse_app. cbn [reverse app]. rewrite reverse_singleton.
      cbn [app turns_from]. split.
      { unfold next_frame. cbn. lia. }
      replace (0 + 1 + Z.of_nat (Z.to_nat (n - 1))) with n by lia.
      pose proof (turns_down true 0 (Z.to_nat (n - 1)) n []) as H.
      rewrite app_nil_r in H.
      replace (n - Z.of_nat (Z.to_nat (n - 1))) with (0 + 1) in H by lia.
      apply H; [lia|lia|done].
    + pose proof (turns_down wrap p (Z.to_nat (p - 1)) p) as H.
      replace (p - Z.of_nat (Z.to_nat (p - 1))) with 1 in H by lia.
      replace (Z.of_nat (Z.to_nat (p - 1))) with (p - 1) in H by lia.
      apply H; [lia|lia|]. clear H.
      destruct wrap.
      * destruct (decide (p = n)) as [->|Hpn].
        -- rewrite seqZ_nil by lia. cbn. split; [|done].
           unfold next_frame. by cbn.
        -- replace (n - p) with (Z.of_nat (S (Z.to_nat (n - p - 1)))) by lia.
           rewrite seqZ_S, reverse_app. cbn [reverse app].
           rewrite reverse_singleton. cbn [app turns_from]. split.
           { unfold next_frame. cbn. lia. }
           replace (p + 1 + Z.of_nat (Z.to_nat (n - p - 1))) with n by lia.
           pose proof (turns_down true p (Z.to_nat (n - p - 1)) n [p]) as H.
           replace (n - Z.of_nat (Z.to_nat (n - p - 1))) with (p + 1) in H by lia.
           apply H; [lia|lia|].
           cbn. split; [|done]. unfold next_frame.
           destruct (Z.leb_spec (p + 1) 1); [lia|].
           rewrite wrap32_small; unfold G_MAXUINT32 in *; lia.
      * cbn. split; [|done]. unfold next_frame. by cbn.
Qed.

Lemma search_body_range dir wrap p e :
  0 <= p <= n -> e ∈ search_body dir wrap n p -> 1 <= e <= n /\ e <> p.
Proof.
  intros Hp. unfold search_body. destruct dir.
  - rewrite elem_of_app, elem_of_seqZ. intros [?|He]; [lia|].
    destruct wrap; [|by apply elem_of_nil in He].
    apply elem_of_seqZ in He. lia.
  - rewrite elem_of_app, elem_of_reverse, elem_of_seqZ. intros [?|He]; [lia|].
    destruct wrap; [|by apply elem_of_nil in He].
    apply elem_of_reverse, elem_of_seqZ in He. lia.
Qed.

End SearchOrder.

(** ** A search that finds a frame, and one that is cancelled *)

Lemma find_packet_loop_S fuel wrap cancel match_function dir start_fd p k
    turn cf evaluated :
  find_packet_loop (S fuel) wrap cancel match_function dir start_fd p k turn
    cf evaluated
  = if cancel turn then Some (start_fd, set_stop_flag true cf, evaluated)
    else
      let framenum := next_frame dir wrap (count cf) p k in
      let fdata := frame_ptr (frames cf) framenum in
      let back_at_start (cf : capture_file) (evaluated : list Z) :=
        if decide (fdata = start_fd) then Some (None, cf, evaluated)
        else find_packet_loop fuel wrap cancel match_function dir
               start_fd p framenum (S turn) cf evaluated in
      match frame_data_sequence_find (frames cf) framenum with
      | Some fd =>
          if passed_dfilter fd then
            let '(result, cf) := match_function cf fd in
            let evaluated := evaluated ++ [framenum] in
            match result with
            | MR_ERROR => Some (start_fd, cf, evaluated)
            | MR_MATCHED => Some (fdata, cf, evaluated)
            | MR_NOTMATCHED => back_at_start cf evaluated
            end
          else back_at_start cf evaluated
      | None => back_at_start cf evaluated
      end.
Proof. reflexivity. Qed.

Lemma displayed_among_cons fds x l :
  displayed_among fds (x :: l)
  = if passes fds x then x :: displayed_among fds l else displayed_among fds l.
Proof.
  unfold displayed_among. rewrite filter_cons.
  destruct (passes fds x); by destruct (decide _).
Qed.

Lemma displayed_among_app fds l1 l2 :
  displayed_among fds (l1 ++ l2) = displayed_among fds l1 ++ displayed_among fds l2.
Proof. apply filter_app. Qed.

(** The turns on frames that do not match and are not the start change
    nothing but the list of the frames that were evaluated. *)
Lemma find_packet_loop_skip wrap cancel match_function verdict dir fds n start :
  n = Z.of_nat (length fds) ->
  (forall cf fd, fd ∈ fds -> match_function cf fd = (verdict fd, cf)) ->
  forall pre fuel k turn cf ev,
  frames cf = fds -> count cf = n ->
  turns_from dir wrap n (default 0 start) k pre ->
  Forall (fun x => 1 <= x <= n /\ verdict_at verdict fds x = MR_NOTMATCHED
                   /\ Some x <> start) pre ->
  (forall j, (j < length pre)%nat -> cancel (turn + j)%nat = false) ->
  find_packet_loop (length pre + fuel) wrap cancel match_function dir start
    (default 0 start) k turn cf ev
  = find_packet_loop fuel wrap cancel match_function dir start
      (default 0 start) (default k (last pre)) (turn + length pre) cf
      (ev ++ displayed_among fds pre).
Proof.
  intros Hlen Hmatch.
  induction pre as [|x pre IH]; intros fuel k turn cf ev Hfr Hcnt Hturns Hpre Hcancel.
  - cbn. by rewrite Nat.add_0_r, app_nil_r.
  - destruct Hturns as [Hx Hturns].
    apply Forall_cons in Hpre as [(Hrange & Hhit & Hstart) Hpre].
    cbn [length Nat.add]. rewrite find_packet_loop_S.
    pose proof (Hcancel 0%nat ltac:(cbn; lia)) as Hc0. rewrite Nat.add_0_r in Hc0.
    rewrite Hc0, Hcnt, <- Hx, Hfr. cbv zeta.
    destruct (find_is_Some fds x ltac:(lia)) as [fd Hfd].
    unfold frame_ptr. rewrite Hfd.
    destruct (decide (Some x = start)) as [|_]; [done|].
    assert (Hlast : default k (last (x :: pre)) = default x (last pre)).
    { rewrite last_cons. by destruct (last pre). }
    rewrite Hlast, displayed_among_cons.
    unfold passes, ptr_passed_dfilter. rewrite Hfd.
    assert (Hnext : forall ev',
      find_packet_loop (length pre + fuel) wrap cancel match_function dir start
        (default 0 start) x (S turn) cf ev'
      = find_packet_loop fuel wrap cancel match_function dir start
          (default 0 start) (default x (last pre)) (turn + S (length pre)) cf
          (ev' ++ displayed_among fds pre)).
    { intros ev'. rewrite IH; [|done|done|done|done|].
      - by rewrite Nat.add_succ_r.
      - intros j Hj. specialize (Hcancel (S j) ltac:(cbn; lia)).
        by rewrite Nat.add_succ_r in Hcancel. }
    unfold verdict_at in Hhit. rewrite Hfd in Hhit.
    destruct (passed_dfilter fd).
    + rewrite (Hmatch _ _ (find_elem_of _ _ _ Hfd)).
      rewrite Hhit. rewrite Hnext, <- app_assoc. done.
    + apply Hnext.
Qed.

(** The turn on a frame that matches ends the loop with that frame, the
    turn on a frame for which the criterion fails ends it with the
    start. *)
Lemma find_packet_loop_hit wrap cancel match_function verdict dir fds n start
    fuel k turn cf ev t :
  n = Z.of_nat (length fds) ->
  (forall cf fd, fd ∈ fds -> match_function cf fd = (verdict fd, cf)) ->
  frames cf = fds -> count cf = n -> 1 <= t <= n ->
  t = next_frame dir wrap n (default 0 start) k ->
  verdict_at verdict fds t <> MR_NOTMATCHED -> cancel turn = false ->
  find_packet_loop (S fuel) wrap cancel match_function dir start
    (default 0 start) k turn cf ev
  = Some (match verdict_at verdict fds t with
          | MR_MATCHED => Some t
          | _ => start
          end, cf, ev ++ [t]).
Proof.
  intros Hlen Hmatch Hfr Hcnt Ht Hnext Hhit Hc.
  rewrite find_packet_loop_S, Hc, Hcnt, <- Hnext, Hfr. cbv zeta.
  destruct (find_is_Some fds t ltac:(lia)) as [fd Hfd].
  unfold frame_ptr. rewrite Hfd.
  unfold verdict_at in *. rewrite Hfd in *.
  destruct (passed_dfilter fd); [|done].
  rewrite (Hmatch _ _ (find_elem_of _ _ _ Hfd)).
  by destruct (verdict fd).
Qed.

Lemma turns_from_app dir wrap n start k l1 l2 :
  turns_from dir wrap n (default 0 start) k (l1 ++ l2) ->
  turns_from dir wrap n (default 0 start) k l1
  /\ turns_from dir wrap n (default 0 start) (default k (last l1)) l2.
Proof.
  revert k. induction l1 as [|x l1 IH]; intros k; cbn [app turns_from].
  - done.
  - intros [Hx H]. destruct (IH _ H) as [H1 H2]. split; [done|].
    rewrite last_cons. by destruct (last l1).
Qed.

(** A prefix of the turns of a round that stops before the last one does
    not have the start in it. *)
Lemma search_order_prefix dir wrap n start pre t post :
  match start with Some s => 1 <= s <= n | None => 0 <= n end ->
  search_order dir wrap n start = pre ++ t :: post ->
  1 <= t <= n
  /\ Forall (fun x => 1 <= x <= n /\ Some x <> start) pre.
Proof.
  intros Hs Horder. unfold search_order in Horder.
  assert (Hp : 0 <= default 0 start <= n) by (destruct start; cbn; lia).
  split.
  - assert (Hin : t ∈ pre ++ t :: post) by (rewrite elem_of_app, elem_of_cons; auto).
    rewrite <- Horder in Hin. apply elem_of_app in Hin as [Hin|Hin].
    + by apply (search_body_range n dir wrap _ _ Hp) in Hin as [? _].
    + destruct start as [s|]; [|by apply elem_of_nil in Hin].
      apply list_elem_of_singleton in Hin as ->. lia.
  - assert (Hpre : pre = take (length pre) (search_body dir wrap n (default 0 start))).
    { pose proof (f_equal length Horder) as Hl.
      rewrite !length_app in Hl. cbn [length] in Hl.
      assert (Hl' : (length pre <= length (search_body dir wrap n (default 0%Z start)))%nat).
      { destruct start; cbn [length] in Hl; lia. }
      rewrite <- (take_app_length pre (t :: post)) at 1.
      rewrite <- Horder. by rewrite take_app_le. }
    rewrite Hpre. apply Forall_forall. intros x Hx.
    apply subseteq_take in Hx.
    apply (search_body_range n dir wrap _ _ Hp) in Hx as [? Hne].
    split; [done|]. destruct start as [s|]; [|done]. cbn in Hne. congruence.
Qed.

Lemma find_packet_prev_framenum cf :
  dense cf ->
  match current_frame cf with Some s => 1 <= s <= count cf | None => True end ->
  match current_frame cf with
  | Some p =>
      match frame_data_sequence_find (frames cf) p with
      | Some fd => num fd
      | None => 0
      end
  | None => 0
  end = default 0 (current_frame cf).
Proof.
  intros Hd Hs. destruct (current_frame cf) as [s|]; [|done].
  pose proof (dense_length _ Hd) as Hlen.
  destruct (find_is_Some (frames cf) s ltac:(lia)) as [fd Hfd].
  rewrite Hfd. by apply (dense_find cf).
Qed.

(** The loop of [find_packet] up to the turn on [t], when the frames of
    the turns before do not match and nobody cancels. *)
Lemma find_packet_loop_round fuel wrap cancel match_function verdict dir cf
    pre t post :
  dense cf -> count cf <= G_MAXUINT32 ->
  match current_frame cf with Some s => 1 <= s <= count cf | None => True end ->
  (forall cf' fd, fd ∈ frames cf -> match_function cf' fd = (verdict fd, cf')) ->
  search_order dir wrap (count cf) (current_frame cf) = pre ++ t :: post ->
  Forall (fun e => verdict_at verdict (frames cf) e = MR_NOTMATCHED) pre ->
  (forall j, (j < length pre)%nat -> cancel j = false) ->
  (length pre < fuel)%nat ->
  exists k f,
    1 <= t <= count cf
    /\ t = next_frame dir wrap (count cf) (default 0 (current_frame cf)) k
    /\ find_packet_loop fuel wrap cancel match_function dir (current_frame cf)
         (default 0 (current_frame cf)) (default 0 (current_frame cf)) 0
         (set_stop_flag false cf) []
       = find_packet_loop (S f) wrap cancel match_function dir (current_frame cf)
           (default 0 (current_frame cf)) k (length pre)
           (set_stop_flag false cf) (displayed_among (frames cf) pre).
Proof.
  intros Hd Hmax Hs Hmatch Horder Hpre Hcancel Hfuel.
  pose proof (dense_length _ Hd) as Hlen. destruct Hd as [H0 _].
  assert (Hs' : match current_frame cf with
                | Some s => 1 <= s <= count cf
                | None => 0 <= count cf
                end) by (destruct (current_frame cf); done).
  pose proof (search_order_turns (count cf) Hmax dir wrap (current_frame cf) Hs')
    as Hturns.
  rewrite Horder in Hturns.
  destruct (search_order_prefix dir wrap (count cf) (current_frame cf) pre t post
              Hs' Horder) as [Ht Hrange].
  apply turns_from_app in Hturns as [Hturns1 Hturns2].
  destruct Hturns2 as [Hnext _].
  exists (default (default 0 (current_frame cf)) (last pre)), (fuel - length pre - 1)%nat.
  split; [done|]. split; [done|].
  replace fuel with (length pre + S (fuel - length pre - 1))%nat at 1 by lia.
  rewrite (find_packet_loop_skip wrap cancel match_function verdict dir (frames cf)
             (count cf) (current_frame cf) (eq_sym Hlen) Hmatch pre);
    [done|done|done|done| |done].
  apply Forall_forall. intros x Hx.
  rewrite Forall_forall in Hpre, Hrange.
  destruct (Hrange x Hx) as [? ?]. split; [done|]. split; [by apply Hpre|done].
Qed.

(** What [find_packet] returns when the first frame of the round that
    does not get the answer "no match" is [t]. *)
Lemma find_packet_first_answer fuel wrap cancel found_row match_function
    verdict dir cf pre t post :
  dense cf -> count cf <= G_MAXUINT32 ->
  match current_frame cf with Some s => 1 <= s <= count cf | None => True end ->
  (forall cf' fd, fd ∈ frames cf -> match_function cf' fd = (verdict fd, cf')) ->
  search_order dir wrap (count cf) (current_frame cf) = pre ++ t :: post ->
  Forall (fun e => verdict_at verdict (frames cf) e = MR_NOTMATCHED) pre ->
  verdict_at verdict (frames cf) t <> MR_NOTMATCHED ->
  (forall j, (j <= length pre)%nat -> cancel j = false) ->
  (length pre < fuel)%nat ->
  find_packet fuel wrap cancel found_row match_function dir cf
  = match (match verdict_at verdict (frames cf) t with
           | MR_MATCHED => Some t
           | _ => current_frame cf
           end) with
    | Some r =>
        Some (found_row r, set_search 0 0 (set_stop_flag false cf),
              displayed_among (frames cf) pre ++ [t])
    | None =>
        Some (false, set_stop_flag false cf,
              displayed_among (frames cf) pre ++ [t])
    end.
Proof.
  intros Hd Hmax Hs Hmatch Horder Hpre Hhit Hcancel Hfuel.
  destruct (find_packet_loop_round fuel wrap cancel match_function verdict dir cf
              pre t post Hd Hmax Hs Hmatch Horder Hpre) as (k & f & Ht & Hnext & Hloop);
    [intros j Hj; apply Hcancel; lia|done|].
  unfold find_packet. rewrite (find_packet_prev_framenum cf Hd Hs). cbv zeta.
  rewrite Hloop.
  pose proof (dense_length _ Hd) as Hlen.
  rewrite (find_packet_loop_hit wrap cancel match_function verdict dir (frames cf)
             (count cf) (current_frame cf) f k _ _ _ t (eq_sym Hlen) Hmatch);
    [|done|done|done|done|done|by apply Hcancel].
  by destruct (verdict_at verdict (frames cf) t), (current_frame cf).
Qed.

(** What [find_packet] returns when it is cancelled at the turn on [t]. *)
Lemma find_packet_cancelled fuel wrap cancel found_row match_function
    verdict dir cf pre t post :
  dense cf -> count cf <= G_MAXUINT32 ->
  match current_frame cf with Some s => 1 <= s <= count cf | None => True end ->
  (forall cf' fd, fd ∈ frames cf -> match_function cf' fd = (verdict fd, cf')) ->
  search_order dir wrap (count cf) (current_frame cf) = pre ++ t :: post ->
  Forall (fun e => verdict_at verdict (frames cf) e = MR_NOTMATCHED) pre ->
  (forall j, (j < length pre)%nat -> cancel j = false) ->
  cancel (length pre) = true ->
  (length pre < fuel)%nat ->
  find_packet fuel wrap cancel found_row match_function dir cf
  = match current_frame cf with
    | Some s =>
        Some (found_row s, set_search 0 0 (set_stop_flag true cf),
              displayed_among (frames cf) pre)
    | None =>
        Some (false, set_stop_flag true cf, displayed_among (frames cf) pre)
    end.
Proof.
  intros Hd Hmax Hs Hmatch Horder Hpre Hcancel Hstop Hfuel.
  destruct (find_packet_loop_round fuel wrap cancel match_function verdict dir cf
              pre t post Hd Hmax Hs Hmatch Horder Hpre Hcancel Hfuel)
    as (k & f & Ht & Hnext & Hloop).
  unfold find_packet. rewrite (find_packet_prev_framenum cf Hd Hs). cbv zeta.
  rewrite Hloop, find_packet_loop_S, Hstop.
  by destruct (current_frame cf).
Qed.

(** X5.  A search goes through the frames in the order of
    [search_order]: behind the selected frame in the direction of the
    search, then, with wrap-around, on from the other end of the file, the
    selected frame itself last; with nothing selected a forward search
    starts at the first frame.  It stops at the first displayed frame
    that the criterion accepts: that frame is the one it selects, the
    result is what selecting its row gives, the position of the last
    match in the bytes is reset, and the criterion has been evaluated on
    the displayed frames up to that one and on no other. *)
Theorem search_finds_the_first_match fuel wrap cancel found_row match_function
    verdict dir cf pre t post :
  dense cf -> count cf <= G_MAXUINT32 ->
  match current_frame cf with Some s => 1 <= s <= count cf | None => True end ->
  (forall cf' fd, fd ∈ frames cf -> match_function cf' fd = (verdict fd, cf')) ->
  search_order dir wrap (count cf) (current_frame cf) = pre ++ t :: post ->
  Forall (fun e => verdict_at verdict (frames cf) e = MR_NOTMATCHED) pre ->
  verdict_at verdict (frames cf) t = MR_MATCHED ->
  (forall j, (j <= length pre)%nat -> cancel j = false) ->
  (length pre < fuel)%nat ->
  find_packet fuel wrap cancel found_row match_function dir cf
  = Some (found_row t, set_search 0 0 (set_stop_flag false cf),
          displayed_among (frames cf) pre ++ [t]).
Proof.
  intros Hd Hmax Hs Hmatch Horder Hpre Hhit Hcancel Hfuel.
  rewrite (find_packet_first_answer fuel wrap cancel found_row match_function
             verdict dir cf pre t post); try done.
  - by rewrite Hhit.
  - by rewrite Hhit.
Qed.

(** X6.  A search that is cancelled, or whose criterion fails on a frame
    (a record that cannot be read), goes back to the frame it started
    from: with a frame selected the result is what selecting the row of
    that frame gives, so the search reports success although nothing
    matched, and with nothing selected it reports failure.  No frame
    behind the one where it stopped is examined. *)
Theorem stopped_search_returns_to_start fuel wrap cancel found_row
    match_function verdict dir cf pre t post :
  dense cf -> count cf <= G_MAXUINT32 ->
  match current_frame cf with Some s => 1 <= s <= count cf | None => True end ->
  (forall cf' fd, fd ∈ frames cf -> match_function cf' fd = (verdict fd, cf')) ->
  search_order dir wrap (count cf) (current_frame cf) = pre ++ t :: post ->
  Forall (fun e => verdict_at verdict (frames cf) e = MR_NOTMATCHED) pre ->
  (forall j, (j < length pre)%nat -> cancel j = false) ->
  (length pre < fuel)%nat ->
  (cancel (length pre) = true ->
   find_packet fuel wrap cancel found_row match_function dir cf
   = match current_frame cf with
     | Some s =>
         Some (found_row s, set_search 0 0 (set_stop_flag true cf),
               displayed_among (frames cf) pre)
     | None =>
         Some (false, set_stop_flag true cf, displayed_among (frames cf) pre)
     end)
  /\ (cancel (length pre) = false ->
      verdict_at verdict (frames cf) t = MR_ERROR ->
      find_packet fuel wrap cancel found_row match_function dir cf
      = match current_frame cf with
        | Some s =>
            Some (found_row s, set_search 0 0 (set_stop_flag false cf),
                  displayed_among (frames cf) pre ++ [t])
        | None =>
            Some (false, set_stop_flag false cf,
                  displayed_among (frames cf) pre ++ [t])
        end).
Proof.
  intros Hd Hmax Hs Hmatch Horder Hpre Hcancel Hfuel. split.
  - intros Hstop.
    by apply (find_packet_cancelled fuel wrap cancel found_row match_function
                verdict dir cf pre t post).
  - intros Hgo Herr.
    rewrite (find_packet_first_answer fuel wrap cancel found_row match_function
               verdict dir cf pre t post); try done.
    + by rewrite Herr.
    + by rewrite Herr.
    + intros j Hj. destruct (decide (j = length pre)) as [->|]; [done|].
      apply Hcancel. lia.
Qed.

Lemma search_finds_the_first_match_witness :
  let verdict := fun fd => if num fd =? 3 then MR_MATCHED else MR_NOTMATCHED in
  let cf := loaded_session (Some 1) false false false in
  find_packet 5 false (fun _ => false) (fun _ => true)
    (fun cf fd => (verdict fd, cf)) SD_FORWARD cf
  = Some (true, set_search 0 0 (set_stop_flag false cf),
          displayed_among (frames cf) [2] ++ [3]).
Proof.
  cbv zeta.
  apply (search_finds_the_first_match 5 false (fun _ => false) (fun _ => true)
           (fun cf fd => (if num fd =? 3 then MR_MATCHED else MR_NOTMATCHED, cf))
           (fun fd => if num fd =? 3 then MR_MATCHED else MR_NOTMATCHED)
           SD_FORWARD (loaded_session (Some 1) false false false) [2] 3 [1]);
    first [ apply loaded_session_dense | reflexivity | done
          | by repeat constructor | cbn; lia ].
Defined.

Lemma stopped_search_returns_to_start_witness :
  let verdict := fun fd => if num fd =? 3 then MR_ERROR else MR_NOTMATCHED in
  let cf := loaded_session (Some 1) false false false in
  (find_packet 5 false (fun j => bool_decide (j = 1%nat)) (fun _ => true)
     (fun cf fd => (verdict fd, cf)) SD_FORWARD cf
   = Some (true, set_search 0 0 (set_stop_flag true cf),
           displayed_among (frames cf) [2]))
  /\ (find_packet 5 false (fun _ => false) (fun _ => true)
        (fun cf fd => (verdict fd, cf)) SD_FORWARD cf
      = Some (true, set_search 0 0 (set_stop_flag false cf),
              displayed_among (frames cf) [2] ++ [3])).
Proof.
  cbv zeta. split.
  - apply (stopped_search_returns_to_start 5 false
             (fun j => bool_decide (j = 1%nat)) (fun _ => true)
             (fun cf fd => (if num fd =? 3 then MR_ERROR else MR_NOTMATCHED, cf))
             (fun fd => if num fd =? 3 then MR_ERROR else MR_NOTMATCHED)
             SD_FORWARD (loaded_session (Some 1) false false false) [2] 3 [1]);
      first [ apply loaded_session_dense | reflexivity | done
            | by repeat constructor | cbn; lia
            | intros [|j] Hj; [reflexivity|cbn in Hj; lia] ].
  - apply (stopped_search_returns_to_start 5 false
             (fun _ => false) (fun _ => true)
             (fun cf fd => (if num fd =? 3 then MR_ERROR else MR_NOTMATCHED, cf))
             (fun fd => if num fd =? 3 then MR_ERROR else MR_NOTMATCHED)
             SD_FORWARD (loaded_session (Some 1) false false false) [2] 3 [1]);
      first [ apply loaded_session_dense | reflexivity | done
            | by repeat constructor | cbn; lia ].
Defined.

(** ** A round with wrap-around goes through every frame *)

Lemma search_order_wrap_elem dir n start m :
  match start with Some s => 1 <= s <= n | None => True end ->
  1 <= m <= n -> m ∈ search_order dir true n start.
Proof.
  intros Hs Hm. unfold search_order, search_body.
  destruct dir, start as [s|]; cbn [default];
    rewrite ?elem_of_app, ?elem_of_reverse, ?elem_of_seqZ, ?list_elem_of_singleton,
      ?elem_of_nil; unfold id; lia.
Qed.

Lemma search_order_length dir wrap n start :
  match start with Some s => 1 <= s <= n | None => 0 <= n end ->
  (length (search_order dir wrap n start) <= Z.to_nat n)%nat.
Proof.
  intros Hs. unfold search_order, search_body.
  destruct dir, wrap, start as [s|]; cbn [default];
    rewrite ?length_app, ?length_reverse, ?length_seqZ; cbn [length]; unfold id; lia.
Qed.

(** ** The search by filter *)

Lemma match_dfilter_run wth sfcode cf fd :
  match_dfilter wth sfcode cf fd
  = (dfilter_verdict wth sfcode fd,
     match cf_read_record wth fd with
     | Some _ =>
         set_frames (frame_store_set (frames cf) (num fd) (epan_dissect_run fd)) cf
     | None => cf
     end).
Proof.
  unfold match_dfilter, dfilter_verdict. by destruct (cf_read_record wth fd).
Qed.

Lemma search_order_NoDup dir wrap n start :
  match start with Some s => 1 <= s <= n | None => 0 <= n end ->
  NoDup (search_order dir wrap n start).
Proof.
  intros Hs. unfold search_order, search_body.
  destruct dir, wrap, start as [s|]; cbn [default]; unfold id;
    repeat match goal with
    | |- NoDup (_ ++ _) => apply NoDup_app; split_and!
    | |- NoDup (reverse _) => apply NoDup_ListNoDup; rewrite reverse_Permutation; apply NoDup_ListNoDup
    | |- NoDup (seqZ _ _) => apply NoDup_seqZ
    | |- NoDup [_] => apply NoDup_singleton
    | |- NoDup [] => apply NoDup_nil_2
    | |- forall x, _ =>
        intros x;
        rewrite ?elem_of_app, ?elem_of_reverse, ?elem_of_seqZ,
          ?list_elem_of_singleton, ?elem_of_nil; lia
    end.
Qed.

Lemma dissected_at_nil fds : dissected_at [] fds = fds.
Proof.
  unfold dissected_at. induction fds as [|fd fds IH]; cbn; [done|].
  by rewrite IH.
Qed.

Lemma dissected_at_length l fds : length (dissected_at l fds) = length fds.
Proof. unfold dissected_at. by rewrite length_map. Qed.

Lemma dissected_at_find l fds x fd :
  frame_data_sequence_find fds x = Some fd ->
  frame_data_sequence_find (dissected_at l fds) x
  = Some (if bool_decide (num fd ∈ l) then epan_dissect_run fd else fd).
Proof.
  intros Hfd. pose proof (find_Some_range _ _ _ Hfd) as Hr.
  rewrite find_lookup in * by lia. unfold dissected_at.
  by rewrite list_lookup_fmap, Hfd.
Qed.

(** Dissecting the frame in slot [x] of a store that lists frame [x] in
    slot [x]. *)
Lemma dissected_at_snoc l fds x fd :
  (forall m fm, frame_data_sequence_find fds m = Some fm -> num fm = m) ->
  frame_data_sequence_find fds x = Some fd -> x ∉ l ->
  frame_store_set (dissected_at l fds) x (epan_dissect_run fd)
  = dissected_at (l ++ [x]) fds.
Proof.
  intros Hnum Hfd Hx. pose proof (find_Some_range _ _ _ Hfd) as Hr.
  pose proof (Hnum _ _ Hfd) as Hnx.
  unfold frame_store_set, dissected_at. apply list_eq. intros i.
  destruct (decide (i = Z.to_nat (x - 1))) as [->|Hi].
  - rewrite list_lookup_insert_eq by (rewrite length_map; lia).
    rewrite find_lookup in Hfd by lia.
    rewrite list_lookup_fmap, Hfd. cbn.
    rewrite bool_decide_eq_true_2; [done|].
    rewrite Hnx, elem_of_app, list_elem_of_singleton. by right.
  - rewrite list_lookup_insert_ne by done. rewrite !list_lookup_fmap.
    destruct (fds !! i) as [fm|] eqn:Hfm; [|done]. cbn. f_equal.
    assert (Hnm : num fm = Z.of_nat i + 1).
    { apply Hnum. rewrite find_lookup by lia.
      by replace (Z.to_nat (Z.of_nat i + 1 - 1)) with i by lia. }
    assert (Hiff : num fm ∈ l ++ [x] <-> num fm ∈ l).
    { rewrite elem_of_app, list_elem_of_singleton. split; [|by left].
      intros [?|?]; [done|lia]. }
    by rewrite (bool_decide_ext _ _ Hiff).
Qed.

(** The turns of a search by filter on frames that do not pass the
    search filter: each of them that is displayed is read again and
    dissected. *)
Lemma find_packet_loop_dissects wrap cancel wth sfcode dir fds n start :
  n = Z.of_nat (length fds) ->
  (forall m fm, frame_data_sequence_find fds m = Some fm -> num fm = m) ->
  forall pre fuel k turn cf ev,
  count cf = n ->
  turns_from dir wrap n (default 0 start) k pre ->
  Forall (fun x => 1 <= x <= n
                   /\ verdict_at (dfilter_verdict wth sfcode) fds x = MR_NOTMATCHED
                   /\ Some x <> start /\ x ∉ ev) pre ->
  NoDup pre ->
  (forall j, (j < length pre)%nat -> cancel (turn + j)%nat = false) ->
  find_packet_loop (length pre + fuel) wrap cancel (match_dfilter wth sfcode) dir
    start (default 0 start) k turn (set_frames (dissected_at ev fds) cf) ev
  = find_packet_loop fuel wrap cancel (match_dfilter wth sfcode) dir start
      (default 0 start) (default k (last pre)) (turn + length pre)
      (set_frames (dissected_at (ev ++ displayed_among fds pre) fds) cf)
      (ev ++ displayed_among fds pre).
Proof.
  intros Hlen Hnum.
  induction pre as [|x pre IH]; intros fuel k turn cf ev Hcnt Hturns Hpre Hnd Hcancel.
  - cbn. by rewrite Nat.add_0_r, app_nil_r.
  - destruct Hturns as [Hx Hturns].
    apply Forall_cons in Hpre as [(Hrange & Hhit & Hstart & Hnew) Hpre].
    apply NoDup_cons in Hnd as [Hxpre Hnd].
    cbn [length Nat.add]. rewrite find_packet_loop_S.
    pose proof (Hcancel 0%nat ltac:(cbn; lia)) as Hc0. rewrite Nat.add_0_r in Hc0.
    rewrite Hc0. cbv zeta.
    change (count (set_frames ?a cf)) with (count cf).
    change (frames (set_frames ?a cf)) with a.
    rewrite Hcnt, <- Hx.
    destruct (find_is_Some fds x ltac:(lia)) as [fd Hfd].
    pose proof (Hnum _ _ Hfd) as Hnx.
    unfold frame_ptr. rewrite (dissected_at_find ev fds x fd Hfd).
    rewrite bool_decide_eq_false_2 by (by rewrite Hnx).
    destruct (decide (Some x = start)) as [|_]; [done|].
    assert (Hlast : default k (last (x :: pre)) = default x (last pre)).
    { rewrite last_cons. by destruct (last pre). }
    rewrite Hlast, displayed_among_cons.
    unfold passes, ptr_passed_dfilter. rewrite Hfd.
    assert (Hnext : forall ev',
      Forall (fun y => y ∉ ev') pre ->
      find_packet_loop (length pre + fuel) wrap cancel (match_dfilter wth sfcode) dir
        start (default 0 start) x (S turn) (set_frames (dissected_at ev' fds) cf) ev'
      = find_packet_loop fuel wrap cancel (match_dfilter wth sfcode) dir start
          (default 0 start) (default x (last pre)) (turn + S (length pre))
          (set_frames (dissected_at (ev' ++ displayed_among fds pre) fds) cf)
          (ev' ++ displayed_among fds pre)).
    { intros ev' Hev'. rewrite IH; [|done|done| |done|].
      - by rewrite Nat.add_succ_r.
      - rewrite Forall_forall in Hpre, Hev'. apply Forall_forall. intros y Hy.
        destruct (Hpre y Hy) as (? & ? & ? & ?).
        split_and!; first [done | lia | by apply Hev'].
      - intros j Hj. specialize (Hcancel (S j) ltac:(cbn; lia)).
        by rewrite Nat.add_succ_r in Hcancel. }
    unfold verdict_at in Hhit. rewrite Hfd in Hhit.
    destruct (passed_dfilter fd) eqn:Hpass.
    + rewrite match_dfilter_run, Hhit.
      assert (Hread : is_Some (cf_read_record wth fd)).
      { unfold dfilter_verdict in Hhit. by destruct (cf_read_record wth fd). }
      destruct Hread as [rec Hrec]. rewrite Hrec.
      change (frames (set_frames ?a cf)) with a.
      rewrite Hnx, (dissected_at_snoc ev fds x fd) by done.
      change (set_frames ?a (set_frames ?b cf)) with (set_frames a cf).
      rewrite Hnext, <- app_assoc; [done|].
      rewrite Forall_forall in Hpre. apply Forall_forall. intros y Hy.
      destruct (Hpre y Hy) as (_ & _ & _ & Hyev).
      rewrite elem_of_app, list_elem_of_singleton. intros [?|Heq]; [done|].
      by subst y.
    + apply Hnext. rewrite Forall_forall in Hpre. apply Forall_forall.
      intros y Hy. by destruct (Hpre y Hy) as (_ & _ & _ & ?).
Qed.

(** What a search by filter returns when the first displayed frame of
    the round that passes the search filter, or cannot be read, is [t]. *)
Lemma cf_find_packet_dfilter_answer fuel wrap found_row wth sfcode dir cf
    pre t post :
  dense cf -> count cf <= G_MAXUINT32 ->
  match current_frame cf with Some s => 1 <= s <= count cf | None => True end ->
  search_order dir wrap (count cf) (current_frame cf) = pre ++ t :: post ->
  Forall (fun e => verdict_at (dfilter_verdict wth sfcode) (frames cf) e
                   = MR_NOTMATCHED) pre ->
  verdict_at (dfilter_verdict wth sfcode) (frames cf) t <> MR_NOTMATCHED ->
  (length pre < fuel)%nat ->
  let seen := displayed_among (frames cf) pre in
  cf_find_packet_dfilter fuel wrap (fun _ => false) found_row wth sfcode dir cf
  = match verdict_at (dfilter_verdict wth sfcode) (frames cf) t with
    | MR_MATCHED =>
        Some (found_row t,
              set_search 0 0
                (set_frames (dissected_at (seen ++ [t]) (frames cf))
                   (set_stop_flag false cf)),
              seen ++ [t])
    | _ =>
        match current_frame cf with
        | Some s =>
            Some (found_row s,
                  set_search 0 0
                    (set_frames (dissected_at seen (frames cf))
                       (set_stop_flag false cf)),
                  seen ++ [t])
        | None =>
            Some (false,
                  set_frames (dissected_at seen (frames cf))
                    (set_stop_flag false cf),
                  seen ++ [t])
        end
    end.
Proof.
  intros Hd Hmax Hs Horder Hpre Hhit Hfuel seen.
  pose proof (dense_length _ Hd) as Hlen.
  assert (Hnum : forall m fm,
            frame_data_sequence_find (frames cf) m = Some fm -> num fm = m).
  { intros m fm. apply (dense_find cf m fm Hd). }
  assert (Hs' : match current_frame cf with
                | Some s => 1 <= s <= count cf
                | None => 0 <= count cf
                end).
  { destruct Hd as [H0 _]. by destruct (current_frame cf). }
  pose proof (search_order_turns (count cf) Hmax dir wrap (current_frame cf) Hs')
    as Hturns.
  pose proof (search_order_NoDup dir wrap (count cf) (current_frame cf) Hs') as Hnd.
  rewrite Horder in Hturns, Hnd.
  destruct (search_order_prefix dir wrap (count cf) (current_frame cf) pre t post
              Hs' Horder) as [Ht Hrange].
  apply turns_from_app in Hturns as [Hturns1 Hturns2].
  destruct Hturns2 as [Hnext _].
  apply NoDup_app in Hnd as (Hndpre & Hdisj & _).
  unfold cf_find_packet_dfilter, find_packet.
  rewrite (find_packet_prev_framenum cf Hd Hs). cbv zeta.
  set (cf0 := set_stop_flag false cf).
  replace fuel with (length pre + S (fuel - length pre - 1))%nat at 1 by lia.
  assert (Hcf0 : cf0 = set_frames (dissected_at [] (frames cf)) cf0).
  { rewrite dissected_at_nil. by destruct cf. }
  rewrite Hcf0 at 1.
  rewrite (find_packet_loop_dissects wrap (fun _ => false) wth sfcode dir (frames cf)
             (count cf) (current_frame cf) (eq_sym Hlen) Hnum pre);
    [|done|done| |done|done].
  2:{ apply Forall_forall. intros x Hx.
      rewrite Forall_forall in Hpre, Hrange.
      pose proof (Hrange x Hx) as [? ?].
      split_and!; first [done | lia | by apply Hpre | by apply not_elem_of_nil]. }
  cbn [app]. fold seen.
  rewrite find_packet_loop_S. cbv zeta.
  change (count (set_frames ?a cf0)) with (count cf).
  change (frames (set_frames ?a cf0)) with a.
  rewrite <- Hnext.
  destruct (find_is_Some (frames cf) t ltac:(lia)) as [fd Hfd].
  pose proof (Hnum _ _ Hfd) as Hnt.
  assert (Htseen : t ∉ seen).
  { intros Hin. unfold seen, displayed_among in Hin.
    apply list_elem_of_filter in Hin as [_ Hin].
    apply (Hdisj t Hin). by left. }
  unfold frame_ptr. rewrite (dissected_at_find seen (frames cf) t fd Hfd).
  rewrite bool_decide_eq_false_2 by (by rewrite Hnt).
  unfold verdict_at in *. rewrite Hfd in *.
  destruct (passed_dfilter fd); [|done].
  rewrite match_dfilter_run.
  unfold dfilter_verdict in *.
  destruct (cf_read_record wth fd) as [rec|].
  - change (frames (set_frames ?a cf0)) with a.
    rewrite Hnt, (dissected_at_snoc seen (frames cf) t fd) by done.
    change (set_frames ?a (set_frames ?b cf0)) with (set_frames a cf0).
    destruct (dfilter_apply_edt sfcode (epan_dissect_run fd) rec); done.
  - by destruct (current_frame cf).
Qed.

(** X21.  A search by filter selects the first displayed frame in the
    order of the search whose dissection passes the search filter.  Every
    displayed frame on the way is read again and dissected for that, and
    the session comes out with these frames, the selected one included,
    marked as dissected; no other frame is touched.  When a displayed
    frame on the way cannot be read, the search ends there and goes back
    to the frame it started from. *)
Theorem filter_search_finds_the_first_passing_frame fuel wrap found_row wth
    sfcode dir cf pre t post :
  dense cf -> count cf <= G_MAXUINT32 ->
  match current_frame cf with Some s => 1 <= s <= count cf | None => True end ->
  search_order dir wrap (count cf) (current_frame cf) = pre ++ t :: post ->
  Forall (fun e => verdict_at (dfilter_verdict wth sfcode) (frames cf) e
                   = MR_NOTMATCHED) pre ->
  (length pre < fuel)%nat ->
  let seen := displayed_among (frames cf) pre in
  (verdict_at (dfilter_verdict wth sfcode) (frames cf) t = MR_MATCHED ->
   cf_find_packet_dfilter fuel wrap (fun _ => false) found_row wth sfcode dir cf
   = Some (found_row t,
           set_search 0 0
             (set_frames (dissected_at (seen ++ [t]) (frames cf))
                (set_stop_flag false cf)),
           seen ++ [t]))
  /\ (verdict_at (dfilter_verdict wth sfcode) (frames cf) t = MR_ERROR ->
      cf_find_packet_dfilter fuel wrap (fun _ => false) found_row wth sfcode dir cf
      = match current_frame cf with
        | Some s =>
            Some (found_row s,
                  set_search 0 0
                    (set_frames (dissected_at seen (frames cf))
                       (set_stop_flag false cf)),
                  seen ++ [t])
        | None =>
            Some (false,
                  set_frames (dissected_at seen (frames cf))
                    (set_stop_flag false cf),
                  seen ++ [t])
        end).
Proof.
  intros Hd Hmax Hs Horder Hpre Hfuel seen.
  split; intros Hv.
  - rewrite (cf_find_packet_dfilter_answer fuel wrap found_row wth sfcode dir cf
               pre t post); try done; by rewrite Hv.
  - rewrite (cf_find_packet_dfilter_answer fuel wrap found_row wth sfcode dir cf
               pre t post); try done; by rewrite Hv.
Qed.

Lemma filter_search_finds_the_first_passing_frame_witness :
  let cf := unvisited_session (Some 3) in
  let sfcode : dfilter_t := fun fd _ => num fd =? 2 in
  cf_find_packet_dfilter 5 true (fun _ => false) (fun _ => true) (sample_wth 9)
    sfcode SD_FORWARD cf
  = Some (true,
          set_search 0 0
            (set_frames
               [sample_frame 1; sample_frame 2; set_visited false (sample_frame 3)]
               (set_stop_flag false cf)),
          [1; 2]).
Proof.
  cbv zeta.
  refine (proj1 (filter_search_finds_the_first_passing_frame 5 true (fun _ => true)
           (sample_wth 9) (fun fd _ => num fd =? 2) SD_FORWARD
           (unvisited_session (Some 3)) [1] 2 [3] _ _ _ _ _ _) _);
    first [ split; [done|reflexivity] | reflexivity | done
          | by repeat constructor | cbn; lia ].
Defined.

(** ** Marks *)

Lemma marked_frames_app l1 l2 :
  marked_frames (l1 ++ l2) = marked_frames l1 + marked_frames l2.
Proof. unfold marked_frames. rewrite filter_app, length_app. lia. Qed.

Lemma marked_frames_cons fd l :
  marked_frames (fd :: l) = (if marked fd then 1 else 0) + marked_frames l.
Proof.
  unfold marked_frames. rewrite filter_cons.
  destruct (marked fd); destruct (decide _); try done; cbn [length]; lia.
Qed.

Lemma marked_frames_bounds l : 0 <= marked_frames l <= Z.of_nat (length l).
Proof.
  unfold marked_frames. pose proof (length_filter (fun fd => marked fd = true) l).
  lia.
Qed.

Lemma marked_frames_set fds n fd fd' :
  frame_data_sequence_find fds n = Some fd ->
  marked_frames (frame_store_set fds n fd')
  = marked_frames fds - (if marked fd then 1 else 0) + (if marked fd' then 1 else 0).
Proof.
  intros Hfd. pose proof (find_Some_range _ _ _ Hfd) as Hr.
  rewrite find_lookup in Hfd by lia. unfold frame_store_set.
  rewrite insert_take_drop by (apply lookup_lt_Some in Hfd; lia).
  rewrite <- (take_drop_middle _ _ _ Hfd) at 3.
  rewrite !marked_frames_app, !marked_frames_cons. lia.
Qed.

Lemma set_marked_same fd : set_marked (marked fd) fd = fd.
Proof. by destruct fd. Qed.

Lemma set_frames_same cf : set_frames (frames cf) cf = cf.
Proof. by destruct cf. Qed.

Lemma store_set_back fds n fd fd' :
  frame_data_sequence_find fds n = Some fd ->
  frame_store_set (frame_store_set fds n fd') n fd = fds.
Proof.
  intros Hfd. pose proof (find_Some_range _ _ _ Hfd) as Hr.
  rewrite find_lookup in Hfd by lia. unfold frame_store_set.
  rewrite list_insert_insert_eq. by apply list_insert_id.
Qed.

Lemma store_set_find_any fds n m fd' :
  1 <= n -> m <> n ->
  frame_data_sequence_find (frame_store_set fds n fd') m
  = frame_data_sequence_find fds m.
Proof.
  intros Hn Hm. destruct (Z.leb_spec m 0) as [Hle|Hgt].
  - unfold frame_data_sequence_find. by destruct (Z.leb_spec m 0); [|lia].
  - apply store_set_find_other; lia.
Qed.

(** What [cf_mark_frame] and [cf_unmark_frame] do to a session whose
    counter of marks is right. *)
Lemma cf_mark_frame_counted frame marked_count cf fd :
  Z.of_nat (length (frames cf)) = count cf -> count cf <= G_MAXUINT32 ->
  marked_count = marked_frames (frames cf) ->
  frame_data_sequence_find (frames cf) frame = Some fd ->
  let r := cf_mark_frame frame marked_count cf in
  fst r = marked_frames (frames (snd r))
  /\ frame_data_sequence_find (frames (snd r)) frame = Some (set_marked true fd)
  /\ (forall m, m <> frame ->
        frame_data_sequence_find (frames (snd r)) m
        = frame_data_sequence_find (frames cf) m)
  /\ count (snd r) = count cf
  /\ length (frames (snd r)) = length (frames cf).
Proof.
  intros Hlen Hmax Hmc Hfd. cbv zeta. unfold cf_mark_frame. rewrite Hfd.
  pose proof (marked_frames_bounds (frames cf)) as Hb.
  pose proof (find_Some_range _ _ _ Hfd) as Hr.
  destruct (marked fd) eqn:Hm; cbn [negb fst snd].
  - split; [done|]. split; [by rewrite <- Hm, set_marked_same|]. done.
  - change (frames (set_frames ?v ?c)) with v.
    change (count (set_frames ?v ?c)) with (count c).
    pose proof (marked_frames_set (frames cf) frame fd (set_marked true fd) Hfd) as Hset.
    rewrite Hm in Hset. cbn in Hset.
    assert (Hlt : marked_frames (frames cf) < count cf).
    { pose proof (marked_frames_bounds (frame_store_set (frames cf) frame
                                          (set_marked true fd))) as Hb'.
      rewrite store_set_length in Hb'. lia. }
    split.
    { destruct (Z.gtb_spec (count cf) marked_count); [|lia].
      rewrite wrap32_small by (unfold G_MAXUINT32 in *; lia). lia. }
    split; [by apply (store_set_find_same _ _ fd)|].
    split; [|split; [done|apply store_set_length]].
    intros m Hmne. apply store_set_find_any; [lia|done].
Qed.

Lemma cf_unmark_frame_counted frame marked_count cf fd :
  Z.of_nat (length (frames cf)) = count cf -> count cf <= G_MAXUINT32 ->
  marked_count = marked_frames (frames cf) ->
  frame_data_sequence_find (frames cf) frame = Some fd ->
  let r := cf_unmark_frame frame marked_count cf in
  fst r = marked_frames (frames (snd r))
  /\ frame_data_sequence_find (frames (snd r)) frame = Some (set_marked false fd)
  /\ (forall m, m <> frame ->
        frame_data_sequence_find (frames (snd r)) m
        = frame_data_sequence_find (frames cf) m)
  /\ count (snd r) = count cf
  /\ length (frames (snd r)) = length (frames cf).
Proof.
  intros Hlen Hmax Hmc Hfd. cbv zeta. unfold cf_unmark_frame. rewrite Hfd.
  pose proof (marked_frames_bounds (frames cf)) as Hb.
  pose proof (find_Some_range _ _ _ Hfd) as Hr.
  destruct (marked fd) eqn:Hm; cbn [negb fst snd].
  - change (frames (set_frames ?v ?c)) with v.
    change (count (set_frames ?v ?c)) with (count c).
    pose proof (marked_frames_set (frames cf) frame fd (set_marked false fd) Hfd) as Hset.
    rewrite Hm in Hset. cbn in Hset.
    pose proof (marked_frames_bounds (frame_store_set (frames cf) frame
                                        (set_marked false fd))) as Hb'.
    split.
    { destruct (Z.gtb_spec marked_count 0); [|lia].
      rewrite wrap32_small by (unfold G_MAXUINT32 in *; lia). lia. }
    split; [by apply (store_set_find_same _ _ fd)|].
    split; [|split; [done|apply store_set_length]].
    intros m Hmne. apply store_set_find_any; [lia|done].
  - split; [done|]. split; [by rewrite <- Hm, set_marked_same|]. done.
Qed.

Lemma cf_mark_unmark frame marked_count cf fd :
  Z.of_nat (length (frames cf)) = count cf -> count cf <= G_MAXUINT32 ->
  marked_count = marked_frames (frames cf) ->
  frame_data_sequence_find (frames cf) frame = Some fd ->
  marked fd = false ->
  let r := cf_mark_frame frame marked_count cf in
  cf_unmark_frame frame (fst r) (snd r) = (marked_count, cf).
Proof.
  intros Hlen Hmax Hmc Hfd Hm. cbv zeta.
  pose proof (marked_frames_bounds (frames cf)) as Hb.
  pose proof (marked_frames_set (frames cf) frame fd (set_marked true fd) Hfd) as Hset.
  pose proof (marked_frames_bounds (frame_store_set (frames cf) frame
                                      (set_marked true fd))) as Hb'.
  rewrite store_set_length in Hb'. rewrite Hm in Hset. cbn in Hset.
  unfold cf_mark_frame. rewrite Hfd, Hm. cbn [negb fst snd].
  change (count (set_frames ?v ?c)) with (count c).
  destruct (Z.gtb_spec (count cf) marked_count); [|lia].
  unfold cf_unmark_frame.
  change (frames (set_frames ?v ?c)) with v.
  rewrite (store_set_find_same _ _ fd) by done. cbn [marked set_marked].
  rewrite wrap32_small by (unfold G_MAXUINT32 in *; lia).
  destruct (Z.gtb_spec (marked_count + 1) 0); [|lia].
  rewrite wrap32_small by (unfold G_MAXUINT32 in *; lia).
  replace (set_marked false (set_marked true fd)) with fd.
  2:{ rewrite <- Hm at 1. by destruct fd. }
  rewrite store_set_back by done.
  f_equal; [lia|]. by destruct cf.
Qed.

(** X7.  The counter of marks follows the marks: in a session whose
    counter is the number of marked frames it still is after a frame has
    been marked or unmarked, whether or not the frame had the mark
    before, and unmarking a frame that has just been marked gives the
    session and the counter back as they were. *)
Theorem marks_are_counted frame marked_count cf fd :
  Z.of_nat (length (frames cf)) = count cf -> count cf <= G_MAXUINT32 ->
  marked_count = marked_frames (frames cf) ->
  frame_data_sequence_find (frames cf) frame = Some fd ->
  (let r := cf_mark_frame frame marked_count cf in
   fst r = marked_frames (frames (snd r))
   /\ exists fd', frame_data_sequence_find (frames (snd r)) frame = Some fd'
                  /\ marked fd' = true)
  /\ (let r := cf_unmark_frame frame marked_count cf in
      fst r = marked_frames (frames (snd r))
      /\ exists fd', frame_data_sequence_find (frames (snd r)) frame = Some fd'
                     /\ marked fd' = false)
  /\ (marked fd = false ->
      let r := cf_mark_frame frame marked_count cf in
      cf_unmark_frame frame (fst r) (snd r) = (marked_count, cf)).
Proof.
  intros Hlen Hmax Hmc Hfd. split; [|split].
  - destruct (cf_mark_frame_counted frame marked_count cf fd Hlen Hmax Hmc Hfd)
      as (H1 & H2 & _).
    split; [done|]. by eexists.
  - destruct (cf_unmark_frame_counted frame marked_count cf fd Hlen Hmax Hmc Hfd)
      as (H1 & H2 & _).
    split; [done|]. by eexists.
  - intros Hm. by apply (cf_mark_unmark frame marked_count cf fd).
Qed.

Lemma marks_are_counted_witness :
  let cf := loaded_session None false false false in
  (let r := cf_mark_frame 2 0 cf in
   fst r = marked_frames (frames (snd r))
   /\ exists fd', frame_data_sequence_find (frames (snd r)) 2 = Some fd'
                  /\ marked fd' = true)
  /\ (let r := cf_unmark_frame 2 0 cf in
      fst r = marked_frames (frames (snd r))
      /\ exists fd', frame_data_sequence_find (frames (snd r)) 2 = Some fd'
                     /\ marked fd' = false)
  /\ (marked (sample_frame 2) = false ->
      let r := cf_mark_frame 2 0 cf in
      cf_unmark_frame 2 (fst r) (snd r) = (0, cf)).
Proof.
  cbv zeta.
  apply (marks_are_counted 2 0 (loaded_session None false false false)
           (sample_frame 2));
    first [reflexivity | discriminate].
Defined.

(** The session after a frame has been marked. *)
Lemma cf_mark_frame_session frame marked_count cf fd :
  dense cf -> frame_data_sequence_find (frames cf) frame = Some fd ->
  let cf' := snd (cf_mark_frame frame marked_count cf) in
  dense cf' /\ count cf' = count cf /\ current_frame cf' = current_frame cf
  /\ frames cf' = frame_store_set (frames cf) frame (set_marked true fd).
Proof.
  intros Hd Hfd. cbv zeta. unfold cf_mark_frame. rewrite Hfd.
  destruct (marked fd) eqn:Hm; cbn [negb snd].
  - split; [done|]. split; [done|]. split; [done|].
    rewrite <- Hm, set_marked_same. pose proof (find_Some_range _ _ _ Hfd).
    rewrite find_lookup in Hfd by lia. unfold frame_store_set.
    symmetry. by apply list_insert_id.
  - split; [|done]. destruct Hd as [H0 Hnum]. split; [done|].
    change (frames (set_frames ?v ?c)) with v.
    change (count (set_frames ?v ?c)) with (count c).
    by rewrite (store_set_map_num _ _ fd).
Qed.

(** A search for marked frames after one frame has been marked. *)
Lemma cf_find_packet_marked_after_mark fuel found_row dir cf m fd marked_count :
  dense cf -> count cf <= G_MAXUINT32 ->
  match current_frame cf with Some s => 1 <= s <= count cf | None => True end ->
  Forall (fun fd => marked fd = false) (frames cf) ->
  frame_data_sequence_find (frames cf) m = Some fd ->
  passed_dfilter fd = true ->
  (Z.to_nat (count cf) <= fuel)%nat ->
  let cf' := snd (cf_mark_frame m marked_count cf) in
  exists evaluated,
    cf_find_packet_marked fuel true (fun _ => false) found_row dir cf'
    = Some (found_row m, set_search 0 0 (set_stop_flag false cf'),
            evaluated ++ [m]).
Proof.
  intros Hd Hmax Hs Hnone Hfd Hpass Hfuel cf'.
  destruct (cf_mark_frame_session m marked_count cf fd Hd Hfd)
    as (Hd' & Hcnt & Hcur & Hfr).
  fold cf' in Hd', Hcnt, Hcur, Hfr.
  pose proof (find_Some_range _ _ _ Hfd) as Hrm.
  pose proof (dense_length _ Hd) as Hlen.
  assert (Hs' : match current_frame cf with
                | Some s => 1 <= s <= count cf
                | None => 0 <= count cf
                end) by (destruct (current_frame cf); [done|lia]).
  pose proof (search_order_wrap_elem dir (count cf) (current_frame cf) m Hs
                ltac:(lia)) as Hin.
  apply list_elem_of_split_l in Hin as (pre & post & Horder & Hnotin).
  pose proof (search_order_length dir true (count cf) (current_frame cf) Hs') as Hol.
  rewrite Horder, length_app in Hol. cbn [length] in Hol.
  exists (displayed_among (frames cf') pre).
  unfold cf_find_packet_marked.
  set (verdict := fun fd : frame_data =>
                    if marked fd then MR_MATCHED else MR_NOTMATCHED).
  assert (Hm : verdict_at verdict (frames cf') m = MR_MATCHED).
  { unfold verdict_at. rewrite Hfr, (store_set_find_same _ _ fd) by done.
    cbn. by rewrite Hpass. }
  rewrite (find_packet_first_answer fuel true (fun _ => false) found_row
             match_marked verdict dir cf' pre m post).
  - by rewrite Hm.
  - done.
  - lia.
  - by rewrite Hcur, Hcnt.
  - done.
  - by rewrite Hcur, Hcnt.
  - apply Forall_forall. intros e He. unfold verdict_at.
    assert (e <> m) by (intros ->; done).
    rewrite Hfr, store_set_find_any by (done || lia).
    destruct (frame_data_sequence_find (frames cf) e) as [fe|] eqn:Hfe; [|done].
    rewrite Forall_forall in Hnone.
    unfold verdict. rewrite (Hnone fe (find_elem_of _ _ _ Hfe)).
    by destruct (passed_dfilter fe).
  - by rewrite Hm.
  - done.
  - lia.
Qed.

(** X8.  A mark is found: when no frame is marked and a displayed frame
    is then marked, a search for marked frames with wrap-around selects
    that frame, from whichever frame it starts and in either direction,
    also when nothing is selected; the result is what selecting the row
    of the frame gives. *)
Theorem marked_frame_is_found fuel found_row dir cf m fd marked_count :
  dense cf -> count cf <= G_MAXUINT32 ->
  match current_frame cf with Some s => 1 <= s <= count cf | None => True end ->
  Forall (fun fd => marked fd = false) (frames cf) ->
  frame_data_sequence_find (frames cf) m = Some fd ->
  passed_dfilter fd = true ->
  (Z.to_nat (count cf) <= fuel)%nat ->
  let cf' := snd (cf_mark_frame m marked_count cf) in
  exists evaluated,
    cf_find_packet_marked fuel true (fun _ => false) found_row dir cf'
    = Some (found_row m, set_search 0 0 (set_stop_flag false cf'),
            evaluated ++ [m]).
Proof. apply cf_find_packet_marked_after_mark. Qed.

Lemma marked_frame_is_found_witness :
  let cf' := snd (cf_mark_frame 2 0 (loaded_session None false false false)) in
  exists evaluated,
    cf_find_packet_marked 3 true (fun _ => false) (fun _ => true) SD_BACKWARD cf'
    = Some (true, set_search 0 0 (set_stop_flag false cf'), evaluated ++ [2]).
Proof.
  cbv zeta.
  apply (marked_frame_is_found 3 (fun _ => true) SD_BACKWARD
           (loaded_session None false false false) 2 (sample_frame 2) 0);
    first [ apply loaded_session_dense | reflexivity | done
          | by repeat constructor | cbn; lia ].
Defined.

(** ** The display counters after a scan *)

Lemma shown_frames_snoc fds fd :
  shown_frames (fds ++ [fd])
  = shown_frames fds ++ (if shown fd then [fd] else []).
Proof.
  unfold shown_frames. rewrite filter_app. f_equal.
  rewrite filter_cons, filter_nil. destruct (shown fd); by destruct (decide _).
Qed.

Lemma take_S_insert {A} (l : list A) i x :
  (i < length l)%nat -> take (S i) (<[i := x]> l) = take i l ++ [x].
Proof.
  intros Hi. rewrite insert_take_drop by done.
  rewrite take_app_ge by (rewrite length_take; lia).
  rewrite length_take. replace (S i - i `min` length l)%nat with 1%nat by lia.
  done.
Qed.

(** What [add_packet_to_packet_list] does to the display counters. *)
Lemma add_packet_counters p dfcode rec add cf fd :
  frame_data_sequence_find (frames cf) p = Some fd ->
  let fd1 := dissected dfcode rec fd in
  let cf' := add_packet_to_packet_list p dfcode rec add cf in
  displayed_count cf'
  = (if shown fd1 then wrap32 (displayed_count cf + 1) else displayed_count cf)
  /\ first_displayed cf'
     = (if shown fd1 && (first_displayed cf =? 0) then num fd1
        else first_displayed cf)
  /\ last_displayed cf' = (if shown fd1 then num fd1 else last_displayed cf).
Proof.
  intros Hfd. cbv zeta. unfold add_packet_to_packet_list. rewrite Hfd.
  fold (dissected dfcode rec fd). unfold shown.
  destruct (passed_dfilter (dissected dfcode rec fd)
            || ref_time (dissected dfcode rec fd)); [|done].
  cbn. by destruct (first_displayed cf =? 0).
Qed.

Lemma counters_of_snoc fds fd cf cf' :
  counters_of fds cf ->
  Forall (fun fd => 1 <= num fd) fds -> 1 <= num fd ->
  Z.of_nat (length fds) < G_MAXUINT32 ->
  displayed_count cf'
  = (if shown fd then wrap32 (displayed_count cf + 1) else displayed_count cf) ->
  first_displayed cf'
  = (if shown fd && (first_displayed cf =? 0) then num fd
     else first_displayed cf) ->
  last_displayed cf' = (if shown fd then num fd else last_displayed cf) ->
  counters_of (fds ++ [fd]) cf'.
Proof.
  intros (Hdc & Hfirst & Hlast) Hnums Hnum Hmax Hdc' Hfirst' Hlast'.
  unfold counters_of. rewrite shown_frames_snoc, Hdc', Hfirst', Hlast'.
  pose proof (length_filter (fun fd => shown fd = true) fds) as Hle.
  fold (shown_frames fds) in Hle.
  destruct (shown fd); cbn [andb].
  - rewrite length_app, last_snoc. cbn [length fmap option_fmap option_map default].
    rewrite Hdc, wrap32_small by (unfold G_MAXUINT32 in *; lia).
    split; [lia|]. split; [|done].
    rewrite Hfirst. destruct (shown_frames fds) as [|x l] eqn:Hs; [done|].
    cbn. assert (Hx : x ∈ fds).
    { assert (Hin : x ∈ shown_frames fds) by (rewrite Hs; left).
      unfold shown_frames in Hin. by apply list_elem_of_filter in Hin as [_ ?]. }
    rewrite Forall_forall in Hnums. specialize (Hnums x Hx).
    destruct (Z.eqb_spec (num x) 0); [lia|done].
  - by rewrite app_nil_r.
Qed.

Section QuietCounts.

Context (dfilter_compile : string -> option (option dfilter_t)).
Context (rescan : bool -> world -> option world).
Context (wth : wtap) (redissect : bool) (dfcode : option dfilter_t)
        (add_to_packet_list : bool) (selected_frame : option Z).

(** The loop of a scan that nobody interrupts: it gets to the end of the
    store, every frame from its start on is what a scan leaves of it, and
    the display counters are those of the frames. *)
Lemma rescan_loop_counts (N : Z) : forall todo k v w,
  w_ui w = [] -> stop_flag (w_cf w) = false ->
  redissection_queued (w_cf w) = RESCAN_NONE ->
  store_ok wth (frames (w_cf w)) ->
  Z.of_nat (length (frames (w_cf w))) = N ->
  0 <= k -> Z.of_nat todo = N - k -> N < G_MAXUINT32 ->
  counters_of (take (Z.to_nat k) (frames (w_cf w))) (w_cf w) ->
  exists v' w',
    rescan_loop dfilter_compile todo rescan wth redissect dfcode
      add_to_packet_list selected_frame (k + 1) v w
    = Some (RESCAN_NONE, N + 1, v', w')
    /\ counters_of (frames (w_cf w')) (w_cf w')
    /\ take (Z.to_nat k) (frames (w_cf w')) = take (Z.to_nat k) (frames (w_cf w))
    /\ Forall2 (rescan_of wth redissect dfcode)
         (drop (Z.to_nat k) (frames (w_cf w)))
         (drop (Z.to_nat k) (frames (w_cf w')))
    /\ store_ok wth (frames (w_cf w'))
    /\ same_control w w' /\ w_log w' = w_log w /\ w_fs w' = w_fs w.
Proof.
  induction todo as [|todo IH]; intros k v w Hui Hstop Hq Hok Hlen Hk Htodo HN Hinv.
  - assert (k = N) as -> by lia. exists v, w. cbn.
    rewrite take_ge in Hinv by lia.
    split; [done|]. split; [done|]. split; [done|].
    rewrite drop_ge by lia. split; [constructor|]. split; [done|].
    split; [apply same_control_refl|done].
  - cbn [rescan_loop]. rewrite pump_quiet by done. rewrite Hq, Hstop.
    cbn [negb rescan_type_eqb].
    destruct (find_is_Some (frames (w_cf w)) (k + 1) ltac:(lia)) as [fd Hfd].
    rewrite Hfd.
    set (fd0 := if redissect then frame_data_reset fd else fd).
    destruct (Hok _ _ Hfd) as [Hnum [rec Hrec]].
    assert (Hfd0 : num fd0 = num fd /\ file_off fd0 = file_off fd).
    { unfold fd0. by destruct redissect. }
    unfold cf_read_record. destruct Hfd0 as [Hn0 Ho0]. rewrite Ho0, Hrec.
    set (w1 := on_cf _ w).
    assert (Hf1 : frames (w_cf w1) = frame_store_set (frames (w_cf w)) (k + 1) fd0) by done.
    assert (Hfind1 : frame_data_sequence_find (frames (w_cf w1)) (k + 1) = Some fd0).
    { rewrite Hf1. by eapply store_set_find_same. }
    set (w2 := on_cf (add_packet_to_packet_list (k + 1) dfcode rec add_to_packet_list) w1).
    set (fd1 := dissected dfcode rec fd0).
    assert (Hf2 : frames (w_cf w2) = frame_store_set (frames (w_cf w1)) (k + 1) fd1).
    { unfold w2. cbn. by apply add_packet_frames. }
    assert (Hf2' : frames (w_cf w2) = <[Z.to_nat k := fd1]> (frames (w_cf w))).
    { rewrite Hf2, Hf1. unfold frame_store_set.
      replace (Z.to_nat (k + 1 - 1)) with (Z.to_nat k) by lia.
      apply list_insert_insert_eq. }
    pose proof (add_packet_keeps (k + 1) dfcode rec add_to_packet_list (w_cf w1))
      as (Hc & Hst & Hrq & Hrl & Hcur & Hrd & Hsta & Hrf & Hdf & Hl2).
    pose proof (add_packet_counters (k + 1) dfcode rec add_to_packet_list (w_cf w1)
                  fd0 Hfind1) as (Hdc2 & Hfirst2 & Hlast2).
    fold fd1 in Hdc2, Hfirst2, Hlast2.
    assert (Hok1 : store_ok wth (frames (w_cf w1))).
    { rewrite Hf1. eapply store_ok_set; eauto. }
    assert (Hok2 : store_ok wth (frames (w_cf w2))).
    { rewrite Hf2. eapply store_ok_set; eauto.
      - apply dissected_num.
      - unfold fd1, dissected. by destruct dfcode. }
    assert (Hsame2 : same_control w w2).
    { unfold same_control.
      change (w_cf w2)
        with (add_packet_to_packet_list (k + 1) dfcode rec add_to_packet_list (w_cf w1)).
      rewrite Hc, Hcur, Hrl, Hrq, Hst, Hrd, Hsta, Hdf, Hl2, Hf1, store_set_length.
      done. }
    destruct Hsame2 as (Hui2 & Hfs2 & Hc2 & Hcur2 & Hrl2 & Hrq2 & Hst2 & Hrd2 & Hsta2 & Hdf2 & Hlen2).
    assert (Hlk : (Z.to_nat k < length (frames (w_cf w)))%nat) by lia.
    assert (Hlookup : frames (w_cf w) !! Z.to_nat k = Some fd).
    { rewrite find_lookup in Hfd by lia.
      by replace (Z.to_nat (k + 1 - 1)) with (Z.to_nat k) in Hfd by lia. }
    rewrite wrap32_small by (unfold G_MAXUINT32 in *; lia).
    destruct (IH (k + 1)
                (note_selected_and_prev (frames (w_cf w2)) (k + 1) selected_frame
                   (note_following (frames (w_cf w2)) (k + 1)
                      (note_preceding (frames (w_cf w1)) v))) w2)
      as (v' & w' & Hloop & Hinv' & Htake & Hall & Hok' & Hsame & Hlog & Hfs');
      try done; try lia; try congruence.
    + replace (Z.to_nat (k + 1)) with (S (Z.to_nat k)) by lia.
      rewrite Hf2', take_S_insert by done.
      apply (counters_of_snoc _ _ (w_cf w)); try done.
      * apply Forall_forall. intros x Hx. apply subseteq_take in Hx.
        apply list_elem_of_lookup in Hx as [i Hi].
        assert (Hfi : frame_data_sequence_find (frames (w_cf w)) (Z.of_nat i + 1) = Some x).
        { rewrite find_lookup by lia.
          by replace (Z.to_nat (Z.of_nat i + 1 - 1)) with i by lia. }
        destruct (Hok _ _ Hfi) as [-> _]. lia.
      * unfold fd1. rewrite dissected_num. lia.
      * rewrite length_take. lia.
    + exists v', w'. split; [exact Hloop|]. split; [done|].
      replace (Z.to_nat (k + 1)) with (S (Z.to_nat k)) in * by lia.
      assert (Hk' : frames (w_cf w') !! Z.to_nat k = Some fd1).
      { rewrite <- (lookup_take_lt _ (S (Z.to_nat k))) by lia.
        rewrite Htake, lookup_take_lt by lia.
        rewrite Hf2'. apply list_lookup_insert_eq. done. }
      split; [|split; [|split; [done|split; [|split]]]].
      * apply (f_equal (take (Z.to_nat k))) in Htake.
        rewrite !take_take in Htake.
        replace (Z.to_nat k `min` S (Z.to_nat k))%nat with (Z.to_nat k) in Htake by lia.
        rewrite Htake, Hf2'. apply take_insert_ge. lia.
      * rewrite (drop_S _ _ _ Hlookup), (drop_S _ _ _ Hk'). constructor.
        -- exists rec. split; [done|]. done.
        -- rewrite Hf2', drop_insert_lt in Hall by lia. exact Hall.
      * eapply same_control_trans; [|exact Hsame].
        unfold same_control. by repeat split.
      * by rewrite Hlog.
      * by rewrite Hfs'.
Qed.

End QuietCounts.

(** The repair of the selection touches neither the frames nor the
    counters nor the filter. *)
Lemma rescan_select_keeps selected v w :
  let w' := rescan_select selected v w in
  frames (w_cf w') = frames (w_cf w)
  /\ displayed_count (w_cf w') = displayed_count (w_cf w)
  /\ first_displayed (w_cf w') = first_displayed (w_cf w)
  /\ last_displayed (w_cf w') = last_displayed (w_cf w)
  /\ dfilter (w_cf w') = dfilter (w_cf w)
  /\ count (w_cf w') = count (w_cf w)
  /\ scans_of (w_log w') = scans_of (w_log w).
Proof.
  cbv zeta. unfold rescan_select.
  destruct (if selected_frame_num v =? -1 then _ else _) as [n p].
  destruct (n =? -1); [done|]. destruct (n =? 0).
  - cbn. by rewrite scans_of_app, app_nil_r.
  - destruct p; [|done]. cbn. by rewrite scans_of_app, app_nil_r.
Qed.

Section QuietRescanCounts.

Context (dfilter_compile : string -> option (option dfilter_t)).

(** A rescan that nobody interrupts. *)
Lemma rescan_packets_counts fuel wth redissect w :
  w_ui w = [] ->
  store_ok wth (frames (w_cf w)) ->
  count (w_cf w) = Z.of_nat (length (frames (w_cf w))) ->
  count (w_cf w) < G_MAXUINT32 ->
  exists w',
    rescan_packets dfilter_compile (S fuel) wth redissect w = Some w'
    /\ Forall2 (rescan_of wth redissect (compile_dfilter dfilter_compile (w_cf w)))
         (frames (w_cf w)) (frames (w_cf w'))
    /\ counters_of (frames (w_cf w')) (w_cf w')
    /\ count (w_cf w') = count (w_cf w)
    /\ dfilter (w_cf w') = dfilter (w_cf w)
    /\ read_lock (w_cf w') = false
    /\ scans_of (w_log w') = scans_of (w_log w) ++ [redissect].
Proof.
  intros Hui Hok Hcount Hmax. rewrite rescan_packets_S.
  set (dfcode := compile_dfilter dfilter_compile (w_cf w)).
  set (w0 := on_cf (set_stop_flag false) _).
  assert (H0 : w_ui w0 = [] /\ stop_flag (w_cf w0) = false
               /\ redissection_queued (w_cf w0) = RESCAN_NONE
               /\ frames (w_cf w0) = frames (w_cf w)
               /\ count (w_cf w0) = count (w_cf w)
               /\ dfilter (w_cf w0) = dfilter (w_cf w)
               /\ displayed_count (w_cf w0) = 0
               /\ first_displayed (w_cf w0) = 0 /\ last_displayed (w_cf w0) = 0
               /\ w_log w0 = w_log w ++ [RescanStarted redissect]).
  { unfold w0. by destruct redissect. }
  destruct H0 as (Hui0 & Hstop0 & Hq0 & Hfr0 & Hc0 & Hdf0 & Hdc0 & Hfd0 & Hld0 & Hlog0).
  clearbody w0.
  set (N := count (w_cf w)) in *.
  destruct (rescan_loop_counts dfilter_compile
              (rescan_packets dfilter_compile fuel wth) wth redissect
              (compile_dfilter dfilter_compile
                 (w_cf (on_cf (set_read_lock true)
                          (on_cf (set_redissection_queued RESCAN_NONE) w))))
              redissect
              (current_frame (w_cf (on_cf (set_read_lock true)
                          (on_cf (set_redissection_queued RESCAN_NONE) w))))
              N (Z.to_nat (count (w_cf w0))) 0 rescan_vars_init w0)
    as (v' & w1 & Hloop & Hinv & _ & Hall & Hok1 & Hsame & Hlog1 & Hfs1);
    try done; try (rewrite ?Hfr0, ?Hc0; lia).
  { by rewrite Hfr0. }
  change (0 + 1) with 1 in Hloop. rewrite Hloop.
  cbn [negb rescan_type_eqb].
  destruct Hsame as (Hui1 & _ & Hc1 & Hcur1 & Hrl1 & Hrq1 & Hst1 & Hrd1 & Hsta1 & Hdf1 & Hlen1).
  set (w2 := if redissect then _ else _).
  assert (Hw2 : w_cf w2 = set_redissecting false (w_cf w1) /\ w_log w2 = w_log w1).
  { unfold w2. destruct redissect; [|done]. cbn.
    rewrite Hc1, Hc0. replace (Z.to_nat (N - (N + 1) + 1)) with 0%nat by lia.
    cbn. split; [|done]. by destruct (w_cf w1). }
  destruct Hw2 as [Hcf2 Hlog2]. clearbody w2.
  pose proof (rescan_select_keeps
                (current_frame (w_cf (on_cf (set_read_lock true)
                          (on_cf (set_redissection_queued RESCAN_NONE) w))))
                v' (tell RescanFinished w2))
    as (Hsf & Hsdc & Hsfd & Hsld & Hsdf & Hsc & Hslog).
  eexists. split; [reflexivity|].
  rewrite on_cf_cf, on_cf_log.
  change (frames (set_read_lock false ?c)) with (frames c).
  change (count (set_read_lock false ?c)) with (count c).
  change (dfilter (set_read_lock false ?c)) with (dfilter c).
  unfold counters_of.
  change (displayed_count (set_read_lock false ?c)) with (displayed_count c).
  change (first_displayed (set_read_lock false ?c)) with (first_displayed c).
  change (last_displayed (set_read_lock false ?c)) with (last_displayed c).
  rewrite Hsf, Hsdc, Hsfd, Hsld, Hsdf, Hsc, Hslog.
  rewrite !tell_cf, tell_log, Hcf2, Hlog2, Hlog1, Hlog0.
  change (frames (set_redissecting false ?c)) with (frames c).
  change (count (set_redissecting false ?c)) with (count c).
  change (dfilter (set_redissecting false ?c)) with (dfilter c).
  change (displayed_count (set_redissecting false ?c)) with (displayed_count c).
  change (first_displayed (set_redissecting false ?c)) with (first_displayed c).
  change (last_displayed (set_redissecting false ?c)) with (last_displayed c).
  split.
  { rewrite Hfr0 in Hall. exact Hall. }
  split; [exact Hinv|]. split; [congruence|]. split; [congruence|].
  split; [done|].
  rewrite !scans_of_app. cbn. by rewrite app_nil_r.
Qed.

End QuietRescanCounts.

Section FilterChange.

Context (dfilter_compile : string -> option (option dfilter_t)).

(** X9.  A rescan that nobody interrupts leaves every frame as one scan
    leaves it: read again, reset first when the rescan redissects,
    dissected and so marked as visited, and judged by the display filter
    of the session on that dissection (every frame passes when there is
    none); the other fields of the frame that file.c reads are as they
    were.  Afterwards the
    count of displayed frames is the number of frames that passed or are
    time references, the first and the last displayed frame are the
    first and the last of these (0 when there is none), the number of
    frames and the filter text are as before and the lock is free. *)
Theorem quiet_rescan_applies_the_filter fuel wth redissect w :
  w_ui w = [] ->
  store_ok wth (frames (w_cf w)) ->
  count (w_cf w) = Z.of_nat (length (frames (w_cf w))) ->
  count (w_cf w) < G_MAXUINT32 ->
  exists w',
    rescan_packets dfilter_compile (S fuel) wth redissect w = Some w'
    /\ Forall2 (rescan_of wth redissect (compile_dfilter dfilter_compile (w_cf w)))
         (frames (w_cf w)) (frames (w_cf w'))
    /\ counters_of (frames (w_cf w')) (w_cf w')
    /\ count (w_cf w') = count (w_cf w)
    /\ dfilter (w_cf w') = dfilter (w_cf w)
    /\ read_lock (w_cf w') = false
    /\ scans_of (w_log w') = scans_of (w_log w) ++ [redissect].
Proof. apply rescan_packets_counts. Qed.

(** What a change of the display filter does to a session at rest. *)
Lemma cf_filter_packets_applies fuel wth text code force w :
  w_ui w = [] ->
  store_ok wth (frames (w_cf w)) ->
  count (w_cf w) = Z.of_nat (length (frames (w_cf w))) ->
  count (w_cf w) < G_MAXUINT32 ->
  read_lock (w_cf w) = false ->
  redissection_queued (w_cf w) = RESCAN_NONE ->
  state (w_cf w) <> FILE_CLOSED ->
  force = true \/ text <> default EmptyString (dfilter (w_cf w)) ->
  dfilter_compile text = Some (Some code) ->
  exists w',
    cf_filter_packets dfilter_compile (rescan_packets dfilter_compile (S fuel) wth)
      (Some text) force w = Some (CF_OK, w')
    /\ dfilter (w_cf w') = Some text
    /\ Forall2 (rescan_of wth false (Some code)) (frames (w_cf w)) (frames (w_cf w'))
    /\ counters_of (frames (w_cf w')) (w_cf w')
    /\ count (w_cf w') = count (w_cf w)
    /\ read_lock (w_cf w') = false
    /\ scans_of (w_log w') = scans_of (w_log w) ++ [false].
Proof.
  intros Hui Hok Hcount Hmax Hlock Hq Hstate Hnew Hcomp.
  unfold cf_filter_packets. cbv zeta.
  change (default EmptyString (Some text)) with text.
  assert (Hsame : negb force && String.eqb text (default EmptyString (dfilter (w_cf w)))
                  = false).
  { destruct Hnew as [->|Hne]; [done|].
    apply andb_false_iff. right. by apply String.eqb_neq. }
  rewrite Hsame, Hcomp.
  rewrite on_cf_cf.
  change (redissection_queued (set_dfilter ?d ?c)) with (redissection_queued c).
  change (read_lock (set_dfilter ?d ?c)) with (read_lock c).
  change (state (set_dfilter ?d ?c)) with (state c).
  rewrite Hq, Hlock. cbn [rescan_type_eqb].
  assert (Hst : file_state_eqb (state (w_cf w)) FILE_CLOSED = false).
  { destruct (file_state_eqb (state (w_cf w)) FILE_CLOSED) eqn:H; [|done].
    apply file_state_eqb_eq in H. done. }
  rewrite Hst. cbn [negb].
  destruct (rescan_packets_counts dfilter_compile fuel wth false
              (on_cf (set_dfilter (Some text)) w))
    as (w' & Hrescan & Hall & Hinv & Hc & Hdf & Hrl & Hsc); try done.
  rewrite Hrescan. exists w'. split; [done|]. split; [done|]. split; [|done].
  unfold compile_dfilter in Hall. cbn in Hall. by rewrite Hcomp in Hall.
Qed.

(** X10.  A change of the display filter at rest: a filter text that
    compiles becomes the filter of the session and one scan without
    redissection applies it at once, so that every frame is dissected,
    marked as visited and judged by the new filter, and the display
    counters are those of the frames; a
    text that does not compile is reported and changes nothing; the text
    that is already in force changes nothing unless the change is
    forced. *)
Theorem filter_change_is_applied_at_once fuel wth text force w :
  (forall code,
     w_ui w = [] ->
     store_ok wth (frames (w_cf w)) ->
     count (w_cf w) = Z.of_nat (length (frames (w_cf w))) ->
     count (w_cf w) < G_MAXUINT32 ->
     read_lock (w_cf w) = false ->
     redissection_queued (w_cf w) = RESCAN_NONE ->
     state (w_cf w) <> FILE_CLOSED ->
     force = true \/ text <> default EmptyString (dfilter (w_cf w)) ->
     dfilter_compile text = Some (Some code) ->
     exists w',
       cf_filter_packets dfilter_compile
         (rescan_packets dfilter_compile (S fuel) wth) (Some text) force w
       = Some (CF_OK, w')
       /\ dfilter (w_cf w') = Some text
       /\ Forall2 (rescan_of wth false (Some code))
            (frames (w_cf w)) (frames (w_cf w'))
       /\ counters_of (frames (w_cf w')) (w_cf w')
       /\ count (w_cf w') = count (w_cf w)
       /\ read_lock (w_cf w') = false
       /\ scans_of (w_log w') = scans_of (w_log w) ++ [false])
  /\ (forall rescan,
        force = true \/ text <> default EmptyString (dfilter (w_cf w)) ->
        dfilter_compile text = None ->
        cf_filter_packets dfilter_compile rescan (Some text) force w
        = Some (CF_ERROR, tell AlertInvalidFilter w))
  /\ (forall rescan,
        force = false -> text = default EmptyString (dfilter (w_cf w)) ->
        cf_filter_packets dfilter_compile rescan (Some text) force w
        = Some (CF_OK, w)).
Proof.
  split; [|split].
  - intros code. apply cf_filter_packets_applies.
  - intros rescan Hnew Hcomp. unfold cf_filter_packets. cbv zeta.
  change (default EmptyString (Some text)) with text.
    assert (Hsame : negb force
                    && String.eqb text (default EmptyString (dfilter (w_cf w)))
                    = false).
    { destruct Hnew as [->|Hne]; [done|].
      apply andb_false_iff. right. by apply String.eqb_neq. }
    by rewrite Hsame, Hcomp.
  - intros rescan -> Htext. unfold cf_filter_packets. cbv zeta.
    change (default EmptyString (Some text)) with text.
    by rewrite <- Htext, String.eqb_refl.
Qed.

End FilterChange.

Lemma quiet_rescan_applies_the_filter_witness :
  let w := sample_world
             (set_dfilter (Some "pick") (loaded_session (Some 2) false false false))
             [] in
  exists w',
    rescan_packets not_frame_2 1 (sample_wth 9) false w = Some w'
    /\ Forall2 (rescan_of (sample_wth 9) false (compile_dfilter not_frame_2 (w_cf w)))
         (frames (w_cf w)) (frames (w_cf w'))
    /\ counters_of (frames (w_cf w')) (w_cf w')
    /\ count (w_cf w') = count (w_cf w)
    /\ dfilter (w_cf w') = dfilter (w_cf w)
    /\ read_lock (w_cf w') = false
    /\ scans_of (w_log w') = scans_of (w_log w) ++ [false].
Proof.
  cbv zeta.
  apply (quiet_rescan_applies_the_filter not_frame_2 0 (sample_wth 9) false
           (sample_world
              (set_dfilter (Some "pick") (loaded_session (Some 2) false false false))
              []));
    sample_side.
Defined.

Lemma filter_change_is_applied_at_once_witness :
  let w := sample_world (loaded_session (Some 2) false false false) [] in
  (exists w',
     cf_filter_packets not_frame_2 (rescan_packets not_frame_2 1 (sample_wth 9))
       (Some "pick") false w = Some (CF_OK, w')
     /\ dfilter (w_cf w') = Some "pick"
     /\ Forall2 (rescan_of (sample_wth 9) false (Some (fun fd _ => negb (num fd =? 2))))
          (frames (w_cf w)) (frames (w_cf w'))
     /\ counters_of (frames (w_cf w')) (w_cf w')
     /\ count (w_cf w') = count (w_cf w)
     /\ read_lock (w_cf w') = false
     /\ scans_of (w_log w') = scans_of (w_log w) ++ [false])
  /\ cf_filter_packets (fun _ => None) (fun _ _ => None) (Some "pick") false w
     = Some (CF_ERROR, tell AlertInvalidFilter w)
  /\ cf_filter_packets not_frame_2 (fun _ _ => None) (Some EmptyString) false w
     = Some (CF_OK, w).
Proof.
  cbv zeta. split; [|split].
  - apply (filter_change_is_applied_at_once not_frame_2 0 (sample_wth 9) "pick" false
             (sample_world (loaded_session (Some 2) false false false) []));
      first [ sample_side | by right ].
  - apply (filter_change_is_applied_at_once (fun _ => None) 0 (sample_wth 9) "pick"
             false (sample_world (loaded_session (Some 2) false false false) []));
      first [ sample_side | by right ].
  - apply (filter_change_is_applied_at_once not_frame_2 0 (sample_wth 9) EmptyString
             false (sample_world (loaded_session (Some 2) false false false) []));
      sample_side.
Defined.

(** ** Reading a live capture in batches *)

Lemma same_mode_refl cf : same_mode cf cf.
Proof. by repeat split. Qed.

Lemma same_mode_trans cf1 cf2 cf3 :
  same_mode cf1 cf2 -> same_mode cf2 cf3 -> same_mode cf1 cf3.
Proof.
  unfold same_mode. intros (?&?&?&?&?&?&?&?) (?&?&?&?&?&?&?&?).
  repeat split; congruence.
Qed.

Lemma file_state_eqb_neq a b : a <> b -> file_state_eqb a b = false.
Proof.
  intros H. destruct (file_state_eqb a b) eqn:E; [|done].
  by apply file_state_eqb_eq in E.
Qed.

Section Tail.

Context (dfcode : option dfilter_t).

Lemma cf_finish_tail_loop_aborted records cf :
  state cf = FILE_READ_ABORTED -> cf_finish_tail_loop dfcode records cf = cf.
Proof. intros H. destruct records as [|[rec off] records]; cbn; [done|]. by rewrite H. Qed.

(** The loop of [cf_finish_tail] on a session that is not aborted takes
    every record, and keeps the store densely numbered. *)
Lemma cf_finish_tail_loop_spec : forall records cf,
  state cf <> FILE_READ_ABORTED -> dense cf ->
  count cf + Z.of_nat (length records) <= G_MAXUINT32 ->
  let cf' := cf_finish_tail_loop dfcode records cf in
  dense cf' /\ same_mode cf cf'
  /\ count cf <= count cf' <= count cf + Z.of_nat (length records)
  /\ (rfcode cf = None -> count cf' = count cf + Z.of_nat (length records)).
Proof.
  induction records as [|[rec off] records IH]; intros cf Hst Hd Hmax; cbv zeta.
  - cbn. split; [done|]. split; [apply same_mode_refl|]. split; lia.
  - cbn [cf_finish_tail_loop]. rewrite file_state_eqb_neq by done.
    cbn [length] in Hmax.
    pose proof (read_record_numbers rec off dfcode cf Hd ltac:(unfold G_MAXUINT32 in *; lia))
      as (Hd1 & Hc1 & _).
    pose proof (read_record_any rec off dfcode cf) as [_ Hm1].
    { destruct Hd. unfold G_MAXUINT32 in *. lia. }
    set (cf1 := snd (read_record rec off dfcode cf)) in *.
    assert (Hst1 : state cf1 <> FILE_READ_ABORTED).
    { destruct Hm1 as (_ & _ & _ & -> & _). done. }
    destruct (IH cf1 Hst1 Hd1 ltac:(lia)) as (Hd' & Hm' & Hc' & Hall').
    split; [done|]. split; [by eapply same_mode_trans|].
    cbn [length]. split; [lia|].
    intros Hrf.
    assert (Hp : read_filter_passes cf rec off = true).
    { unfold read_filter_passes. by rewrite Hrf. }
    destruct (read_record_dense rec off dfcode cf Hd
                ltac:(unfold G_MAXUINT32 in *; lia) Hp) as [_ Hc1'].
    fold cf1 in Hc1'. rewrite Hall'.
    + lia.
    + destruct Hm1 as (-> & _). done.
Qed.

Lemma cf_finish_tail_loop_app : forall l1 l2 cf,
  cf_finish_tail_loop dfcode (l1 ++ l2) cf
  = cf_finish_tail_loop dfcode l2 (cf_finish_tail_loop dfcode l1 cf).
Proof.
  induction l1 as [|[rec off] l1 IH]; intros l2 cf; [done|].
  cbn [app cf_finish_tail_loop].
  destruct (file_state_eqb (state cf) FILE_READ_ABORTED) eqn:E.
  - apply file_state_eqb_eq in E. by rewrite cf_finish_tail_loop_aborted.
  - apply IH.
Qed.

(** The loop of [cf_continue_tail] takes a batch, and leaves the session
    that the loop of [cf_finish_tail] leaves on that batch. *)
Lemma cf_continue_tail_loop_spec : forall records to_read newly cf,
  state cf <> FILE_READ_ABORTED ->
  0 <= count cf ->
  count cf + Z.of_nat (length records) <= G_MAXUINT32 ->
  exists newly',
    cf_continue_tail_loop dfcode records to_read newly cf
    = (bool_decide (to_read < 0 \/ Z.of_nat (length records) < to_read),
       newly', drop (taken to_read (length records)) records,
       cf_finish_tail_loop dfcode (take (taken to_read (length records)) records) cf)
    /\ newly <= newly' <= newly + Z.of_nat (taken to_read (length records)).
Proof.
  induction records as [|[rec off] records IH]; intros to_read newly cf Hst H0 Hmax.
  - exists newly. cbn [cf_continue_tail_loop length].
    unfold taken. destruct (Z.eqb_spec to_read 0) as [->|Hne].
    + cbn. split; [|lia]. by rewrite bool_decide_eq_false_2 by lia.
    + rewrite bool_decide_eq_true_2 by (cbn; lia).
      split; [|lia]. by destruct (to_read <? 0); rewrite ?Nat.min_0_r.
  - cbn [cf_continue_tail_loop length].
    destruct (Z.eqb_spec to_read 0) as [->|Hne].
    + exists newly. unfold taken. cbn. split; [|lia].
      by rewrite bool_decide_eq_false_2 by lia.
    + rewrite file_state_eqb_neq by done.
      pose proof (read_record_any rec off dfcode cf) as [Hc1 Hm1].
      { cbn [length] in Hmax. unfold G_MAXUINT32 in *. lia. }
      destruct (read_record rec off dfcode cf) as [added cf1] eqn:Hrr.
      cbn [snd] in Hc1, Hm1.
      assert (Hst1 : state cf1 <> FILE_READ_ABORTED).
      { destruct Hm1 as (_ & _ & _ & -> & _). done. }
      cbn [length] in Hmax.
      destruct (IH (to_read - 1) (if added then newly + 1 else newly) cf1 Hst1
                  ltac:(lia) ltac:(lia)) as (newly' & Hloop & Hn').
      exists newly'. rewrite Hloop.
      assert (Htaken : taken to_read (S (length records))
                       = S (taken (to_read - 1) (length records))).
      { unfold taken. destruct (Z.ltb_spec to_read 0), (Z.ltb_spec (to_read - 1) 0);
          lia. }
      rewrite Htaken. cbn [drop take cf_finish_tail_loop].
      rewrite file_state_eqb_neq by done. rewrite Hrr. cbn [snd].
      split.
      * assert (bool_decide (to_read - 1 < 0
                               \/ Z.of_nat (length records) < to_read - 1)
                = bool_decide (to_read < 0
                               \/ Z.of_nat (S (length records)) < to_read)) as ->
          by (apply bool_decide_ext; lia).
        done.
      * destruct added; lia.
Qed.

End Tail.

Section TailReads.

Context (dfilter_compile : string -> option (option dfilter_t)).

(** What [cf_continue_tail] does on a session that is not aborted. *)
Lemma cf_continue_tail_spec to_read multi_select_active wth w :
  state (w_cf w) <> FILE_READ_ABORTED -> dense (w_cf w) ->
  count (w_cf w) + Z.of_nat (length (wth_records wth)) <= G_MAXUINT32 ->
  let n := taken to_read (length (wth_records wth)) in
  let dfcode := compile_dfilter dfilter_compile (w_cf w) in
  exists moveto_end w',
    cf_continue_tail dfilter_compile to_read multi_select_active wth w
    = (if bool_decide (to_read < 0 \/ Z.of_nat (length (wth_records wth)) < to_read)
          && negb (wth_err wth =? 0)
       then CF_READ_ERROR else CF_READ_OK,
       moveto_end, drop n (wth_records wth), w')
    /\ w_cf w' = cf_finish_tail_loop dfcode (take n (wth_records wth)) (w_cf w)
    /\ dense (w_cf w')
    /\ count (w_cf w) <= count (w_cf w') <= count (w_cf w) + Z.of_nat n
    /\ (rfcode (w_cf w) = None -> count (w_cf w') = count (w_cf w) + Z.of_nat n)
    /\ read_lock (w_cf w') = read_lock (w_cf w)
    /\ w_log w' = w_log w
         ++ match current_frame (w_cf w) with
            | None => if multi_select_active then [] else [SelectFirstRow]
            | Some _ => []
            end.
Proof.
  intros Hst Hd Hmax n dfcode. unfold cf_continue_tail. fold dfcode.
  destruct (cf_continue_tail_loop_spec dfcode (wth_records wth) to_read 0 (w_cf w)
              Hst ltac:(by destruct Hd) Hmax) as (newly' & Hloop & _).
  rewrite Hloop. fold n.
  set (cf1 := cf_finish_tail_loop dfcode (take n (wth_records wth)) (w_cf w)).
  assert (Hn : (n <= length (wth_records wth))%nat).
  { unfold n, taken. destruct (to_read <? 0); lia. }
  destruct (cf_finish_tail_loop_spec dfcode (take n (wth_records wth)) (w_cf w) Hst Hd)
    as (Hd1 & Hm1 & Hc1 & Hall1).
  { rewrite length_take. lia. }
  fold cf1 in Hd1, Hm1, Hc1, Hall1.
  rewrite length_take in Hc1, Hall1.
  replace (n `min` length (wth_records wth))%nat with n in Hc1, Hall1 by lia.
  destruct Hm1 as (_ & _ & _ & Hsta1 & _ & Hrl1 & _ & Hcur1).
  cbv zeta. change (w_cf (with_cf cf1 w)) with cf1.
  rewrite Hcur1.
  set (w1 := match current_frame (w_cf w) with
             | Some _ => with_cf cf1 w
             | None => if multi_select_active then with_cf cf1 w
                       else tell SelectFirstRow (with_cf cf1 w)
             end).
  assert (Hw1 : w_cf w1 = cf1
                /\ w_log w1 = w_log w
                     ++ match current_frame (w_cf w) with
                        | None => if multi_select_active then [] else [SelectFirstRow]
                        | Some _ => []
                        end).
  { unfold w1. destruct (current_frame (w_cf w)); [|destruct multi_select_active];
      cbn; by rewrite ?app_nil_r. }
  destruct Hw1 as [Hcf1 Hlog1]. clearbody w1.
  rewrite Hcf1, (file_state_eqb_neq (state cf1)) by (by rewrite Hsta1).
  set (eof := bool_decide _).
  eexists _, w1. split.
  - destruct eof; cbn [andb]; [|done]. by destruct (wth_err wth =? 0).
  - rewrite Hcf1. split; [done|]. split; [done|]. split; [lia|].
    split; [done|]. split; [done|]. done.
Qed.

End TailReads.

Section TailTheorems.

Context (dfilter_compile : string -> option (option dfilter_t)).

(** What [cf_finish_tail] does on a session that is not aborted. *)
Lemma cf_finish_tail_spec wth w :
  state (w_cf w) <> FILE_READ_ABORTED -> dense (w_cf w) ->
  count (w_cf w) + Z.of_nat (length (wth_records wth)) <= G_MAXUINT32 ->
  let dfcode := compile_dfilter dfilter_compile (w_cf w) in
  exists w',
    cf_finish_tail dfilter_compile (Some wth) w
    = Some (if wth_err wth =? 0 then CF_READ_OK else CF_READ_ERROR, w')
    /\ w_cf w' = set_state FILE_READ_DONE
                   (cf_finish_tail_loop dfcode (wth_records wth) (w_cf w))
    /\ state (w_cf w') = FILE_READ_DONE
    /\ dense (w_cf w')
    /\ count (w_cf w) <= count (w_cf w')
       <= count (w_cf w) + Z.of_nat (length (wth_records wth))
    /\ (rfcode (w_cf w) = None ->
        count (w_cf w') = count (w_cf w) + Z.of_nat (length (wth_records wth)))
    /\ w_log w' = w_log w.
Proof.
  intros Hst Hd Hmax dfcode. unfold cf_finish_tail. fold dfcode.
  destruct (cf_finish_tail_loop_spec dfcode (wth_records wth) (w_cf w) Hst Hd Hmax)
    as (Hd1 & Hm1 & Hc1 & Hall1).
  rewrite on_cf_cf.
  set (cf1 := cf_finish_tail_loop dfcode (wth_records wth) (w_cf w)) in *.
  destruct Hm1 as (_ & _ & _ & Hsta1 & _).
  rewrite (file_state_eqb_neq (state cf1)) by (by rewrite Hsta1).
  eexists. split.
  { by destruct (wth_err wth =? 0). }
  change (w_cf (on_cf (set_state FILE_READ_DONE) ?x))
    with (set_state FILE_READ_DONE (w_cf x)).
  rewrite on_cf_cf. fold cf1.
  split; [done|]. split; [done|]. split; [done|]. split; [exact Hc1|].
  split; [exact Hall1|]. done.
Qed.

(** X11.  One batch of a live capture: [cf_continue_tail] takes the
    first [to_read] of the records that are there (all of them when
    there are fewer or when [to_read] is negative) and leaves the others
    to the provider; the store stays densely numbered and grows by at
    most one frame for each record taken, by exactly one without a read
    filter; the result is an error only when the provider ran dry with an
    error.  Neither the lock nor a limit on the number of records is
    consulted, and the lock is left as it was. *)
Theorem tail_batch_takes_what_is_asked to_read multi_select_active wth w :
  state (w_cf w) <> FILE_READ_ABORTED -> dense (w_cf w) ->
  count (w_cf w) + Z.of_nat (length (wth_records wth)) <= G_MAXUINT32 ->
  let n := taken to_read (length (wth_records wth)) in
  exists moveto_end w',
    cf_continue_tail dfilter_compile to_read multi_select_active wth w
    = (if bool_decide (to_read < 0 \/ Z.of_nat (length (wth_records wth)) < to_read)
          && negb (wth_err wth =? 0)
       then CF_READ_ERROR else CF_READ_OK,
       moveto_end, drop n (wth_records wth), w')
    /\ dense (w_cf w')
    /\ count (w_cf w) <= count (w_cf w') <= count (w_cf w) + Z.of_nat n
    /\ (rfcode (w_cf w) = None -> count (w_cf w') = count (w_cf w) + Z.of_nat n)
    /\ read_lock (w_cf w') = read_lock (w_cf w)
    /\ w_log w' = w_log w
         ++ match current_frame (w_cf w) with
            | None => if multi_select_active then [] else [SelectFirstRow]
            | Some _ => []
            end.
Proof.
  intros Hst Hd Hmax n.
  destruct (cf_continue_tail_spec dfilter_compile to_read multi_select_active wth w
              Hst Hd Hmax) as (me & w' & Hrun & _ & H).
  by exists me, w'.
Qed.

(** X12.  Batches add up: finishing a live capture after one batch has
    been taken, on the records that the batch left, returns, and it gives
    the same result and the same session as finishing it at once. *)
Theorem tail_batches_add_up to_read multi_select_active wth w :
  state (w_cf w) <> FILE_READ_ABORTED -> dense (w_cf w) ->
  count (w_cf w) + Z.of_nat (length (wth_records wth)) <= G_MAXUINT32 ->
  let n := taken to_read (length (wth_records wth)) in
  let w1 := snd (cf_continue_tail dfilter_compile to_read multi_select_active wth w) in
  let later := cf_finish_tail dfilter_compile (Some (wtap_after n wth)) w1 in
  let at_once := cf_finish_tail dfilter_compile (Some wth) w in
  exists st w_later w_at_once,
    later = Some (st, w_later) /\ at_once = Some (st, w_at_once)
    /\ w_cf w_later = w_cf w_at_once.
Proof.
  intros Hst Hd Hmax n. cbv zeta.
  destruct (cf_continue_tail_spec dfilter_compile to_read multi_select_active wth w
              Hst Hd Hmax) as (me & w1 & Hrun & Hcf1 & Hd1 & Hc1 & _).
  fold n in Hrun, Hcf1, Hc1. rewrite Hrun. cbn [snd].
  assert (Hn : (n <= length (wth_records wth))%nat).
  { unfold n, taken. destruct (to_read <? 0); lia. }
  destruct (cf_finish_tail_loop_spec (compile_dfilter dfilter_compile (w_cf w))
              (take n (wth_records wth)) (w_cf w) Hst Hd) as (_ & Hm1 & _).
  { rewrite length_take. lia. }
  rewrite <- Hcf1 in Hm1.
  destruct Hm1 as (_ & _ & _ & Hsta1 & _ & _ & Hdf1 & _).
  destruct (cf_finish_tail_spec (wtap_after n wth) w1) as (w2 & Hlater & Hcf2 & _).
  { by rewrite Hsta1. }
  { done. }
  { cbn. rewrite length_drop. lia. }
  destruct (cf_finish_tail_spec wth w Hst Hd Hmax) as (w3 & Honce & Hcf3 & _).
  rewrite Hlater, Honce. eexists _, w2, w3. split; [done|]. split; [done|].
  rewrite Hcf2, Hcf3. f_equal.
  assert (Hcomp : compile_dfilter dfilter_compile (w_cf w1)
                  = compile_dfilter dfilter_compile (w_cf w)).
  { unfold compile_dfilter. by rewrite Hdf1. }
  rewrite Hcomp, Hcf1. cbn [wth_records wtap_after].
  rewrite <- cf_finish_tail_loop_app. by rewrite take_drop.
Qed.

(** X13.  The end of a live capture: on a session that is not aborted
    [cf_finish_tail] takes every record that is left, leaves the session
    in the state "read done" with a densely numbered store and reports
    an error exactly when the provider ended with one.  On an aborted
    session it reads nothing and closes the session, which takes that the
    session is not locked: on a locked one the assertion of [cf_close]
    fails and nothing is returned.  Without a provider it closes the
    session and reports an error, under the two assertions of
    [cf_close]: the session is not being read and is not locked. *)
Theorem tail_end_reads_all_or_closes wth w :
  (state (w_cf w) <> FILE_READ_ABORTED -> dense (w_cf w) ->
   count (w_cf w) + Z.of_nat (length (wth_records wth)) <= G_MAXUINT32 ->
   exists w',
     cf_finish_tail dfilter_compile (Some wth) w
     = Some (if wth_err wth =? 0 then CF_READ_OK else CF_READ_ERROR, w')
     /\ state (w_cf w') = FILE_READ_DONE
     /\ dense (w_cf w')
     /\ count (w_cf w) <= count (w_cf w')
        <= count (w_cf w) + Z.of_nat (length (wth_records wth))
     /\ (rfcode (w_cf w) = None ->
         count (w_cf w') = count (w_cf w) + Z.of_nat (length (wth_records wth)))
     /\ w_log w' = w_log w)
  /\ (state (w_cf w) = FILE_READ_ABORTED ->
      (read_lock (w_cf w) = false ->
       exists w',
         cf_close w = Some w'
         /\ cf_finish_tail dfilter_compile (Some wth) w = Some (CF_READ_ABORTED, w')
         /\ state (w_cf w') = FILE_CLOSED
         /\ count (w_cf w') = 0 /\ frames (w_cf w') = [])
      /\ (read_lock (w_cf w) = true ->
          cf_finish_tail dfilter_compile (Some wth) w = None))
  /\ (state (w_cf w) <> FILE_READ_IN_PROGRESS -> read_lock (w_cf w) = false ->
      exists w',
        cf_close w = Some w'
        /\ cf_finish_tail dfilter_compile None w = Some (CF_READ_ERROR, w')
        /\ state (w_cf w') = FILE_CLOSED)
  /\ (state (w_cf w) = FILE_READ_IN_PROGRESS
      \/ (state (w_cf w) <> FILE_CLOSED /\ read_lock (w_cf w) = true) ->
      cf_finish_tail dfilter_compile None w = None).
Proof.
  split; [|split; [|split]].
  - intros Hst Hd Hmax.
    destruct (cf_finish_tail_spec wth w Hst Hd Hmax) as (w' & Hrun & _ & H).
    by exists w'.
  - intros Hst. unfold cf_finish_tail. rewrite on_cf_cf.
    rewrite cf_finish_tail_loop_aborted by done.
    assert (Hw : on_cf (cf_finish_tail_loop (compile_dfilter dfilter_compile (w_cf w))
                          (wth_records wth)) w = w).
    { unfold on_cf. rewrite cf_finish_tail_loop_aborted by done. by destruct w. }
    rewrite Hw, Hst. cbn [file_state_eqb]. split.
    + intros Hlock.
      destruct (cf_close_returns w) as [w' Hclose]; [by rewrite Hst|done|].
      exists w'. rewrite Hclose. split; [done|]. split; [done|].
      pose proof (cf_close_fields w w' Hclose)
        as (Hcl & _ & _ & _ & _ & _ & _ & _ & Hopened).
      destruct Hopened as (? & ? & _); [by rewrite Hst|done].
    + intros Hlock. unfold cf_close. rewrite on_cf_cf.
      change (state (set_stop_flag false (w_cf w))) with (state (w_cf w)).
      change (read_lock (set_stop_flag false (w_cf w))) with (read_lock (w_cf w)).
      by rewrite Hst, Hlock.
  - intros Hst Hlock.
    destruct (cf_close_returns w Hst Hlock) as [w' Hclose].
    exists w'. unfold cf_finish_tail. rewrite Hclose. split; [done|].
    split; [done|]. apply (cf_close_fields w w' Hclose).
  - intros Hbad. unfold cf_finish_tail, cf_close. rewrite on_cf_cf.
    change (state (set_stop_flag false (w_cf w))) with (state (w_cf w)).
    change (read_lock (set_stop_flag false (w_cf w))) with (read_lock (w_cf w)).
    destruct Hbad as [Hst|[Hst Hlock]].
    + by rewrite Hst.
    + rewrite Hlock, orb_true_r. by destruct (state (w_cf w)).
Qed.

End TailTheorems.

Lemma tail_batch_takes_what_is_asked_witness :
  let w := sample_world (set_read_lock true opened_session) [] in
  exists moveto_end w',
    cf_continue_tail no_filter 2 false (sample_wth 9) w
    = (if bool_decide (2 < 0 \/ Z.of_nat (length (wth_records (sample_wth 9))) < 2)
          && negb (wth_err (sample_wth 9) =? 0)
       then CF_READ_ERROR else CF_READ_OK,
       moveto_end,
       drop (taken 2 (length (wth_records (sample_wth 9))))
         (wth_records (sample_wth 9)), w')
    /\ dense (w_cf w')
    /\ count (w_cf w) <= count (w_cf w')
       <= count (w_cf w)
          + Z.of_nat (taken 2 (length (wth_records (sample_wth 9))))
    /\ (rfcode (w_cf w) = None ->
        count (w_cf w')
        = count (w_cf w) + Z.of_nat (taken 2 (length (wth_records (sample_wth 9)))))
    /\ read_lock (w_cf w') = read_lock (w_cf w)
    /\ w_log w' = w_log w
         ++ match current_frame (w_cf w) with
            | None => if false then [] else [SelectFirstRow]
            | Some _ => []
            end.
Proof.
  cbv zeta.
  apply (tail_batch_takes_what_is_asked no_filter 2 false (sample_wth 9)
           (sample_world (set_read_lock true opened_session) []));
    first [ discriminate | apply opened_session_dense | vm_compute; discriminate ].
Defined.

Lemma tail_batches_add_up_witness :
  let w := sample_world opened_session [] in
  let n := taken 2 (length (wth_records (sample_wth 9))) in
  let w1 := snd (cf_continue_tail no_filter 2 false (sample_wth 9) w) in
  let later := cf_finish_tail no_filter (Some (wtap_after n (sample_wth 9))) w1 in
  let at_once := cf_finish_tail no_filter (Some (sample_wth 9)) w in
  exists st w_later w_at_once,
    later = Some (st, w_later) /\ at_once = Some (st, w_at_once)
    /\ w_cf w_later = w_cf w_at_once.
Proof.
  cbv zeta.
  apply (tail_batches_add_up no_filter 2 false (sample_wth 9)
           (sample_world opened_session []));
    first [ discriminate | apply opened_session_dense | vm_compute; discriminate ].
Defined.

Lemma tail_end_reads_all_or_closes_witness :
  (let w := sample_world opened_session [] in
   exists w',
     cf_finish_tail no_filter (Some (sample_wth 9)) w
     = Some (if wth_err (sample_wth 9) =? 0 then CF_READ_OK else CF_READ_ERROR, w')
     /\ state (w_cf w') = FILE_READ_DONE
     /\ dense (w_cf w')
     /\ count (w_cf w) <= count (w_cf w')
        <= count (w_cf w) + Z.of_nat (length (wth_records (sample_wth 9)))
     /\ (rfcode (w_cf w) = None ->
         count (w_cf w')
         = count (w_cf w) + Z.of_nat (length (wth_records (sample_wth 9))))
     /\ w_log w' = w_log w)
  /\ (let w := sample_world (set_state FILE_READ_ABORTED opened_session) [] in
      exists w',
        cf_close w = Some w'
        /\ cf_finish_tail no_filter (Some (sample_wth 9)) w
           = Some (CF_READ_ABORTED, w')
        /\ state (w_cf w') = FILE_CLOSED
        /\ count (w_cf w') = 0 /\ frames (w_cf w') = [])
  /\ (let w := sample_world
                 (set_read_lock true (set_state FILE_READ_ABORTED opened_session))
                 [] in
      cf_finish_tail no_filter (Some (sample_wth 9)) w = None)
  /\ (let w := sample_world (loaded_session None false false false) [] in
      exists w',
        cf_close w = Some w'
        /\ cf_finish_tail no_filter None w = Some (CF_READ_ERROR, w')
        /\ state (w_cf w') = FILE_CLOSED)
  /\ (let w := sample_world opened_session [] in
      cf_finish_tail no_filter None w = None).
Proof.
  cbv zeta. split; [|split; [|split; [|split]]].
  - apply (tail_end_reads_all_or_closes no_filter (sample_wth 9)
             (sample_world opened_session []));
      first [ discriminate | apply opened_session_dense | vm_compute; discriminate ].
  - destruct (tail_end_reads_all_or_closes no_filter (sample_wth 9)
                (sample_world (set_state FILE_READ_ABORTED opened_session) []))
      as (_ & Haborted & _).
    apply (proj1 (Haborted eq_refl)). reflexivity.
  - destruct (tail_end_reads_all_or_closes no_filter (sample_wth 9)
                (sample_world
                   (set_read_lock true
                      (set_state FILE_READ_ABORTED opened_session)) []))
      as (_ & Haborted & _).
    apply (proj2 (Haborted eq_refl)). reflexivity.
  - destruct (tail_end_reads_all_or_closes no_filter (sample_wth 9)
                (sample_world (loaded_session None false false false) []))
      as (_ & _ & Hclosing & _).
    apply Hclosing; [discriminate|reflexivity].
  - destruct (tail_end_reads_all_or_closes no_filter (sample_wth 9)
                (sample_world opened_session []))
      as (_ & _ & _ & Hassert).
    apply Hassert. left. reflexivity.
Defined.

(** ** Closing and opening *)

(** When [cf_close] returns: on a closed session, and on one that is
    neither being read nor locked. *)
Lemma cf_close_is_Some w :
  state (w_cf w) = FILE_CLOSED
  \/ (state (w_cf w) <> FILE_READ_IN_PROGRESS /\ read_lock (w_cf w) = false) ->
  is_Some (cf_close w).
Proof.
  intros [Hst|[Hst Hlock]]; [|by apply cf_close_returns].
  unfold cf_close. cbv zeta. rewrite on_cf_cf.
  change (state (set_stop_flag false (w_cf w))) with (state (w_cf w)).
  by rewrite Hst.
Qed.

(** When one of the assertions of [cf_close] fails. *)
Lemma cf_close_asserts w :
  state (w_cf w) = FILE_READ_IN_PROGRESS
  \/ (state (w_cf w) <> FILE_CLOSED /\ read_lock (w_cf w) = true) ->
  cf_close w = None.
Proof.
  intros Hbad. unfold cf_close. cbv zeta. rewrite on_cf_cf.
  change (state (set_stop_flag false (w_cf w))) with (state (w_cf w)).
  change (read_lock (set_stop_flag false (w_cf w))) with (read_lock (w_cf w)).
  destruct Hbad as [Hst|[Hst Hlock]].
  - by rewrite Hst.
  - rewrite Hlock, orb_true_r. by destruct (state (w_cf w)).
Qed.

Lemma cf_close_files w w' :
  cf_close w = Some w' ->
  match filename (w_cf w) with
  | Some f =>
      if negb (file_state_eqb (state (w_cf w)) FILE_CLOSED) && is_tempfile (w_cf w)
      then w_fs w' = delete f (w_fs w)
      else w_fs w' = w_fs w
  | None => w_fs w' = w_fs w
  end.
Proof.
  unfold cf_close. cbv zeta. rewrite on_cf_cf.
  change (state (set_stop_flag false (w_cf w))) with (state (w_cf w)).
  destruct (file_state_eqb (state (w_cf w)) FILE_CLOSED) eqn:E.
  - intros [= <-]. by destruct (filename (w_cf w)).
  - destruct (_ || _); [done|]. intros [= <-].
    rewrite ?tell_cf, ?on_cf_cf.
    change (filename (set_stop_flag false (w_cf w))) with (filename (w_cf w)).
    change (is_tempfile (set_stop_flag false (w_cf w))) with (is_tempfile (w_cf w)).
    destruct (filename (w_cf w)); [destruct (is_tempfile (w_cf w))|]; done.
Qed.

Lemma cf_close_closed w :
  state (w_cf w) = FILE_CLOSED -> stop_flag (w_cf w) = false ->
  cf_close w = Some w.
Proof.
  intros Hst Hsf. unfold cf_close. cbv zeta. rewrite on_cf_cf.
  change (state (set_stop_flag false (w_cf w))) with (state (w_cf w)).
  rewrite Hst. cbn [file_state_eqb].
  destruct w as [cf ui log fs]. destruct cf. cbn in *. by subst.
Qed.

Lemma file_state_eqb_neq_closed a :
  a <> FILE_CLOSED -> file_state_eqb a FILE_CLOSED = false.
Proof.
  intros H. destruct (file_state_eqb a FILE_CLOSED) eqn:E; [|done].
  by apply file_state_eqb_eq in E.
Qed.

(** X14.  Closing: [cf_close] returns on a closed session and on one
    that is neither being read nor locked; on any other session one of
    its two assertions fails.  When it returns it leaves the session
    closed with the stop flag down, and closing again changes nothing.
    Closing a session that was not closed empties the store and the
    edited blocks, clears the selection, the file name, the read filter,
    the unsaved changes and the first and last displayed frame, and
    removes the file when it is the temporary file of a capture, and no
    other file.  It does not clear the text of the display filter, the
    count of displayed frames, the lock or a pending rescan. *)
Theorem close_resets_the_session w :
  (state (w_cf w) = FILE_CLOSED
   \/ (state (w_cf w) <> FILE_READ_IN_PROGRESS /\ read_lock (w_cf w) = false) ->
   exists w',
     cf_close w = Some w'
     /\ cf_close w' = Some w'
     /\ state (w_cf w') = FILE_CLOSED
     /\ stop_flag (w_cf w') = false
     /\ dfilter (w_cf w') = dfilter (w_cf w)
     /\ displayed_count (w_cf w') = displayed_count (w_cf w)
     /\ read_lock (w_cf w') = read_lock (w_cf w)
     /\ redissection_queued (w_cf w') = redissection_queued (w_cf w)
     /\ (state (w_cf w) <> FILE_CLOSED ->
         count (w_cf w') = 0 /\ frames (w_cf w') = []
         /\ frames_modified_blocks (w_cf w') = []
         /\ current_frame (w_cf w') = None
         /\ filename (w_cf w') = None
         /\ unsaved_changes (w_cf w') = false
         /\ rfcode (w_cf w') = None
         /\ first_displayed (w_cf w') = 0
         /\ last_displayed (w_cf w') = 0
         /\ (forall f, filename (w_cf w) = Some f ->
               w_fs w' = if is_tempfile (w_cf w) then delete f (w_fs w) else w_fs w)
         /\ (filename (w_cf w) = None -> w_fs w' = w_fs w)))
  /\ (state (w_cf w) = FILE_READ_IN_PROGRESS
      \/ (state (w_cf w) <> FILE_CLOSED /\ read_lock (w_cf w) = true) ->
      cf_close w = None).
Proof.
  split; [|apply cf_close_asserts].
  intros Hret. destruct (cf_close_is_Some w Hret) as [w' Hclose].
  pose proof (cf_close_fields w w' Hclose)
    as (Hst & Hsf & Hdf & Hdc & Hrl & Hrq & _ & _ & Hopen).
  pose proof (cf_close_files w w' Hclose) as Hfiles.
  exists w'. split; [done|].
  split; [by apply cf_close_closed|].
  split; [done|]. split; [done|]. split; [done|]. split; [done|].
  split; [done|]. split; [done|].
  intros Hne. destruct (Hopen Hne) as (?&?&?&?&?&?&?&?&?&_).
  rewrite (file_state_eqb_neq_closed _ Hne) in Hfiles.
  repeat (split; [done|]). split.
  - intros f Hf. rewrite Hf in Hfiles. cbn [negb andb] in Hfiles.
    by destruct (is_tempfile (w_cf w)).
  - intros Hf. by rewrite Hf in Hfiles.
Qed.

Lemma close_resets_the_session_witness :
  (let w := sample_world (loaded_session (Some 2) true false true) [] in
   exists w',
     cf_close w = Some w'
     /\ cf_close w' = Some w'
     /\ state (w_cf w') = FILE_CLOSED
     /\ stop_flag (w_cf w') = false
     /\ dfilter (w_cf w') = dfilter (w_cf w)
     /\ displayed_count (w_cf w') = displayed_count (w_cf w)
     /\ read_lock (w_cf w') = read_lock (w_cf w)
     /\ redissection_queued (w_cf w') = redissection_queued (w_cf w)
     /\ (state (w_cf w) <> FILE_CLOSED ->
         count (w_cf w') = 0 /\ frames (w_cf w') = []
         /\ frames_modified_blocks (w_cf w') = []
         /\ current_frame (w_cf w') = None
         /\ filename (w_cf w') = None
         /\ unsaved_changes (w_cf w') = false
         /\ rfcode (w_cf w') = None
         /\ first_displayed (w_cf w') = 0
         /\ last_displayed (w_cf w') = 0
         /\ (forall f, filename (w_cf w) = Some f ->
               w_fs w' = if is_tempfile (w_cf w) then delete f (w_fs w) else w_fs w)
         /\ (filename (w_cf w) = None -> w_fs w' = w_fs w)))
  /\ cf_close (sample_world opened_session []) = None
  /\ cf_close
       (sample_world (set_read_lock true (loaded_session (Some 2) true false true)) [])
     = None.
Proof.
  cbv zeta. split; [|split].
  - apply (proj1 (close_resets_the_session
                    (sample_world (loaded_session (Some 2) true false true) []))).
    right. split; [discriminate|reflexivity].
  - apply (proj2 (close_resets_the_session (sample_world opened_session []))).
    left. reflexivity.
  - apply (proj2 (close_resets_the_session
                    (sample_world
                       (set_read_lock true
                          (loaded_session (Some 2) true false true)) []))).
    right. split; [discriminate|reflexivity].
Defined.


Section OpenThenRead.

Context (dfilter_compile : string -> option (option dfilter_t)).



End OpenThenRead.


(** ** The registry of callbacks *)

Lemma cf_callback_remove_missing func user_data cbs :
  (func, user_data) ∉ cbs -> cf_callback_remove func user_data cbs = None.
Proof.
  induction cbs as [|[f u] cbs IH]; intros Hnot; cbn; [done|].
  apply not_elem_of_cons in Hnot as [Hne Hnot].
  destruct (Z.eqb_spec f func) as [->|Hf]; cbn.
  - destruct (Z.eqb_spec u user_data) as [->|Hu]; [done|]. by rewrite IH.
  - by rewrite IH.
Qed.

Lemma cf_callback_remove_present func user_data cbs :
  (func, user_data) ∈ cbs ->
  exists before after,
    cbs = before ++ (func, user_data) :: after
    /\ ((func, user_data) ∉ before)
    /\ cf_callback_remove func user_data cbs = Some (before ++ after).
Proof.
  induction cbs as [|[f u] cbs IH]; intros Hin; [by apply elem_of_nil in Hin|].
  cbn. destruct (Z.eqb_spec f func) as [->|Hf]; cbn.
  - destruct (Z.eqb_spec u user_data) as [->|Hu].
    + exists [], cbs. split; [done|]. split; [apply not_elem_of_nil|done].
    + apply elem_of_cons in Hin as [Heq|Hin]; [congruence|].
      destruct (IH Hin) as (before & after & -> & Hnot & Hrem).
      exists ((func, u) :: before), after. rewrite Hrem.
      split; [done|]. split; [|done].
      apply not_elem_of_cons. split; [congruence|done].
  - apply elem_of_cons in Hin as [Heq|Hin]; [congruence|].
    destruct (IH Hin) as (before & after & -> & Hnot & Hrem).
    exists ((f, u) :: before), after. rewrite Hrem.
    split; [done|]. split; [|done].
    apply not_elem_of_cons. split; [congruence|done].
Qed.

Lemma cf_callback_invoke_registered event data regs :
  cf_callback_invoke event data
    (foldl (fun cbs r => cf_callback_add (fst r) (snd r) cbs) [] regs)
  = map (fun r => (fst r, event, data, snd r)) (reverse regs).
Proof.
  assert (H : forall cbs,
    cf_callback_invoke event data
      (foldl (fun cbs r => cf_callback_add (fst r) (snd r) cbs) cbs regs)
    = map (fun r => (fst r, event, data, snd r)) (reverse regs)
      ++ cf_callback_invoke event data cbs).
  { induction regs as [|[f u] regs IH]; intros cbs; [done|].
    cbn [foldl]. rewrite IH, reverse_cons, map_app, <- app_assoc. done. }
  by rewrite H, app_nil_r.
Qed.

(** X16.  The registry of callbacks: an event is delivered to the
    registered callbacks newest first, that is in the reverse of the order
    in which they were registered; a callback that is removed right after
    it was registered leaves the registry as it was; removing takes out
    the newest entry with that function and that data and no other, and
    removing what is not registered runs into the assertion. *)
Theorem callbacks_run_newest_first event data regs func user_data cbs :
  cf_callback_invoke event data
    (foldl (fun cbs r => cf_callback_add (fst r) (snd r) cbs) [] regs)
  = map (fun r => (fst r, event, data, snd r)) (reverse regs)
  /\ cf_callback_remove func user_data (cf_callback_add func user_data cbs)
     = Some cbs
  /\ ((func, user_data) ∈ cbs ->
      exists before after,
        cbs = before ++ (func, user_data) :: after
        /\ ((func, user_data) ∉ before)
        /\ cf_callback_remove func user_data cbs = Some (before ++ after))
  /\ ((func, user_data) ∉ cbs -> cf_callback_remove func user_data cbs = None).
Proof.
  split; [apply cf_callback_invoke_registered|]. split.
  - unfold cf_callback_add. cbn. by rewrite !Z.eqb_refl.
  - split; [apply cf_callback_remove_present|apply cf_callback_remove_missing].
Qed.

Lemma callbacks_run_newest_first_witness :
  cf_callback_invoke 7 0
    (foldl (fun cbs r => cf_callback_add (fst r) (snd r) cbs) [] [(1, 10); (2, 20)])
  = map (fun r => (fst r, 7, 0, snd r)) (reverse [(1, 10); (2, 20)])
  /\ cf_callback_remove 1 10 (cf_callback_add 1 10 [(2, 20); (1, 10)])
     = Some [(2, 20); (1, 10)]
  /\ ((1, 10) ∈ [(2, 20); (1, 10)] ->
      exists before after,
        [(2, 20); (1, 10)] = before ++ (1, 10) :: after
        /\ ((1, 10) ∉ before)
        /\ cf_callback_remove 1 10 [(2, 20); (1, 10)] = Some (before ++ after))
  /\ ((1, 10) ∉ [(2, 20)] -> cf_callback_remove 1 10 [(2, 20)] = None).
Proof.
  destruct (callbacks_run_newest_first 7 0 [(1, 10); (2, 20)] 1 10 [(2, 20); (1, 10)])
    as (H1 & H2 & H3 & _).
  destruct (callbacks_run_newest_first 7 0 [(1, 10); (2, 20)] 1 10 [(2, 20)])
    as (_ & _ & _ & H4).
  split; [exact H1|]. split; [exact H2|]. split; [exact H3|exact H4].
Defined.

(** ** What can be saved *)

(** X17.  Whenever the session can be saved under its own name it can be
    saved under another name; and whenever there is unsaved data (edits,
    or a temporary file that holds frames) and the record provider can
    write the link types of the file, the session can be saved. *)
Theorem what_can_be_saved wtap_dump_can_write cf :
  (cf_can_save wtap_dump_can_write cf = true ->
   cf_can_save_as wtap_dump_can_write cf = true)
  /\ (cf_has_unsaved_data cf = true ->
      cf_can_write_with_wiretap wtap_dump_can_write cf = true ->
      cf_can_save wtap_dump_can_write cf = true)
  /\ (cf_can_save wtap_dump_can_write cf = true -> count cf > 0 ->
      cf_has_unsaved_data cf = true).
Proof.
  unfold cf_can_save, cf_can_save_as, cf_has_unsaved_data,
    cf_can_write_with_wiretap.
  destruct (unsaved_changes cf), (is_tempfile cf),
    (wtap_dump_can_write (linktypes cf)); cbn; repeat split; try done.
  all: intros _ Hc; destruct (Z.gtb_spec (count cf) 0); [done|lia].
Qed.

Lemma what_can_be_saved_witness :
  let cf := loaded_session None true false false in
  (cf_can_save (fun _ => true) cf = true ->
   cf_can_save_as (fun _ => true) cf = true)
  /\ (cf_has_unsaved_data cf = true ->
      cf_can_write_with_wiretap (fun _ => true) cf = true ->
      cf_can_save (fun _ => true) cf = true)
  /\ (cf_can_save (fun _ => true) cf = true -> count cf > 0 ->
      cf_has_unsaved_data cf = true).
Proof.
  cbv zeta.
  apply (what_can_be_saved (fun _ => true) (loaded_session None true false false)).
Defined.

(** ** A read that the user stops or leaves *)

Section ReadPrefix.

Context (dfilter_compile : string -> option (option dfilter_t)).
Context (rescan : bool -> world -> option world).
Context (max_records size : Z) (dfcode : option dfilter_t).

(** While the presentation layer stays silent the loop of [cf_read]
    takes one record after the other, as the loop of [cf_finish_tail]
    does. *)
Lemma cf_read_loop_prefix : forall k records ui w,
  0 <= size -> state (w_cf w) <> FILE_READ_ABORTED ->
  stop_flag (w_cf w) = false -> dense (w_cf w) ->
  count (w_cf w) + Z.of_nat k <= max_records ->
  count (w_cf w) + Z.of_nat k <= G_MAXUINT32 ->
  w_ui w = replicate k [] ++ ui -> (k <= length records)%nat ->
  cf_read_loop dfilter_compile rescan max_records size dfcode records w
  = cf_read_loop dfilter_compile rescan max_records size dfcode (drop k records)
      (with_ui ui (on_cf (cf_finish_tail_loop dfcode (take k records)) w)).
Proof.
  induction k as [|k IH]; intros records ui w Hsize Hst Hstop Hd Hcap Hmax Hui Hk.
  - cbn in Hui. cbn. rewrite <- Hui. by destruct w.
  - destruct records as [|[rec off] records]; [cbn in Hk; lia|].
    cbn [cf_read_loop drop take cf_finish_tail_loop].
    destruct (Z.geb_spec size 0); [|lia].
    destruct (Z.eqb_spec (count (w_cf w)) max_records); [lia|].
    unfold pump. rewrite Hui. cbn [replicate app handle_events].
    rewrite with_ui_cf, (file_state_eqb_neq _ _ Hst), Hstop.
    pose proof (read_record_numbers rec off dfcode (w_cf w) Hd
                  ltac:(unfold G_MAXUINT32 in *; lia)) as (Hd1 & Hc1 & _).
    pose proof (read_record_any rec off dfcode (w_cf w)) as [_ Hm1].
    { destruct Hd. unfold G_MAXUINT32 in *. lia. }
    destruct Hm1 as (_ & _ & _ & Hsta1 & Hsf1 & _).
    set (w1 := on_cf (fun cf => snd (read_record rec off dfcode cf))
                 (with_ui (replicate k [] ++ ui) w)).
    assert (Hcf1 : w_cf w1 = snd (read_record rec off dfcode (w_cf w))) by done.
    cbn [length] in Hk.
    rewrite (IH records ui w1); [|done|by rewrite Hcf1, Hsta1|by rewrite Hcf1, Hsf1
                                 |by rewrite Hcf1|rewrite Hcf1; lia|rewrite Hcf1; lia
                                 |done|lia].
    f_equal. unfold w1, on_cf, with_ui. cbn.
    by rewrite (file_state_eqb_neq _ _ Hst).
Qed.

End ReadPrefix.

Section ReadInterrupted.

Context (dfilter_compile : string -> option (option dfilter_t)).

(** The loop of [cf_read] when the first event arrives at the turn on
    record [k]. *)
Lemma cf_read_loop_event rescan max_records size dfcode records w k ev rest :
  0 <= size -> state (w_cf w) <> FILE_READ_ABORTED ->
  stop_flag (w_cf w) = false -> dense (w_cf w) -> rfcode (w_cf w) = None ->
  count (w_cf w) + Z.of_nat (length records) <= max_records ->
  count (w_cf w) + Z.of_nat (length records) <= G_MAXUINT32 ->
  (k < length records)%nat ->
  w_ui w = replicate k [] ++ [ev] :: rest ->
  ev = UiStop \/ ev = UiQuit ->
  exists w1,
    cf_read_loop dfilter_compile rescan max_records size dfcode records w
    = Some (match ev with UiQuit => ReadAborted | _ => ReadStopped end, w1)
    /\ w_ui w1 = rest /\ w_log w1 = w_log w /\ w_fs w1 = w_fs w
    /\ dense (w_cf w1) /\ count (w_cf w1) = count (w_cf w) + Z.of_nat k
    /\ stop_flag (w_cf w1) = match ev with UiQuit => false | _ => true end
    /\ redissection_queued (w_cf w1) = redissection_queued (w_cf w)
    /\ read_lock (w_cf w1) = read_lock (w_cf w).
Proof.
  intros Hsize Hst Hstop Hd Hrf Hcap Hmax Hk Hui Hev.
  rewrite (cf_read_loop_prefix dfilter_compile rescan max_records size dfcode k
             records ([ev] :: rest) w); try done; try lia.
  destruct (cf_finish_tail_loop_spec dfcode (take k records) (w_cf w) Hst Hd)
    as (Hd1 & Hm1 & _ & Hc1).
  { rewrite length_take. lia. }
  specialize (Hc1 Hrf). rewrite length_take in Hc1.
  replace (k `min` length records)%nat with k in Hc1 by lia.
  set (cf1 := cf_finish_tail_loop dfcode (take k records) (w_cf w)) in *.
  destruct Hm1 as (_ & _ & Hrq1 & Hsta1 & Hsf1 & Hrl1 & _).
  destruct (drop k records) as [|[rec off] records'] eqn:Hdrop.
  { apply (f_equal length) in Hdrop. rewrite length_drop in Hdrop. cbn in Hdrop. lia. }
  cbn [cf_read_loop].
  destruct (Z.geb_spec size 0); [|lia].
  rewrite with_ui_cf, on_cf_cf. fold cf1.
  destruct (Z.eqb_spec (count cf1) max_records); [lia|].
  unfold pump. rewrite with_ui_ui.
  destruct Hev as [-> | ->]; cbn [handle_events handle_event].
  - rewrite !on_cf_cf, !with_ui_cf, on_cf_cf. fold cf1.
    change (state (set_stop_flag true cf1)) with (state cf1).
    rewrite (file_state_eqb_neq (state cf1)) by (by rewrite Hsta1).
    cbn [stop_flag set_stop_flag].
    eexists. split; [reflexivity|]. cbn. fold cf1.
    split_and!; try done; exact Hd1.
  - rewrite !on_cf_cf, !with_ui_cf, on_cf_cf. fold cf1.
    cbn [state set_state file_state_eqb].
    eexists. split; [reflexivity|]. cbn. fold cf1.
    split_and!; try done; first [exact Hd1 | by rewrite Hsf1].
Qed.

(** What [cf_read] gives when the user stops it or leaves the program
    at the turn on record [k]. *)
Lemma cf_read_interrupted fuel max_records wth reloading w k ev rest :
  read_lock (w_cf w) = false ->
  redissection_queued (w_cf w) = RESCAN_NONE ->
  state (w_cf w) <> FILE_READ_ABORTED ->
  rfcode (w_cf w) = None ->
  0 <= wth_file_size wth ->
  dense (w_cf w) ->
  count (w_cf w) + Z.of_nat (length (wth_records wth)) <= max_records ->
  count (w_cf w) + Z.of_nat (length (wth_records wth)) <= G_MAXUINT32 ->
  (k < length (wth_records wth))%nat ->
  w_ui w = replicate k [] ++ [ev] :: rest ->
  ev = UiStop \/ ev = UiQuit ->
  exists w',
    cf_read dfilter_compile fuel max_records wth reloading w
    = Some (match ev with UiQuit => CF_READ_ABORTED | _ => CF_READ_ERROR end, w')
    /\ w_ui w' = rest
    /\ match ev with
       | UiQuit =>
           state (w_cf w') = FILE_CLOSED /\ count (w_cf w') = 0
           /\ frames (w_cf w') = [] /\ filename (w_cf w') = None
       | _ =>
           state (w_cf w') = FILE_READ_DONE
           /\ count (w_cf w') = count (w_cf w) + Z.of_nat k
           /\ dense (w_cf w') /\ read_lock (w_cf w') = false
           /\ last (w_log w') = Some AlertReadCancelled
       end.
Proof.
  intros Hlock Hrq Hst Hrf Hsize Hd Hcap Hmax Hk Hui Hev.
  unfold cf_read. rewrite Hlock. cbv zeta.
  match goal with
  | |- context [cf_read_loop _ ?r _ _ ?d _ ?w0] =>
      destruct (cf_read_loop_event r max_records (wth_file_size wth) d
                  (wth_records wth) w0 k ev rest)
        as (w1 & Hloop & Hui1 & Hlog1 & Hfs1 & Hd1 & Hc1 & Hsf1 & Hrq1 & Hrl1);
      try done
  end.
  rewrite Hloop.
  change (redissection_queued (w_cf (on_cf (set_stop_flag false)
            (on_cf (set_compression_type (wth_compression wth))
               (tell (ReadStarted reloading) (on_cf (set_read_lock true) w))))))
    with (redissection_queued (w_cf w)) in Hrq1.
  change (count (w_cf (on_cf (set_stop_flag false)
            (on_cf (set_compression_type (wth_compression wth))
               (tell (ReadStarted reloading) (on_cf (set_read_lock true) w))))))
    with (count (w_cf w)) in Hc1.
  set (w2 := on_cf (set_read_lock false) _).
  assert (Hw2 : w_ui w2 = rest
                /\ state (w_cf w2) = FILE_READ_DONE
                /\ count (w_cf w2) = count (w_cf w) + Z.of_nat k
                /\ frames (w_cf w2) = frames (w_cf w1)
                /\ read_lock (w_cf w2) = false
                /\ stop_flag (w_cf w2) = stop_flag (w_cf w1)
                /\ redissection_queued (w_cf w2) = RESCAN_NONE).
  { unfold w2.
    match goal with
    | |- context [if ?b then _ else _] => destruct b
    end; cbn; rewrite ?Hrq1, ?Hrq; by repeat split. }
  destruct Hw2 as (Hui2 & Hst2 & Hc2 & Hf2 & Hrl2 & Hsf2 & Hrq2).
  clearbody w2.
  destruct Hev as [-> | ->].
  - rewrite Hrq2, Hsf2, Hsf1. cbn [negb rescan_type_eqb].
    eexists. split; [reflexivity|]. cbn.
    split; [done|]. split; [done|]. split; [done|]. split.
    { destruct Hd1 as [H0 Hn]. unfold dense. by rewrite Hc2, Hf2, <- Hc1. }
    split; [done|]. by rewrite last_snoc.
  - destruct (cf_close_returns w2) as [wc Hclose]; [by rewrite Hst2|done|].
    rewrite Hclose. eexists. split; [reflexivity|].
    pose proof (cf_close_fields w2 wc Hclose)
      as (Hcl & _ & _ & _ & _ & _ & _ & Hcui & Hopen).
    destruct Hopen as (?&?&_&_&?&_); [by rewrite Hst2|].
    cbn. rewrite Hcui. by repeat split.
Qed.

(** X18.  A read that the user ends: when the user stops the read at the
    turn on a record, the records before it are in the store, numbered
    without a gap, the session is in the state "read done" with the lock
    free, and the read reports an error after telling that it was
    cancelled; when the user leaves the program at that turn, the read
    reports that it was aborted and the session is closed and empty. *)
Theorem read_ends_where_the_user_ends_it fuel max_records wth reloading w k rest :
  read_lock (w_cf w) = false ->
  redissection_queued (w_cf w) = RESCAN_NONE ->
  state (w_cf w) <> FILE_READ_ABORTED ->
  rfcode (w_cf w) = None ->
  0 <= wth_file_size wth ->
  dense (w_cf w) ->
  count (w_cf w) + Z.of_nat (length (wth_records wth)) <= max_records ->
  count (w_cf w) + Z.of_nat (length (wth_records wth)) <= G_MAXUINT32 ->
  (k < length (wth_records wth))%nat ->
  (w_ui w = replicate k [] ++ [UiStop] :: rest ->
   exists w',
     cf_read dfilter_compile fuel max_records wth reloading w
     = Some (CF_READ_ERROR, w')
     /\ w_ui w' = rest
     /\ state (w_cf w') = FILE_READ_DONE
     /\ count (w_cf w') = count (w_cf w) + Z.of_nat k
     /\ dense (w_cf w') /\ read_lock (w_cf w') = false
     /\ last (w_log w') = Some AlertReadCancelled)
  /\ (w_ui w = replicate k [] ++ [UiQuit] :: rest ->
      exists w',
        cf_read dfilter_compile fuel max_records wth reloading w
        = Some (CF_READ_ABORTED, w')
        /\ w_ui w' = rest
        /\ state (w_cf w') = FILE_CLOSED /\ count (w_cf w') = 0
        /\ frames (w_cf w') = [] /\ filename (w_cf w') = None).
Proof.
  intros Hlock Hrq Hst Hrf Hsize Hd Hcap Hmax Hk. split; intros Hui.
  - destruct (cf_read_interrupted fuel max_records wth reloading w k UiStop rest)
      as (w' & Hread & H); try done; [by left|].
    by exists w'.
  - destruct (cf_read_interrupted fuel max_records wth reloading w k UiQuit rest)
      as (w' & Hread & H); try done; [by right|].
    by exists w'.
Qed.

End ReadInterrupted.

Lemma read_ends_where_the_user_ends_it_witness :
  (let w := sample_world opened_session [[]; [UiStop]] in
   exists w',
     cf_read no_filter 0 10 (sample_wth 9) false w = Some (CF_READ_ERROR, w')
     /\ w_ui w' = []
     /\ state (w_cf w') = FILE_READ_DONE
     /\ count (w_cf w') = count (w_cf w) + Z.of_nat 1
     /\ dense (w_cf w') /\ read_lock (w_cf w') = false
     /\ last (w_log w') = Some AlertReadCancelled)
  /\ (let w := sample_world opened_session [[]; [UiQuit]] in
      exists w',
        cf_read no_filter 0 10 (sample_wth 9) false w = Some (CF_READ_ABORTED, w')
        /\ w_ui w' = []
        /\ state (w_cf w') = FILE_CLOSED /\ count (w_cf w') = 0
        /\ frames (w_cf w') = [] /\ filename (w_cf w') = None).
Proof.
  cbv zeta. split.
  - apply (read_ends_where_the_user_ends_it no_filter 0 10 (sample_wth 9) false
             (sample_world opened_session [[]; [UiStop]]) 1 []);
      first [ reflexivity | discriminate | apply opened_session_dense
            | vm_compute; discriminate | cbn; lia ].
  - apply (read_ends_where_the_user_ends_it no_filter 0 10 (sample_wth 9) false
             (sample_world opened_session [[]; [UiQuit]]) 1 []);
      first [ reflexivity | discriminate | apply opened_session_dense
            | vm_compute; discriminate | cbn; lia ].
Defined.

(** ** The matcher for wide text *)

Lemma occurs_wide_at_bound pat txt s :
  pat <> [] -> occurs_wide_at pat txt s ->
  (s + 2 * (length pat - 1) < length txt)%nat.
Proof.
  intros Hne H. destruct pat as [|a pat]; [done|].
  specialize (H (length pat)). cbn [length] in *.
  assert (is_Some (txt !! (s + 2 * length pat)%nat)) as Hs.
  { rewrite H by lia. apply lookup_lt_is_Some. cbn. lia. }
  apply lookup_lt_is_Some in Hs. lia.
Qed.

Lemma wide_loop_spec fuel case_type pd pat buf_len : forall i c,
  buf_len < G_MAXUINT32 -> (Z.to_nat buf_len <= length pd)%nat ->
  wide_inv pat (scanned_text case_type pd buf_len) buf_len i c ->
  (buf_len - (i - 2 * c)) * (Z.of_nat (length pat) + 1)
    + (Z.of_nat (length pat) - c) <= Z.of_nat fuel ->
  match scan_loop (wide_step case_type pd pat (Z.of_nat (length pat))) fuel
          buf_len i c with
  | None => False
  | Some None =>
      forall s, ~ occurs_wide_at pat (scanned_text case_type pd buf_len) s
  | Some (Some e) =>
      exists s, occurs_wide_at pat (scanned_text case_type pd buf_len) s
        /\ (forall s', (s' < s)%nat ->
              ~ occurs_wide_at pat (scanned_text case_type pd buf_len) s')
        /\ e = Z.of_nat s + 2 * (Z.of_nat (length pat) - 1)
  end.
Proof.
  set (T := scanned_text case_type pd buf_len).
  set (m := Z.of_nat (length pat)).
  induction fuel as [|fuel IH]; intros i c Hmax Hlen [Hc Hs Hm Hbefore Hpart] Hfuel.
  - exfalso. fold m in Hm. nia.
  - fold m in Hm. cbn [scan_loop].
    destruct (Z.ltb_spec i buf_len) as [Hlt|Hge].
    + assert (HT : T !! Z.to_nat i = Some (fold_case case_type (byte_at pd i))).
      { apply scanned_text_lookup; lia. }
      assert (HP : pat !! Z.to_nat c = Some (byte_at pat c)).
      { apply byte_at_lookup. lia. }
      unfold wide_step. fold (fold_case case_type (byte_at pd i)).
      destruct (Z.eqb_spec (fold_case case_type (byte_at pd i)) (byte_at pat c))
        as [Heq|Hne].
      * assert (Hocc : forall j, Z.of_nat j < c + 1 ->
                  T !! (Z.to_nat (i - 2 * c) + 2 * j)%nat = pat !! j).
        { intros j Hj. destruct (decide (Z.of_nat j < c)) as [Hjc|Hjc]; [auto|].
          assert (j = Z.to_nat c) as -> by lia.
          replace (Z.to_nat (i - 2 * c) + 2 * Z.to_nat c)%nat with (Z.to_nat i) by lia.
          rewrite HT, HP. by f_equal. }
        destruct (Z.eqb_spec (c + 1) m) as [Hfull|Hnot].
        -- exists (Z.to_nat (i - 2 * c)). split; [|split].
           ++ intros j Hj. apply Hocc. lia.
           ++ intros s' Hs'. apply Hbefore. lia.
           ++ lia.
        -- rewrite (wrap32_small (i + 1)) by (unfold G_MAXUINT32 in *; lia).
           rewrite wrap32_small by (unfold G_MAXUINT32 in *; lia).
           apply IH; [done|done| |nia].
           constructor; [lia|lia|lia| |].
           ++ intros s Hs'. apply Hbefore. lia.
           ++ intros j Hj.
              replace (i + 1 + 1 - 2 * (c + 1)) with (i - 2 * c) by lia. auto.
      * rewrite (wrap32_small c) by (unfold G_MAXUINT32 in *; lia).
        rewrite (wrap32_small (c * 2)) by (unfold G_MAXUINT32 in *; lia).
        rewrite (wrap32_small (i - c * 2)) by (unfold G_MAXUINT32 in *; lia).
        rewrite wrap32_small by (unfold G_MAXUINT32 in *; lia).
        apply IH; [done|done| |nia].
        constructor; [lia|lia|lia| |].
        -- intros s Hs' Hocc.
           destruct (decide (Z.of_nat s < i - 2 * c)) as [Hsc|Hsc];
             [by eapply Hbefore|].
           assert (s = Z.to_nat (i - 2 * c)) as -> by lia.
           specialize (Hocc (Z.to_nat c)).
           replace (Z.to_nat (i - 2 * c) + 2 * Z.to_nat c)%nat with (Z.to_nat i)
             in Hocc by lia.
           rewrite HT, HP in Hocc. apply Hne. injection Hocc; [auto|lia].
        -- intros j Hj. lia.
    + intros s Hocc.
      destruct (decide (Z.of_nat s < i - 2 * c)) as [Hsc|Hsc]; [by eapply Hbefore|].
      assert (pat <> []) as Hne by (intros ->; cbn in *; lia).
      pose proof (occurs_wide_at_bound _ _ _ Hne Hocc) as Hb.
      unfold T in Hb. rewrite scanned_text_length in Hb by done. lia.
Qed.

(** What [match_wide] answers. *)
Lemma match_wide_spec wth cf fdata rec pat :
  cf_read_record wth fdata = Some rec ->
  pat <> [] ->
  0 <= cap_len fdata < G_MAXUINT32 ->
  (Z.to_nat (cap_len fdata) <= length (rec_data rec))%nat ->
  let txt := scanned_text (case_type cf) (rec_data rec) (cap_len fdata) in
  exists r cf',
    match_wide wth cf fdata pat = Some (r, cf')
    /\ (r = MR_MATCHED <-> exists s, occurs_wide_at pat txt s)
    /\ (r <> MR_MATCHED -> r = MR_NOTMATCHED /\ cf' = cf)
    /\ (r = MR_MATCHED ->
        exists s, occurs_wide_at pat txt s
          /\ (forall s', (s' < s)%nat -> ~ occurs_wide_at pat txt s')
          /\ cf' = set_search (Z.of_nat s + 2 * (Z.of_nat (length pat) - 1))
                     (Z.of_nat (length pat)) cf).
Proof.
  intros Hread Hne Hcap Hlen txt. unfold match_wide. rewrite Hread.
  set (m := Z.of_nat (length pat)).
  assert (Hm : 1 <= m) by (unfold m; destruct pat; [done|cbn; lia]).
  pose proof (wide_loop_spec (scan_fuel (cap_len fdata) m) (case_type cf)
                (rec_data rec) pat (cap_len fdata) 0 0 (proj2 Hcap) Hlen) as H.
  fold m txt in H.
  assert (Hinv : wide_inv pat txt (cap_len fdata) 0 0).
  { constructor; try lia. }
  assert (Hfuel : (cap_len fdata - (0 - 2 * 0)) * (m + 1) + (m - 0)
                  <= Z.of_nat (scan_fuel (cap_len fdata) m)).
  { unfold scan_fuel. nia. }
  specialize (H Hinv Hfuel).
  destruct (scan_loop _ _ _ _ _) as [[e|]|]; [| |done].
  - destruct H as (s & Hocc & Hfirst & ->).
    pose proof (occurs_wide_at_bound _ _ _ Hne Hocc) as Hbound.
    unfold txt in Hbound. rewrite scanned_text_length in Hbound by done.
    eexists MR_MATCHED, _. split; [reflexivity|].
    split; [split; [by exists s|done]|]. split; [done|].
    intros _. exists s. split; [done|]. split; [done|].
    rewrite (wrap32_small m) by (unfold m, G_MAXUINT32 in *; lia). done.
  - exists MR_NOTMATCHED, cf. split; [done|].
    split; [split; [done|]|].
    + intros [s Hs]. exfalso. by eapply H.
    + split; [done|done].
Qed.

(** X19.  [match_wide] on the first [cap_len] bytes of the payload of a
    frame and a pattern that is not empty: it reports a match exactly
    when the pattern occurs at every other byte from some position on
    (the bytes in between are not looked at), the payload bytes alone
    being upper-cased in case-insensitive mode; it then leaves
    [search_pos] at the last byte of the first such occurrence that
    matched and [search_len] at the length of the pattern, not at the
    number of bytes that the occurrence spans; without a match the
    session is as it was. *)
Theorem wide_matcher_finds_every_other_byte wth cf fdata rec pat :
  cf_read_record wth fdata = Some rec ->
  pat <> [] ->
  0 <= cap_len fdata < G_MAXUINT32 ->
  (Z.to_nat (cap_len fdata) <= length (rec_data rec))%nat ->
  let txt := scanned_text (case_type cf) (rec_data rec) (cap_len fdata) in
  exists r cf',
    match_wide wth cf fdata pat = Some (r, cf')
    /\ (r = MR_MATCHED <-> exists s, occurs_wide_at pat txt s)
    /\ (r <> MR_MATCHED -> r = MR_NOTMATCHED /\ cf' = cf)
    /\ (r = MR_MATCHED ->
        exists s, occurs_wide_at pat txt s
          /\ (forall s', (s' < s)%nat -> ~ occurs_wide_at pat txt s')
          /\ cf' = set_search (Z.of_nat s + 2 * (Z.of_nat (length pat) - 1))
                     (Z.of_nat (length pat)) cf).
Proof. apply match_wide_spec. Qed.

Lemma wide_matcher_finds_every_other_byte_witness :
  let wth := sample_wth 9 in
  let cf := loaded_session None false false false in
  let txt := scanned_text (case_type cf) (rec_data (sample_rec 97))
               (cap_len (sample_frame 1)) in
  exists r cf',
    match_wide wth cf (sample_frame 1) [65; 67] = Some (r, cf')
    /\ (r = MR_MATCHED <-> exists s, occurs_wide_at [65; 67] txt s)
    /\ (r <> MR_MATCHED -> r = MR_NOTMATCHED /\ cf' = cf)
    /\ (r = MR_MATCHED ->
        exists s, occurs_wide_at [65; 67] txt s
          /\ (forall s', (s' < s)%nat -> ~ occurs_wide_at [65; 67] txt s')
          /\ cf' = set_search (Z.of_nat s + 2 * (Z.of_nat (length [65; 67]) - 1))
                     (Z.of_nat (length [65; 67])) cf).
Proof.
  cbv zeta.
  apply (wide_matcher_finds_every_other_byte (sample_wth 9)
           (loaded_session None false false false) (sample_frame 1)
           (sample_rec 97) [65; 67]);
    first [ reflexivity | discriminate | unfold G_MAXUINT32; cbn; lia ].
Defined.

(** ** The matcher for narrow and wide text *)

Lemma without_zeros_snoc txt b :
  without_zeros (txt ++ [b])
  = without_zeros txt ++ (if decide (b = 0) then [] else [b]).
Proof.
  unfold without_zeros. rewrite filter_app. f_equal.
  rewrite filter_cons, filter_nil. by destruct (decide (b = 0)), (decide (b <> 0)).
Qed.

Lemma mixed_loop_spec fuel case_type pd pat buf_len : forall i c,
  buf_len < G_MAXUINT32 -> (Z.to_nat buf_len <= length pd)%nat ->
  Forall (fun b => b <> 0) pat ->
  mixed_inv pat (scanned_text case_type pd buf_len) buf_len i c ->
  (buf_len - (i - c)) * (Z.of_nat (length pat) + 1)
    + (Z.of_nat (length pat) - c) <= Z.of_nat fuel ->
  match scan_loop (narrow_and_wide_step case_type pd pat (Z.of_nat (length pat)))
          fuel buf_len i c with
  | None => False
  | Some None => forall s, ~ occurs_at pat (scanned_text case_type pd buf_len) s
  | Some (Some e) =>
      substring_of pat (without_zeros (scanned_text case_type pd buf_len))
      /\ 0 <= e < buf_len
  end.
Proof.
  set (T := scanned_text case_type pd buf_len).
  set (m := Z.of_nat (length pat)).
  induction fuel as [|fuel IH];
    intros i c Hmax Hlen Hnz [Hc Hs Hm Hbefore [pre Hpart]] Hfuel.
  - exfalso. fold m in Hm. nia.
  - fold m in Hm. cbn [scan_loop].
    destruct (Z.ltb_spec i buf_len) as [Hlt|Hge].
    + assert (HT : T !! Z.to_nat i = Some (fold_case case_type (byte_at pd i))).
      { apply scanned_text_lookup; lia. }
      assert (HP : pat !! Z.to_nat c = Some (byte_at pat c)).
      { apply byte_at_lookup. lia. }
      assert (HPnz : byte_at pat c <> 0).
      { rewrite Forall_forall in Hnz. apply Hnz.
        by eapply list_elem_of_lookup_2. }
      assert (Htake : take (Z.to_nat (i + 1)) T
                      = take (Z.to_nat i) T ++ [fold_case case_type (byte_at pd i)]).
      { replace (Z.to_nat (i + 1)) with (S (Z.to_nat i)) by lia.
        by apply take_S_r. }
      unfold narrow_and_wide_step. fold (fold_case case_type (byte_at pd i)).
      set (b := fold_case case_type (byte_at pd i)) in *.
      destruct (Z.eqb_spec b 0) as [Hz|Hnzb]; cbn [negb].
      * rewrite wrap32_small by (unfold G_MAXUINT32 in *; lia).
        apply IH; [done|done|done| |nia].
        constructor; [lia|lia|lia| |].
        -- intros s Hs' Hocc.
           destruct (decide (Z.of_nat s < i - c)) as [Hsc|Hsc]; [by eapply Hbefore|].
           assert (s = Z.to_nat (i - c)) as -> by lia.
           specialize (Hocc (Z.to_nat c)).
           replace (Z.to_nat (i - c) + Z.to_nat c)%nat with (Z.to_nat i) in Hocc by lia.
           rewrite HT, HP in Hocc. apply HPnz. injection Hocc; [congruence|lia].
        -- exists pre. rewrite Htake, without_zeros_snoc, Hpart.
           destruct (decide (b = 0)); [|done]. by rewrite app_nil_r.
      * destruct (Z.eqb_spec b (byte_at pat c)) as [Heq|Hne].
        -- assert (Hpart' : without_zeros (take (Z.to_nat (i + 1)) T)
                            = pre ++ take (Z.to_nat (c + 1)) pat).
           { rewrite Htake, without_zeros_snoc, Hpart.
             destruct (decide (b = 0)); [done|].
             replace (Z.to_nat (c + 1)) with (S (Z.to_nat c)) by lia.
             rewrite (take_S_r _ _ _ HP), <- app_assoc, Heq. done. }
           destruct (Z.eqb_spec (c + 1) m) as [Hfull|Hnot].
           ++ split; [|lia].
              exists pre, (without_zeros (drop (Z.to_nat (i + 1)) T)).
              rewrite <- (take_drop (Z.to_nat (i + 1)) T) at 1.
              unfold without_zeros at 1. rewrite filter_app.
              fold (without_zeros (take (Z.to_nat (i + 1)) T)).
              fold (without_zeros (drop (Z.to_nat (i + 1)) T)).
              rewrite Hpart', take_ge by lia. by rewrite <- app_assoc.
           ++ rewrite wrap32_small by (unfold G_MAXUINT32 in *; lia).
              apply IH; [done|done|done| |nia].
              constructor; [lia|lia|lia| |].
              ** intros s Hs'. apply Hbefore. lia.
              ** by exists pre.
        -- rewrite (wrap32_small c) by (unfold G_MAXUINT32 in *; lia).
           rewrite (wrap32_small (i - c)) by (unfold G_MAXUINT32 in *; lia).
           rewrite wrap32_small by (unfold G_MAXUINT32 in *; lia).
           apply IH; [done|done|done| |nia].
           constructor; [lia|lia|lia| |].
           ++ intros s Hs' Hocc.
              destruct (decide (Z.of_nat s < i - c)) as [Hsc|Hsc]; [by eapply Hbefore|].
              assert (s = Z.to_nat (i - c)) as -> by lia.
              specialize (Hocc (Z.to_nat c)).
              replace (Z.to_nat (i - c) + Z.to_nat c)%nat with (Z.to_nat i)
                in Hocc by lia.
              rewrite HT, HP in Hocc. apply Hne. injection Hocc; [auto|lia].
           ++ exists (without_zeros (take (Z.to_nat (i - c + 1)) T)).
              by rewrite app_nil_r.
    + intros s Hocc.
      destruct (decide (Z.of_nat s < i - c)) as [Hsc|Hsc]; [by eapply Hbefore|].
      assert (pat <> []) as Hne by (intros ->; cbn in *; lia).
      pose proof (occurs_at_bound _ _ _ Hne Hocc) as Hb.
      unfold T in Hb. rewrite scanned_text_length in Hb by done. lia.
Qed.

(** What [match_narrow_and_wide] answers. *)
Lemma match_narrow_and_wide_spec wth cf fdata rec pat :
  cf_read_record wth fdata = Some rec ->
  pat <> [] -> Forall (fun b => b <> 0) pat ->
  0 <= cap_len fdata < G_MAXUINT32 ->
  (Z.to_nat (cap_len fdata) <= length (rec_data rec))%nat ->
  let txt := scanned_text (case_type cf) (rec_data rec) (cap_len fdata) in
  exists r cf',
    match_narrow_and_wide wth cf fdata pat = Some (r, cf')
    /\ (r = MR_MATCHED \/ r = MR_NOTMATCHED)
    /\ (substring_of pat txt -> r = MR_MATCHED)
    /\ (forall cf1, match_narrow wth cf fdata pat = Some (MR_MATCHED, cf1) ->
          r = MR_MATCHED)
    /\ (r = MR_MATCHED ->
        substring_of pat (without_zeros txt)
        /\ search_len cf' = Z.of_nat (length pat)
        /\ 0 <= search_pos cf' < cap_len fdata)
    /\ (r = MR_NOTMATCHED -> cf' = cf).
Proof.
  intros Hread Hne Hnz Hcap Hlen txt.
  set (m := Z.of_nat (length pat)).
  assert (Hm : 1 <= m) by (unfold m; destruct pat; [done|cbn; lia]).
  assert (Hnarrow : forall cf1,
            match_narrow wth cf fdata pat = Some (MR_MATCHED, cf1) ->
            substring_of pat txt).
  { intros cf1 Hmn. unfold match_narrow in Hmn. rewrite Hread in Hmn.
    pose proof (scan_outcome_of_loop (case_type cf) (rec_data rec) pat
                  (cap_len fdata) cf Hne
                  (conj (proj1 Hcap) (Z.lt_le_incl _ _ (proj2 Hcap))) Hlen)
      as (r & cf' & Heq & Hiff & _).
    fold m in Heq. cbv zeta in Hmn. fold m in Hmn.
    rewrite Heq in Hmn. injection Hmn as -> _. by apply Hiff. }
  unfold match_narrow_and_wide. rewrite Hread.
  pose proof (mixed_loop_spec (scan_fuel (cap_len fdata) m) (case_type cf)
                (rec_data rec) pat (cap_len fdata) 0 0 (proj2 Hcap) Hlen Hnz) as H.
  fold m txt in H.
  assert (Hinv : mixed_inv pat txt (cap_len fdata) 0 0).
  { constructor; try lia. by exists []. }
  assert (Hfuel : (cap_len fdata - (0 - 0)) * (m + 1) + (m - 0)
                  <= Z.of_nat (scan_fuel (cap_len fdata) m)).
  { unfold scan_fuel. nia. }
  specialize (H Hinv Hfuel). cbv zeta. fold m.
  destruct (scan_loop _ _ _ _ _) as [[e|]|]; [| |done].
  - destruct H as [Hsub He].
    eexists MR_MATCHED, _. split; [reflexivity|]. split; [by left|].
    split; [done|]. split; [done|]. split; [|done].
    intros _. split; [done|]. cbn.
    assert (Hmb : m <= cap_len fdata).
    { destruct Hsub as (pre & post & Hsub).
      apply (f_equal length) in Hsub. rewrite !length_app in Hsub.
      pose proof (length_filter (fun b => b <> 0) txt) as Hle.
      fold (without_zeros txt) in Hle. unfold txt in Hle at 2.
      rewrite scanned_text_length in Hle by done. unfold m. lia. }
    rewrite (wrap32_small m) by (unfold G_MAXUINT32 in *; lia). done.
  - exists MR_NOTMATCHED, cf. split; [done|]. split; [by right|].
    assert (Hno : ~ substring_of pat txt).
    { intros Hsub. destruct (substring_occurs_at _ _ Hsub) as [s Hs].
      by eapply H. }
    split; [by intros ?|]. split; [|done].
    intros cf1 Hmn. exfalso. apply Hno. by eapply Hnarrow.
Qed.

(** X20.  [match_narrow_and_wide] on the first [cap_len] bytes of the
    payload of a frame and a pattern without zero bytes: it always
    answers, with a match or without; it finds the pattern wherever it
    occurs as a contiguous run of bytes, so it matches whenever
    [match_narrow] does; and when it reports a match the pattern occurs
    as a contiguous run in the payload with the zero bytes left out (the
    payload bytes alone being upper-cased in case-insensitive mode). *)
Theorem mixed_matcher_covers_the_narrow_one wth cf fdata rec pat :
  cf_read_record wth fdata = Some rec ->
  pat <> [] -> Forall (fun b => b <> 0) pat ->
  0 <= cap_len fdata < G_MAXUINT32 ->
  (Z.to_nat (cap_len fdata) <= length (rec_data rec))%nat ->
  let txt := scanned_text (case_type cf) (rec_data rec) (cap_len fdata) in
  exists r cf',
    match_narrow_and_wide wth cf fdata pat = Some (r, cf')
    /\ (r = MR_MATCHED \/ r = MR_NOTMATCHED)
    /\ (substring_of pat txt -> r = MR_MATCHED)
    /\ (forall cf1, match_narrow wth cf fdata pat = Some (MR_MATCHED, cf1) ->
          r = MR_MATCHED)
    /\ (r = MR_MATCHED ->
        substring_of pat (without_zeros txt)
        /\ search_len cf' = Z.of_nat (length pat)
        /\ 0 <= search_pos cf' < cap_len fdata)
    /\ (r = MR_NOTMATCHED -> cf' = cf).
Proof. apply match_narrow_and_wide_spec. Qed.

Lemma mixed_matcher_covers_the_narrow_one_witness :
  let wth := sample_wth 9 in
  let cf := loaded_session None false false false in
  let txt := scanned_text (case_type cf) (rec_data (sample_rec 97))
               (cap_len (sample_frame 1)) in
  exists r cf',
    match_narrow_and_wide wth cf (sample_frame 1) [66; 67] = Some (r, cf')
    /\ (r = MR_MATCHED \/ r = MR_NOTMATCHED)
    /\ (substring_of [66; 67] txt -> r = MR_MATCHED)
    /\ (forall cf1,
          match_narrow wth cf (sample_frame 1) [66; 67] = Some (MR_MATCHED, cf1) ->
          r = MR_MATCHED)
    /\ (r = MR_MATCHED ->
        substring_of [66; 67] (without_zeros txt)
        /\ search_len cf' = Z.of_nat (length [66; 67])
        /\ 0 <= search_pos cf' < cap_len (sample_frame 1))
    /\ (r = MR_NOTMATCHED -> cf' = cf).
Proof.
  cbv zeta.
  apply (mixed_matcher_covers_the_narrow_one (sample_wth 9)
           (loaded_session None false false false) (sample_frame 1)
           (sample_rec 97) [66; 67]);
    first [ reflexivity | discriminate | unfold G_MAXUINT32; cbn; lia
          | by repeat constructor ].
Defined.
